(* ===== verification/_CoqProject ===== *)
-Q . S2P
Prelude.v
Float64.v
Workload.v
Sounding.v
Registry.v
Scheduler.v
Database.v
Replay.v
Lifecycle.v
Effects.v
Encoding.v
Sha256.v
Operator.v
Conformance.v
Token.v
Allowlist.v
Orchestrator.v
Samples.v
OrchestratorProofs.v
Submission.v
Reroute.v
Dispatch.v
DispatchProofs.v
Http.v
Notify.v
Session.v
AllowlistTools.v
Limits.v
Account.v
AccountProofs.v
OperatorApi.v
OperatorProofs.v
OperatorSafety.v
OperatorGates.v
OperatorRuns.v
ReadModel.v
ReadModelProofs.v
NodesApi.v
NodesApiProofs.v
Adapter.v
AdapterProofs.v
Portal.v
PortalProofs.v
NodeAgent.v
NodeAgentProofs.v
AgentSync.v
Profile.v
AgentFiles.v
SoundingStore.v
Format.v
Templates.v
Loopback.v
Dashboard.v
DashboardProofs.v
Console.v
ConsoleProofs.v
PortalPages.v
PortalPagesProofs.v
Mux.v
PortalRoutes.v
Gateway.v
GatewayProofs.v
Printers.v
PrintersProofs.v
PrintersWindows.v
Site.v
AgentLoops.v
Task.v
Keys.v
Startup.v
StartupProofs.v
Seed.v
AgentMain.v
AgentMainProofs.v
Overlay.v
Tickers.v
System.v
