(* ===== verification/Prelude.v ===== *)
(** * SoHoLINK

    SoHoLINK is a marketplace for spare computers and printers of small offices
    and homes.  Members contribute nodes; a coordinator places the jobs of other
    members on them; operators run coordinators of their own and authenticate to
    the registry with threshold-signed transmissions.  This library models the
    coordinator and the agent on a contributed node: in-memory state, SQL, HTTP
    surface, container runs and the cryptographic formats they read and write, all
    executable, and proves what makes them correct.

    ** The program and its model

    A consumer submits a job through the portal (internal/portal) or the job API.
    The orchestrator (internal/orchestrator) checks the image against the signed
    allowlist, asks the registry for eligible nodes, lets the scheduler rank them,
    and stores a row with a job token.  The node polls for the job through the
    node API (internal/api) or through the protocol adapter
    (internal/protocoladapter), runs it and reports; internal/store accounts for
    the hours.  The portal carries a job through confirmation, pickup, delivery,
    no-show and dispute.  The operator registry (internal/operator) admits
    coordinators: keys, email, conformance, activation, fees.  Background loops
    expire, reschedule and reroute jobs.

    - Foundations.  Prelude.v (integers at their width, results, record update,
      insertion sort, automation), Float64.v (float64), Encoding.v (base64, hex,
      decimal), Sha256.v (SHA-256 and HMAC), Format.v (what the program uses of
      fmt, strconv, math.Round and time.Format).
    - Data without effects.  Workload.v (internal/types/workload.go,
      orchestrator/workload.go), Registry.v (orchestrator/registry.go), Scheduler.v
      (internal/scheduler), Sounding.v (internal/sounding: context, classify,
      capacity, sink), Token.v (orchestrator/token.go), Allowlist.v
      (agent/allowlist.go), Replay.v (the replay window of operator/repository.go),
      Session.v (portal/middleware.go), Limits.v (portal/ratelimit.go,
      api/ip_ratelimit.go), Notify.v (internal/notify).
    - Effects.  Database.v (tables and column types of store/migrations and the
      monad [M] in which Go code runs), Lifecycle.v (every statement that changes a job row, as one
      guarded step), Effects.v (rely-guarantee triples over those steps), Http.v
      (handlers).
    - Placement.  Orchestrator.v (orchestrator.go, instrument.go), with
      OrchestratorProofs.v, Submission.v, Reroute.v; Samples.v is the concrete
      system the theorems are exercised on.
    - Execution.  Dispatch.v (internal/store), NodesApi.v (api/nodes.go), Adapter.v
      (protocoladapter), each with its Proofs file.
    - Members.  Account.v (login, registration, internal/payment,
      portal/webhook.go), Portal.v (the state-changing handlers of
      portal/server.go), each with its Proofs file.
    - Operators.  Operator.v (repository.go, verification.go, governance.go),
      Conformance.v (conformance.go), OperatorApi.v (api/operator_auth.go,
      operator_onboarding.go, governance.go), ReadModel.v (readmodel.go);
      OperatorProofs.v, OperatorSafety.v, OperatorGates.v, OperatorRuns.v and
      ReadModelProofs.v hold their theorems.
    - What people see.  Templates.v (a page is the value given to its template),
      SoundingStore.v (sounding/writer_pgx.go, readmodel.go), Dashboard.v
      (api/governance_sounding.go), Loopback.v (the listener and host guard of
      api/governance.go), Console.v (api/operator_console.go,
      governance_console.go and the governance routes), PortalPages.v (the pages,
      the marketplace and the status stream of portal/server.go), with
      DashboardProofs.v, ConsoleProofs.v and PortalPagesProofs.v.  Mux.v is the
      request multiplexer of net/http, PortalRoutes.v the portal's route table with
      its session check.  Site.v is the public site's backend (cmd/sitesvc).
    - The door.  Gateway.v (identity/middleware.go, api/server.go, jobs.go,
      allowlist.go, protocoladapter/handler.go, internal/orchclient): who is let
      in to which handler, and the internal listener with its client; its theorems
      are in GatewayProofs.v.
    - The node agent.  NodeAgent.v (internal/agent: optout.go, printers.go,
      hardware.go, heartbeat.go, executor.go and [runJob] of cmd/agent/main.go) as
      programs over the calls to Docker, the host and the control plane, with
      NodeAgentProofs.v; AgentSync.v runs it against the handlers of NodesApi.v and
      Portal.v; AgentFiles.v (optout.go, config.go) and Profile.v (profile.go);
      Printers.v (printers_unix.go) with PrintersProofs.v, PrintersWindows.v
      (printers_windows.go); AgentLoops.v
      (telemetry.go, and [waitForSPIRE] and [detectHW] of cmd/agent/main.go).
    - Tools.  AllowlistTools.v (scripts/allowlist-genkey, allowlist-sign and [Sign]
      of agent/allowlist.go).
    - Processes.  Task.v (a process as a tree of calls that ends with a result or an
      exit status), Keys.v (the loading of signing keys, scripts/genkey), Startup.v
      (the [main] functions of cmd/orchestrator, cmd/portal and cmd/governance,
      store/db.go, the source of identity/spiffe.go), Seed.v (cmd/seed),
      AgentMain.v (cmd/agent: the start of the agent, its flags and its Windows
      service; the consent store of agent/optout.go with its shared map), with
      StartupProofs.v and AgentMainProofs.v.  Overlay.v is internal/network,
      internal/metrics and the recorder of api/ip_ratelimit.go; Tickers.v the loops
      over a ticker (registry.go, sounding/capacity.go, the gauge of
      portal/server.go).
    - System.v puts the entry points together as one request type.

    ** How effects are modelled

    [M A] is [World -> result Error A * World].  A [World] holds the database, the
    node registry, the telemetry sink, the clock and a list of future [Event]s.
    Every statement first consumes an event: the rest of the system acts on the
    database and the registry, time passes, and the statement [Succeeds], is
    [LostBefore] it reaches the server or [LostAfter] it was executed.  A
    transaction fixes [NOW()] in [w_tx], runs without interference (an idealisation:
    PostgreSQL's default is READ COMMITTED) and is undone on error.  So a theorem over all worlds is a theorem over all interleavings and
    all connection failures; a theorem that needs neither asks for a [calm] world.
    [H A] adds the early returns of a handler.  Records are updated with
    [x <| f := v |>]; tables are [gmap]s, and where Go ranges over a map the order
    is a parameter.  The agent's code is a [prog] (NodeAgent.v): a finite tree of
    calls, run against any handler that answers them.  A process is a [task]
    (Task.v) of the same shape, which may also exit; [every] and [guarded] state what
    holds of its trace whatever is answered.

    ** What the theorems show

    - System (System.v, Lifecycle.v): an invariant of jobs, metering and disputes
      that every interleaving of requests keeps; a job is never lost, keeps its
      specification, follows the transition graph and is frozen once terminal.
    - Placement: eligibility is exact, ranking is exact in float64 arithmetic, a
      submission is placed on an eligible foreign node or leaves no trace (a lost
      reply to the commit can hide a whole placement), and succeeds when it can; rerouting resolves a declined job.
    - Execution: polling, completion and metering are exact; node calls are bound
      to the node's identity; forged protocol messages do not act, accepted ones are
      fresh and clamped;
      assignments carry the published fees or are not made.
    - Members: who may act on a job; what login needs and how many guesses a client
      that waits for its answers gets (and how the count is evaded); sessions are exactly the ones issued; registration enables login.
    - Operators: the bitmap window refines the set of accepted numbers and no
      transmission is accepted twice; revocation is final; active operators passed
      every gate; email guesses are bounded, the key floor and the order of fees are kept in
      every environment; the detail page shows what decides an activation.
    - Pages: the telemetry tables hold only accepted observations and the
      dashboard draws exactly those tables; a member's pages are functions of that
      member's rows; the marketplace lists exactly the live offers at their lowest
      rate; the status stream ends; governance is answered only to this host; every
      other route of the portal needs a session it issued, and the route tables can
      be registered together; the waiting list has everyone once, and the news are
      those of the last fetch that succeeded.
    - The door: no handler that acts for a node or an operator runs without an
      identity, and a submission through the internal listener is the
      orchestrator's submission.
    - Processes: no listener or loop starts before the database, the keys and the
      settings it needs are there (the governance server runs no migrations), each
      server runs the same whatever the secrets of the others are, and an orchestrator whose calls are answered serves exactly its
      listeners and loops; an agent starts only assigned jobs under a signed
      allowlist; the registry follows the heartbeats within the maximum age and one
      period; the seed tool can be run again without changing what it left.
    - Formats: tokens, sessions, operator headers, printer listings and mails
      round-trip, and so does the configuration of the overlay network; a mail has
      exactly its headers; a list signed by the tools is loaded by every agent built
      with their key.
    - The node agent: every container is vetted and confined, on every path what was
      created is removed, reports follow the protocol of the control plane; an
      opt-out posted in the portal takes the node out of matching with the next
      heartbeat, which also brings the agent the printers left enabled; a stored
      consent survives a crash; printers settle, are read back from lpstat and have distinct
      identifiers; the profile of a moment is exact; the wait for SPIRE ends; the signed
      text of a telemetry record determines the record.

    Some lemmas record behaviour that the comments of the program do not promise
    or that they contradict: [DispatchProofs.poll_not_atomic],
    [OperatorSafety.key_floor_race], [OperatorRuns.untested_keyset_activates],
    [AccountProofs.own_login_clears_count], [AdapterProofs.relayed_call_refused],
    [AgentSync.posted_opt_out_inverted_at_agent],
    [AccountProofs.webhook_never_syncs], [Limits.rotating_addresses_unthrottled],
    [NodeAgentProofs.print_jobs_never_start],
    [PortalPagesProofs.registration_breaks_marketplace],
    [DashboardProofs.oldest_day_not_drawn], [ConsoleProofs.same_host_passes],
    [Site.torn_line_hides_the_rest], [AllowlistTools.one_path_loses_the_key],
    [StartupProofs.deaf_server_stays], [AgentMainProofs.leaves_without_waiting],
    [Overlay.endpoint_adds_peer] and others.

    ** Fuel, bounds and parameters

    [drive_key] of Conformance.v runs as many uses as its threshold, the number of
    iterations of the source's loop; [wrap76] of Notify.v has the length of the
    text as fuel and removes at least one byte per line; [itoa] of Limits.v writes
    from the end of the source's 20-byte buffer, enough for 64-bit numbers.  The
    status stream of PortalPages.v ends within nine passages, by [job_stream_ends]:
    it ticks every 2 s and the server's write timeout is 15 s.  [waitForSPIRE] of AgentLoops.v
    is shown to need at most two passages more than the ticks its timeout allows;
    [readSysfsUSBID] of Printers.v climbs the six levels of the source; [shortest]
    of Format.v tries up to 17 digits, which always identify a float64, from an
    exponent estimated at most three too high; [decode_until] of Site.v has the length
    of the text and one more, which [decode_until_ends] shows to be enough;
    [wait_spire] of AgentMain.v gives [waitForSPIRE] 47 passages, what ninety seconds
    of ticks of two seconds allow and two more.  [runMain] takes the number of its
    polls before the signal, and its theorem holds for all of them.  Other
    loops are structural.

    Arguments stand for what is not in the repository: Ed25519 and bcrypt, the
    sohocloud-protocol package, the payment service's SDK, SPIRE, SMTP and address
    parsing, the parsing of JSON and RFC 3339, the collation of text columns,
    PostgreSQL's average of floats, the nullable columns a page selects, the HTML
    templates, the order of map iteration, and values drawn from crypto/rand.  The column types of Database.v say what PostgreSQL keeps
    of a value: [timestamptz] holds microseconds, [int4], [pg_text] and [bpchar] refuse
    what an INTEGER, TEXT or CHAR(n) column of the jobs cannot hold.  The session's
    time zone is UTC.  Hypotheses about
    them (a signature verifies only what was signed, a password matches its own
    hash) are stated where they are used, and a witness instantiates them.

    ** Not modelled

    The TLS configurations of identity/spiffe.go, the registration of the metrics with
    their library, static files, the construction of the payment SDK's client and of
    HTTP clients and servers (timeouts of connections apart from the portal's write
    timeout), the device mounts of the Windows agent (a stub), the start and stop of
    the site service, logging, and the delivery of signals: they are input and output
    around the code above, or calls to packages that are not in the repository.
    Also left out are the interleavings inside a transaction that READ COMMITTED
    allows (where the source is exposed to one, as in [OperatorSafety.key_floor_race],
    the two transactions are written out statement by statement), two requests of the
    portal's login limiter in flight at once, and the limits of columns beyond those
    of jobs, of timestamps and the ones stated with their tables.
    *)
From Stdlib Require Export ZArith Lia Permutation.
From stdpp Require Export base tactics numbers countable option list gmap strings sorting relations.

#[export] Set Default Goal Selector "!".

(** ** Record update *)

(** [r <| f := v |>] is the record [r] with the field [f] replaced.  A record
    takes part by an [Eta] instance, its eta-expansion over its projections. *)
Class Eta (R : Type) := eta_record : R -> R.

Class Setter {R T : Type} (proj : R -> T) := set_field : (T -> T) -> R -> R.

Ltac build_setter proj :=
  match goal with
  | |- @Setter ?R ?T _ =>
      let e0 := constr:(@eta_record R _) in
      let e := match e0 with @eta_record _ ?i => i end in
      exact (fun (f : T -> T) (r : R) => ltac:(
        let b := eval cbv beta delta [e] in (e r) in
        let b' := eval pattern (proj r) in b in
        match b' with
        | ?g _ => let x := eval cbv beta in (g (f (proj r))) in exact x
        end))
  end.

#[export] Hint Extern 1 (Setter ?proj) => build_setter proj : typeclass_instances.

Definition update_field {R T} (proj : R -> T) {s : Setter proj} (f : T -> T) (r : R) : R :=
  set_field f r.
Arguments update_field {R T} proj {s} f r /.
Arguments set_field {R T} proj {Setter} _ _ /.

Declare Scope record_scope.
Delimit Scope record_scope with rec.
Open Scope record_scope.
Notation "r <| proj := v |>" := (update_field proj (fun _ => v) r)
  (at level 1, left associativity, format "r  <| proj  :=  v |>") : record_scope.


(** ** Results of fallible code *)

(** A Go function returning [(A, error)]. *)
Inductive result (E A : Type) : Type :=
| Ok (a : A)
| Err (e : E).
Arguments Ok {E A} a.
Arguments Err {E A} e.

#[export] Instance result_ret {E} : MRet (result E) := fun _ a => Ok a.
#[export] Instance result_bind {E} : MBind (result E) := fun _ _ f m =>
  match m with Ok a => f a | Err e => Err e end.

Definition is_ok {E A} (r : result E A) : bool :=
  match r with Ok _ => true | Err _ => false end.

(** ** Machine integers *)

(** [int] and [int64] are 64-bit two's complement, [uint64] is unsigned. *)
Definition int64_min : Z := (- 2 ^ 63)%Z.
Definition int64_max : Z := (2 ^ 63 - 1)%Z.
Definition uint64_max : Z := (2 ^ 64 - 1)%Z.
Definition is_int64 (z : Z) : Prop := (int64_min <= z <= int64_max)%Z.
Definition is_uint64 (z : Z) : Prop := (0 <= z <= uint64_max)%Z.

(** The two conversions, which wrap around. *)
Definition to_int64 (z : Z) : Z := ((z + 2 ^ 63) mod 2 ^ 64 - 2 ^ 63)%Z.
Definition to_uint64 (z : Z) : Z := (z mod 2 ^ 64)%Z.

Lemma to_int64_range z : is_int64 (to_int64 z).
Proof.
  unfold is_int64, to_int64, int64_min, int64_max.
  pose proof (Z.mod_pos_bound (z + 2 ^ 63) (2 ^ 64)). lia.
Qed.

Lemma to_int64_id z : is_int64 z -> to_int64 z = z.
Proof.
  unfold is_int64, to_int64, int64_min, int64_max. intros H.
  rewrite Z.mod_small; lia.
Qed.

Lemma to_uint64_id z : is_uint64 z -> to_uint64 z = z.
Proof. unfold is_uint64, to_uint64, uint64_max. intros H. apply Z.mod_small. lia. Qed.

(** A [uint64] survives the trip through a [BIGINT] column. *)
Lemma uint64_int64_roundtrip z : is_uint64 z -> to_uint64 (to_int64 z) = z.
Proof.
  unfold is_uint64, to_uint64, to_int64, uint64_max. intros H.
  rewrite Zminus_mod, Zmod_mod, <- Zminus_mod.
  replace (z + 2 ^ 63 - 2 ^ 63)%Z with z by lia. apply Z.mod_small. lia.
Qed.

(** ** Time *)

(** [time.Time] is an instant in nanoseconds since the epoch and
    [time.Duration] a signed 64-bit count of nanoseconds. *)
Definition Second : Z := 1000000000%Z.
Definition Minute : Z := (60 * Second)%Z.
Definition Hour : Z := (60 * Minute)%Z.
Definition Day : Z := (24 * Hour)%Z.

(** The zero [time.Time] is January 1 of year 1 UTC. *)
Definition time_zero : Z := (- 62135596800 * Second)%Z.

(** [t.Sub(u)] saturates at the ends of the [Duration] range. *)
Definition time_sub (t u : Z) : Z := Z.max int64_min (Z.min int64_max (t - u))%Z.

Lemma time_sub_pos t u : (0 < time_sub t u <-> u < t)%Z.
Proof. unfold time_sub, int64_min, int64_max. lia. Qed.

Lemma time_sub_ltb t u d :
  (int64_min < d <= int64_max)%Z -> (time_sub t u <? d)%Z = (t - u <? d)%Z.
Proof.
  unfold time_sub, int64_min, int64_max. intros Hd.
  destruct (Z.ltb_spec (t - u) d); destruct (Z.ltb_spec (Z.max (- 2 ^ 63)
    (Z.min (2 ^ 63 - 1) (t - u))) d); lia.
Qed.

(** ** Tactics and hints *)

Create HintDb soho discriminated.

(** Split every [if], [match] and [decide] of the goal and the context, and
    close the branches that are contradictory. *)
Ltac split_cases := repeat (case_match; simplify_eq/=); try done.

(** Turn the boolean tests the code makes into propositions. *)
Ltac reflect_bools :=
  repeat match goal with
  | H : andb _ _ = true |- _ => apply andb_prop in H as [? ?]
  | H : orb _ _ = false |- _ => apply orb_false_elim in H as [? ?]
  | H : negb _ = true |- _ => apply negb_true_iff in H
  | H : negb _ = false |- _ => apply negb_false_iff in H
  | H : (_ <? _)%Z = true |- _ => apply Z.ltb_lt in H
  | H : (_ <? _)%Z = false |- _ => apply Z.ltb_ge in H
  | H : (_ <=? _)%Z = true |- _ => apply Z.leb_le in H
  | H : (_ <=? _)%Z = false |- _ => apply Z.leb_gt in H
  | H : bool_decide _ = true |- _ => apply bool_decide_eq_true in H
  | H : bool_decide _ = false |- _ => apply bool_decide_eq_false in H
  end.

(** An early [continue] or [return false]. *)
Lemma guard_false (b x : bool) : (if b then false else x) = true <-> b = false /\ x = true.
Proof. destruct b, x; naive_solver. Qed.

(** [if s != "" && !c]: an optional constraint, absent when [s] is empty. *)
Lemma optional_guard (s : string) (c : bool) :
  negb (bool_decide (s = ""%string)) && c = false <-> (s <> ""%string -> c = false).
Proof. case_bool_decide; destruct c; naive_solver. Qed.

(** ** Sorting *)

(** What [sort.Slice] asks of [less] on the elements of the slice. *)
Definition weak_order_on {A} (less : A -> A -> bool) (l : list A) : Prop :=
  (forall a b, a ∈ l -> b ∈ l -> less a b = true -> less b a = false) /\
  (forall a b c, a ∈ l -> b ∈ l -> c ∈ l ->
     less b a = false -> less c b = false -> less c a = false).

Definition sorted_by {A} (less : A -> A -> bool) : list A -> Prop :=
  StronglySorted (fun a b => less b a = false).

(** What [sort.Slice] promises: a permutation, sorted when [less] is a strict
    weak order.  It is not stable, so equal elements come in any order. *)
Class SortSlice (srt : forall A, (A -> A -> bool) -> list A -> list A) : Prop := {
  sort_perm : forall A (less : A -> A -> bool) l, l ≡ₚ srt A less l;
  sort_sorted : forall A (less : A -> A -> bool) l,
    weak_order_on less l -> sorted_by less (srt A less l)
}.

(** Insertion sort, which is stable: the reference for [sort.SliceStable] and
    one implementation of [sort.Slice]. *)
Fixpoint insert_by {A} (less : A -> A -> bool) (x : A) (l : list A) : list A :=
  match l with
  | [] => [x]
  | y :: l' => if less y x then y :: insert_by less x l' else x :: l
  end.

Definition isort (A : Type) (less : A -> A -> bool) (l : list A) : list A :=
  foldr (insert_by less) [] l.

Lemma insert_by_perm {A} (less : A -> A -> bool) x l : x :: l ≡ₚ insert_by less x l.
Proof.
  induction l as [|y l IH]; simpl; [done|].
  case_match; [|done]. rewrite <- IH. apply Permutation_swap.
Qed.

Lemma isort_perm {A} (less : A -> A -> bool) l : l ≡ₚ isort A less l.
Proof.
  induction l as [|x l IH]; simpl; [done|].
  rewrite <- insert_by_perm. by constructor.
Qed.

Lemma weak_order_on_sub {A} (less : A -> A -> bool) l l' :
  (forall a, a ∈ l' -> a ∈ l) -> weak_order_on less l -> weak_order_on less l'.
Proof. intros Hsub [H1 H2]. split; [eauto|]. intros a b c ???. apply (H2 a b c); auto. Qed.

Lemma insert_by_sorted {A} (less : A -> A -> bool) x l :
  weak_order_on less (x :: l) -> sorted_by less l -> sorted_by less (insert_by less x l).
Proof.
  unfold sorted_by. induction l as [|y l IH]; intros Hw Hs; simpl; [repeat constructor|].
  apply StronglySorted_inv in Hs as [Hs Hy].
  assert (Hx0 : x ∈ x :: y :: l) by constructor.
  assert (Hy0 : y ∈ x :: y :: l) by (rewrite !elem_of_cons; auto).
  destruct (less y x) eqn:Hyx.
  - constructor.
    + apply IH; [|done]. eapply weak_order_on_sub; [|exact Hw].
      intros a Ha. rewrite !elem_of_cons in *. tauto.
    + rewrite <- insert_by_perm. constructor; [|done].
      destruct Hw as [Hasym _]. by apply Hasym.
  - constructor; [by constructor|]. constructor; [done|].
    rewrite Forall_forall in Hy |- *. intros z Hz.
    assert (z ∈ x :: y :: l) by (rewrite !elem_of_cons; right; right; done).
    destruct Hw as [_ Htrans]. apply (Htrans x y z); auto.
Qed.

Lemma isort_sorted {A} (less : A -> A -> bool) l :
  weak_order_on less l -> sorted_by less (isort A less l).
Proof.
  induction l as [|x l IH]; intros Hw; simpl; [constructor|].
  apply insert_by_sorted.
  - eapply weak_order_on_sub; [|exact Hw]. intros a.
    by rewrite !elem_of_cons, <- (isort_perm less l).
  - apply IH. eapply weak_order_on_sub; [|exact Hw]. by constructor.
Qed.

#[export] Instance isort_slice : SortSlice isort.
Proof. split; [intros; apply isort_perm|intros; by apply isort_sorted]. Qed.

Lemma sorted_by_take {A} (less : A -> A -> bool) l n :
  sorted_by less l -> sorted_by less (take n l).
Proof.
  unfold sorted_by. intros Hs. revert n. induction Hs as [|x l Hs IH Hx]; intros [|n]; simpl;
    constructor; [apply IH|by apply Forall_take].
Qed.

(** The first [n] elements of a sorted list dominate the rest. *)
Lemma sorted_by_take_drop {A} (less : A -> A -> bool) l n a b :
  sorted_by less l -> a ∈ take n l -> b ∈ drop n l -> less b a = false.
Proof.
  unfold sorted_by. intros Hs. revert n. induction Hs as [|x l Hs IH Hx]; intros n Ha Hb.
  - rewrite take_nil in Ha. by apply not_elem_of_nil in Ha.
  - destruct n as [|n]; simpl in *; [by apply not_elem_of_nil in Ha|].
    rewrite Forall_forall in Hx. apply elem_of_cons in Ha as [->|Ha]; [|eauto].
    apply Hx. rewrite <- (take_drop n l). apply elem_of_app. by right.
Qed.

(** ** Finite maps *)

Lemma list_filter_fmap {A B} (f : A -> B) (P : B -> Prop) `{!forall b, Decision (P b)} (l : list A) :
  filter P (f <$> l) = f <$> filter (fun a => P (f a)) l.
Proof.
  induction l as [|a l IH]; [done|]. rewrite fmap_cons, !filter_cons.
  case_decide; [by rewrite IH|done].
Qed.

Lemma map_to_list_filter `{Countable K} {A} (P : K * A -> Prop)
    `{!forall p, Decision (P p)} (m : gmap K A) :
  map_to_list (filter P m) ≡ₚ filter P (map_to_list m).
Proof.
  apply NoDup_Permutation.
  - apply NoDup_map_to_list.
  - apply NoDup_filter, NoDup_map_to_list.
  - intros [k a]. rewrite list_elem_of_filter, !elem_of_map_to_list, map_lookup_filter_Some.
    naive_solver.
Qed.

(** The order in which a [range] visits a map is not specified: code that
    ranges over a map takes it from an instance of this class, and what is
    proved holds for all of them. *)
Class MapOrder := {
  map_range : forall K `{Countable K} A, gmap K A -> list (K * A);
  map_range_perm : forall K `{Countable K} A (m : gmap K A), map_range K A m ≡ₚ map_to_list m
}.
Arguments map_range {_} {K} {_ _} {A} m.

Definition default_order : MapOrder := {|
  map_range := fun K _ _ A m => map_to_list m;
  map_range_perm := fun K _ _ A m => Permutation_refl _ |}.
