(* ===== verification/Float64.v ===== *)
(** Go's [float64]: IEEE 754 binary64 with rounding to nearest, ties to even,
    on the Standard Library's executable specification of floats.  The order
    facts below are what the scheduler needs of float comparison and of the
    rounding of a difference. *)
From Stdlib Require Export SpecFloat.
From S2P Require Import Prelude.
Local Open Scope Z_scope.

Definition float64 : Type := spec_float.

Definition f64_add : float64 -> float64 -> float64 := SFadd 53 1024.
Definition f64_sub : float64 -> float64 -> float64 := SFsub 53 1024.
Definition f64_mul : float64 -> float64 -> float64 := SFmul 53 1024.
Definition f64_div : float64 -> float64 -> float64 := SFdiv 53 1024.
Definition f64_lt (x y : float64) : bool := SFltb x y.
Definition f64_le (x y : float64) : bool := SFleb x y.

(** The conversion [float64(n)] of an integer. *)
Definition f64_of_Z (z : Z) : float64 := binary_normalize 53 1024 z 0 false.

(** The literal [p/q]: the double nearest to the rational, since both parts
    convert exactly and division is correctly rounded. *)
Definition f64_lit (p q : Z) : float64 := f64_div (f64_of_Z p) (f64_of_Z q).

(** [Duration.Seconds]: whole seconds plus the fraction, each converted. *)
Definition Seconds (d : Z) : float64 :=
  f64_add (f64_of_Z (Z.quot d Second)) (f64_div (f64_of_Z (Z.rem d Second)) (f64_of_Z Second)).

Definition f64_zero : float64 := S754_zero false.
Definition f64_one : float64 := f64_of_Z 1.

(** [math.Max], whose result is NaN when an argument is. *)
Definition f64_max (x y : float64) : float64 :=
  match x, y with
  | S754_nan, _ | _, S754_nan => S754_nan
  | S754_zero s, S754_zero s' => S754_zero (andb s s')
  | _, _ => if f64_lt x y then y else x
  end.

Definition is_nan (x : float64) : bool :=
  match x with S754_nan => true | _ => false end.

(** ** Comparison is a weak order away from NaN *)

(** A float's position in the order, read lexicographically. *)
Definition f64_key (x : float64) : Z * Z * Z :=
  match x with
  | S754_nan => (0, 0, 0)
  | S754_infinity s => (if s then -2 else 2, 0, 0)
  | S754_zero _ => (0, 0, 0)
  | S754_finite false m e => (1, e, Zpos m)
  | S754_finite true m e => (-1, - e, Zneg m)
  end.

Definition key_lt (k l : Z * Z * Z) : Prop :=
  let '(a, b, c) := k in let '(a', b', c') := l in
  a < a' \/ a = a' /\ (b < b' \/ b = b' /\ c < c').

Lemma f64_lt_key x y :
  is_nan x = false -> is_nan y = false -> f64_lt x y = true <-> key_lt (f64_key x) (f64_key y).
Proof.
  unfold f64_lt, SFltb, key_lt.
  destruct x as [s|s| |s m e], y as [s'|s'| |s' m' e']; simpl; try done;
    intros _ _; try destruct s; try destruct s'; simpl; try (split; (done || lia)).
  all: change (Pos.compare_cont Eq m m') with (Pos.compare m m').
  all: destruct (Z.compare_spec e e'), (Pos.compare_spec m m'); simpl;
    split; intros ?; (done || lia).
Qed.

(** Ranking by decreasing float keys meets what [sort.Slice] asks. *)
Lemma f64_desc_weak_order {A} (score : A -> float64) (l : list A) :
  (forall a, a ∈ l -> is_nan (score a) = false) ->
  weak_order_on (fun a b => f64_lt (score b) (score a)) l.
Proof.
  intros Hn. split.
  - intros a b Ha Hb. apply Hn in Ha, Hb. intros H.
    apply f64_lt_key in H; [|done..]. apply not_true_iff_false.
    rewrite f64_lt_key by done. unfold key_lt in *.
    destruct (f64_key (score a)) as [[??]?], (f64_key (score b)) as [[??]?]. lia.
  - intros a b c Ha Hb Hc. apply Hn in Ha, Hb, Hc. rewrite <- !not_true_iff_false.
    rewrite !f64_lt_key by done. unfold key_lt in *.
    destruct (f64_key (score a)) as [[??]?], (f64_key (score b)) as [[??]?],
      (f64_key (score c)) as [[??]?]. lia.
Qed.

(** ** What rounding guarantees *)

Lemma shr_1_half r : 0 <= shr_m r -> shr_m (shr_1 r) = shr_m r / 2.
Proof.
  destruct r as [m ? ?]. destruct m as [|[p|p|]|p]; cbn [shr_1 shr_m]; intros H; try done; try lia.
  - apply (Z.div_unique _ 2 _ 1); lia.
  - apply (Z.div_unique _ 2 _ 0); lia.
Qed.

Lemma iter_shr_1 p r : 0 <= shr_m r ->
  shr_m (SpecFloat.iter_pos shr_1 p r) = shr_m r / 2 ^ Zpos p.
Proof.
  revert r. induction p as [p IH|p IH|]; intros r Hr; cbn [SpecFloat.iter_pos].
  - assert (H1 : 0 <= shr_m (shr_1 r)) by (rewrite shr_1_half by done; apply Z.div_pos; lia).
    rewrite IH, IH, shr_1_half by (rewrite ?IH; try apply Z.div_pos; lia).
    rewrite !Z.div_div by lia. f_equal.
    replace (Zpos p~1) with (1 + (Zpos p + Zpos p)) by lia.
    rewrite !Z.pow_add_r by lia. lia.
  - rewrite IH, IH by (rewrite ?IH; try apply Z.div_pos; lia).
    rewrite Z.div_div by lia. f_equal.
    replace (Zpos p~0) with (Zpos p + Zpos p) by lia. by rewrite Z.pow_add_r by lia.
  - by apply shr_1_half.
Qed.

Lemma digits2_pos_bound m : Zpos m < 2 ^ Zpos (digits2_pos m).
Proof.
  induction m as [m IH|m IH|]; cbn [digits2_pos].
  - rewrite Pos2Z.inj_succ, Z.pow_succ_r by lia. lia.
  - rewrite Pos2Z.inj_succ, Z.pow_succ_r by lia. lia.
  - done.
Qed.

(** Shifting to the canonical exponent keeps the sign and leaves at most 53
    significant bits. *)
Lemma shr_fexp_bound m e l : 0 <= m ->
  0 <= shr_m (fst (shr_fexp 53 1024 m e l)) < 2 ^ 53.
Proof.
  intros Hm. unfold shr_fexp, shr.
  assert (Hl : shr_m (shr_record_of_loc m l) = m) by (destruct l as [|[]]; done).
  set (n := fexp 53 1024 (Zdigits2 m + e) - e).
  assert (Hd : m < 2 ^ Zdigits2 m).
  { destruct m as [|p|p]; simpl; [done|apply digits2_pos_bound|lia]. }
  assert (Hn : Zdigits2 m - 53 <= n) by (unfold n, fexp; lia).
  assert (0 <= Zdigits2 m) by (destruct m; simpl; lia).
  destruct n as [|p|p] eqn:En; simpl fst; rewrite ?iter_shr_1, Hl by (rewrite Hl; lia).
  - split; [lia|]. eapply Z.lt_le_trans; [exact Hd|]. apply Z.pow_le_mono_r; lia.
  - split; [apply Z.div_pos; lia|]. apply Z.div_lt_upper_bound; [lia|].
    rewrite <- Z.pow_add_r by lia. eapply Z.lt_le_trans; [exact Hd|].
    apply Z.pow_le_mono_r; lia.
  - split; [lia|]. eapply Z.lt_le_trans; [exact Hd|]. apply Z.pow_le_mono_r; lia.
Qed.

Lemma round_nearest_even_nonneg m l : 0 <= m -> 0 <= round_nearest_even m l.
Proof. destruct l as [|[]]; simpl; try case_match; lia. Qed.

(** A float whose mantissa fits binary64, with the sign [s]. *)
Definition signed_f64 (s : bool) (x : float64) : Prop :=
  match x with
  | S754_nan => False
  | S754_zero s' | S754_infinity s' => s' = s
  | S754_finite s' m _ => s' = s /\ Zpos m < 2 ^ 53
  end.

Lemma binary_round_aux_signed s m e l :
  0 <= m -> signed_f64 s (binary_round_aux 53 1024 s m e l).
Proof.
  intros Hm. unfold binary_round_aux.
  pose proof (shr_fexp_bound m e l Hm) as H1.
  destruct (shr_fexp 53 1024 m e l) as [r1 e1]; simpl in H1.
  pose proof (shr_fexp_bound _ e1 loc_Exact
    (round_nearest_even_nonneg _ (loc_of_shr_record r1) (proj1 H1))) as H2.
  destruct (shr_fexp 53 1024 (round_nearest_even (shr_m r1) (loc_of_shr_record r1)) e1 loc_Exact)
    as [r2 e2]; simpl in H2.
  destruct (shr_m r2) as [|p|p]; simpl; [done| |lia]. case_match; simpl; [split; [done|lia]|done].
Qed.

Lemma binary_round_signed s m e : signed_f64 s (binary_round 53 1024 s m e).
Proof. unfold binary_round. destruct (shl_align _ _ _). apply binary_round_aux_signed. lia. Qed.

Lemma binary_normalize_nonneg z e :
  0 <= z -> signed_f64 false (binary_normalize 53 1024 z e false).
Proof.
  intros Hz. destruct z as [|p|p]; simpl; [done| |lia]. apply (binary_round_signed false).
Qed.

Lemma f64_of_Z_signed z : 0 <= z -> signed_f64 false (f64_of_Z z).
Proof. apply binary_normalize_nonneg. Qed.

(** The mantissa of a quotient fits, whatever the operands. *)
Definition fits_f64 (x : float64) : Prop :=
  match x with S754_finite _ m _ => Zpos m < 2 ^ 53 | _ => True end.

Lemma signed_fits s x : signed_f64 s x -> fits_f64 x.
Proof. destruct x; simpl; naive_solver. Qed.

Lemma SFdiv_core_nonneg m e m' e' q ex l :
  SFdiv_core_binary 53 1024 (Zpos m) e (Zpos m') e' = (q, ex, l) -> 0 <= q.
Proof.
  unfold SFdiv_core_binary.
  set (m1 := match _ with Z0 => _ | Zpos _ => _ | Zneg _ => _ end).
  assert (0 <= m1) by (unfold m1; case_match; [lia|by apply Z.shiftl_nonneg|lia]).
  destruct (Z.div_eucl m1 (Zpos m')) as [q0 r0] eqn:Hdiv. intros [= <- _ _].
  change q0 with (fst (q0, r0)). rewrite <- Hdiv. apply Z.div_pos; lia.
Qed.

Lemma f64_div_fits x y : fits_f64 x -> fits_f64 (f64_div x y).
Proof.
  unfold f64_div, SFdiv. destruct x as [?|?| |sx mx ex], y as [?|?| |sy my ey]; simpl; try done.
  intros _. case_match. case_match. eapply signed_fits, binary_round_aux_signed.
  eapply SFdiv_core_nonneg. eauto.
Qed.

Lemma shl_align_val m e e' : e' <= e -> Zpos (fst (shl_align m e e')) = Zpos m * 2 ^ (e - e').
Proof.
  intros He. unfold shl_align. destruct (e' - e) as [|d|d] eqn:Hd; simpl fst.
  - replace (e - e') with 0 by lia. lia.
  - lia.
  - replace (e - e') with (Zpos d) by lia.
    clear. induction d as [|d IH] using Pos.peano_ind; [simpl; lia|].
    rewrite Pos.iter_succ. transitivity (2 * Zpos (Pos.iter xO m d)); [lia|].
    rewrite IH, Pos2Z.inj_succ, Z.pow_succ_r by lia. ring.
Qed.

Lemma shl_align_exp m e e' : e' <= e -> snd (shl_align m e e') = e'.
Proof. intros He. unfold shl_align. destruct (e' - e) eqn:Hd; simpl; lia. Qed.

(** [1.0 - u] is not negative when [u] is not above one. *)
Lemma f64_one_minus_nonneg u :
  is_nan u = false -> fits_f64 u -> f64_lt f64_one u = false ->
  signed_f64 false (f64_sub f64_one u).
Proof.
  intros Hn Hf Hlt. apply not_true_iff_false in Hlt. rewrite f64_lt_key in Hlt by done.
  unfold f64_sub. change f64_one with (S754_finite false 4503599627370496 (-52)) in *.
  destruct u as [s|s| |s m e]; [done| |done|].
  - destruct s; simpl in *; [done|lia].
  - cbn [SFsub]. apply binary_normalize_nonneg. simpl cond_Zopp.
    rewrite !shl_align_val by lia. simpl in Hf. destruct s; simpl in Hlt |- *.
    + pose proof (Z.pow_pos_nonneg 2 (e - Z.min (-52) e)).
      pose proof (Z.pow_pos_nonneg 2 (-52 - Z.min (-52) e)). nia.
    + assert (e <= -52) by lia. rewrite Z.min_r by lia.
      replace (e - e) with 0 by lia. rewrite Z.mul_1_r.
      destruct (Z.eq_dec e (-52)) as [->|Hne]; [simpl; lia|].
      pose proof (Z.pow_le_mono_r 2 1 (-52 - e)). lia.
Qed.

Lemma signed_false_not_lt_zero x : signed_f64 false x -> f64_lt x f64_zero = false.
Proof. destruct x as [[]|[]| |[] m e]; simpl; naive_solver. Qed.

(** ** Sums, products and quotients of non-negative floats *)

(** A positive finite float. *)
Definition pos_f64 (x : float64) : Prop :=
  match x with S754_finite false m _ => Zpos m < 2 ^ 53 | _ => False end.

Lemma pos_signed x : pos_f64 x -> signed_f64 false x.
Proof. destruct x as [?|?| |[] m e]; simpl; naive_solver. Qed.

Lemma signed_not_nan s x : signed_f64 s x -> is_nan x = false.
Proof. by destruct x. Qed.

Lemma f64_add_signed x y :
  signed_f64 false x -> signed_f64 false y -> signed_f64 false (f64_add x y).
Proof.
  unfold f64_add. destruct x as [[]|[]| |[] m e], y as [[]|[]| |[] m' e']; simpl; try naive_solver.
  intros _ _. apply (binary_round_signed false).
Qed.

Lemma f64_mul_signed c x :
  pos_f64 c -> signed_f64 false x -> signed_f64 false (f64_mul c x).
Proof.
  unfold f64_mul. destruct c as [?|?| |[] m e]; simpl; try done.
  destruct x as [[]|[]| |[] m' e']; simpl; try naive_solver.
  intros _ _. apply (binary_round_aux_signed false). lia.
Qed.

Lemma f64_mul_signed_r x c :
  pos_f64 c -> signed_f64 false x -> signed_f64 false (f64_mul x c).
Proof.
  unfold f64_mul. destruct c as [?|?| |[] m e]; simpl; try done.
  destruct x as [[]|[]| |[] m' e']; simpl; try naive_solver.
  intros _ _. apply (binary_round_aux_signed false). lia.
Qed.

Lemma f64_div_signed x c :
  pos_f64 c -> signed_f64 false x -> signed_f64 false (f64_div x c).
Proof.
  unfold f64_div, SFdiv. destruct c as [?|?| |[] m e]; simpl; try done.
  destruct x as [[]|[]| |[] m' e']; simpl; try naive_solver.
  intros _ _. case_match. case_match. eapply (binary_round_aux_signed false), SFdiv_core_nonneg. eauto.
Qed.

(** [math.Max(0.0, x)] is a non-negative number. *)
Lemma f64_max_zero_signed x :
  is_nan x = false -> fits_f64 x -> signed_f64 false (f64_max f64_zero x).
Proof. by destruct x as [[]|[]| |[] m e]. Qed.

Lemma f64_sub_fits x y : fits_f64 x -> fits_f64 y -> fits_f64 (f64_sub x y).
Proof.
  unfold f64_sub, SFsub.
  destruct x as [[]|[]| |s m e], y as [[]|[]| |s' m' e']; simpl; try done.
  intros _ _. unfold binary_normalize. case_match; [done| |];
    eapply signed_fits, binary_round_signed.
Qed.

(** Subtraction is a number when one side is finite. *)
Definition is_inf (x : float64) : bool :=
  match x with S754_infinity _ => true | _ => false end.

Lemma binary_normalize_not_nan z e s : is_nan (binary_normalize 53 1024 z e s) = false.
Proof.
  destruct z; [done| |]; eapply signed_not_nan, binary_round_signed.
Qed.

Lemma f64_sub_not_nan x y :
  is_nan x = false -> is_nan y = false -> is_inf y = false \/ is_inf x = false ->
  is_nan (f64_sub x y) = false.
Proof.
  unfold f64_sub, SFsub. destruct x as [[]|[]| |s m e], y as [[]|[]| |s' m' e']; simpl; try naive_solver;
    intros _ _ _; apply binary_normalize_not_nan.
Qed.

(** ** Integers of machine width convert to finite floats *)

Lemma digits2_pos_lower m : 2 ^ (Zpos (digits2_pos m) - 1) <= Zpos m.
Proof.
  induction m as [m IH|m IH|]; cbn [digits2_pos]; [| |done].
  all: rewrite Pos2Z.inj_succ, <- (Z.succ_pred (Zpos (digits2_pos m))) in *;
    unfold Z.succ, Z.pred in *; rewrite Z.add_simpl_r in *;
    rewrite Z.pow_add_r in * by lia; lia.
Qed.

Lemma Zdigits2_le m k : 0 <= m < 2 ^ k -> 0 <= k -> Zdigits2 m <= k.
Proof.
  intros Hm Hk. destruct m as [|m|m]; simpl; [done| |lia].
  pose proof (digits2_pos_lower m) as Hl.
  assert (Zpos (digits2_pos m) - 1 < k); [|lia].
  apply (Z.pow_lt_mono_r_iff 2); lia.
Qed.

(** A shift to the canonical exponent moves it no further than needed. *)
Lemma shr_fexp_exp m e l k : 0 <= m < 2 ^ k -> 0 <= k ->
  snd (shr_fexp 53 1024 m e l) <= Z.max e (Z.max (k + e - 53) (-1074)).
Proof.
  intros Hm Hk. unfold shr_fexp, shr.
  assert (Hd : Zdigits2 m <= k) by (apply Zdigits2_le; lia).
  set (n := fexp 53 1024 (Zdigits2 m + e) - e).
  assert (Hn : e + n <= Z.max (k + e - 53) (-1074)) by (unfold n, fexp, emin; lia).
  destruct n; simpl; lia.
Qed.

Lemma round_nearest_even_le m l : round_nearest_even m l <= m + 1.
Proof. unfold round_nearest_even. destruct l as [|[]]; try destruct (Z.even m); lia. Qed.

(** A number whose exponent is at most [b]. *)
Definition exp_le (b : Z) (x : float64) : Prop :=
  match x with
  | S754_zero _ => True
  | S754_finite _ _ e => e <= b
  | _ => False
  end.

(** Rounding stays finite below the top of the range. *)
Lemma binary_round_aux_exp s m e l k b :
  0 <= m < 2 ^ k -> 0 <= k -> e < b -> k + e - 53 < b -> -1074 < b <= 971 ->
  exp_le b (binary_round_aux 53 1024 s m e l).
Proof.
  intros Hm Hk He Hke Hb. pose proof (binary_round_aux_signed s m e l (proj1 Hm)) as Hs.
  revert Hs. unfold binary_round_aux.
  pose proof (shr_fexp_bound m e l (proj1 Hm)) as H1.
  pose proof (shr_fexp_exp m e l k Hm Hk) as H1e.
  destruct (shr_fexp 53 1024 m e l) as [r1 e1]; simpl in H1, H1e.
  set (m2 := round_nearest_even (shr_m r1) (loc_of_shr_record r1)).
  assert (Hm2 : 0 <= m2 < 2 ^ 54).
  { split; [apply round_nearest_even_nonneg, H1|].
    pose proof (round_nearest_even_le (shr_m r1) (loc_of_shr_record r1)).
    change (2 ^ 54) with (2 * 2 ^ 53). unfold m2. lia. }
  pose proof (shr_fexp_exp m2 e1 loc_Exact 54 Hm2 ltac:(lia)) as H2e.
  destruct (shr_fexp 53 1024 m2 e1 loc_Exact) as [r2 e2]; simpl in H2e.
  destruct (shr_m r2); simpl; [done| |done]. destruct (Z.leb_spec e2 (1024 - 53)); simpl; intros _; lia.
Qed.

Lemma f64_of_Z_exp z : 0 <= z <= int64_max -> exp_le 20 (f64_of_Z z).
Proof.
  unfold int64_max. intros Hz. destruct z as [|p|p]; [done| |lia]. unfold f64_of_Z; simpl.
  unfold binary_round. set (e' := fexp _ _ _).
  assert (Hd := Zdigits2_le (Zpos p) 63 ltac:(lia) ltac:(lia)). simpl in Hd.
  assert (Hp := digits2_pos_bound p).
  assert (He' : -53 <= e' /\ 53 + e' >= Zpos (digits2_pos p)).
  { unfold e', fexp, emin. lia. }
  destruct (Z.le_gt_cases e' 0) as [Hle|Hgt].
  - pose proof (shl_align_val p 0 e' Hle) as Hv. pose proof (shl_align_exp p 0 e' Hle) as Hx.
    destruct (shl_align p 0 e') as [p' x]; simpl in Hv, Hx. subst x.
    apply (binary_round_aux_exp _ _ _ _ 53); try lia.
    split; [lia|]. rewrite Hv. apply Z.lt_le_trans with (2 ^ Zpos (digits2_pos p) * 2 ^ (0 - e')).
    + apply Z.mul_lt_mono_pos_r; [apply Z.pow_pos_nonneg; lia|done].
    + rewrite <- Z.pow_add_r by lia. apply Z.pow_le_mono_r; lia.
  - unfold shl_align. replace (e' - 0) with e' by lia. destruct e'; [lia| |lia].
    apply (binary_round_aux_exp _ _ _ _ 63); lia.
Qed.

(** Normal values do not round to zero. *)
Lemma shr_fexp_pos m e l : 1 <= m -> -1074 <= e ->
  1 <= shr_m (fst (shr_fexp 53 1024 m e l)) /\ -1074 <= snd (shr_fexp 53 1024 m e l).
Proof.
  intros Hm He. unfold shr_fexp, shr.
  assert (Hl : shr_m (shr_record_of_loc m l) = m) by (destruct l as [|[]]; done).
  destruct m as [|m|m]; [lia| |lia]. pose proof (digits2_pos_lower m) as Hd. simpl Zdigits2.
  destruct (fexp 53 1024 (Zpos (digits2_pos m) + e) - e) as [|p|p] eqn:En; simpl fst; simpl snd;
    rewrite ?iter_shr_1, Hl by (rewrite Hl; lia); [lia| |lia].
  assert (Hp : Zpos p <= Zpos (digits2_pos m) - 1) by (unfold fexp, emin in En; lia).
  split; [|lia]. apply Z.div_le_lower_bound; [lia|].
  pose proof (Z.pow_le_mono_r 2 _ _ ltac:(lia) Hp). lia.
Qed.

Lemma round_nearest_even_ge m l : m <= round_nearest_even m l.
Proof. unfold round_nearest_even. destruct l as [|[]]; try destruct (Z.even m); lia. Qed.

Lemma binary_round_aux_pos m e l : 1 <= m -> -1074 <= e ->
  binary_round_aux 53 1024 false m e l <> S754_zero false.
Proof.
  intros Hm He. unfold binary_round_aux.
  destruct (shr_fexp_pos m e l Hm He) as [H1 H1e].
  destruct (shr_fexp 53 1024 m e l) as [r1 e1]; simpl in H1, H1e.
  pose proof (round_nearest_even_ge (shr_m r1) (loc_of_shr_record r1)) as Hr.
  destruct (shr_fexp_pos (round_nearest_even (shr_m r1) (loc_of_shr_record r1)) e1 loc_Exact
    ltac:(lia) H1e) as [H2 _].
  destruct (shr_fexp 53 1024 (round_nearest_even (shr_m r1) (loc_of_shr_record r1)) e1 loc_Exact)
    as [r2 e2]; simpl in H2.
  destruct (shr_m r2); [lia| |done]. by case_match.
Qed.

Lemma f64_of_Z_pos z : 1 <= z <= int64_max -> pos_f64 (f64_of_Z z).
Proof.
  intros Hz. pose proof (f64_of_Z_exp z ltac:(lia)) as He.
  pose proof (f64_of_Z_signed z ltac:(lia)) as Hs.
  assert (Hnz : f64_of_Z z <> S754_zero false).
  { destruct z as [|p|p]; [lia| |lia]. unfold f64_of_Z; simpl. unfold binary_round.
    destruct (shl_align _ _ _) as [m e] eqn:Ha. apply binary_round_aux_pos; [lia|].
    unfold shl_align in Ha. case_match; simplify_eq; [lia|lia|]. unfold fexp, emin in *. lia. }
  destruct (f64_of_Z z) as [s|s| |s m e]; simpl in *; try done; [naive_solver|].
  by destruct Hs as [-> ?].
Qed.

Lemma f64_mul_exp c x b b' :
  pos_f64 c -> fits_f64 x -> exp_le b c -> exp_le b' x -> 0 <= b -> 0 <= b' -> b + b' < 900 ->
  exp_le (b + b' + 60) (f64_mul c x).
Proof.
  unfold f64_mul. destruct c as [?|?| |[] m e]; simpl; try done.
  destruct x as [?|?| |s m' e']; simpl; try done. intros Hm Hm' He He' ???.
  apply (binary_round_aux_exp _ _ _ _ 106); try lia.
  split; [lia|]. change (2 ^ 106) with (2 ^ 53 * 2 ^ 53). nia.
Qed.

#[export] Hint Resolve signed_false_not_lt_zero f64_div_fits signed_fits : soho.
