(* ===== verification/Workload.v ===== *)
(** Workload identifiers: the marketplace types of internal/types/workload.go,
    the agent categories of internal/agent/allowlist.go, and the map between
    them of internal/orchestrator/workload.go. *)
From S2P Require Import Prelude.
Local Open Scope string_scope.

Module Types.

(** [types.MarketplaceWorkloadType] is a Go string type; its values are the
    strings below and the zero value is the empty string. *)
Definition MarketplaceWorkloadType : Type := string.

Definition MarketplaceAppHosting : MarketplaceWorkloadType := "app_hosting".
Definition MarketplaceBatchCompute : MarketplaceWorkloadType := "batch_compute".
Definition MarketplaceAIInference : MarketplaceWorkloadType := "ai_inference".
Definition MarketplaceObjectStorage : MarketplaceWorkloadType := "object_storage".
Definition MarketplaceCDNEdge : MarketplaceWorkloadType := "cdn_edge".
Definition MarketplacePrintTraditional : MarketplaceWorkloadType := "print_traditional".
Definition MarketplacePrint3D : MarketplaceWorkloadType := "print_3d".

Definition AllMarketplaceWorkloadTypes : list MarketplaceWorkloadType :=
  [MarketplaceAppHosting; MarketplaceBatchCompute; MarketplaceAIInference;
   MarketplaceObjectStorage; MarketplaceCDNEdge; MarketplacePrintTraditional;
   MarketplacePrint3D].

(** The loop of [IsValid]: compare with each known value in turn. *)
Fixpoint valid_loop (w : MarketplaceWorkloadType) (l : list MarketplaceWorkloadType) : bool :=
  match l with
  | [] => false
  | v :: l' => if bool_decide (w = v) then true else valid_loop w l'
  end.

Definition IsValid (w : MarketplaceWorkloadType) : bool :=
  valid_loop w AllMarketplaceWorkloadTypes.

Definition ParseMarketplaceWorkloadType (s : string) : result string MarketplaceWorkloadType :=
  let w : MarketplaceWorkloadType := s in
  if negb (IsValid w) then Err ("unknown marketplace workload type") else Ok w.

(** The test [w == print_traditional || w == print_3d] the orchestrator, the
    dispatcher and the SQL predicates all make. *)
Definition is_print (w : MarketplaceWorkloadType) : bool :=
  bool_decide (w = MarketplacePrintTraditional) || bool_decide (w = MarketplacePrint3D).

End Types.

Module Agent.

(** [agent.WorkloadType]: the category of work an agent consents to. *)
Definition WorkloadType : Type := string.

Definition WorkloadCompute : WorkloadType := "compute".
Definition WorkloadStorage : WorkloadType := "storage".
Definition WorkloadPrintTraditional : WorkloadType := "print_traditional".
Definition WorkloadPrint3D : WorkloadType := "print_3d".

End Agent.

Module Mapping.
Import Types Agent.

Definition marketplaceToAgent : gmap MarketplaceWorkloadType WorkloadType :=
  {[ MarketplaceAppHosting := WorkloadCompute;
     MarketplaceBatchCompute := WorkloadCompute;
     MarketplaceAIInference := WorkloadCompute;
     MarketplaceObjectStorage := WorkloadStorage;
     MarketplaceCDNEdge := WorkloadCompute;
     MarketplacePrintTraditional := WorkloadPrintTraditional;
     MarketplacePrint3D := WorkloadPrint3D ]}.

Definition MarketplaceToAgent (w : MarketplaceWorkloadType) : result string WorkloadType :=
  match marketplaceToAgent !! w with
  | Some a => Ok a
  | None => Err "no agent mapping for marketplace workload type"
  end.

(** [true] when the start-up check returns, [false] when it panics. *)
Definition MustValidateWorkloadMapping (m : gmap MarketplaceWorkloadType WorkloadType) : bool :=
  forallb (fun w => bool_decide (is_Some (m !! w))) AllMarketplaceWorkloadTypes.

End Mapping.

Import Types Agent Mapping.

Lemma valid_loop_elem w l : valid_loop w l = true <-> w ∈ l.
Proof.
  induction l as [|v l IH]; simpl; [by rewrite elem_of_nil|].
  rewrite elem_of_cons. case_bool_decide; naive_solver.
Qed.

Lemma IsValid_elem w : IsValid w = true <-> w ∈ AllMarketplaceWorkloadTypes.
Proof. apply valid_loop_elem. Qed.

(** Case analysis over the seven known types. *)
Lemma IsValid_ind (P : string -> Prop) :
  Forall P AllMarketplaceWorkloadTypes -> forall w, IsValid w = true -> P w.
Proof. rewrite Forall_forall. intros H w Hw. apply H, IsValid_elem, Hw. Qed.

Lemma MarketplaceToAgent_ok w :
  IsValid w = true -> exists a, MarketplaceToAgent w = Ok a.
Proof. revert w. apply IsValid_ind. repeat constructor; eexists; reflexivity. Qed.

Lemma MarketplaceToAgent_elem w a :
  MarketplaceToAgent w = Ok a -> IsValid w = true.
Proof.
  unfold MarketplaceToAgent. destruct (marketplaceToAgent !! w) eqn:Hw; [|done].
  intros _. apply IsValid_elem. unfold marketplaceToAgent in Hw.
  repeat (rewrite lookup_insert in Hw; case_decide; [subst; unfold AllMarketplaceWorkloadTypes;
    rewrite !elem_of_cons; tauto|]).
  rewrite ?lookup_singleton in Hw; case_decide; subst; [|done].
  unfold AllMarketplaceWorkloadTypes. rewrite !elem_of_cons. tauto.
Qed.

(** A marketplace type is a print type exactly when its agent category is. *)
Lemma is_print_agent w a :
  MarketplaceToAgent w = Ok a ->
  is_print w = bool_decide (a = WorkloadPrintTraditional) || bool_decide (a = WorkloadPrint3D).
Proof.
  intros H. assert (Hv := MarketplaceToAgent_elem _ _ H). revert a H. revert w Hv.
  apply (IsValid_ind (fun w => forall a, MarketplaceToAgent w = Ok a -> _)).
  repeat constructor; intros a; vm_compute; intros [= <-]; reflexivity.
Qed.

#[export] Hint Resolve MarketplaceToAgent_ok : soho.

(** mapping totality *)
Theorem workload_mapping_total w :
  IsValid w = true <-> exists a, MarketplaceToAgent w = Ok a.
Proof.
  split; [apply MarketplaceToAgent_ok|]. intros [a H]. by eapply MarketplaceToAgent_elem.
Qed.
