(* ===== verification/Sounding.v ===== *)
(** Demand-sounding telemetry: internal/sounding (classify.go, capacity.go,
    sink.go, context.go).

    The rung ladder classifies what a job would have needed; the capacity
    sampler aggregates the registry; the sink is a bounded channel with a
    batching worker that drops when full instead of blocking its callers. *)
From Stdlib Require Import Ascii.
From S2P Require Import Prelude Float64.
Local Open Scope string_scope.
Local Open Scope list_scope.
Local Open Scope Z_scope.

(** ** Context *)

Definition OperatorUnknown : string := "unknown".

(** The operator id a request context carries, if any. *)
Definition OperatorIDFromContext (ctx : option string) : option string :=
  match ctx with
  | Some v => if bool_decide (v = "") then None else Some v
  | None => None
  end.

Definition OperatorIDOrUnknown (ctx : option string) : string :=
  default OperatorUnknown (OperatorIDFromContext ctx).

(** ** The rung ladder *)

Module Rungs.

Definition ReasonTooBig : string := "too_big".
Definition ReasonNoMatchingTier : string := "no_matching_tier".
Definition ReasonNoCapacity : string := "no_capacity".

Record Tier := mkTier {
  t_Name : string; t_Order : Z; t_CPUCeiling : float64; t_MemCeiling : Z; t_DiskCeiling : Z;
  t_State : string }.

Definition stateAvailable : string := "available".
Definition stateComingSoon : string := "coming_soon".

(** The tiers, ascending by order. *)
Definition Ladder : Type := list Tier.

Definition NewLadder (tiers : list Tier) : Ladder :=
  isort Tier (fun a b => t_Order a <? t_Order b) tiers.

(** The scan of [topAvailable] and [topComingSoon]: the highest order, the
    first one on a tie. *)
Definition top_with (state : string) (l : Ladder) : option Tier :=
  foldl (fun top t =>
    if negb (bool_decide (t_State t = state)) then top
    else match top with
    | None => Some t
    | Some t0 => if t_Order t0 <? t_Order t then Some t else top
    end) None l.
Definition topAvailable : Ladder -> option Tier := top_with stateAvailable.
Definition topComingSoon : Ladder -> option Tier := top_with stateComingSoon.

Definition fits (t : Tier) (cpu : float64) (memMB diskMB : Z) : bool :=
  f64_le cpu (t_CPUCeiling t) && (memMB <=? t_MemCeiling t) && (diskMB <=? t_DiskCeiling t).

Fixpoint FitRung (l : Ladder) (cpu : float64) (memMB diskMB : Z) : option string :=
  match l with
  | [] => None
  | t :: l' =>
      if negb (bool_decide (t_State t = stateAvailable)) then FitRung l' cpu memMB diskMB
      else if fits t cpu memMB diskMB then Some (t_Name t)
      else FitRung l' cpu memMB diskMB
  end.

Definition Footprint (l : Ladder) (cpu : float64) (memMB diskMB : Z) : float64 :=
  match topAvailable l with
  | None => f64_zero
  | Some top =>
      if f64_le (t_CPUCeiling top) f64_zero || (t_MemCeiling top <=? 0) || (t_DiskCeiling top <=? 0)
      then f64_zero
      else
        let fp := f64_div cpu (t_CPUCeiling top) in
        let r := f64_div (f64_of_Z memMB) (f64_of_Z (t_MemCeiling top)) in
        let fp := if f64_lt fp r then r else fp in
        let r := f64_div (f64_of_Z diskMB) (f64_of_Z (t_DiskCeiling top)) in
        if f64_lt fp r then r else fp
  end.

Definition Intensity (l : Ladder) (cpu : float64) : float64 :=
  match topAvailable l with
  | None => f64_zero
  | Some top => if f64_le (t_CPUCeiling top) f64_zero then f64_zero
                else f64_div cpu (t_CPUCeiling top)
  end.

Definition ClassifyRejection (l : Ladder) (cpu : float64) (memMB diskMB : Z) : string * string :=
  match l with
  | [] => (ReasonNoCapacity, "")
  | _ =>
      match FitRung l cpu memMB diskMB with
      | Some fit => (ReasonNoCapacity, fit)
      | None =>
          match topComingSoon l with
          | Some cs => (ReasonTooBig, t_Name cs)
          | None => (ReasonNoMatchingTier, "")
          end
      end
  end.

(** [FitRung] finds the first available tier that fits. *)
Lemma FitRung_Some l cpu m d name :
  FitRung l cpu m d = Some name ->
  exists l1 t l2, l = l1 ++ t :: l2 /\ t_Name t = name /\ t_State t = stateAvailable /\
    fits t cpu m d = true /\
    (forall t', t' ∈ l1 -> t_State t' = stateAvailable -> fits t' cpu m d = false).
Proof.
  induction l as [|t l IH]; simpl; [done|].
  assert (Hskip : (t_State t = stateAvailable -> fits t cpu m d = false) ->
    FitRung l cpu m d = Some name -> exists l1 t1 l2, t :: l = l1 ++ t1 :: l2 /\ t_Name t1 = name /\
    t_State t1 = stateAvailable /\ fits t1 cpu m d = true /\
    (forall t', t' ∈ l1 -> t_State t' = stateAvailable -> fits t' cpu m d = false)).
  { intros Ht Hl. destruct (IH Hl) as (l1 & t1 & l2 & -> & Hn & Hs & Hf & Hall).
    exists (t :: l1), t1, l2. split_and!; auto. intros t'. rewrite elem_of_cons. naive_solver. }
  case_bool_decide as Hs; simpl; [|by apply Hskip].
  destruct (fits t cpu m d) eqn:Hf; [|by apply Hskip]. intros [= <-].
  exists [], t, l. split_and!; auto. intros t' Ht'. by apply not_elem_of_nil in Ht'.
Qed.

Lemma FitRung_None l cpu m d t :
  FitRung l cpu m d = None -> t ∈ l -> t_State t = stateAvailable -> fits t cpu m d = false.
Proof.
  induction l as [|t0 l IH]; simpl; [intros _ Ht; by apply not_elem_of_nil in Ht|].
  rewrite elem_of_cons. case_bool_decide; simpl; [|naive_solver].
  destruct (fits t0 cpu m d) eqn:Hf; naive_solver.
Qed.

Lemma NewLadder_sorted tiers : sorted_by (fun a b => t_Order a <? t_Order b) (NewLadder tiers).
Proof.
  apply isort_sorted. split.
  - intros a b _ _ H. reflect_bools. apply Z.ltb_ge. lia.
  - intros a b c _ _ _ H1 H2. reflect_bools. apply Z.ltb_ge. lia.
Qed.

Lemma NewLadder_elem tiers t : t ∈ NewLadder tiers <-> t ∈ tiers.
Proof. unfold NewLadder. by rewrite <- isort_perm. Qed.

(** The tiers before one in the ladder have no higher order. *)
Lemma NewLadder_before tiers l1 t l2 t' :
  NewLadder tiers = l1 ++ t :: l2 -> t' ∈ t :: l2 -> t_Order t <= t_Order t'.
Proof.
  intros Hl Ht'. pose proof (NewLadder_sorted tiers) as Hs. rewrite Hl in Hs.
  clear Hl. unfold sorted_by in Hs. induction l1 as [|x l1 IH]; simpl in Hs.
  - apply StronglySorted_inv in Hs as [_ Hx]. apply elem_of_cons in Ht' as [->|Ht']; [lia|].
    rewrite Forall_forall in Hx. apply Hx in Ht'. by apply Z.ltb_ge in Ht'.
  - apply IH. by apply StronglySorted_inv in Hs as [Hs _].
Qed.

End Rungs.
Import Rungs.

(** A job is put on the smallest rung it fits: [FitRung] returns the name of
    an available tier that covers the job on all three dimensions and whose
    order is least among the available tiers that do, and returns nothing only
    when no available tier covers the job, whatever order the tiers came in. *)
Theorem FitRung_smallest tiers cpu memMB diskMB :
  match FitRung (NewLadder tiers) cpu memMB diskMB with
  | Some name => exists t, t ∈ tiers /\ t_Name t = name /\ t_State t = stateAvailable /\
      fits t cpu memMB diskMB = true /\
      forall t', t' ∈ tiers -> t_State t' = stateAvailable -> fits t' cpu memMB diskMB = true ->
        t_Order t <= t_Order t'
  | None => forall t, t ∈ tiers -> t_State t = stateAvailable -> fits t cpu memMB diskMB = false
  end.
Proof.
  destruct (FitRung _ _ _ _) as [name|] eqn:Hf.
  - destruct (FitRung_Some _ _ _ _ _ Hf) as (l1 & t & l2 & Hl & Hn & Hs & Hfit & Hbefore).
    exists t. split_and!; auto.
    + apply NewLadder_elem. rewrite Hl. apply elem_of_app. right. by constructor.
    + intros t' Ht' Hs' Hf'. apply NewLadder_elem in Ht'. rewrite Hl in Ht'.
      apply elem_of_app in Ht' as [Ht'|Ht']; [by rewrite Hbefore in Hf'|].
      by eapply NewLadder_before.
  - intros t Ht. apply NewLadder_elem in Ht. by eapply FitRung_None.
Qed.

(** ** Capacity aggregation *)

Record CapacitySnapshot := mkCapacity {
  cp_OperatorID : string; cp_NodeClass : string; cp_WorkloadType : string;
  cp_NodesAvailable : Z; cp_VCPUs : Z; cp_MemMB : Z; cp_DiskMB : Z; cp_PrintQPS : float64 }.

Record NodeCapacityInput := mkCapInput {
  ci_OperatorID : string; ci_NodeClass : string; ci_VCPUs : Z; ci_MemMB : Z; ci_DiskMB : Z;
  ci_OptOutCompute : bool; ci_OptOutStorage : bool; ci_OptOutPrinting : bool;
  ci_HasEnabledPrinter : bool }.

Definition WorkloadCompute : string := "compute".
Definition WorkloadStorage : string := "storage".
Definition WorkloadPrint : string := "print".

Abbreviation cap_key := (string * string * string)%type.

(** The calls of [add] that one input makes: key, input, printer flag. *)
Definition contributions (i : NodeCapacityInput) : list (cap_key * (NodeCapacityInput * bool)) :=
  let op := if bool_decide (ci_OperatorID i = "") then OperatorUnknown else ci_OperatorID i in
  (if negb (ci_OptOutCompute i) then [((op, ci_NodeClass i, WorkloadCompute), (i, false))] else []) ++
  (if negb (ci_OptOutStorage i) then [((op, ci_NodeClass i, WorkloadStorage), (i, false))] else []) ++
  (if negb (ci_OptOutPrinting i) && ci_HasEnabledPrinter i
   then [((op, ci_NodeClass i, WorkloadPrint), (i, true))] else []).

Definition add_capacity (acc : gmap cap_key CapacitySnapshot)
    (c : cap_key * (NodeCapacityInput * bool)) : gmap cap_key CapacitySnapshot :=
  let '((op, class, workload) as k, (i, printer)) := c in
  let s := default (mkCapacity op class workload 0 0 0 0 f64_zero) (acc !! k) in
  <[k := mkCapacity (cp_OperatorID s) (cp_NodeClass s) (cp_WorkloadType s)
           (to_int64 (cp_NodesAvailable s + 1)) (to_int64 (cp_VCPUs s + ci_VCPUs i))
           (to_int64 (cp_MemMB s + ci_MemMB i)) (to_int64 (cp_DiskMB s + ci_DiskMB i))
           (if printer then f64_add (cp_PrintQPS s) f64_one else cp_PrintQPS s)]> acc.

(** Byte-wise string order, and the sort key order. *)
Definition string_lt (s t : string) : bool := String.ltb s t.
Definition snapshot_less (a b : CapacitySnapshot) : bool :=
  if negb (bool_decide (cp_OperatorID a = cp_OperatorID b))
  then string_lt (cp_OperatorID a) (cp_OperatorID b)
  else if negb (bool_decide (cp_NodeClass a = cp_NodeClass b))
  then string_lt (cp_NodeClass a) (cp_NodeClass b)
  else string_lt (cp_WorkloadType a) (cp_WorkloadType b).

Definition accumulate (inputs : list NodeCapacityInput) : gmap cap_key CapacitySnapshot :=
  foldl add_capacity ∅ (inputs ≫= contributions).

Definition AggregateCapacity `{MapOrder} (inputs : list NodeCapacityInput) :
    list CapacitySnapshot :=
  isort _ snapshot_less (map_range (accumulate inputs)).*2.

(** The inputs that count towards a key. *)
Definition supply (k : cap_key) (inputs : list NodeCapacityInput) : list NodeCapacityInput :=
  (fun c => c.2.1) <$> filter (fun c => c.1 = k) (inputs ≫= contributions).

Definition total (f : NodeCapacityInput -> Z) (l : list NodeCapacityInput) : Z :=
  foldr (fun i n => f i + n) 0 l.

Lemma total_snoc f l i : total f (l ++ [i]) = total f l + f i.
Proof. unfold total. induction l as [|x l IH]; simpl; [lia|]. rewrite IH. lia. Qed.

Lemma to_int64_add x y : to_int64 (to_int64 x + y) = to_int64 (x + y).
Proof.
  unfold to_int64. f_equal. replace ((x + 2 ^ 63) `mod` 2 ^ 64 - 2 ^ 63 + y + 2 ^ 63)
    with ((x + 2 ^ 63) `mod` 2 ^ 64 + y) by lia.
  rewrite Zplus_mod_idemp_l. f_equal. lia.
Qed.

(** The accumulator maps a key to the totals of what was added under it. *)
Lemma foldl_add_capacity cs k :
  let l := (fun c => c.2.1) <$> filter (fun c => c.1 = k) cs in
  match foldl add_capacity ∅ cs !! k with
  | None => l = []
  | Some s => l <> [] /\ (cp_OperatorID s, cp_NodeClass s, cp_WorkloadType s) = k /\
      cp_NodesAvailable s = to_int64 (Z.of_nat (length l)) /\
      cp_VCPUs s = to_int64 (total ci_VCPUs l) /\ cp_MemMB s = to_int64 (total ci_MemMB l) /\
      cp_DiskMB s = to_int64 (total ci_DiskMB l)
  end.
Proof.
  induction cs as [|[[[op class] w] [i printer]] cs IH] using rev_ind; [done|].
  rewrite foldl_app, filter_app, fmap_app. simpl.
  rewrite filter_cons, filter_nil. simpl.
  rewrite lookup_insert. case_decide as Hk; [subst k|].
  - rewrite ?decide_True by done. simpl. rewrite length_app, !total_snoc.
    destruct (foldl add_capacity ∅ cs !! (op, class, w)) as [s|]; simpl.
    + destruct IH as (? & Hkey & -> & -> & -> & ->). rewrite !to_int64_add.
      split_and!; try done; [by destruct (_ <$> _)|]. f_equal. simpl. lia.
    + rewrite IH. simpl. done.
  - rewrite ?decide_False by done. by rewrite app_nil_r.
Qed.

Definition snapshot_key (s : CapacitySnapshot) : cap_key :=
  (cp_OperatorID s, cp_NodeClass s, cp_WorkloadType s).

Lemma accumulate_key inputs k s : accumulate inputs !! k = Some s -> snapshot_key s = k.
Proof.
  intros Hs. pose proof (foldl_add_capacity (inputs ≫= contributions) k) as H.
  unfold accumulate in Hs. rewrite Hs in H. apply H.
Qed.

Lemma AggregateCapacity_elem `{MapOrder} inputs s :
  s ∈ AggregateCapacity inputs <-> exists k, accumulate inputs !! k = Some s.
Proof.
  unfold AggregateCapacity. rewrite <- isort_perm, list_elem_of_fmap.
  setoid_rewrite map_range_perm. split.
  - intros ([k s'] & -> & Hin). exists k. by apply elem_of_map_to_list.
  - intros [k Hk]. exists (k, s). by rewrite elem_of_map_to_list.
Qed.

(** Capacity aggregation is exact: [AggregateCapacity] yields one snapshot per
    operator, class and workload for which some node is available, and its
    counters are the number of such nodes and the sums of their resources (in
    64-bit arithmetic); a node counts towards a workload only if its owner has
    not opted out of it, and towards printing only with an enabled printer. *)
Theorem AggregateCapacity_exact `{MapOrder} inputs :
  NoDup (snapshot_key <$> AggregateCapacity inputs) /\
  (forall k, supply k inputs <> [] -> exists s, s ∈ AggregateCapacity inputs /\ snapshot_key s = k) /\
  (forall s, s ∈ AggregateCapacity inputs ->
     let l := supply (snapshot_key s) inputs in
     l <> [] /\ cp_NodesAvailable s = to_int64 (Z.of_nat (length l)) /\
     cp_VCPUs s = to_int64 (total ci_VCPUs l) /\ cp_MemMB s = to_int64 (total ci_MemMB l) /\
     cp_DiskMB s = to_int64 (total ci_DiskMB l)).
Proof.
  split_and!.
  - unfold AggregateCapacity. rewrite <- isort_perm, map_range_perm, <- list_fmap_compose.
    rewrite (list_fmap_ext _ fst); [apply NoDup_fst_map_to_list|].
    intros i [k s] Hi. apply (accumulate_key inputs).
    by apply elem_of_map_to_list, list_elem_of_lookup_2 with i.
  - intros k Hk. pose proof (foldl_add_capacity (inputs ≫= contributions) k) as Ha.
    destruct (foldl _ _ _ !! k) as [s|] eqn:Hs; [|done].
    exists s. split; [apply AggregateCapacity_elem; by exists k|]. by apply (accumulate_key inputs).
  - intros s Hs. apply AggregateCapacity_elem in Hs as [k Hk].
    rewrite (accumulate_key _ _ _ Hk).
    pose proof (foldl_add_capacity (inputs ≫= contributions) k) as Ha.
    unfold accumulate in Hk. rewrite Hk in Ha. destruct Ha as (?&?&?&?&?&?). done.
Qed.

(** ** The sink *)

Record JobShape := mkJobShape {
  js_OperatorID : string; js_JobID : string; js_WorkloadType : string; js_Intensity : float64;
  js_DurationEst : Z; js_CPU : float64; js_MemMB : Z; js_DiskMB : Z; js_Footprint : float64;
  js_Placed : bool; js_Rung : string }.

Record Rejection := mkRejection {
  rj_OperatorID : string; rj_JobID : string; rj_WorkloadType : string; rj_Reason : string;
  rj_Footprint : float64; rj_WantedRung : string }.

Inductive envelope :=
| kindJobShape (shape : JobShape)
| kindRejection (rej : Rejection)
| kindCapacity (cap : CapacitySnapshot).

(** [Config] with the non-positive sizes replaced by the defaults. *)
Definition withDefaults (bufferSize batchSize : Z) : Z * Z :=
  (if bufferSize <=? 0 then 4096 else bufferSize, if batchSize <=? 0 then 128 else batchSize).

(** The channel, the worker's current batch and the batches handed to the
    writer so far. *)
Record Sink := mkSink {
  sk_buffer : Z; sk_batchSize : Z; sk_ch : list envelope; sk_dropped : Z;
  sk_batch : list envelope; sk_written : list (list envelope); sk_stopped : bool }.
#[export] Instance eta_Sink : Eta Sink := fun s =>
  mkSink (sk_buffer s) (sk_batchSize s) (sk_ch s) (sk_dropped s) (sk_batch s) (sk_written s)
    (sk_stopped s).

Definition newSink (bufferSize batchSize : Z) : Sink :=
  let '(b, n) := withDefaults bufferSize batchSize in mkSink b n [] 0 [] [] false.

(** Non-blocking send: a full channel drops the event and counts it. *)
Definition enqueue (e : envelope) (s : Sink) : Sink :=
  if Z.of_nat (length (sk_ch s)) <? sk_buffer s then s <| sk_ch := sk_ch s ++ [e] |>
  else s <| sk_dropped := to_uint64 (sk_dropped s + 1) |>.

Definition RecordJobShape (js : JobShape) : Sink -> Sink := enqueue (kindJobShape js).
Definition RecordRejection (r : Rejection) : Sink -> Sink := enqueue (kindRejection r).
Definition RecordCapacity (c : CapacitySnapshot) : Sink -> Sink := enqueue (kindCapacity c).

Definition flush (s : Sink) : Sink :=
  match sk_batch s with
  | [] => s
  | b => s <| sk_written := sk_written s ++ [b] |> <| sk_batch := [] |>
  end.

(** The worker takes one event off the channel. *)
Definition receive (s : Sink) : Sink :=
  match sk_ch s with
  | [] => s
  | e :: ch =>
      let s := s <| sk_ch := ch |> <| sk_batch := sk_batch s ++ [e] |> in
      if sk_batchSize s <=? Z.of_nat (length (sk_batch s)) then flush s else s
  end.

(** [ctx.Done]: drain what is buffered, flush, stop. *)
Definition drain (s : Sink) : Sink :=
  (flush (Nat.iter (length (sk_ch s)) receive s)) <| sk_stopped := true |>.

(** [writeBatch]: the three slices, each in arrival order. *)
Definition writeBatch (b : list envelope) :
    list JobShape * list Rejection * list CapacitySnapshot :=
  (omap (fun e => match e with kindJobShape x => Some x | _ => None end) b,
   omap (fun e => match e with kindRejection x => Some x | _ => None end) b,
   omap (fun e => match e with kindCapacity x => Some x | _ => None end) b).

(** What happens to the sink: callers enqueue, the worker runs until stopped. *)
Inductive SinkOp := OpEnqueue (e : envelope) | OpReceive | OpTick | OpDone.

Definition sink_step (op : SinkOp) (s : Sink) : Sink :=
  match op with
  | OpEnqueue e => enqueue e s
  | OpReceive => if sk_stopped s then s else receive s
  | OpTick => if sk_stopped s then s else flush s
  | OpDone => if sk_stopped s then s else drain s
  end.

(** The events the channel accepted, of those a run of operations sent. *)
Fixpoint accepted (ops : list SinkOp) (s : Sink) : list envelope :=
  match ops with
  | [] => []
  | op :: ops' =>
      match op with
      | OpEnqueue e => if Z.of_nat (length (sk_ch s)) <? sk_buffer s then [e] else []
      | _ => []
      end ++ accepted ops' (sink_step op s)
  end.

Definition sent (ops : list SinkOp) : list envelope :=
  omap (fun op => match op with OpEnqueue e => Some e | _ => None end) ops.

(** Everything accepted and where it is now. *)
Definition in_sink (s : Sink) : list envelope := concat (sk_written s) ++ sk_batch s ++ sk_ch s.

Definition sink_wf (s : Sink) : Prop :=
  0 < sk_buffer s /\ 0 < sk_batchSize s /\ Z.of_nat (length (sk_ch s)) <= sk_buffer s /\
  Z.of_nat (length (sk_batch s)) < sk_batchSize s.

Lemma flush_in s : in_sink (flush s) = in_sink s.
Proof.
  unfold flush, in_sink. destruct (sk_batch s) eqn:Hb; simpl; [by rewrite Hb|].
  rewrite concat_app. simpl. by rewrite app_nil_r, <- app_assoc.
Qed.

Lemma flush_wf s : 0 < sk_buffer s -> 0 < sk_batchSize s ->
  Z.of_nat (length (sk_ch s)) <= sk_buffer s -> sink_wf (flush s).
Proof.
  intros. unfold flush. destruct (sk_batch s) eqn:Hb; unfold sink_wf; simpl; rewrite ?Hb; simpl; lia.
Qed.

Lemma receive_in s : in_sink (receive s) = in_sink s.
Proof.
  unfold receive. destruct (sk_ch s) as [|e ch] eqn:Hc; [done|].
  case_match; [rewrite flush_in|]; unfold in_sink; simpl; rewrite Hc; by rewrite <- app_assoc.
Qed.

Lemma receive_wf s : sink_wf s -> sink_wf (receive s).
Proof.
  intros (H1 & H2 & H3 & H4). unfold receive. destruct (sk_ch s) as [|e ch] eqn:Hc.
  - unfold sink_wf. by rewrite Hc in *.
  - simpl in H3. case_match; [apply flush_wf; simpl; lia|]. reflect_bools.
    unfold sink_wf; simpl in *. lia.
Qed.

Lemma iter_receive n s : in_sink (Nat.iter n receive s) = in_sink s /\
  (sink_wf s -> sink_wf (Nat.iter n receive s)).
Proof.
  induction n as [|n IH]; simpl; [done|]. rewrite receive_in. split; [apply IH|].
  intros Hs. apply receive_wf, IH, Hs.
Qed.

Lemma sink_step_in op s :
  in_sink (sink_step op s) = in_sink s ++ accepted [op] s /\ (sink_wf s -> sink_wf (sink_step op s)).
Proof.
  destruct op as [e| | |]; simpl.
  - unfold enqueue. case_match; unfold in_sink, sink_wf; simpl; rewrite ?app_nil_r.
    + split; [by rewrite <- !app_assoc|]. reflect_bools. rewrite length_app. simpl. lia.
    + done.
  - rewrite app_nil_r. case_match; [done|]. split; [apply receive_in|apply receive_wf].
  - rewrite app_nil_r. case_match; [done|]. split; [apply flush_in|].
    intros (?&?&?&?). by apply flush_wf.
  - rewrite app_nil_r. case_match; [done|]. unfold drain.
    destruct (iter_receive (length (sk_ch s)) s) as [Hin Hwf]. split.
    + unfold in_sink; simpl. change (in_sink (flush (Nat.iter (length (sk_ch s)) receive s))
        = in_sink s). by rewrite flush_in.
    + intros Hs. destruct (Hwf Hs) as (?&?&?&?). by apply (flush_wf (Nat.iter _ receive s)).
Qed.

Lemma sink_run_in ops s :
  in_sink (foldl (fun s op => sink_step op s) s ops) = in_sink s ++ accepted ops s /\
  (sink_wf s -> sink_wf (foldl (fun s op => sink_step op s) s ops)).
Proof.
  revert s. induction ops as [|op ops IH]; intros s; simpl; [by rewrite app_nil_r|].
  destruct (sink_step_in op s) as [Hin Hwf]. destruct (IH (sink_step op s)) as [IHin IHwf].
  split; [|auto]. rewrite IHin, Hin. simpl. by rewrite app_nil_r, <- app_assoc.
Qed.

Lemma accepted_sublist ops s : sublist (accepted ops s) (sent ops).
Proof.
  revert s. induction ops as [|op ops IH]; intros s; simpl; [constructor|].
  destruct op; simpl; [|apply IH..]. case_match; simpl; by constructor.
Qed.

Lemma receive_dropped n s : sk_dropped (Nat.iter n receive s) = sk_dropped s.
Proof.
  induction n as [|n IH]; simpl; [done|]. rewrite <- IH. unfold receive, flush.
  repeat case_match; done.
Qed.

Lemma flush_dropped s : sk_dropped (flush s) = sk_dropped s.
Proof. unfold flush. by case_match. Qed.

Lemma sink_step_dropped op s :
  to_uint64 (sk_dropped s) = sk_dropped s ->
  sk_dropped (sink_step op s) = to_uint64 (sk_dropped s +
    (Z.of_nat (length (sent [op])) - Z.of_nat (length (accepted [op] s)))).
Proof.
  intros Hs. destruct op as [e| | |]; simpl; rewrite ?Z.add_0_r, ?Hs.
  - unfold enqueue. case_match; simpl; rewrite ?Z.add_0_r; done.
  - case_match; [done|]. apply (receive_dropped 1).
  - case_match; [done|]. apply flush_dropped.
  - case_match; [done|]. unfold drain; simpl. by rewrite flush_dropped, receive_dropped.
Qed.

Lemma to_uint64_add x y : to_uint64 (to_uint64 x + y) = to_uint64 (x + y).
Proof. unfold to_uint64. by rewrite Zplus_mod_idemp_l. Qed.

Lemma dropped_count ops s :
  to_uint64 (sk_dropped s) = sk_dropped s ->
  sk_dropped (foldl (fun s op => sink_step op s) s ops) = to_uint64 (sk_dropped s +
    (Z.of_nat (length (sent ops)) - Z.of_nat (length (accepted ops s)))).
Proof.
  revert s. induction ops as [|op ops IH]; intros s Hs; [simpl; by rewrite Z.add_0_r|].
  cbn [foldl]. pose proof (sink_step_dropped op s Hs) as H1. rewrite IH, H1, to_uint64_add.
  - f_equal. simpl. rewrite length_app. destruct op; simpl; [|lia..].
    case_match; simpl; lia.
  - rewrite H1. unfold to_uint64. by rewrite Zmod_mod.
Qed.

(** The sink loses nothing silently and never blocks: after any sequence of
    sends and worker actions, the events handed to the writer, the pending
    batch and the channel hold exactly the accepted events in the order they
    were sent; the channel never exceeds its buffer nor the batch its size; and
    the drop counter is the number of sends that were not accepted. *)
Theorem sink_conserves ops bufferSize batchSize :
  let s := foldl (fun s op => sink_step op s) (newSink bufferSize batchSize) ops in
  let acc := accepted ops (newSink bufferSize batchSize) in
  concat (sk_written s) ++ sk_batch s ++ sk_ch s = acc /\ sublist acc (sent ops) /\
  Z.of_nat (length (sk_ch s)) <= sk_buffer s /\
  Z.of_nat (length (sk_batch s)) < sk_batchSize s /\
  sk_dropped s = to_uint64 (Z.of_nat (length (sent ops)) - Z.of_nat (length acc)).
Proof.
  intros s acc. destruct (sink_run_in ops (newSink bufferSize batchSize)) as [Hin Hwf].
  destruct Hwf as (?&?&?&?).
  { unfold newSink, withDefaults, sink_wf; simpl. repeat case_match; reflect_bools; lia. }
  split_and!; auto.
  - apply accepted_sublist.
  - unfold s, acc. by rewrite dropped_count.
Qed.
