(* ===== verification/Registry.v ===== *)
(** The in-memory node registry of internal/orchestrator/registry.go.

    The registry is a Go map from node id to entry behind a read-write mutex, so
    every method is one atomic operation on the map.  A [range] over a Go map
    visits the entries in an unspecified order: the operations that iterate take
    the order from a [MapOrder] instance and the theorems hold for all of them. *)
From S2P Require Import Prelude Float64 Workload Sounding.
Import Types Agent Mapping.
Local Open Scope string_scope.
Local Open Scope Z_scope.

(** ** Data *)

Record HardwareProfile := mkHardwareProfile {
  CPUCores : Z; RAMMB : Z; GPUPresent : bool; StorageGB : Z; BandwidthMbps : Z }.
#[export] Instance eta_HardwareProfile : Eta HardwareProfile := fun r =>
  mkHardwareProfile (CPUCores r) (RAMMB r) (GPUPresent r) (StorageGB r) (BandwidthMbps r).

Record NodeEntry := mkNodeEntry {
  NodeID : string; ParticipantID : string; NodeClass : string; CountryCode : string;
  Region : string; Hardware : HardwareProfile; LastHeartbeat : Z; Status : string;
  OptOutCompute : bool; OptOutStorage : bool; OptOutPrinting : bool;
  HasEnabledPrinter : bool;
  OwnerActive : bool; CPUUtilPct : float64; LoadSampledAt : Z; InFlight : Z }.
#[export] Instance eta_NodeEntry : Eta NodeEntry := fun r =>
  mkNodeEntry (NodeID r) (ParticipantID r) (NodeClass r) (CountryCode r) (Region r)
    (Hardware r) (LastHeartbeat r) (Status r) (OptOutCompute r) (OptOutStorage r)
    (OptOutPrinting r) (HasEnabledPrinter r) (OwnerActive r) (CPUUtilPct r)
    (LoadSampledAt r) (InFlight r).

(** The zero [NodeEntry], from which the Go struct literals start. *)
Definition zero_hw : HardwareProfile := mkHardwareProfile 0 0 false 0 0.
Definition zero_entry : NodeEntry :=
  mkNodeEntry "" "" "" "" "" zero_hw time_zero "" false false false false
    false f64_zero time_zero 0.

Record NodeLoadState := mkLoad {
  load_OwnerActive : bool; load_CPUUtilPct : float64; load_SampledAt : Z }.

Record NodeOptOutState := mkOptOut {
  oo_Compute : bool; oo_Storage : bool; oo_Printing : bool; oo_HasEnabledPrinter : bool }.

Record MatchRequest := mkMatchRequest {
  mr_WorkloadType : MarketplaceWorkloadType; mr_CountryConstraint : string;
  mr_CPUCores : Z; mr_RAMMB : Z; mr_GPURequired : bool; mr_StorageGB : Z;
  mr_ExcludedNodeIDs : list string; mr_ExcludeConsumerParticipantID : string }.

Abbreviation NodeRegistry := (gmap string NodeEntry).

Definition online : string := "online".

(** ** Operations *)

Definition NewNodeRegistry : NodeRegistry := ∅.

Definition Register (entry : NodeEntry) (r : NodeRegistry) : NodeRegistry :=
  <[NodeID entry := entry]> r.

Definition Heartbeat (now : Z) (nodeID : string) (r : NodeRegistry) :
    result string NodeRegistry :=
  match r !! nodeID with
  | None => Err "heartbeat: node not found"
  | Some entry => Ok (<[nodeID := entry <| LastHeartbeat := now |>]> r)
  end.

Definition UpdateOptOut (nodeID : string) (state : NodeOptOutState) (r : NodeRegistry) :
    result string NodeRegistry :=
  match r !! nodeID with
  | None => Err "update opt-out: node not found"
  | Some entry => Ok (<[nodeID := entry
      <| OptOutCompute := oo_Compute state |>
      <| OptOutStorage := oo_Storage state |>
      <| OptOutPrinting := oo_Printing state |>
      <| HasEnabledPrinter := oo_HasEnabledPrinter state |>]> r)
  end.

Definition UpdateLoad (nodeID : string) (state : NodeLoadState) (r : NodeRegistry) :
    result string NodeRegistry :=
  match r !! nodeID with
  | None => Err "update load: node not found"
  | Some entry => Ok (<[nodeID := entry
      <| OwnerActive := load_OwnerActive state |>
      <| CPUUtilPct := load_CPUUtilPct state |>
      <| LoadSampledAt := load_SampledAt state |>]> r)
  end.

(** [entry.InFlight += delta], clamped at zero; a missing node is a no-op. *)
Definition AddInFlight (nodeID : string) (delta : Z) (r : NodeRegistry) : NodeRegistry :=
  match r !! nodeID with
  | None => r
  | Some entry =>
      let n := to_int64 (InFlight entry + delta) in
      <[nodeID := entry <| InFlight := (if n <? 0 then 0 else n) |>]> r
  end.

Definition IsOnline (nodeID : string) (r : NodeRegistry) : bool :=
  match r !! nodeID with
  | None => false
  | Some entry => bool_decide (Status entry = online)
  end.

Definition Get (nodeID : string) (r : NodeRegistry) : option NodeEntry := r !! nodeID.

Definition Evict (nodeID : string) (r : NodeRegistry) : NodeRegistry := delete nodeID r.

(** The opt-out part of the loop body of [FindMatch]: [true] when the node is
    skipped.  An unknown workload type is not filtered. *)
Definition opted_out (w : MarketplaceWorkloadType) (node : NodeEntry) : bool :=
  if bool_decide (w = "") then false
  else match MarketplaceToAgent w with
  | Err _ => false
  | Ok cat =>
      if bool_decide (cat = WorkloadCompute) then OptOutCompute node
      else if bool_decide (cat = WorkloadStorage) then OptOutStorage node
      else if bool_decide (cat = WorkloadPrintTraditional) || bool_decide (cat = WorkloadPrint3D)
      then OptOutPrinting node || negb (HasEnabledPrinter node)
      else false
  end.

(** The loop body of [FindMatch]: does [node] become a candidate? *)
Definition node_matches (req : MatchRequest) (node : NodeEntry) : bool :=
  let hw := Hardware node in
  if bool_decide (NodeID node ∈ mr_ExcludedNodeIDs req) then false
  else if negb (bool_decide (mr_ExcludeConsumerParticipantID req = ""))
       && bool_decide (ParticipantID node = mr_ExcludeConsumerParticipantID req) then false
  else if negb (bool_decide (Status node = online)) then false
  else if negb (bool_decide (mr_CountryConstraint req = ""))
       && negb (bool_decide (CountryCode node = mr_CountryConstraint req)) then false
  else if mr_GPURequired req && negb (GPUPresent hw) then false
  else if CPUCores hw <? mr_CPUCores req then false
  else if RAMMB hw <? mr_RAMMB req then false
  else if StorageGB hw <? mr_StorageGB req then false
  else negb (opted_out (mr_WorkloadType req) node).

Definition FindMatch `{MapOrder} (req : MatchRequest) (r : NodeRegistry) :
    result string (list NodeEntry) :=
  let candidates := filter (fun n => node_matches req n = true) (map_range r).*2 in
  match candidates with
  | [] => Err "no available nodes match request"
  | _ => Ok candidates
  end.

(** The supply snapshot of the online nodes for the capacity sampler. *)
Definition capacity_input (node : NodeEntry) : NodeCapacityInput :=
  mkCapInput OperatorUnknown (NodeClass node) (CPUCores (Hardware node)) (RAMMB (Hardware node))
    (to_int64 (StorageGB (Hardware node) * 1024))
    (OptOutCompute node) (OptOutStorage node) (OptOutPrinting node) (HasEnabledPrinter node).

Definition CapacityInputs `{MapOrder} (r : NodeRegistry) : list NodeCapacityInput :=
  capacity_input <$> filter (fun n => Status n = online) (map_range r).*2.

(** [evictStale]: drop every entry whose last heartbeat is before the cutoff. *)
Definition evictStale (now maxAge : Z) (r : NodeRegistry) : NodeRegistry :=
  let cutoff := now - maxAge in
  filter (fun '(_, node) => ~ LastHeartbeat node < cutoff) r.

(** ** The registry invariant *)

(** Every entry sits under its own id with a non-negative in-flight counter. *)
Definition reg_wf (r : NodeRegistry) : Prop :=
  forall id node, r !! id = Some node -> NodeID node = id /\ 0 <= InFlight node.

(** The calls the rest of the program makes on the shared registry. *)
Inductive RegOp :=
| OpRegister (entry : NodeEntry)
| OpHeartbeat (now : Z) (id : string)
| OpUpdateOptOut (id : string) (state : NodeOptOutState)
| OpUpdateLoad (id : string) (state : NodeLoadState)
| OpAddInFlight (id : string) (delta : Z)
| OpEvict (id : string)
| OpEvictStale (now maxAge : Z).

Definition ok_or (r : NodeRegistry) (x : result string NodeRegistry) : NodeRegistry :=
  match x with Ok r' => r' | Err _ => r end.

Definition reg_step (op : RegOp) (r : NodeRegistry) : NodeRegistry :=
  match op with
  | OpRegister entry => Register entry r
  | OpHeartbeat now id => ok_or r (Heartbeat now id r)
  | OpUpdateOptOut id st => ok_or r (UpdateOptOut id st r)
  | OpUpdateLoad id st => ok_or r (UpdateLoad id st r)
  | OpAddInFlight id d => AddInFlight id d r
  | OpEvict id => Evict id r
  | OpEvictStale now age => evictStale now age r
  end.

(** ** What a match is *)

(** The node's owner does not want workloads of type [w] on it. *)
Definition refuses (node : NodeEntry) (w : MarketplaceWorkloadType) : Prop :=
  MarketplaceToAgent w = Ok WorkloadCompute /\ OptOutCompute node = true \/
  MarketplaceToAgent w = Ok WorkloadStorage /\ OptOutStorage node = true \/
  (MarketplaceToAgent w = Ok WorkloadPrintTraditional \/
   MarketplaceToAgent w = Ok WorkloadPrint3D) /\
  (OptOutPrinting node = true \/ HasEnabledPrinter node = false).

(** The node may be offered the requested placement. *)
Definition eligible (req : MatchRequest) (node : NodeEntry) : Prop :=
  NodeID node ∉ mr_ExcludedNodeIDs req /\
  (mr_ExcludeConsumerParticipantID req <> "" ->
     ParticipantID node <> mr_ExcludeConsumerParticipantID req) /\
  Status node = online /\
  (mr_CountryConstraint req <> "" -> CountryCode node = mr_CountryConstraint req) /\
  (mr_GPURequired req = true -> GPUPresent (Hardware node) = true) /\
  mr_CPUCores req <= CPUCores (Hardware node) /\
  mr_RAMMB req <= RAMMB (Hardware node) /\
  mr_StorageGB req <= StorageGB (Hardware node) /\
  ~ refuses node (mr_WorkloadType req).

(** ** Lemmas *)

Lemma FindMatch_elem `{MapOrder} req r l node :
  FindMatch req r = Ok l ->
  node ∈ l <-> node_matches req node = true /\ exists id, r !! id = Some node.
Proof.
  unfold FindMatch. set (c := filter _ _). intros Hl.
  assert (l = c) as -> by (destruct c; simplify_eq; done).
  unfold c. rewrite list_elem_of_filter, list_elem_of_fmap. f_equiv.
  setoid_rewrite map_range_perm. split.
  - intros ([id n] & -> & Hin). exists id. by apply elem_of_map_to_list.
  - intros [id Hid]. exists (id, node). by rewrite elem_of_map_to_list.
Qed.

Lemma FindMatch_err `{MapOrder} req r e :
  FindMatch req r = Err e -> forall id node, r !! id = Some node -> node_matches req node = false.
Proof.
  unfold FindMatch. destruct (filter _ _) as [|n l] eqn:Hf; [|done]. intros _ id node Hid.
  apply not_true_iff_false. intros Hm.
  assert (Hin : node ∈ filter (fun n => node_matches req n = true) (map_range r).*2).
  { apply list_elem_of_filter. split; [done|]. apply list_elem_of_fmap. exists (id, node).
    split; [done|]. rewrite map_range_perm. by apply elem_of_map_to_list. }
  rewrite Hf in Hin. by apply not_elem_of_nil in Hin.
Qed.

Lemma FindMatch_length `{MapOrder} req (r : NodeRegistry) l :
  FindMatch req r = Ok l ->
  length l = size (filter (fun '(_, n) => node_matches req n = true) r).
Proof.
  unfold FindMatch. set (c := filter _ _). intros Hl.
  assert (l = c) as -> by (destruct c; simplify_eq; done).
  unfold c. rewrite map_range_perm, list_filter_fmap, length_fmap, <- length_map_to_list.
  rewrite map_to_list_filter. f_equal. apply list_filter_iff. by intros [??].
Qed.

Lemma FindMatch_nonempty `{MapOrder} req r l : FindMatch req r = Ok l -> l <> [].
Proof. unfold FindMatch. case_match; by intros [= <-]. Qed.

Lemma opted_out_refuses w node : opted_out w node = true <-> refuses node w.
Proof.
  unfold opted_out, refuses. case_bool_decide as Hw.
  - subst w. assert (He : exists e, MarketplaceToAgent "" = Err e) by (eexists; reflexivity).
    destruct He as [e ->]. naive_solver.
  - destruct (MarketplaceToAgent w) as [cat|e]; [|naive_solver].
    repeat case_bool_decide; subst; simpl;
      rewrite ?orb_true_iff, ?negb_true_iff; naive_solver.
Qed.

(** The guards of the loop decide eligibility. *)
Lemma node_matches_eligible req node : node_matches req node = true <-> eligible req node.
Proof.
  unfold node_matches, eligible. rewrite <- opted_out_refuses.
  rewrite !guard_false, !optional_guard, negb_true_iff, !negb_false_iff, !Z.ltb_ge.
  rewrite !bool_decide_eq_false, !bool_decide_eq_true, not_true_iff_false.
  rewrite andb_false_iff, negb_false_iff. destruct (mr_GPURequired req); naive_solver.
Qed.

Lemma opted_out_compute w node :
  MarketplaceToAgent w = Ok WorkloadCompute -> opted_out w node = OptOutCompute node.
Proof.
  intros H. unfold opted_out. rewrite H. case_bool_decide as Hw; [by subst|done].
Qed.

Lemma opted_out_storage w node :
  MarketplaceToAgent w = Ok WorkloadStorage -> opted_out w node = OptOutStorage node.
Proof.
  intros H. unfold opted_out. rewrite H. case_bool_decide as Hw; [by subst|done].
Qed.

Lemma opted_out_print w node :
  is_print w = true -> opted_out w node = OptOutPrinting node || negb (HasEnabledPrinter node).
Proof.
  unfold is_print. rewrite orb_true_iff, !bool_decide_eq_true. by intros [-> | ->].
Qed.

Lemma AddInFlight_lookup id delta r id' :
  AddInFlight id delta r !! id' =
  if decide (id = id') then
    (fun e => e <| InFlight := Z.max 0 (to_int64 (InFlight e + delta)) |>) <$> r !! id
  else r !! id'.
Proof.
  unfold AddInFlight. destruct (r !! id) as [e|] eqn:He.
  - rewrite lookup_insert. case_decide; [|done]. simpl. f_equal. f_equal.
    case_match; reflect_bools; lia.
  - case_decide; [by subst|done].
Qed.

(** A method that rewrites one entry in place keeps the key set and the id. *)
Lemma reg_wf_update r id e e' :
  reg_wf r -> r !! id = Some e -> NodeID e' = NodeID e -> 0 <= InFlight e' ->
  reg_wf (<[id := e']> r).
Proof.
  intros Hwf He Hid Hf i n. rewrite lookup_insert. case_decide as Hi; [|apply Hwf].
  intros [= <-]. split; [|done]. subst i. rewrite Hid. by apply Hwf.
Qed.

Lemma reg_step_wf op r :
  (forall e, op = OpRegister e -> 0 <= InFlight e) -> reg_wf r -> reg_wf (reg_step op r).
Proof.
  intros Hreg Hwf. destruct op; simpl.
  - intros i n. unfold Register. rewrite lookup_insert. case_decide; [|apply Hwf].
    intros [= <-]. subst. split; [done|]. by apply Hreg.
  - unfold Heartbeat. destruct (r !! id) eqn:He; [|done].
    apply (reg_wf_update _ _ _ _ Hwf He); [done|simpl; apply (Hwf id); done].
  - unfold UpdateOptOut. destruct (r !! id) eqn:He; [|done].
    apply (reg_wf_update _ _ _ _ Hwf He); [done|simpl; apply (Hwf id); done].
  - unfold UpdateLoad. destruct (r !! id) eqn:He; [|done].
    apply (reg_wf_update _ _ _ _ Hwf He); [done|simpl; apply (Hwf id); done].
  - unfold AddInFlight. destruct (r !! id) eqn:He; [|done].
    apply (reg_wf_update _ _ _ _ Hwf He); [done|]. cbn. case_match; reflect_bools; lia.
  - intros i n. unfold Evict. rewrite lookup_delete. case_decide; [done|apply Hwf].
  - intros i n. unfold evictStale. rewrite map_lookup_filter_Some. intros [Hn _]. by apply Hwf.
Qed.

#[export] Hint Resolve FindMatch_nonempty reg_step_wf : soho.

(** ** Theorems *)

(** C15 [FindMatch] is exact: it returns precisely the registered nodes that are
    eligible for the request (online, not excluded, not owned by the requester,
    in the required country, large enough, not opted out), each once, and it
    fails precisely when no registered node is eligible. *)
Theorem FindMatch_exact `{MapOrder} req (r : NodeRegistry) :
  match FindMatch req r with
  | Ok l => l <> [] /\ length l = size (filter (fun '(_, n) => node_matches req n = true) r) /\
      forall node, node ∈ l <-> eligible req node /\ exists id, r !! id = Some node
  | Err _ => forall id node, r !! id = Some node -> ~ eligible req node
  end.
Proof.
  destruct (FindMatch req r) as [l|e] eqn:Hf.
  - split; [by eapply FindMatch_nonempty|]. split; [by eapply FindMatch_length|].
    intros node. rewrite <- node_matches_eligible. by apply FindMatch_elem.
  - intros id node Hid. rewrite <- node_matches_eligible.
    by rewrite (FindMatch_err _ _ _ Hf _ _ Hid).
Qed.

(** C40 Registry invariant: whatever sequence of registry calls the handlers,
    the orchestrator and the eviction loop make, every entry stays filed under
    its own node id and no in-flight counter is ever negative. *)
Theorem registry_invariant (ops : list RegOp) :
  (forall e, OpRegister e ∈ ops -> 0 <= InFlight e) ->
  reg_wf (foldl (fun r op => reg_step op r) NewNodeRegistry ops).
Proof.
  intros Hops. assert (H0 : reg_wf NewNodeRegistry) by (intros id n; unfold NewNodeRegistry; by rewrite lookup_empty).
  revert H0 Hops. generalize NewNodeRegistry as r.
  induction ops as [|op ops IH]; intros r Hr Hops; simpl; [done|].
  apply IH.
  - apply reg_step_wf; [|done]. intros e ->. apply Hops. by constructor.
  - intros e He. apply Hops. by constructor.
Qed.

Lemma registry_invariant_witness :
  let ops := [OpRegister (zero_entry <| NodeID := "n1" |>); OpAddInFlight "n1" 1;
              OpAddInFlight "n1" (-3)] in
  reg_wf (foldl (fun r op => reg_step op r) NewNodeRegistry ops).
Proof.
  apply registry_invariant. intros e He. rewrite !elem_of_cons in He.
  destruct He as [[= ->]|[[=]|[[=]|He]]]; [vm_compute; discriminate|].
  by apply not_elem_of_nil in He.
Defined.
