(* ===== verification/Scheduler.v ===== *)
(** The placement scheduler of internal/scheduler/scheduler.go.

    The scores are computed in [float64], operation by operation as the source
    writes them (no fused multiply-add, as on amd64).  [time.Since] reads the
    wall clock each time it is called: the i-th candidate is scored with the
    readings [clock (2i)] and [clock (2i+1)]. *)
From S2P Require Import Prelude Float64 Workload Registry.
Local Open Scope string_scope.
Local Open Scope Z_scope.

Record PlacementContext := mkPlacementContext {
  RequesterParticipantID : string; RequesterRegion : string; RequesterCountry : string }.

(** [SLATier] is the number of nodes to select. *)
Definition SLAStandard : Z := 1.
Definition SLAReliable : Z := 2.
Definition SLAPremium : Z := 3.

Record CandidateScore := mkCandidateScore { cs_Node : NodeEntry; cs_Score : float64 }.

Definition classScore (class : string) : float64 :=
  if bool_decide (class = "A") then f64_of_Z 4
  else if bool_decide (class = "B") then f64_of_Z 3
  else if bool_decide (class = "C") then f64_of_Z 2
  else if bool_decide (class = "D") then f64_of_Z 1
  else f64_zero.

Definition staleCutoff : Z := 30 * Minute.

Definition freshnessScore (now lastHeartbeat : Z) : float64 :=
  let age := time_sub now lastHeartbeat in
  if age <=? 0 then f64_one
  else f64_max f64_zero (f64_sub f64_one (f64_div (Seconds age) (Seconds staleCutoff))).

Definition wLocality : float64 := f64_of_Z 10.
Definition wIdle : float64 := f64_of_Z 2.
Definition perInFlightPenalty : float64 := f64_lit 1 2.
Definition loadSampleTTL : Z := 3 * 60 * Second.

Definition localityScore (node : NodeEntry) (pctx : PlacementContext) : float64 :=
  if negb (bool_decide (Region node = "")) && bool_decide (Region node = RequesterRegion pctx)
  then f64_lit 6 10
  else if negb (bool_decide (RequesterCountry pctx = ""))
       && bool_decide (CountryCode node = RequesterCountry pctx)
  then f64_lit 3 10
  else f64_zero.

Definition idleScore (now : Z) (node : NodeEntry) : float64 :=
  if OwnerActive node then f64_zero
  else if bool_decide (LoadSampledAt node = time_zero)
       || (loadSampleTTL <? time_sub now (LoadSampledAt node)) then f64_zero
  else
    let util := f64_div (CPUUtilPct node) (f64_of_Z 100) in
    let util := if f64_lt util f64_zero then f64_zero else util in
    let util := if f64_lt f64_one util then f64_one else util in
    f64_sub f64_one util.

Definition maxCPU (candidates : list NodeEntry) : Z :=
  foldl (fun m node => if m <? CPUCores (Hardware node) then CPUCores (Hardware node) else m)
    1 candidates.

(** The score of one candidate: the sum is evaluated from left to right. *)
Definition score (nowFresh nowIdle cpus : Z) (pctx : PlacementContext) (node : NodeEntry) :
    float64 :=
  let capacityScore := f64_div (f64_of_Z (CPUCores (Hardware node))) (f64_of_Z cpus) in
  let s := f64_add (classScore (NodeClass node)) (freshnessScore nowFresh (LastHeartbeat node)) in
  let s := f64_add s capacityScore in
  let s := f64_add s (f64_mul wLocality (localityScore node pctx)) in
  let s := f64_add s (f64_mul wIdle (idleScore nowIdle node)) in
  f64_sub s (f64_mul perInFlightPenalty (f64_of_Z (InFlight node))).

Definition score_all (clock : nat -> Z) (pctx : PlacementContext) (candidates : list NodeEntry) :
    list CandidateScore :=
  let cpus := maxCPU candidates in
  imap (fun i node =>
    mkCandidateScore node (score (clock (2 * i)%nat) (clock (2 * i + 1)%nat) cpus pctx node))
    candidates.

Section Schedule.
Context (srt : forall A, (A -> A -> bool) -> list A -> list A).

Definition rank_less (a b : CandidateScore) : bool := f64_lt (cs_Score b) (cs_Score a).

(** [None] when [make] panics on a negative length. *)
Definition Schedule (clock : nat -> Z) (candidates : list NodeEntry) (tier : Z)
    (pctx : PlacementContext) : option (result string (list NodeEntry)) :=
  if Z.of_nat (length candidates) <? tier then Some (Err "schedule: not enough candidates")
  else if tier <? 0 then None
  else
    let scored := srt _ rank_less (score_all clock pctx candidates) in
    Some (Ok (take (Z.to_nat tier) (cs_Node <$> scored))).

End Schedule.

(** ** Scores are numbers *)

(** What the registry guarantees of an entry the scheduler sees: counters in
    range and a load sample that is a number (JSON has no NaN). *)
Definition scorable (node : NodeEntry) : Prop :=
  0 <= CPUCores (Hardware node) <= int64_max /\ 0 <= InFlight node <= int64_max /\
  is_nan (CPUUtilPct node) = false /\ fits_f64 (CPUUtilPct node).

Lemma classScore_signed c : signed_f64 false (classScore c).
Proof. unfold classScore. repeat case_bool_decide; by vm_compute. Qed.

Lemma localityScore_signed node pctx :
  signed_f64 false (f64_mul wLocality (localityScore node pctx)).
Proof. unfold localityScore. repeat case_match; by vm_compute. Qed.

Lemma Seconds_signed d : 0 <= d -> signed_f64 false (Seconds d).
Proof.
  intros Hd. unfold Seconds. apply f64_add_signed.
  - apply f64_of_Z_signed, Z.quot_pos; [done|by vm_compute].
  - apply f64_div_signed; [by vm_compute|].
    apply f64_of_Z_signed, Z.rem_nonneg; [by vm_compute|done].
Qed.

Lemma freshnessScore_signed now hb : signed_f64 false (freshnessScore now hb).
Proof.
  unfold freshnessScore. set (age := time_sub now hb). case_match; [by vm_compute|].
  reflect_bools. assert (Hs : signed_f64 false (f64_div (Seconds age) (Seconds staleCutoff))).
  { apply f64_div_signed; [by vm_compute|]. apply Seconds_signed. lia. }
  apply f64_max_zero_signed.
  - apply f64_sub_not_nan; [done|by eapply signed_not_nan|by right].
  - apply f64_sub_fits; [by vm_compute|by eapply signed_fits].
Qed.

Lemma idleScore_signed now node :
  is_nan (CPUUtilPct node) = false -> fits_f64 (CPUUtilPct node) ->
  signed_f64 false (idleScore now node).
Proof.
  intros Hn Hf. unfold idleScore. do 2 (case_match; [done|]).
  set (u := f64_div (CPUUtilPct node) (f64_of_Z 100)).
  assert (Hu : fits_f64 u) by (by apply f64_div_fits).
  assert (Hun : is_nan u = false).
  { unfold u. change (f64_of_Z 100) with (S754_finite false 7036874417766400 (-46)).
    destruct (CPUUtilPct node) as [[]|[]| |[] m e]; try done; unfold f64_div, SFdiv;
      case_match; case_match; eapply signed_not_nan, binary_round_aux_signed,
      SFdiv_core_nonneg; eauto. }
  destruct (f64_lt u f64_zero) eqn:Hlt0.
  - replace (f64_lt f64_one f64_zero) with false by done. by vm_compute.
  - destruct (f64_lt f64_one u) eqn:Hlt1; [by vm_compute|]. by apply f64_one_minus_nonneg.
Qed.

Lemma score_not_nan nf ni cpus pctx node :
  scorable node -> 1 <= cpus <= int64_max ->
  is_nan (score nf ni cpus pctx node) = false.
Proof.
  intros (Hc & Hi & Hn & Hf) Hcpus. unfold score.
  apply f64_sub_not_nan.
  - eapply signed_not_nan. repeat apply f64_add_signed.
    + apply classScore_signed.
    + apply freshnessScore_signed.
    + apply f64_div_signed; [by apply f64_of_Z_pos|]. apply f64_of_Z_signed. lia.
    + apply localityScore_signed.
    + apply f64_mul_signed; [by vm_compute|]. by apply idleScore_signed.
  - eapply signed_not_nan, f64_mul_signed; [by vm_compute|]. apply f64_of_Z_signed. lia.
  - left. assert (Hle : exp_le 80 (f64_mul perInFlightPenalty (f64_of_Z (InFlight node)))).
    { assert (Hp : pos_f64 perInFlightPenalty) by (by vm_compute).
      assert (He : exp_le 0 perInFlightPenalty) by (by vm_compute).
      assert (Hfi : fits_f64 (f64_of_Z (InFlight node)))
        by (eapply signed_fits, f64_of_Z_signed; lia).
      apply (f64_mul_exp _ _ 0 20 Hp Hfi He (f64_of_Z_exp _ Hi)); lia. }
    by destruct (f64_mul _ _).
Qed.

Lemma maxCPU_range candidates :
  Forall scorable candidates -> 1 <= maxCPU candidates <= int64_max.
Proof.
  unfold maxCPU. set (f := fun m node => _). intros Hs.
  enough (H : forall m, 1 <= m <= int64_max -> 1 <= foldl f m candidates <= int64_max)
    by (apply H; by vm_compute).
  revert Hs. induction candidates as [|n l IH]; intros Hl m Hm; simpl; [lia|].
  apply Forall_cons in Hl as [Hn Hl]. apply IH; [done|]. destruct Hn as [Hn _].
  unfold f. case_match; reflect_bools; lia.
Qed.

Lemma score_all_nodes clock pctx candidates :
  cs_Node <$> score_all clock pctx candidates = candidates.
Proof.
  unfold score_all. rewrite fmap_imap. unfold compose; simpl.
  transitivity (imap (const (@id NodeEntry)) candidates); [done|].
  by rewrite imap_const, list_fmap_id.
Qed.

Lemma score_all_not_nan clock pctx candidates c :
  Forall scorable candidates -> c ∈ score_all clock pctx candidates ->
  is_nan (cs_Score c) = false.
Proof.
  intros Hs Hc. apply elem_of_lookup_imap in Hc as (i & node & -> & Hi). simpl.
  apply score_not_nan; [|by apply maxCPU_range].
  rewrite Forall_forall in Hs. by eapply Hs, list_elem_of_lookup_2.
Qed.

(** [sort.Slice] gets a strict weak order, so the result is ranked. *)
Lemma Schedule_sorted srt `{!SortSlice srt} clock pctx candidates :
  Forall scorable candidates ->
  sorted_by rank_less (srt _ rank_less (score_all clock pctx candidates)).
Proof.
  intros Hs. apply sort_sorted, (f64_desc_weak_order cs_Score).
  intros c Hc. by eapply score_all_not_nan.
Qed.

(** A scheduled node is a candidate; a non-empty pool and tier give one. *)
Lemma Schedule_incl srt `{!SortSlice srt} clock candidates tier pctx l node :
  Schedule srt clock candidates tier pctx = Some (Ok l) -> node ∈ l -> node ∈ candidates.
Proof.
  unfold Schedule. do 2 (case_match; [done|]). intros [= <-] Hn.
  rewrite <- (score_all_nodes clock pctx candidates).
  rewrite (sort_perm _ rank_less (score_all clock pctx candidates)).
  rewrite <- (take_drop (Z.to_nat tier) (cs_Node <$> _)). apply elem_of_app. by left.
Qed.

Lemma Schedule_length srt `{!SortSlice srt} clock candidates tier pctx l :
  Schedule srt clock candidates tier pctx = Some (Ok l) -> Z.of_nat (length l) = tier.
Proof.
  unfold Schedule. do 2 (case_match; [done|]). intros [= <-]. reflect_bools.
  rewrite length_take, length_fmap, <- (Permutation_length (sort_perm _ rank_less _)).
  unfold score_all. rewrite length_imap. lia.
Qed.

#[export] Hint Resolve Schedule_incl Schedule_length : soho.

(** ** Theorems *)

(** C17 [Schedule] returns exactly [tier] nodes, all taken from the candidate
    list (each candidate at most once), in rank order, and no node left out
    scores above a node selected; with too few candidates it fails instead.
    Holds for every sorting function with the contract of [sort.Slice]. *)
Theorem Schedule_ranks srt `{!SortSlice srt} clock candidates tier pctx :
  Forall scorable candidates -> 0 <= tier ->
  if Z.of_nat (length candidates) <? tier
  then exists e, Schedule srt clock candidates tier pctx = Some (Err e)
  else exists sel rest,
    Schedule srt clock candidates tier pctx = Some (Ok (cs_Node <$> sel)) /\
    Z.of_nat (length sel) = tier /\
    score_all clock pctx candidates ≡ₚ sel ++ rest /\
    cs_Node <$> score_all clock pctx candidates = candidates /\
    sorted_by rank_less sel /\
    (forall a b, a ∈ sel -> b ∈ rest -> f64_lt (cs_Score a) (cs_Score b) = false).
Proof.
  intros Hs Ht. pose proof (Schedule_sorted srt clock pctx _ Hs) as Hsorted.
  pose proof (sort_perm (srt := srt) _ rank_less (score_all clock pctx candidates)) as Hp.
  unfold Schedule. case_match; [by eexists|]. rewrite (proj2 (Z.ltb_ge tier 0)) by lia.
  revert Hsorted Hp. set (sc := srt _ _ _). intros Hsorted Hp.
  exists (take (Z.to_nat tier) sc), (drop (Z.to_nat tier) sc). rewrite take_drop. split_and!; auto.
  - by rewrite fmap_take.
  - reflect_bools. rewrite length_take, <- Hp. unfold score_all. rewrite length_imap. lia.
  - apply score_all_nodes.
  - by apply sorted_by_take.
  - intros a b Ha Hb. by apply (sorted_by_take_drop rank_less sc (Z.to_nat tier)).
Qed.

(** Two concrete candidates, used by the witnesses below. *)
Definition sample_now : Z := 1700000000 * Second.
Definition sample_node (id class region country : string) (cores : Z) (sampled : bool) : NodeEntry :=
  zero_entry <| NodeID := id |> <| NodeClass := class |> <| Region := region |>
    <| CountryCode := country |> <| Status := online |> <| LastHeartbeat := sample_now |>
    <| Hardware := zero_hw <| CPUCores := cores |> |>
    <| LoadSampledAt := if sampled then sample_now else time_zero |>.

Lemma Schedule_ranks_witness :
  let l := [sample_node "n1" "B" "r" "US" 4 true; sample_node "n2" "A" "r" "US" 8 false] in
  let pctx := mkPlacementContext "" "" "" in
  exists sel rest,
    Schedule isort (fun _ => sample_now) l SLAStandard pctx = Some (Ok (cs_Node <$> sel)) /\
    Z.of_nat (length sel) = SLAStandard /\
    score_all (fun _ => sample_now) pctx l ≡ₚ sel ++ rest /\
    cs_Node <$> score_all (fun _ => sample_now) pctx l = l /\
    sorted_by rank_less sel /\
    (forall a b, a ∈ sel -> b ∈ rest -> f64_lt (cs_Score a) (cs_Score b) = false).
Proof.
  intros l pctx. apply (Schedule_ranks isort (fun _ => sample_now) l SLAStandard pctx).
  - repeat constructor; by vm_compute.
  - by vm_compute.
Defined.

(** The load-bearing rule of [idleScore]: a node whose owner is active, that
    never reported or whose sample is stale scores exactly zero, and therefore
    never outranks, on this term, a node that honestly reports any load. *)
Theorem idleScore_silence_never_wins now (silent honest : NodeEntry) :
  OwnerActive silent = true \/ LoadSampledAt silent = time_zero \/
    loadSampleTTL < now - LoadSampledAt silent ->
  is_nan (CPUUtilPct honest) = false -> fits_f64 (CPUUtilPct honest) ->
  idleScore now silent = f64_zero /\
  f64_lt (idleScore now honest) (idleScore now silent) = false.
Proof.
  intros Hs Hn Hf. assert (H0 : idleScore now silent = f64_zero).
  { unfold idleScore. case_match; [done|]. destruct Hs as [?|[Hz|Hst]]; [congruence| |].
    - by rewrite bool_decide_eq_true_2.
    - case_bool_decide; [done|]. simpl. rewrite (proj2 (Z.ltb_lt _ _)); [done|].
      unfold time_sub, int64_min, int64_max, loadSampleTTL, Second in *. lia. }
  split; [done|]. rewrite H0. apply signed_false_not_lt_zero. by apply idleScore_signed.
Qed.

Lemma idleScore_silence_never_wins_witness :
  let silent := sample_node "quiet" "A" "r" "US" 8 false in
  let honest := (sample_node "busy" "A" "r" "US" 8 true) <| CPUUtilPct := f64_of_Z 100 |> in
  idleScore sample_now silent = f64_zero /\
  f64_lt (idleScore sample_now honest) (idleScore sample_now silent) = false.
Proof.
  intros silent honest. apply idleScore_silence_never_wins; [right; by left|..]; by vm_compute.
Defined.

(** The soft terms overrule the certified ones.  Locality does not dominate: a
    same-region candidate of class D loses to an out-of-region candidate of class
    A in the requester's country that reports itself idle.  And the self-reported
    idle term overturns the class: of two candidates that differ only in class and
    in the load sample, the class B node that reports itself idle is picked over
    the class A node. *)
Theorem soft_terms_overrule :
  let local := sample_node "local" "D" "r1" "US" 1 false in
  let remote := sample_node "remote" "A" "r2" "US" 8 true in
  let certified := sample_node "certified" "A" "r" "US" 8 false in
  let idle := sample_node "idle" "B" "r" "US" 8 true in
  let pctx := mkPlacementContext "p" "r1" "US" in
  Region local = RequesterRegion pctx /\ Region remote <> RequesterRegion pctx /\
  Schedule isort (fun _ => sample_now) [local; remote] SLAStandard pctx = Some (Ok [remote]) /\
  f64_lt (classScore (NodeClass idle)) (classScore (NodeClass certified)) = true /\
  Schedule isort (fun _ => sample_now) [certified; idle] SLAStandard (mkPlacementContext "" "" "")
    = Some (Ok [idle]).
Proof.
  refine (conj eq_refl (conj _ (conj _ (conj _ _)))).
  - intros H; discriminate H.
  - vm_compute; reflexivity.
  - vm_compute; reflexivity.
  - vm_compute; reflexivity.
Qed.
