(* ===== verification/Database.v ===== *)
(** The PostgreSQL tables of internal/store/migrations that the modelled code
    reads and writes, and the effects of the Go code that talks to them.

    A table is a finite map from its primary key to a row record; a nullable
    column is an [option].  Go code runs in a state and error monad [M] over a
    [World]: the database, the in-memory node registry, the telemetry sink (if
    attached), the clock, a supply of UUIDs, the start of the
    open transaction (if any) and a list of [Event]s.  Every statement and every registry call
    consumes one event, which says what the rest of the system did since the
    previous one (other requests committing, time passing) and whether the
    statement fails: [LostBefore] is an error that left no trace, [LostAfter] a
    statement that took effect although its reply was lost.  A theorem that
    quantifies over the world therefore quantifies over all interleavings of
    statements and over all failures.

    A transaction is atomic and isolated: its statements see no interference, an
    error rolls the database back, and the commit itself can be lost on either side.
    The isolation is an idealisation: the program runs its transactions at READ
    COMMITTED, where a statement sees what others committed since the previous
    statement of the same transaction, unless that one locked the rows
    ([FOR UPDATE], or an UPDATE of them).  A theorem about a transaction is therefore
    about runs in which no other transaction commits between its first statement
    and its commit; races between transactions that this hides are stated with the
    statements of both written out, as in OperatorSafety.v. *)
From S2P Require Import Prelude Float64 Workload Sounding Registry.
Import Types.
Local Open Scope string_scope.
Local Open Scope Z_scope.

(** ** Column types *)

(** INTEGER *)
Definition int4 (z : Z) : bool := (- 2 ^ 31 <=? z) && (z <? 2 ^ 31).

(** TEXT holds UTF-8 without the zero byte. *)
Definition continuation (b : N) : bool := (128 <=? b)%N && (b <=? 191)%N.
Definition second_of_three (a b : N) : bool :=
  if (a =? 224)%N then (160 <=? b)%N && (b <=? 191)%N
  else if (a =? 237)%N then (128 <=? b)%N && (b <=? 159)%N else continuation b.
Definition second_of_four (a b : N) : bool :=
  if (a =? 240)%N then (144 <=? b)%N && (b <=? 191)%N
  else if (a =? 244)%N then (128 <=? b)%N && (b <=? 143)%N else continuation b.
Fixpoint utf8_text (l : list N) : bool :=
  match l with
  | [] => true
  | a :: l1 =>
      if (a <? 128)%N then negb (a =? 0)%N && utf8_text l1
      else match l1 with
      | [] => false
      | b :: l2 =>
          if (a <? 224)%N then (194 <=? a)%N && continuation b && utf8_text l2
          else match l2 with
          | [] => false
          | c :: l3 =>
              if (a <? 240)%N then second_of_three a b && continuation c && utf8_text l3
              else match l3 with
              | [] => false
              | d :: l4 => (a <=? 244)%N && second_of_four a b && continuation c && continuation d && utf8_text l4
              end
          end
      end
  end.
Definition pg_text (s : string) : bool := utf8_text (Ascii.N_of_ascii <$> String.list_ascii_of_string s).

(** CHAR(n): shorter text is padded with blanks, of longer text only blanks may be
    cut off. *)
Definition char_blank : Ascii.ascii := Ascii.ascii_of_N 32.
Fixpoint bpchar (n : nat) (s : string) : option string :=
  match s with
  | "" => Some (String.string_of_list_ascii (replicate n char_blank))
  | String.String c s' =>
      if continuation (Ascii.N_of_ascii c) then String.String c <$> bpchar n s'
      else match n with
      | O => if forallb (fun c => bool_decide (c = char_blank)) (String.list_ascii_of_string s) then Some "" else None
      | S n' => String.String c <$> bpchar n' s'
      end
  end.

Example char_columns : bpchar 2 <$> ["US"; "U"; "US  "; "USA"] = [Some "US"; Some "U "; Some "US"; None].
Proof. reflexivity. Qed.

(** TIMESTAMPTZ keeps microseconds; the driver drops what is below. *)
Definition timestamptz (t : Z) : Z := t - t mod 1000.

Lemma timestamptz_floor t : timestamptz t <= t.
Proof. unfold timestamptz. pose proof (Z.mod_pos_bound t 1000). lia. Qed.

(** ** Rows *)

Inductive job_status :=
| pending | scheduled | running | completed | failed | disputed
| awaiting_confirmation | declined | dispatched | awaiting_pickup | picked_up | delivered.
#[export] Instance job_status_eq_dec : EqDecision job_status.
Proof. solve_decision. Defined.

Record JobRow := mkJob {
  j_participant_id : option string; j_node_id : option string; j_workload_type : string;
  j_status : job_status; j_country_constraint : option string;
  j_cpu_cores : option Z; j_ram_mb : option Z; j_storage_gb : option Z; j_gpu_required : bool;
  j_container_image : option string; j_job_token : option string;
  j_amount_cents : Z; j_payment_intent_id : option string;
  j_printer_id : option string; j_spec_hash : option string;
  j_confirmation_deadline : option Z; j_confirmed_at : option Z; j_declined_at : option Z;
  j_started_at : option Z; j_completed_at : option Z; j_awaiting_pickup_at : option Z;
  j_picked_up_at : option Z; j_delivered_at : option Z;
  j_exit_code : option Z; j_failure_cause : option string; j_updated_at : Z }.
#[export] Instance eta_JobRow : Eta JobRow := fun r => mkJob
  (j_participant_id r) (j_node_id r) (j_workload_type r) (j_status r) (j_country_constraint r)
  (j_cpu_cores r) (j_ram_mb r) (j_storage_gb r) (j_gpu_required r) (j_container_image r)
  (j_job_token r) (j_amount_cents r) (j_payment_intent_id r) (j_printer_id r) (j_spec_hash r)
  (j_confirmation_deadline r) (j_confirmed_at r) (j_declined_at r) (j_started_at r)
  (j_completed_at r) (j_awaiting_pickup_at r) (j_picked_up_at r) (j_delivered_at r)
  (j_exit_code r) (j_failure_cause r) (j_updated_at r).

(** A value of a JSONB object. *)
Inductive jval :=
| JNum (z : Z) | JBool (b : bool) | JText (s : string) | JPrinters (l : list (string * string)).

Record NodeRow := mkNodeRow {
  n_participant_id : string; n_node_class : string; n_hostname : string;
  n_country_code : string; n_region : option string; n_status : string;
  n_last_heartbeat_at : option Z; n_hardware_profile : gmap string jval;
  n_uptime_pct : float64;
  n_opt_out_compute : bool; n_opt_out_storage : bool; n_opt_out_printing : bool;
  n_opt_out_version : Z; n_opt_out_updated_at : Z; n_updated_at : Z }.
#[export] Instance eta_NodeRow : Eta NodeRow := fun r => mkNodeRow
  (n_participant_id r) (n_node_class r) (n_hostname r) (n_country_code r) (n_region r)
  (n_status r) (n_last_heartbeat_at r) (n_hardware_profile r) (n_uptime_pct r)
  (n_opt_out_compute r) (n_opt_out_storage r) (n_opt_out_printing r)
  (n_opt_out_version r) (n_opt_out_updated_at r) (n_updated_at r).

Record ParticipantRow := mkParticipant {
  p_stripe_account_id : option string; p_country_code : option string; p_region : option string;
  p_is_staff : bool; p_email : string; p_password_hash : option string; p_soho_name : string;
  p_isp_tier : option string; p_disclosure_accepted_at : option Z;
  p_stripe_onboarding_complete : bool; p_onboarding_complete : bool }.
#[export] Instance eta_ParticipantRow : Eta ParticipantRow := fun r => mkParticipant
  (p_stripe_account_id r) (p_country_code r) (p_region r) (p_is_staff r) (p_email r)
  (p_password_hash r) (p_soho_name r) (p_isp_tier r) (p_disclosure_accepted_at r)
  (p_stripe_onboarding_complete r) (p_onboarding_complete r).

Record PrinterRow := mkPrinter { pr_name : string; pr_enabled : bool; pr_detected_at : Z }.
#[export] Instance eta_PrinterRow : Eta PrinterRow := fun r =>
  mkPrinter (pr_name r) (pr_enabled r) (pr_detected_at r).

Record MeteringRow := mkMetering {
  m_cpu_core_hours : float64; m_ram_gb_hours : float64; m_storage_gb_months : float64;
  m_consumer_paid_cents : Z; m_contributor_earned_cents : Z; m_platform_fee_cents : Z;
  m_payout_released_at : option Z }.
#[export] Instance eta_MeteringRow : Eta MeteringRow := fun r => mkMetering
  (m_cpu_core_hours r) (m_ram_gb_hours r) (m_storage_gb_months r) (m_consumer_paid_cents r)
  (m_contributor_earned_cents r) (m_platform_fee_cents r) (m_payout_released_at r).

Record PricingRow := mkPricing {
  rp_type : string; rp_base_rate : float64; rp_contributor_share : float64;
  rp_effective_from : Z; rp_effective_until : option Z }.

Record ProfileRow := mkProfile {
  pf_node_id : string; pf_name : string; pf_is_default : bool; pf_cpu_enabled : bool;
  pf_ram_pct : Z; pf_storage_gb : Z; pf_bandwidth_mbps : Z; pf_price_multiplier : float64 }.
#[export] Instance eta_ProfileRow : Eta ProfileRow := fun r => mkProfile
  (pf_node_id r) (pf_name r) (pf_is_default r) (pf_cpu_enabled r) (pf_ram_pct r)
  (pf_storage_gb r) (pf_bandwidth_mbps r) (pf_price_multiplier r).

Inductive dispute_status := d_open | d_under_review | d_resolved | d_escalated.
#[export] Instance dispute_status_eq_dec : EqDecision dispute_status.
Proof. solve_decision. Defined.

Record DisputeRow := mkDispute {
  d_job_id : string; d_node_id : string; d_participant_id : option string;
  d_payment_intent_id : string; d_status : dispute_status; d_reason : string;
  d_consumer_refund_pct : Z; d_arbiter : option string; d_resolved_at : option Z }.
#[export] Instance eta_DisputeRow : Eta DisputeRow := fun r => mkDispute
  (d_job_id r) (d_node_id r) (d_participant_id r) (d_payment_intent_id r) (d_status r)
  (d_reason r) (d_consumer_refund_pct r) (d_arbiter r) (d_resolved_at r).

Record RegTokenRow := mkRegToken {
  t_participant_id : string; t_expires_at : Z; t_used_at : option Z; t_node_id : option string;
  t_spire_join_token : option string }.
#[export] Instance eta_RegTokenRow : Eta RegTokenRow := fun r => mkRegToken
  (t_participant_id r) (t_expires_at r) (t_used_at r) (t_node_id r) (t_spire_join_token r).

Record ProtocolKeyRow := mkProtocolKey {
  k_public_key : string; k_algo : string; k_last_listing_seq : Z; k_last_heartbeat_seq : Z }.
#[export] Instance eta_ProtocolKeyRow : Eta ProtocolKeyRow := fun r => mkProtocolKey
  (k_public_key r) (k_algo r) (k_last_listing_seq r) (k_last_heartbeat_seq r).

(** ** The operator registry *)

Inductive operator_status := OperatorActive | OperatorRevoked.
Inductive operator_onboarding_state := PendingVerification | Verified | OnboardingActive.
Inductive operator_key_state := KeyActive | KeyExpired | KeyRetired | KeyRevoked.
Inductive ConformanceSuite := SuiteA | SuiteB | SuiteC.
Inductive run_status := RunRunning | RunPassed | RunFailed.
#[export] Instance operator_status_eq_dec : EqDecision operator_status.
Proof. solve_decision. Defined.
#[export] Instance operator_onboarding_state_eq_dec : EqDecision operator_onboarding_state.
Proof. solve_decision. Defined.
#[export] Instance operator_key_state_eq_dec : EqDecision operator_key_state.
Proof. solve_decision. Defined.
#[export] Instance ConformanceSuite_eq_dec : EqDecision ConformanceSuite.
Proof. solve_decision. Defined.
#[export] Instance run_status_eq_dec : EqDecision run_status.
Proof. solve_decision. Defined.

Record OperatorRow := mkOperator {
  o_name : string; o_email : string; o_phone : option string; o_status : operator_status;
  o_onboarding_state : operator_onboarding_state; o_email_verified : bool;
  o_conformance_passed_at : option Z; o_conformance_keyset_hash : option string; o_created_at : Z }.
#[export] Instance eta_OperatorRow : Eta OperatorRow := fun r => mkOperator
  (o_name r) (o_email r) (o_phone r) (o_status r) (o_onboarding_state r) (o_email_verified r)
  (o_conformance_passed_at r) (o_conformance_keyset_hash r) (o_created_at r).

Record OperatorKeyRow := mkOperatorKey {
  ok_operator_id : string; ok_key_index : Z; ok_public_key : string; ok_algo : string;
  ok_state : operator_key_state; ok_usage_count : Z; ok_expiration_threshold : Z;
  ok_created_at : Z }.
#[export] Instance eta_OperatorKeyRow : Eta OperatorKeyRow := fun r => mkOperatorKey
  (ok_operator_id r) (ok_key_index r) (ok_public_key r) (ok_algo r) (ok_state r)
  (ok_usage_count r) (ok_expiration_threshold r) (ok_created_at r).

(** The channel, part of the primary key, can only be 'email'. *)
Record VerificationRow := mkVerification {
  vf_code : string; vf_attempts : Z; vf_session_id : string; vf_expires_at : Z; vf_created_at : Z }.
#[export] Instance eta_VerificationRow : Eta VerificationRow := fun r => mkVerification
  (vf_code r) (vf_attempts r) (vf_session_id r) (vf_expires_at r) (vf_created_at r).

Record ReplayRow := mkReplay { rp_seq_high : Z; rp_seq_window : list Z }.

Record NonceRow := mkNonce {
  nc_operator_id : string; nc_scope : string; nc_expires_at : Z; nc_created_at : Z }.

Record RunRow := mkRun {
  rn_operator_id : string; rn_status : run_status; rn_keyset_hash : option string;
  rn_finished_at : option Z; rn_started_at : Z }.
#[export] Instance eta_RunRow : Eta RunRow := fun r => mkRun
  (rn_operator_id r) (rn_status r) (rn_keyset_hash r) (rn_finished_at r) (rn_started_at r).

(** The documents in the [expected] and [result] columns of a challenge. *)
Inductive Oracle :=
| OracleA (canonical_bytes : string)
| OracleB (ts_unix_nano seq : Z) (algo : string)
| OracleC (swap_required_at : list Z).

Record ChallengeResult := mkChallengeResult {
  cr_ChallengeID : string; cr_Suite : ConformanceSuite; cr_Passed : bool; cr_Detail : string }.

Record ChallengeRow := mkChallenge {
  ch_run_id : string; ch_suite : ConformanceSuite; ch_idx : Z; ch_nonce : string;
  ch_expected : Oracle; ch_result : option ChallengeResult; ch_consumed_at : option Z }.
#[export] Instance eta_ChallengeRow : Eta ChallengeRow := fun r => mkChallenge
  (ch_run_id r) (ch_suite r) (ch_idx r) (ch_nonce r) (ch_expected r) (ch_result r) (ch_consumed_at r).

Record FeeRow := mkFee {
  fd_coordinator_id : string; fd_contributor_share_bps : Z; fd_platform_fee_bps : Z;
  fd_effective_at : Z; fd_seq : Z; fd_signature : string; fd_created_at : Z }.

(** [operator_keys] and [fee_declarations] have surrogate keys the code never
    uses: lists of rows, in the order of insertion. *)
Record OpTables := mkOpTables {
  operators : gmap string OperatorRow;
  operator_keys : list OperatorKeyRow;
  operator_verifications : gmap string VerificationRow;
  operator_replay : gmap (string * string) ReplayRow;
  operator_nonces : gmap string NonceRow;
  conformance_runs : gmap string RunRow;
  conformance_challenges : gmap string ChallengeRow;
  fee_declarations : list FeeRow }.
#[export] Instance eta_OpTables : Eta OpTables := fun t => mkOpTables
  (operators t) (operator_keys t) (operator_verifications t) (operator_replay t)
  (operator_nonces t) (conformance_runs t) (conformance_challenges t) (fee_declarations t).

Definition empty_op_tables : OpTables := mkOpTables ∅ [] ∅ ∅ ∅ ∅ ∅ [].

Record DB := mkDB {
  jobs : gmap string JobRow;
  nodes : gmap string NodeRow;
  participants : gmap string ParticipantRow;
  node_printers : gmap (string * string) PrinterRow;
  job_node_declines : gset (string * string);
  job_metering : gmap string MeteringRow;
  resource_pricing : list PricingRow;
  resource_profiles : gmap string ProfileRow;
  disputes : gmap string DisputeRow;
  node_registration_tokens : gmap string RegTokenRow;
  node_protocol_keys : gmap string ProtocolKeyRow;
  node_heartbeat_events : list (string * Z);
  op_tables : OpTables }.
#[export] Instance eta_DB : Eta DB := fun d => mkDB
  (jobs d) (nodes d) (participants d) (node_printers d) (job_node_declines d)
  (job_metering d) (resource_pricing d) (resource_profiles d) (disputes d)
  (node_registration_tokens d) (node_protocol_keys d) (node_heartbeat_events d)
  (op_tables d).

Definition empty_db : DB := mkDB ∅ ∅ ∅ ∅ ∅ ∅ [] ∅ ∅ ∅ ∅ [] empty_op_tables.

(** ** Worlds, events and the monad *)

Inductive Error :=
| ErrNoRows
| ErrUnique            (* SQLSTATE 23505 *)
| ErrForeignKey        (* SQLSTATE 23503 *)
| ErrConn              (* any other driver or server error *)
| ErrGo (msg : string).
#[export] Instance Error_eq_dec : EqDecision Error.
Proof. solve_decision. Defined.

Inductive Fault := Succeeds | LostBefore | LostAfter.

Record Event := mkEvent {
  ev_db : Z -> DB -> DB; ev_reg : NodeRegistry -> NodeRegistry; ev_sink : Sink -> Sink;
  ev_tick : N; ev_fault : Fault }.

Definition quiet : Event := mkEvent (fun _ d => d) (fun r => r) (fun s => s) 0 Succeeds.

Record World := mkWorld {
  w_db : DB; w_reg : NodeRegistry; w_sink : option Sink; w_now : Z; w_events : list Event;
  w_uuids : nat -> string; w_tx : option Z }.
#[export] Instance eta_World : Eta World := fun w =>
  mkWorld (w_db w) (w_reg w) (w_sink w) (w_now w) (w_events w) (w_uuids w) (w_tx w).

(** [NOW()]: inside a transaction, the time it began. *)
Definition sql_now (w : World) : Z := default (w_now w) (w_tx w).

Definition M (A : Type) : Type := World -> result Error A * World.

#[export] Instance M_ret : MRet M := fun A a w => (Ok a, w).
#[export] Instance M_bind : MBind M := fun A B f m w =>
  match m w with
  | (Ok a, w') => f a w'
  | (Err e, w') => (Err e, w')
  end.

Definition fail {A} (e : Error) : M A := fun w => (Err e, w).

(** [if err != nil { ... }]: the error becomes a value. *)
Definition try {A} (m : M A) : M (result Error A) := fun w =>
  let '(r, w') := m w in (Ok r, w').

(** Consume one event: time passes and, outside a transaction, the others'
    commits and registry calls become visible. *)
Definition next_event : M Fault := fun w =>
  let '(e, rest) := match w_events w with [] => (quiet, []) | e :: rest => (e, rest) end in
  let now := w_now w + Z.of_N (ev_tick e) in
  let db := match w_tx w with Some _ => w_db w | None => ev_db e now (w_db w) end in
  (Ok (ev_fault e), mkWorld db (ev_reg e (w_reg w)) (ev_sink e <$> w_sink w) now rest
     (w_uuids w) (w_tx w)).

(** Run a statement, a function of the clock and the database. *)
Definition run_stmt {A} (f : Z -> DB -> result Error (A * DB)) : M A := fun w =>
  match f (sql_now w) (w_db w) with
  | Ok (a, db') => (Ok a, w <| w_db := db' |>)
  | Err e => (Err e, w)
  end.

Definition stmt {A} (f : Z -> DB -> result Error (A * DB)) : M A :=
  x ← next_event;
  match x with
  | Succeeds => run_stmt f
  | LostBefore => fail ErrConn
  | LostAfter => _ ← try (run_stmt f); fail ErrConn
  end.

(** A SELECT, and a statement that always succeeds. *)
Definition query {A} (f : Z -> DB -> A) : M A := stmt (fun now d => Ok (f now d, d)).
Definition query_row {A} (f : Z -> DB -> option A) : M A :=
  stmt (fun now d => match f now d with Some a => Ok (a, d) | None => Err ErrNoRows end).
Definition exec {A} (f : Z -> DB -> A * DB) : M A := stmt (fun now d => Ok (f now d)).

(** Registry calls and the clock. *)
Definition gets {A} (f : World -> A) : M A := fun w => (Ok (f w), w).
Definition modify (f : World -> World) : M unit := fun w => (Ok tt, f w).
Definition reg_read {A} (f : NodeRegistry -> A) : M A :=
  _ ← next_event; gets (fun w => f (w_reg w)).
Definition reg_write (f : NodeRegistry -> NodeRegistry) : M unit :=
  _ ← next_event; modify (fun w => w <| w_reg := f (w_reg w) |>).
(** A telemetry call; a nil sink records nothing. *)
Definition record (f : Sink -> Sink) : M unit :=
  modify (fun w => w <| w_sink := f <$> w_sink w |>).
Definition time_Now : M Z := gets w_now.
Definition fresh_uuid : M string := fun w =>
  (Ok (w_uuids w 0%nat), w <| w_uuids := fun n => w_uuids w (S n) |>).

(** The body of a transaction, from the database state [Begin] saw. *)
Definition in_tx {A} (m : M A) : M A := fun w0 =>
  let rollback w := w <| w_db := w_db w0 |> <| w_tx := None |> in
  match m (w0 <| w_tx := Some (w_now w0) |>) with
  | (Err e, w1) => (Err e, rollback w1)
  | (Ok a, w1) =>
      match next_event w1 with
      | (Ok Succeeds, w2) => (Ok a, w2 <| w_tx := None |>)
      | (Ok LostAfter, w2) => (Err ErrConn, w2 <| w_tx := None |>)
      | (_, w2) => (Err ErrConn, rollback w2)
      end
  end.

(** [Begin ... Commit] with the deferred [Rollback]. *)
Definition transaction {A} (m : M A) : M A :=
  x ← next_event;
  match x with Succeeds => in_tx m | _ => fail ErrConn end.

(** A transaction that can also return without committing, or commit and then
    return an error. *)
Inductive TxEnd (A : Type) := Committing (r : result Error A) | RollingBack (r : result Error A).
Arguments Committing {A} r.
Arguments RollingBack {A} r.

Definition in_tx_ending {A} (m : M (TxEnd A)) : M A := fun w0 =>
  let rollback w := w <| w_db := w_db w0 |> <| w_tx := None |> in
  match m (w0 <| w_tx := Some (w_now w0) |>) with
  | (Err e, w1) => (Err e, rollback w1)
  | (Ok (RollingBack r), w1) => (r, rollback w1)
  | (Ok (Committing r), w1) =>
      match next_event w1 with
      | (Ok Succeeds, w2) => (r, w2 <| w_tx := None |>)
      | (Ok LostAfter, w2) => (Err ErrConn, w2 <| w_tx := None |>)
      | (_, w2) => (Err ErrConn, rollback w2)
      end
  end.

Definition transaction_ending {A} (m : M (TxEnd A)) : M A :=
  x ← next_event;
  match x with Succeeds => in_tx_ending m | _ => fail ErrConn end.
