(* ===== verification/Replay.v ===== *)
(** The sliding replay window of the operator registry
    (internal/operator/repository.go): a 256-bit bitmap below a high watermark,
    and its refinement of the set of sequence numbers accepted so far. *)
From S2P Require Import Prelude.
Local Open Scope Z_scope.

Definition seqWindowBits : Z := 256.

(** ** The bitmap *)

(** Bit 0 is the most significant bit of byte 0. *)
Definition getBit (b : list Z) (pos : Z) : bool :=
  match b !! Z.to_nat (pos / 8) with
  | Some x => negb (Z.land x (Z.shiftl 1 (7 - pos mod 8)) =? 0)
  | None => false
  end.

Definition setBit (b : list Z) (pos : Z) : list Z :=
  match b !! Z.to_nat (pos / 8) with
  | Some x => <[Z.to_nat (pos / 8) := Z.lor x (Z.shiftl 1 (7 - pos mod 8))]> b
  | None => b
  end.

Definition bits (b : list Z) : Z := Z.of_nat (length b) * 8.

(** One round of the copy loop of [shiftRight]. *)
Definition copy_bit (b : list Z) (n : Z) (out : list Z) (pos : Z) : list Z :=
  if getBit b pos then if pos + n <? bits b then setBit out (pos + n) else out else out.

Definition shiftRight (b : list Z) (n : Z) : list Z :=
  foldl (copy_bit b n) (replicate (length b) 0) (seqZ 0 (bits b)).

(** The bitmap a new row starts with, and a bitmap with only bit 0 set. *)
Definition zero_window : list Z := replicate (Z.to_nat (seqWindowBits / 8)) 0.
Definition fresh_window : list Z := setBit zero_window 0.

(** The new watermark and bitmap, or [None] for a stale or repeated number. *)
Definition advanceWindow (seqHigh : Z) (window : list Z) (seq : Z) : option (Z * list Z) :=
  if negb (Z.of_nat (length window) =? seqWindowBits / 8) then None
  else if (seqHigh =? 0) && negb (getBit window 0) then Some (seq, fresh_window)
  else if seqHigh <? seq then
    let shift := seq - seqHigh in
    if seqWindowBits <=? shift then Some (seq, fresh_window)
    else Some (seq, setBit (shiftRight window shift) 0)
  else if seq =? seqHigh then None
  else
    let diff := seqHigh - seq in
    if seqWindowBits <=? diff then None
    else if getBit window diff then None
    else Some (seqHigh, setBit window diff).

(** ** Bits *)

Lemma land_shiftl_testbit x k :
  0 <= k -> negb (Z.land x (Z.shiftl 1 k) =? 0) = Z.testbit x k.
Proof.
  intros Hk. rewrite Z.shiftl_1_l. apply eq_true_iff_eq. rewrite negb_true_iff, Z.eqb_neq. split.
  - intros Hn. apply not_false_iff_true. intros Hb. apply Hn, Z.bits_inj_0. intros i.
    rewrite Z.land_spec, Z.pow2_bits_eqb by done. destruct (Z.eqb_spec k i); [|by rewrite andb_false_r].
    subst. by rewrite Hb.
  - intros Hb Hz. assert (Ht : Z.testbit (Z.land x (2 ^ k)) k = false) by (by rewrite Hz, Z.testbit_0_l).
    by rewrite Z.land_spec, Z.pow2_bits_true, andb_true_r, Hb in Ht.
Qed.

Lemma bit_index pos : 0 <= 7 - pos mod 8.
Proof. pose proof (Z.mod_pos_bound pos 8). lia. Qed.

Lemma getBit_testbit b pos x :
  b !! Z.to_nat (pos / 8) = Some x -> getBit b pos = Z.testbit x (7 - pos mod 8).
Proof. intros Hx. unfold getBit. rewrite Hx. apply land_shiftl_testbit, bit_index. Qed.

Lemma setBit_length b pos : length (setBit b pos) = length b.
Proof. unfold setBit. case_match; [apply length_insert|done]. Qed.

Lemma in_bitmap b pos : 0 <= pos < bits b -> is_Some (b !! Z.to_nat (pos / 8)).
Proof.
  unfold bits. intros Hp. apply lookup_lt_is_Some.
  pose proof (Z.div_lt_upper_bound pos 8 (Z.of_nat (length b))).
  pose proof (Z.div_pos pos 8). lia.
Qed.

Lemma getBit_setBit b p q :
  0 <= p < bits b -> 0 <= q -> getBit (setBit b p) q = bool_decide (p = q) || getBit b q.
Proof.
  intros Hp Hq. destruct (in_bitmap b p Hp) as [x Hx]. unfold setBit. rewrite Hx.
  destruct (decide (p / 8 = q / 8)) as [Hd|Hd].
  - assert (Hins : <[Z.to_nat (p / 8) := Z.lor x (Z.shiftl 1 (7 - p mod 8))]> b !! Z.to_nat (q / 8)
      = Some (Z.lor x (Z.shiftl 1 (7 - p mod 8)))).
    { rewrite Hd. apply list_lookup_insert_eq. rewrite <- Hd. by eapply lookup_lt_Some. }
    rewrite (getBit_testbit _ _ _ Hins), (getBit_testbit b q x) by congruence.
    rewrite Z.lor_spec, Z.shiftl_1_l, Z.pow2_bits_eqb by apply bit_index.
    rewrite orb_comm. f_equal.
    pose proof (Z_div_mod_eq_full p 8). pose proof (Z_div_mod_eq_full q 8).
    destruct (Z.eqb_spec (7 - p mod 8) (7 - q mod 8)); case_bool_decide; try done; lia.
  - unfold getBit. rewrite list_lookup_insert_ne.
    + rewrite bool_decide_eq_false_2 by congruence. done.
    + pose proof (Z.div_pos p 8). pose proof (Z.div_pos q 8). lia.
Qed.

Lemma getBit_zeros n q : getBit (replicate n 0) q = false.
Proof.
  unfold getBit. case_match eqn:Hx; [|done]. apply lookup_replicate in Hx as [-> _]. done.
Qed.

Lemma copy_bit_length b n out l : length (foldl (copy_bit b n) out l) = length out.
Proof.
  revert out. induction l as [|p l IH]; intros out; simpl; [done|]. rewrite IH. unfold copy_bit.
  repeat case_match; auto using setBit_length.
Qed.

Lemma copy_bits b n l out q :
  0 <= n -> length out = length b -> Forall (fun p => 0 <= p) l -> 0 <= q < bits b ->
  getBit (foldl (copy_bit b n) out l) q =
    getBit out q || bool_decide (q - n ∈ l) && getBit b (q - n).
Proof.
  intros Hn. revert out. induction l as [|p l IH]; intros out Hlen Hl Hq; simpl.
  { by rewrite orb_false_r. }
  apply Forall_cons in Hl as [Hp Hl]. rewrite IH; [|unfold copy_bit; repeat case_match;
    by rewrite ?setBit_length|done..].
  rewrite (bool_decide_ext (q - n ∈ p :: l) (q - n = p \/ q - n ∈ l)) by apply elem_of_cons.
  rewrite bool_decide_or. unfold copy_bit. destruct (getBit b p) eqn:Hb.
  - destruct (Z.ltb_spec (p + n) (bits b)) as [Hlt|Hge].
    + rewrite getBit_setBit; [|unfold bits in *; rewrite Hlen; lia|lia].
      destruct (decide (q - n = p)) as [<-|Hne].
      * rewrite (bool_decide_eq_true_2 (q - n + n = q)) by lia.
        rewrite Hb, !andb_true_r, (bool_decide_eq_true_2 (q - n = q - n)) by done.
        simpl. by rewrite orb_true_r.
      * rewrite (bool_decide_eq_false_2 (p + n = q)), (bool_decide_eq_false_2 (q - n = p)) by lia. done.
    + rewrite (bool_decide_eq_false_2 (q - n = p)) by lia. done.
  - destruct (decide (q - n = p)) as [<-|Hne]; [by rewrite Hb, !andb_false_r|].
    by rewrite (bool_decide_eq_false_2 (q - n = p)) by done.
Qed.

Lemma shiftRight_length b n : length (shiftRight b n) = length b.
Proof. unfold shiftRight. by rewrite copy_bit_length, length_replicate. Qed.

(** What was at position i is now at position i + n, and zeros come in. *)
Lemma getBit_shiftRight b n q :
  0 <= n -> 0 <= q < bits b ->
  getBit (shiftRight b n) q = bool_decide (n <= q) && getBit b (q - n).
Proof.
  intros Hn Hq. unfold shiftRight. rewrite copy_bits; try done.
  - rewrite getBit_zeros. simpl. f_equal. apply bool_decide_ext. rewrite elem_of_seqZ. lia.
  - apply length_replicate.
  - apply Forall_forall. intros p. rewrite elem_of_seqZ. lia.
Qed.

(** ** Refinement *)

(** The specification: a number is fresh when it was not accepted before and is
    less than a window's width below every accepted one. *)
Definition fresh_seq (seen : gset Z) (seq : Z) : bool :=
  bool_decide (seq ∉ seen) && bool_decide (set_Forall (fun s => s - seqWindowBits < seq) seen).

(** The stored watermark and bitmap represent the set of accepted numbers: the
    watermark is its maximum and the bitmap its part within the window. *)
Definition window_rep (high : Z) (window : list Z) (seen : gset Z) : Prop :=
  Z.of_nat (length window) = seqWindowBits / 8 /\
  (seen = ∅ -> high = 0) /\
  (seen ≠ ∅ -> high ∈ seen) /\
  (forall s, s ∈ seen -> 0 <= s <= high) /\
  (forall i, 0 <= i < seqWindowBits -> getBit window i = bool_decide (high - i ∈ seen)).

Lemma fresh_seq_true seen seq : fresh_seq seen seq = true <->
  seq ∉ seen /\ forall s, s ∈ seen -> s - seqWindowBits < seq.
Proof. unfold fresh_seq. rewrite andb_true_iff, !bool_decide_eq_true. done. Qed.

Lemma fresh_seq_false seen seq s :
  s ∈ seen -> seq <= s - seqWindowBits -> fresh_seq seen seq = false.
Proof.
  intros Hs Hle. apply not_true_iff_false. rewrite fresh_seq_true. intros [_ Hall].
  specialize (Hall s Hs). lia.
Qed.

Lemma fresh_seq_seen seen seq : seq ∈ seen -> fresh_seq seen seq = false.
Proof. intros Hs. apply not_true_iff_false. rewrite fresh_seq_true. by intros [? _]. Qed.

Lemma fresh_window_bit i : 0 <= i < seqWindowBits -> getBit fresh_window i = bool_decide (0 = i).
Proof.
  intros Hi. unfold fresh_window, zero_window. rewrite getBit_setBit; [|by vm_compute|lia].
  by rewrite getBit_zeros, orb_false_r.
Qed.

Lemma window_rep_bits high window seen : window_rep high window seen -> bits window = seqWindowBits.
Proof. intros (Hl & _). unfold bits. rewrite Hl. done. Qed.

Lemma virgin_iff high window seen :
  window_rep high window seen -> (high =? 0) && negb (getBit window 0) = bool_decide (seen = ∅).
Proof.
  intros (_ & He & Hne & _ & Hb). rewrite Hb, Z.sub_0_r by (unfold seqWindowBits; lia).
  destruct (decide (seen = ∅)) as [->|Hn].
  - rewrite He by done. by vm_compute.
  - rewrite (bool_decide_eq_true_2 (high ∈ seen)), (bool_decide_eq_false_2 (seen = ∅)) by auto.
    apply andb_false_r.
Qed.

(** The four accepting and rejecting branches. *)
Lemma rep_fresh high window seen seq :
  window_rep high window seen -> 0 <= seq ->
  (forall s, s ∈ seen -> s <= seq - seqWindowBits) -> window_rep seq fresh_window ({[seq]} ∪ seen).
Proof.
  intros (_ & _ & _ & Hs & _) Hq Hlow. unfold window_rep. split_and!.
  - done.
  - set_solver.
  - set_solver.
  - intros s. rewrite elem_of_union, elem_of_singleton. intros [->|Hin]; [lia|].
    pose proof (Hlow s Hin). pose proof (Hs s Hin). unfold seqWindowBits in *. lia.
  - intros i Hi. rewrite fresh_window_bit by done. apply bool_decide_ext.
    rewrite elem_of_union, elem_of_singleton. split; [lia|]. intros [?|Hin]; [lia|].
    specialize (Hlow _ Hin). unfold seqWindowBits in *. lia.
Qed.

Lemma rep_advance high window seen seq :
  window_rep high window seen -> seen ≠ ∅ -> 0 < seq - high < seqWindowBits ->
  window_rep seq (setBit (shiftRight window (seq - high)) 0) ({[seq]} ∪ seen).
Proof.
  intros Hrep Hne Hd. pose proof (window_rep_bits _ _ _ Hrep) as Hbits.
  destruct Hrep as (Hl & _ & Hh & Hs & Hb). specialize (Hh Hne). pose proof (Hs _ Hh).
  unfold window_rep. split_and!.
  - by rewrite setBit_length, shiftRight_length.
  - set_solver.
  - set_solver.
  - intros s. rewrite elem_of_union, elem_of_singleton. intros [->|Hin]; [lia|].
    pose proof (Hs s Hin). lia.
  - intros i Hi.
    assert (Hb0 : bits (shiftRight window (seq - high)) = seqWindowBits).
    { unfold bits in *. by rewrite shiftRight_length. }
    rewrite getBit_setBit by (unfold seqWindowBits in *; lia).
    rewrite getBit_shiftRight by lia. destruct (decide (seq - high <= i)) as [Hge|Hlt].
    + rewrite (bool_decide_eq_false_2 (0 = i)), (bool_decide_eq_true_2 (seq - high <= i)) by lia.
      simpl. rewrite Hb by lia. apply bool_decide_ext. replace (high - (i - (seq - high))) with (seq - i)
        by lia. rewrite elem_of_union, elem_of_singleton. split; [by right|]. intros [?|?]; [lia|done].
    + rewrite (bool_decide_eq_false_2 (seq - high <= i)) by lia. rewrite orb_false_r.
      apply bool_decide_ext. rewrite elem_of_union, elem_of_singleton. split; [left; lia|].
      intros [?|Hin]; [lia|]. specialize (Hs _ Hin). lia.
Qed.

Lemma rep_mark high window seen seq :
  window_rep high window seen -> 0 <= seq -> 0 < high - seq < seqWindowBits ->
  window_rep high (setBit window (high - seq)) ({[seq]} ∪ seen).
Proof.
  intros Hrep Hq Hd. pose proof (window_rep_bits _ _ _ Hrep) as Hbits.
  destruct Hrep as (Hl & He & Hh & Hs & Hb). unfold window_rep. split_and!.
  - by rewrite setBit_length.
  - set_solver.
  - intros _. destruct (decide (seen = ∅)) as [Hem|Hne]; [specialize (He Hem); lia|].
    apply elem_of_union_r. auto.
  - intros s. rewrite elem_of_union, elem_of_singleton. intros [->|Hin]; [lia|auto].
  - intros i Hi. rewrite getBit_setBit by lia. rewrite Hb by done.
    rewrite <- bool_decide_or. apply bool_decide_ext. rewrite elem_of_union, elem_of_singleton.
    split; (intros [?|?]; [left; lia|by right]).
Qed.

(** The window decides freshness exactly and goes on representing the accepted
    numbers. *)
Lemma advanceWindow_spec high window seen seq :
  window_rep high window seen -> 0 <= seq ->
  if fresh_seq seen seq then
    exists high' window', advanceWindow high window seq = Some (high', window') /\
      window_rep high' window' ({[seq]} ∪ seen)
  else advanceWindow high window seq = None.
Proof.
  intros Hrep Hq. unfold advanceWindow. rewrite (virgin_iff _ _ _ Hrep).
  pose proof Hrep as (Hl & _ & Hh & Hs & Hb). rewrite Hl, Z.eqb_refl. cbv beta iota delta [negb].
  destruct (decide (seen = ∅)) as [->|Hne].
  { rewrite bool_decide_eq_true_2 by done. rewrite (proj2 (fresh_seq_true ∅ seq)) by set_solver.
    eexists _, _. split; [done|]. eapply rep_fresh; [done..|set_solver]. }
  rewrite bool_decide_eq_false_2 by done. specialize (Hh Hne).
  destruct (Z.ltb_spec high seq) as [Hlt|Hge].
  - rewrite (proj2 (fresh_seq_true seen seq)).
    2:{ split; [intros Hin|intros s Hin]; specialize (Hs _ Hin); unfold seqWindowBits; lia. }
    cbv zeta. destruct (Z.leb_spec seqWindowBits (seq - high)); eexists _, _; (split; [done|]).
    + eapply rep_fresh; [done..|]. intros s Hin. specialize (Hs _ Hin). lia.
    + eapply rep_advance; [done..|lia].
  - destruct (Z.eqb_spec seq high) as [->|Hn]; [by rewrite fresh_seq_seen|]. cbv zeta.
    destruct (Z.leb_spec seqWindowBits (high - seq)) as [Hold|Hin].
    { by rewrite (fresh_seq_false _ _ high) by (done || lia). }
    rewrite Hb by lia. replace (high - (high - seq)) with seq by lia.
    destruct (decide (seq ∈ seen)) as [Hsn|Hsn].
    + by rewrite fresh_seq_seen, bool_decide_eq_true_2 by done.
    + rewrite bool_decide_eq_false_2 by done. rewrite (proj2 (fresh_seq_true seen seq)).
      2:{ split; [done|]. intros s Hs'. specialize (Hs _ Hs'). lia. }
      eexists _, _. split; [done|]. apply rep_mark; [done..|lia].
Qed.

(** Presenting a list of numbers one after the other, each accepted or not. *)
Fixpoint present (high : Z) (window : list Z) (seqs : list Z) : list bool :=
  match seqs with
  | [] => []
  | seq :: rest =>
      match advanceWindow high window seq with
      | Some (high', window') => true :: present high' window' rest
      | None => false :: present high window rest
      end
  end.

(** The same against the set of accepted numbers. *)
Fixpoint present_spec (seen : gset Z) (seqs : list Z) : list bool :=
  match seqs with
  | [] => []
  | seq :: rest =>
      if fresh_seq seen seq then true :: present_spec ({[seq]} ∪ seen) rest
      else false :: present_spec seen rest
  end.

Lemma present_rep seqs high window seen :
  window_rep high window seen -> Forall is_uint64 seqs ->
  present high window seqs = present_spec seen seqs.
Proof.
  revert high window seen. induction seqs as [|seq rest IH]; intros high w seen Hrep Hall; [done|].
  apply Forall_cons in Hall as [Hseq Hall]. simpl.
  pose proof (advanceWindow_spec _ _ _ seq Hrep ltac:(destruct Hseq; lia)) as Hstep.
  destruct (fresh_seq seen seq).
  - destruct Hstep as (h' & w' & -> & Hrep'). by rewrite (IH _ _ _ Hrep' Hall).
  - rewrite Hstep. by rewrite (IH _ _ _ Hrep Hall).
Qed.

Lemma zero_window_rep : window_rep 0 zero_window ∅.
Proof.
  unfold window_rep. split_and!; [done..|set_solver|set_solver|]. intros i _.
  unfold zero_window. rewrite getBit_zeros, bool_decide_eq_false_2; [done|set_solver].
Qed.

(** C6 The replay window is exact: whatever sequence numbers are presented in
    whatever order, the 256-bit window accepts and rejects them exactly as a
    registry that remembers every accepted number would, rejecting a number that
    was accepted before or lies a window's width below an accepted one and
    nothing else.  It starts from the row the schema inserts by default. *)
Theorem replay_window_exact (seqs : list Z) :
  Forall is_uint64 seqs -> present 0 zero_window seqs = present_spec ∅ seqs.
Proof. apply present_rep, zero_window_rep. Qed.

Lemma replay_window_exact_witness :
  let seqs := [7; 7; 5; 300; 45; 44; 5; 300; 299] in
  present 0 zero_window seqs = present_spec ∅ seqs /\
  present_spec ∅ seqs = [true; false; true; true; true; false; false; false; true].
Proof.
  split.
  - apply replay_window_exact. repeat constructor; unfold uint64_max; lia.
  - vm_compute; reflexivity.
Defined.
