(* ===== verification/Lifecycle.v ===== *)
(** The life of a job row: every SQL statement of the program that inserts or
    changes a row of [jobs], as a guarded update of that row, and the step
    relation over the whole database they generate.

    The statements come from orchestrator.go, store/dispatch.go, api/nodes.go,
    protocoladapter/adapter.go and portal/server.go.  Each is one atomic step;
    [step] collects them with arbitrary parameters, so that whatever is proved
    of its reachable states holds for every interleaving of requests.  The
    files that model those handlers show that their database effect is a
    sequence of such steps. *)
From S2P Require Import Prelude Float64 Workload Registry Database.
Import Types.
Local Open Scope string_scope.
Local Open Scope Z_scope.

(** ** Row updates, one per statement *)

(** orchestrator.go: the placement of a new job, INSERT then UPDATE. *)
Record NewJob := mkNewJob {
  nj_consumer : string; nj_node : string; nj_type : MarketplaceWorkloadType;
  nj_country : option string; nj_cpu : Z; nj_ram : Z; nj_storage : Z; nj_gpu : bool;
  nj_image : string }.

(** What the columns take: INTEGER numbers, TEXT for the image and CHAR(2) for the
    country. *)
Definition job_fits (nj : NewJob) : bool :=
  int4 (nj_cpu nj) && int4 (nj_ram nj) && int4 (nj_storage nj) && pg_text (nj_image nj) &&
  match nj_country nj with
  | None => true
  | Some c => pg_text c && bool_decide (is_Some (bpchar 2 c))
  end.

Definition insert_job_row (now : Z) (nj : NewJob) : JobRow :=
  mkJob (Some (nj_consumer nj)) (Some (nj_node nj)) (nj_type nj) pending (nj_country nj ≫= bpchar 2)
    (Some (nj_cpu nj)) (Some (nj_ram nj)) (Some (nj_storage nj)) (nj_gpu nj)
    (Some (nj_image nj)) None 0 None None None None None None None None None None None None None
    now.

Definition set_submit_awaiting (now : Z) (token printerID specHash : string) (deadline : Z)
    (j : JobRow) : JobRow :=
  j <| j_job_token := Some token |> <| j_status := awaiting_confirmation |>
    <| j_printer_id := Some printerID |> <| j_spec_hash := Some specHash |>
    <| j_confirmation_deadline := Some deadline |> <| j_updated_at := now |>.

Definition set_submit_scheduled (token : string) (j : JobRow) : JobRow :=
  j <| j_job_token := Some token |> <| j_status := scheduled |>.

Definition set_reroute_failed (now : Z) (j : JobRow) : JobRow :=
  j <| j_status := failed |> <| j_updated_at := now |>.

Definition set_reroute_print (now : Z) (node token printerID : string) (deadline : Z)
    (j : JobRow) : JobRow :=
  j <| j_node_id := Some node |> <| j_job_token := Some token |>
    <| j_printer_id := Some printerID |> <| j_confirmation_deadline := Some deadline |>
    <| j_status := awaiting_confirmation |> <| j_updated_at := now |>.

Definition set_reroute_compute (now : Z) (node token : string) (j : JobRow) : JobRow :=
  j <| j_node_id := Some node |> <| j_job_token := Some token |>
    <| j_status := scheduled |> <| j_updated_at := now |>.

Definition set_reschedule (now : Z) (node token : string) (j : JobRow) : JobRow :=
  j <| j_node_id := Some node |> <| j_job_token := Some token |> <| j_updated_at := now |>.

Definition set_expire_confirmation (now : Z) (j : JobRow) : JobRow :=
  j <| j_status := declined |> <| j_declined_at := Some now |> <| j_updated_at := now |>.

Definition set_expire_dispatched (now : Z) (j : JobRow) : JobRow :=
  j <| j_status := scheduled |> <| j_updated_at := now |>.

Definition set_delivered (now : Z) (j : JobRow) : JobRow :=
  j <| j_status := delivered |> <| j_delivered_at := Some now |>
    <| j_completed_at := Some now |> <| j_updated_at := now |>.

(** store/dispatch.go *)
Definition set_dispatched (now : Z) (j : JobRow) : JobRow :=
  j <| j_status := dispatched |> <| j_updated_at := now |>.

(** The exit code is an INTEGER and the cause TEXT. *)
Definition report_fits (exitCode : option Z) (cause : string) : bool :=
  match exitCode with None => true | Some c => int4 c end && pg_text cause.

Definition set_complete (now : Z) (exitCode : option Z) (cause : string) (newStatus : job_status)
    (completedAt awaitingPickupAt : option Z) (j : JobRow) : JobRow :=
  j <| j_status := newStatus |> <| j_completed_at := completedAt |>
    <| j_awaiting_pickup_at := awaitingPickupAt |> <| j_updated_at := now |>
    <| j_exit_code := exitCode |>
    <| j_failure_cause := if bool_decide (cause = "") then None else Some cause |>.

(** api/nodes.go *)
Definition set_started (now : Z) (j : JobRow) : JobRow :=
  j <| j_started_at := Some now |> <| j_status := running |> <| j_updated_at := now |>.

(** protocoladapter/adapter.go *)
Definition set_adapter_declined (now : Z) (j : JobRow) : JobRow :=
  j <| j_status := declined |> <| j_declined_at := Some now |> <| j_updated_at := now |>.

Definition set_adapter_running (now reported : Z) (j : JobRow) : JobRow :=
  j <| j_status := running |>
    <| j_started_at := Some (match j_started_at j with
         | Some t => t
         | None => Z.min (Z.max reported (j_updated_at j)) now end) |>
    <| j_updated_at := now |>.

(** portal/server.go *)
Definition set_confirmed (now : Z) (j : JobRow) : JobRow :=
  j <| j_status := scheduled |> <| j_confirmed_at := Some now |>.

Definition set_portal_declined (now : Z) (j : JobRow) : JobRow :=
  j <| j_status := declined |> <| j_declined_at := Some now |>.

Definition set_picked_up (now : Z) (j : JobRow) : JobRow :=
  j <| j_status := picked_up |> <| j_picked_up_at := Some now |> <| j_updated_at := now |>.

Definition set_no_show (now : Z) (j : JobRow) : JobRow :=
  j <| j_status := failed |> <| j_failure_cause := Some "no_show_after_7d" |>
    <| j_completed_at := Some now |> <| j_updated_at := now |>.

(** ** Guards *)

Definition has_status (s : job_status) (j : JobRow) : bool := bool_decide (j_status j = s).
Definition bound_to (node : string) (j : JobRow) : bool := bool_decide (j_node_id j = Some node).

(** [col < t], which is not true of NULL. *)
Definition before (col : option Z) (t : Z) : bool :=
  match col with Some c => c <? t | None => false end.

(** [participant_id = (SELECT participant_id FROM nodes WHERE id = $1)], the
    C5 predicate in three-valued logic: a print job passes only when both sides
    are known and differ. *)
Definition not_self_print (d : DB) (node : string) (j : JobRow) : bool :=
  negb (is_print (j_workload_type j)) ||
  match j_participant_id j, n_participant_id <$> nodes d !! node with
  | Some p, Some q => negb (bool_decide (p = q))
  | _, _ => false
  end.

(** An UPDATE of one row under its guard: the rows affected and the result. *)
Definition update_job (id : string) (guard : JobRow -> bool) (f : JobRow -> JobRow) (d : DB) :
    Z * DB :=
  match jobs d !! id with
  | Some j => if guard j then (1, d <| jobs := <[id := f j]> (jobs d) |>) else (0, d)
  | None => (0, d)
  end.

(** An UPDATE that rebinds [node_id], under its foreign key. *)
Definition rebind_job (id node : string) (guard : JobRow -> bool) (f : JobRow -> JobRow) (d : DB) :
    result Error (Z * DB) :=
  let '(n, d') := update_job id guard f d in
  if (n =? 1) && negb (bool_decide (is_Some (nodes d !! node))) then Err ErrForeignKey
  else Ok (n, d').

(** ** The step relation *)

Inductive job_step (now : Z) (d : DB) (j : JobRow) : JobRow -> Prop :=
| js_reroute_failed :
    j_status j = declined -> job_step now d j (set_reroute_failed now j)
| js_reroute_print node token printerID deadline :
    j_status j = declined -> is_print (j_workload_type j) = true ->
    job_step now d j (set_reroute_print now node token printerID deadline j)
| js_reroute_compute node token :
    j_status j = declined -> is_print (j_workload_type j) = false ->
    job_step now d j (set_reroute_compute now node token j)
| js_reschedule node token :
    j_status j = scheduled -> is_print (j_workload_type j) = false ->
    job_step now d j (set_reschedule now node token j)
| js_expire_confirmation :
    j_status j = awaiting_confirmation -> before (j_confirmation_deadline j) now = true ->
    job_step now d j (set_expire_confirmation now j)
| js_expire_dispatched :
    j_status j = dispatched -> j_updated_at j < now - 2 * Minute ->
    job_step now d j (set_expire_dispatched now j)
| js_expire_picked_up :
    j_status j = picked_up -> before (j_picked_up_at j) (now - 7 * Day) = true ->
    job_step now d j (set_delivered now j)
| js_dispatch node :
    j_status j = scheduled -> not_self_print d node j = true ->
    job_step now d j (set_dispatched now j)
| js_complete_failed exitCode cause t :
    j_status j = running -> t <= now ->
    job_step now d j (set_complete now exitCode cause failed (Some t) None j)
| js_complete_print exitCode cause t :
    j_status j = running -> is_print (j_workload_type j) = true -> t <= now ->
    job_step now d j (set_complete now exitCode cause awaiting_pickup None (Some t) j)
| js_complete exitCode cause t :
    j_status j = running -> is_print (j_workload_type j) = false -> t <= now ->
    job_step now d j (set_complete now exitCode cause completed (Some t) None j)
| js_started :
    j_status j = dispatched -> job_step now d j (set_started now j)
| js_adapter_declined :
    j_status j = scheduled \/ j_status j = dispatched ->
    job_step now d j (set_adapter_declined now j)
| js_adapter_running reported :
    j_status j = dispatched -> job_step now d j (set_adapter_running now reported j)
| js_confirmed :
    j_status j = awaiting_confirmation -> job_step now d j (set_confirmed now j)
| js_portal_declined :
    j_status j = awaiting_confirmation -> job_step now d j (set_portal_declined now j)
| js_picked_up :
    j_status j = awaiting_pickup -> job_step now d j (set_picked_up now j)
| js_delivered :
    j_status j = picked_up -> job_step now d j (set_delivered now j)
| js_no_show :
    j_status j = awaiting_pickup -> before (j_awaiting_pickup_at j) (now - 7 * Day) = true ->
    job_step now d j (set_no_show now j)
| js_unbound : job_step now d j (j <| j_node_id := None |>).

(** The rows a committed [SubmitJob] inserts. *)
Inductive submitted (now : Z) : JobRow -> Prop :=
| sub_scheduled t nj token :
    t <= now -> IsValid (nj_type nj) = true ->
    submitted now (set_submit_scheduled token (insert_job_row t nj))
| sub_awaiting t t' nj token printerID specHash deadline :
    t <= now -> t' <= now -> IsValid (nj_type nj) = true -> is_print (nj_type nj) = true ->
    submitted now (set_submit_awaiting t' token printerID specHash deadline (insert_job_row t nj)).

(** The database and the clock. *)
Definition state : Type := DB * Z.

Inductive step : state -> state -> Prop :=
| step_tick d now now' : now <= now' -> step (d, now) (d, now')
| step_submit d now id j :
    jobs d !! id = None -> submitted now j ->
    step (d, now) (d <| jobs := <[id := j]> (jobs d) |>, now)
| step_job d now id j j' :
    jobs d !! id = Some j -> job_step now d j j' ->
    step (d, now) (d <| jobs := <[id := j']> (jobs d) |>, now)
| step_metering d now id j m :
    jobs d !! id = Some j -> j_status j = completed -> job_metering d !! id = None ->
    m_platform_fee_cents m = to_int64 (m_consumer_paid_cents m - m_contributor_earned_cents m) ->
    m_payout_released_at m = None ->
    step (d, now) (d <| job_metering := <[id := m]> (job_metering d) |>, now)
| step_payout d now id m :
    job_metering d !! id = Some m ->
    step (d, now) (d <| job_metering := <[id := m <| m_payout_released_at := Some now |>]>
      (job_metering d) |>, now)
| step_decline_row d now id node :
    is_Some (jobs d !! id) ->
    step (d, now) (d <| job_node_declines := {[ (id, node) ]} ∪ job_node_declines d |>, now)
| step_dispute d now id dis j :
    disputes d !! id = None -> jobs d !! d_job_id dis = Some j -> j_status j = failed ->
    d_status dis = d_open ->
    (forall id' dis', disputes d !! id' = Some dis' -> d_job_id dis' = d_job_id dis ->
       d_status dis' <> d_open /\ d_status dis' <> d_under_review) ->
    step (d, now) (d <| disputes := <[id := dis]> (disputes d) |>, now)
| step_dispute_status d now id dis pct arb res s :
    disputes d !! id = Some dis ->
    s = d_resolved \/ (s = d_under_review /\ d_status dis = d_open) ->
    step (d, now) (d <| disputes := <[id := dis <| d_status := s |>
      <| d_consumer_refund_pct := pct |> <| d_arbiter := arb |> <| d_resolved_at := res |>]>
      (disputes d) |>, now)
| step_nodes d now ns :
    (forall id n, nodes d !! id = Some n -> exists n', ns !! id = Some n' /\
       n_participant_id n' = n_participant_id n) ->
    step (d, now) (d <| nodes := ns |>, now)
| step_node_deleted d now id ds :
    ds ⊆ job_node_declines d ->
    step (d, now) (d <| nodes := delete id (nodes d) |> <| job_node_declines := ds |>, now)
| step_rest d now ps prs rps tks kys hbs ops :
    step (d, now) (d <| participants := ps |> <| node_printers := prs |>
      <| resource_profiles := rps |> <| node_registration_tokens := tks |>
      <| node_protocol_keys := kys |> <| node_heartbeat_events := hbs |> <| op_tables := ops |>, now).

(** ** What stays fixed, and the transition graph *)

(** The consumer's specification of a job never changes. *)
Definition same_spec (j j' : JobRow) : Prop :=
  j_participant_id j' = j_participant_id j /\ j_workload_type j' = j_workload_type j /\
  j_country_constraint j' = j_country_constraint j /\ j_cpu_cores j' = j_cpu_cores j /\
  j_ram_mb j' = j_ram_mb j /\ j_storage_gb j' = j_storage_gb j /\
  j_gpu_required j' = j_gpu_required j /\ j_container_image j' = j_container_image j /\
  j_amount_cents j' = j_amount_cents j /\ j_spec_hash j' = j_spec_hash j.

#[export] Instance same_spec_preorder : PreOrder same_spec.
Proof. split; [by intros j|]. unfold same_spec. intros j1 j2 j3 ??. naive_solver congruence. Qed.

Definition edges (s : job_status) : list job_status :=
  match s with
  | awaiting_confirmation => [scheduled; declined]
  | scheduled => [dispatched; declined]
  | dispatched => [scheduled; running; declined]
  | declined => [scheduled; awaiting_confirmation; failed]
  | running => [completed; failed; awaiting_pickup]
  | awaiting_pickup => [picked_up; failed]
  | picked_up => [delivered]
  | pending | completed | failed | disputed | delivered => []
  end.

Definition terminal (s : job_status) : bool :=
  match s with completed | failed | delivered => true | _ => false end.

Lemma job_step_spec now d j j' : job_step now d j j' -> same_spec j j'.
Proof. by destruct 1. Qed.

Lemma job_step_edge now d j j' :
  job_step now d j j' -> j_status j' = j_status j \/ j_status j' ∈ edges (j_status j).
Proof.
  destruct 1; simpl; auto;
    repeat match goal with
    | H : _ \/ _ |- _ => destruct H
    | H : j_status j = _ |- _ => rewrite H
    end; simpl; rewrite ?elem_of_cons; auto 6.
Qed.

(** What a step can do to one job row. *)
Lemma step_job_inv d now d' now' id j :
  step (d, now) (d', now') -> jobs d !! id = Some j ->
  exists j', jobs d' !! id = Some j' /\ (j' = j \/ job_step now d j j').
Proof.
  inversion 1; subst; simpl; eauto; intros Hj.
  - exists j. rewrite lookup_insert_ne by congruence. auto.
  - destruct (decide (id0 = id)) as [->|Hne].
    + rewrite lookup_insert_eq. simplify_eq. eauto.
    + rewrite lookup_insert_ne by done. eauto.
Qed.

Lemma steps_job (R : JobRow -> JobRow -> Prop) `{!PreOrder R} s s' id j :
  (forall now d j j', job_step now d j j' -> R j j') ->
  rtc step s s' -> jobs s.1 !! id = Some j ->
  exists j', jobs s'.1 !! id = Some j' /\ R j j'.
Proof.
  intros HR Hs. revert j. induction Hs as [[d now]|[d now] [d1 now1] [d2 now2] Hst _ IH];
    intros j Hj; simpl in *; [by exists j|].
  destruct (step_job_inv _ _ _ _ _ _ Hst Hj) as (j1 & Hj1 & H1).
  destruct (IH _ Hj1) as (j2 & Hj2 & H2). exists j2. split; [done|].
  destruct H1 as [->|H1]; [done|]. etrans; eauto.
Qed.

(** ** The invariant *)

Definition set_by (now : Z) (t : option Z) : Prop := exists t0, t = Some t0 /\ t0 <= now.
Definition not_after (now : Z) (t : option Z) : Prop := forall t0, t = Some t0 -> t0 <= now.

(** A stored job is never half-submitted; print-only and compute-only statuses
    are kept apart; a job waiting for confirmation has its printer and its
    deadline; a job that ran has its start time; each handoff status has its
    timestamp, none of which lies in the future; no charge is ever recorded. *)
Record job_inv (now : Z) (j : JobRow) : Prop := {
  ji_type : IsValid (j_workload_type j) = true;
  ji_amount : j_amount_cents j = 0;
  ji_visible : j_status j <> pending /\ j_status j <> disputed;
  ji_print : j_status j ∈ [awaiting_confirmation; awaiting_pickup; picked_up; delivered] ->
    is_print (j_workload_type j) = true;
  ji_compute : j_status j = completed -> is_print (j_workload_type j) = false;
  ji_confirm : j_status j = awaiting_confirmation ->
    is_Some (j_printer_id j) /\ is_Some (j_confirmation_deadline j);
  ji_ran : j_status j ∈ [running; completed; awaiting_pickup; picked_up; delivered] ->
    set_by now (j_started_at j);
  ji_started : not_after now (j_started_at j);
  ji_pickup : j_status j ∈ [awaiting_pickup; picked_up; delivered] ->
    set_by now (j_awaiting_pickup_at j);
  ji_picked : j_status j ∈ [picked_up; delivered] -> set_by now (j_picked_up_at j);
  ji_done : j_status j ∈ [completed; delivered] -> set_by now (j_completed_at j);
  ji_delivered : j_status j = delivered -> set_by now (j_delivered_at j);
  ji_updated : j_updated_at j <= now }.

Record db_inv (s : state) : Prop := {
  di_jobs : forall id j, jobs s.1 !! id = Some j -> job_inv s.2 j;
  di_metering : forall id m, job_metering s.1 !! id = Some m ->
    (exists j, jobs s.1 !! id = Some j /\ j_status j = completed) /\
    m_platform_fee_cents m = to_int64 (m_consumer_paid_cents m - m_contributor_earned_cents m);
  di_dispute : forall id dis, disputes s.1 !! id = Some dis ->
    exists j, jobs s.1 !! d_job_id dis = Some j /\ j_status j = failed;
  di_one_active : forall id id' dis dis',
    disputes s.1 !! id = Some dis -> disputes s.1 !! id' = Some dis' ->
    d_job_id dis = d_job_id dis' ->
    d_status dis ∈ [d_open; d_under_review] -> d_status dis' ∈ [d_open; d_under_review] ->
    id = id' }.

Lemma set_by_mono now now' t : now <= now' -> set_by now t -> set_by now' t.
Proof. intros ? (t0 & ? & ?). exists t0. split; [done|lia]. Qed.

Lemma set_by_Some now t : t <= now -> set_by now (Some t).
Proof. by exists t. Qed.

Lemma not_after_Some now t : t <= now -> not_after now (Some t).
Proof. intros ? t0 [= <-]. done. Qed.

#[local] Hint Resolve set_by_Some not_after_Some Z.le_refl : core.

Lemma job_inv_mono now now' j : now <= now' -> job_inv now j -> job_inv now' j.
Proof.
  intros Hle []. constructor; auto; intros; try (eapply set_by_mono; [exact Hle|]); auto.
  - intros t Ht. etrans; [by apply ji_started0|done].
  - lia.
Qed.

(** Decide membership of a status in a list of statuses. *)
Ltac in_list :=
  repeat match goal with
  | H : _ ∈ _ :: _ |- _ => apply elem_of_cons in H as [H|H]
  | H : _ ∈ [] |- _ => by apply not_elem_of_nil in H
  end; try discriminate; simplify_eq; try done; rewrite ?elem_of_cons; tauto.

Lemma job_inv_step now d j j' : job_inv now j -> job_step now d j j' -> job_inv now j'.
Proof.
  intros [] Hst. destruct Hst; constructor; simpl; auto; try done;
    repeat match goal with H : j_status j = _ |- _ => rewrite H in * end;
    try (intros Hin; first [in_list | apply ji_ran0; in_list | apply ji_pickup0; in_list
      | apply ji_picked0; in_list | apply ji_print0; in_list]).
  all: assert (match j_started_at j with
      | Some t => t | None => Z.min (Z.max reported (j_updated_at j)) now end <= now)
      by (case_match; [by apply ji_started0|lia]); auto.
Qed.

Lemma submitted_inv now j : submitted now j -> job_inv now j.
Proof.
  destruct 1; constructor; simpl; auto; try done; intros Hin; in_list.
Qed.

(** A job in a terminal status keeps it, with the rest of its history frozen
    except for the binding to a deleted node. *)
Definition frozen (j j' : JobRow) : Prop :=
  terminal (j_status j) = true -> j' = j \/ j' = j <| j_node_id := None |>.

Lemma job_step_terminal now d j j' :
  job_step now d j j' -> terminal (j_status j) = true -> j' = j <| j_node_id := None |>.
Proof.
  intros Hst. destruct Hst;
    repeat match goal with
    | H : _ \/ _ |- _ => destruct H
    | H : j_status j = _ |- _ => rewrite H; clear H
    end; simpl; done.
Qed.

#[export] Instance frozen_preorder : PreOrder frozen.
Proof.
  split; [by intros j _; left|]. unfold frozen. intros j1 j2 j3 H12 H23 Ht.
  destruct (H12 Ht) as [->| ->]; [by apply H23|].
  destruct (H23 Ht) as [->| ->]; by right.
Qed.

Lemma steps_frozen s s' id j :
  rtc step s s' -> jobs s.1 !! id = Some j -> terminal (j_status j) = true ->
  exists j', jobs s'.1 !! id = Some j' /\ (j' = j \/ j' = j <| j_node_id := None |>).
Proof.
  intros Hs Hj Ht. destruct (steps_job frozen s s' id j) as (j' & ? & Hf); auto.
  - intros now d j0 j0' H0 H1. right. by eapply job_step_terminal.
  - exists j'. auto.
Qed.

Lemma steps_status s s' id j st :
  rtc step s s' -> jobs s.1 !! id = Some j -> j_status j = st -> terminal st = true ->
  exists j', jobs s'.1 !! id = Some j' /\ j_status j' = st.
Proof.
  intros Hs Hj <- Ht. destruct (steps_frozen _ _ _ _ Hs Hj Ht) as (j' & ? & [->| ->]); eauto.
Qed.

Lemma steps_spec s s' id j :
  rtc step s s' -> jobs s.1 !! id = Some j ->
  exists j', jobs s'.1 !! id = Some j' /\ same_spec j j'.
Proof. apply steps_job; [apply _|]. intros. by eapply job_step_spec. Qed.

Lemma step_time s s' : step s s' -> s.2 <= s'.2.
Proof. by destruct 1; simpl. Qed.

Lemma steps_time s s' : rtc step s s' -> s.2 <= s'.2.
Proof. induction 1 as [|s s1 s' H1 _ IH]; [done|]. apply step_time in H1. lia. Qed.

Lemma db_inv_jobs_step s s' :
  step s s' -> (forall id j, jobs s.1 !! id = Some j -> job_inv s.2 j) ->
  forall id j, jobs s'.1 !! id = Some j -> job_inv s'.2 j.
Proof.
  intros Hst Hinv id j. destruct Hst; simpl in *; eauto.
  - intros Hj. eapply job_inv_mono; eauto.
  - rewrite lookup_insert. case_decide; [|eauto]. intros [= <-]. by apply submitted_inv.
  - rewrite lookup_insert. case_decide; [|eauto]. intros [= <-]. by eapply job_inv_step; eauto.
Qed.

(** A job that reached a terminal status still has it after a step. *)
Lemma step_keeps_status s s' id st :
  step s s' -> terminal st = true ->
  (exists j, jobs s.1 !! id = Some j /\ j_status j = st) ->
  exists j, jobs s'.1 !! id = Some j /\ j_status j = st.
Proof. intros Hst Ht (j & Hj & Hs). eapply steps_status; eauto using rtc_once. Qed.

Lemma db_inv_metering_step s s' :
  step s s' -> db_inv s ->
  forall id m, job_metering s'.1 !! id = Some m ->
    (exists j, jobs s'.1 !! id = Some j /\ j_status j = completed) /\
    m_platform_fee_cents m = to_int64 (m_consumer_paid_cents m - m_contributor_earned_cents m).
Proof.
  intros Hst Hinv id m Hm.
  assert (Hold : (exists j, jobs s.1 !! id = Some j /\ j_status j = completed) /\
    m_platform_fee_cents m = to_int64 (m_consumer_paid_cents m - m_contributor_earned_cents m)).
  { pose proof (di_metering _ Hinv) as Hold. destruct Hst; simpl in *; eauto.
    - rewrite lookup_insert in Hm. case_decide; [|eauto]. simplify_eq. eauto.
    - rewrite lookup_insert in Hm. case_decide; [|eauto]. simplify_eq. simpl. by eapply Hold. }
  destruct Hold as [Hj Hp]. split; [by eapply step_keeps_status|done].
Qed.

Lemma db_inv_dispute_step s s' :
  step s s' -> db_inv s ->
  forall id dis, disputes s'.1 !! id = Some dis ->
    exists j, jobs s'.1 !! d_job_id dis = Some j /\ j_status j = failed.
Proof.
  intros Hst Hinv id dis Hd.
  assert (Hold : exists j, jobs s.1 !! d_job_id dis = Some j /\ j_status j = failed).
  { pose proof (di_dispute _ Hinv) as Hold. destruct Hst; simpl in *; eauto.
    - rewrite lookup_insert in Hd. case_decide; [|eauto]. simplify_eq. eauto.
    - rewrite lookup_insert in Hd. case_decide; [|eauto]. simplify_eq. simpl. eauto. }
  by eapply step_keeps_status.
Qed.

Lemma db_inv_active_step s s' :
  step s s' -> db_inv s ->
  forall id id' dis dis',
    disputes s'.1 !! id = Some dis -> disputes s'.1 !! id' = Some dis' ->
    d_job_id dis = d_job_id dis' ->
    d_status dis ∈ [d_open; d_under_review] -> d_status dis' ∈ [d_open; d_under_review] ->
    id = id'.
Proof.
  intros Hst Hinv. pose proof (di_one_active _ Hinv) as Hone. clear Hinv.
  destruct Hst as [| | | | | |d now id0 dis0 j Hn _ _ _ Hnone|d now id0 dis0 ? ? ? s0 Hd0 Hs0| | |];
    simpl in *; eauto; intros id id' dis dis'; rewrite !lookup_insert;
    repeat case_decide; subst; auto; intros ?? Hjob Hs Hs'; simplify_eq/=;
    try (by apply (Hone id id' dis dis')).
  - destruct (Hnone id' dis') as [??]; [done..|]. by in_list.
  - destruct (Hnone id dis) as [??]; [done..|]. by in_list.
  - destruct Hs0 as [->|[-> Ho]]; [by in_list|]. apply (Hone id id' dis0 dis'); auto.
    rewrite Ho. in_list.
  - destruct Hs0 as [->|[-> Ho]]; [by in_list|]. apply (Hone id id' dis dis0); auto.
    rewrite Ho. in_list.
Qed.

Lemma db_inv_step s s' : step s s' -> db_inv s -> db_inv s'.
Proof.
  intros Hst Hinv. split.
  - eapply db_inv_jobs_step; eauto. apply Hinv.
  - by apply (db_inv_metering_step s).
  - by apply (db_inv_dispute_step s).
  - by apply (db_inv_active_step s).
Qed.

Lemma db_inv_steps s s' : rtc step s s' -> db_inv s -> db_inv s'.
Proof. induction 1; eauto using db_inv_step. Qed.

Lemma db_inv_empty d now :
  jobs d = ∅ -> job_metering d = ∅ -> disputes d = ∅ -> db_inv (d, now).
Proof.
  intros Hj Hm Hd. split; simpl; rewrite ?Hj, ?Hm, ?Hd; intros *; by rewrite lookup_empty.
Qed.

#[export] Hint Resolve db_inv_steps steps_spec : soho.
