(* ===== verification/Effects.v ===== *)
(** Reasoning about the effectful code: rely and guarantee over [step].

    The rely: between two statements the rest of the system takes [step]s.  The
    guarantee: so does the code itself.  [triple P m Q] adds a precondition and
    a postcondition; a predicate that every [step] preserves is [stable] and can
    be carried across statements.  [safe m] is the bare guarantee. *)
From S2P Require Import Prelude Float64 Workload Registry Database Lifecycle.
Local Open Scope Z_scope.

Definition st (w : World) : state := (w_db w, w_now w).

Definition env_ok (es : list Event) : Prop :=
  Forall (fun e => forall now d, rtc step (d, now) (ev_db e now d, now)) es.

Definition triple {A} (P : state -> Prop) (m : M A) (Q : result Error A -> state -> Prop) : Prop :=
  forall w r w', env_ok (w_events w) -> w_tx w = None -> P (st w) -> m w = (r, w') ->
    env_ok (w_events w') /\ w_tx w' = None /\ rtc step (st w) (st w') /\ Q r (st w').

Definition safe {A} (m : M A) : Prop := triple (fun _ => True) m (fun _ _ => True).

Definition stable (P : state -> Prop) : Prop := forall s s', step s s' -> P s -> P s'.

Lemma stable_steps P s s' : stable P -> rtc step s s' -> P s -> P s'.
Proof. intros HP. induction 1; eauto. Qed.

Lemma stable_True : stable (fun _ => True).
Proof. done. Qed.

Lemma stable_and P Q : stable P -> stable Q -> stable (fun s => P s /\ Q s).
Proof. intros HP HQ s s' ? [??]. eauto. Qed.

(** The job exists and agrees with [j] on everything the consumer specified. *)
Definition job_spec (id : string) (j : JobRow) (s : state) : Prop :=
  exists j', jobs s.1 !! id = Some j' /\ same_spec j j'.

Lemma stable_job_spec id j : stable (job_spec id j).
Proof.
  intros s s' Hst (j1 & Hj1 & H1). destruct (steps_spec s s' id j1) as (j2 & ? & ?).
  - by apply rtc_once.
  - done.
  - exists j2. split; [done|]. by etrans.
Qed.

Definition job_at (id : string) (x : job_status) (s : state) : Prop :=
  exists j, jobs s.1 !! id = Some j /\ j_status j = x.

Lemma stable_job_at id x : terminal x = true -> stable (job_at id x).
Proof. intros Ht s s' Hst. by apply step_keeps_status. Qed.

Lemma stable_now t : stable (fun s => t <= s.2).
Proof. intros s s' Hst ?. apply step_time in Hst. lia. Qed.

#[export] Hint Resolve stable_True stable_and stable_job_spec stable_job_at stable_now : soho.

(** A read consumes one event and changes nothing else. *)
Lemma query_row_run {A} (f : Z -> DB -> option A) w :
  query_row f w = (match (next_event w).1 with
    | Ok Succeeds => match f (sql_now (next_event w).2) (w_db (next_event w).2) with
        | Some a => Ok a | None => Err ErrNoRows end
    | _ => Err ErrConn end, (next_event w).2).
Proof.
  unfold query_row, stmt, mbind, M_bind, run_stmt, try, fail.
  unfold next_event. destruct (w_events w) as [|[? ? ? ? x] es]; simpl.
  - destruct (f _ _); done.
  - destruct x; [|done|]; destruct (f _ _); done.
Qed.

(** ** Rules *)

Section rules.
Context {A B : Type}.
Implicit Types (P : state -> Prop).

Lemma triple_conseq P P' (m : M A) (Q Q' : result Error A -> state -> Prop) :
  triple P m Q -> (forall s, P' s -> P s) -> (forall r s, Q r s -> Q' r s) -> triple P' m Q'.
Proof.
  intros Hm HP HQ w r w' He Ht Hp Hr. destruct (Hm w r w') as (?&?&?&?); auto.
Qed.

Lemma triple_safe P (m : M A) Q : triple P m Q -> (forall s, P s) -> safe m.
Proof. intros Hm HP. eapply triple_conseq; eauto. Qed.

(** A stable fact survives safe code. *)
Lemma triple_frame P (m : M A) Q R :
  stable R -> triple P m Q -> triple (fun s => P s /\ R s) m (fun r s => Q r s /\ R s).
Proof.
  intros HR Hm w r w' He Ht [Hp Hr] Hw. destruct (Hm w r w') as (?&?&Hst&?); auto.
  repeat split; auto. by eapply stable_steps.
Qed.

Lemma safe_frame (m : M A) R : stable R -> safe m -> triple R m (fun _ s => R s).
Proof.
  intros HR Hm. eapply triple_conseq; [apply (triple_frame _ _ _ R HR Hm)| |]; naive_solver.
Qed.

Lemma triple_ret (a : A) (Q : result Error A -> state -> Prop) :
  triple (fun s => Q (Ok a) s) (mret a) Q.
Proof. intros w r w' He Ht Hp [= <- <-]. auto using rtc_refl. Qed.

Lemma triple_fail e (Q : result Error A -> state -> Prop) : triple (fun s => Q (Err e) s) (fail e) Q.
Proof. intros w r w' He Ht Hp [= <- <-]. auto using rtc_refl. Qed.

Lemma triple_bind P (m : M A) (f : A -> M B) R (Q : result Error B -> state -> Prop) :
  triple P m R -> (forall e s, R (Err e) s -> Q (Err e) s) ->
  (forall a, triple (fun s => R (Ok a) s) (f a) Q) -> triple P (m ≫= f) Q.
Proof.
  intros Hm HE Hf w r w' He Ht Hp. unfold mbind, M_bind.
  destruct (m w) as [[a|e] w1] eqn:Hw.
  - intros Hr. destruct (Hm _ _ _ He Ht Hp Hw) as (He1 & Ht1 & Hs1 & Hq1).
    destruct (Hf a w1 r w' He1 Ht1 Hq1 Hr) as (?&?&?&?). repeat split; auto. by etrans.
  - intros [= <- <-]. destruct (Hm _ _ _ He Ht Hp Hw) as (?&?&?&?). auto.
Qed.

Lemma triple_try P (m : M A) (Q : result Error (result Error A) -> state -> Prop) :
  triple P m (fun r s => Q (Ok r) s) -> triple P (try m) Q.
Proof.
  intros Hm w r w' He Ht Hp. unfold try. destruct (m w) as [r1 w1] eqn:Hw.
  intros [= <- <-]. by apply (Hm w).
Qed.

Lemma next_event_inv w r w' :
  next_event w = (r, w') -> env_ok (w_events w) -> w_tx w = None ->
  env_ok (w_events w') /\ w_tx w' = None /\ rtc step (st w) (st w') /\ exists f, r = Ok f.
Proof.
  unfold next_event, st, env_ok. destruct (w_events w) as [|e es]; intros [= <- <-] He ->; simpl.
  - split_and!; eauto. apply rtc_once, step_tick. lia.
  - apply Forall_cons in He as [He Hes]. split_and!; eauto.
    eapply rtc_l; [apply (step_tick _ _ (w_now w + Z.of_N (ev_tick e))); lia|]. apply He.
Qed.

(** One statement: after the others' steps, its own effect is steps too. *)
Lemma triple_stmt P (f : Z -> DB -> result Error (A * DB)) (Q : result Error A -> state -> Prop) :
  stable P -> (forall e s, P s -> Q (Err e) s) ->
  (forall now d a d', P (d, now) -> f now d = Ok (a, d') ->
     rtc step (d, now) (d', now) /\ Q (Ok a) (d', now) /\ Q (Err ErrConn) (d', now)) ->
  triple P (stmt f) Q.
Proof.
  intros HP HE Hf w r w' He Ht Hp. unfold stmt, mbind, M_bind.
  destruct (next_event w) as [[x|e] w1] eqn:Hn;
    destruct (next_event_inv _ _ _ Hn He Ht) as (He1 & Ht1 & Hs1 & Hx); [|by destruct Hx].
  pose proof (stable_steps _ _ _ HP Hs1 Hp) as Hp1.
  unfold run_stmt, try, sql_now. destruct x; simpl; rewrite ?Ht1; simpl.
  - destruct (f (w_now w1) (w_db w1)) as [[a d']|e] eqn:Hfe; intros [= <- <-]; [|auto].
    destruct (Hf _ _ _ _ Hp1 Hfe) as (?&?&?). simpl. split_and!; auto. by etrans.
  - intros [= <- <-]. auto.
  - destruct (f (w_now w1) (w_db w1)) as [[a d']|e] eqn:Hfe; intros [= <- <-]; [|auto].
    destruct (Hf _ _ _ _ Hp1 Hfe) as (?&?&?). simpl. split_and!; auto. by etrans.
Qed.

End rules.

Section derived.
Context {A B : Type}.

Lemma triple_query P (f : Z -> DB -> A) (Q : result Error A -> state -> Prop) :
  stable P -> (forall e s, P s -> Q (Err e) s) ->
  (forall now d, P (d, now) -> Q (Ok (f now d)) (d, now)) -> triple P (query f) Q.
Proof.
  intros HP HE HQ. apply triple_stmt; auto. intros now d a d' Hp [= <- <-].
  split_and!; auto using rtc_refl.
Qed.

Lemma triple_query_row P (f : Z -> DB -> option A) (Q : result Error A -> state -> Prop) :
  stable P -> (forall e s, P s -> Q (Err e) s) ->
  (forall now d a, P (d, now) -> f now d = Some a -> Q (Ok a) (d, now)) ->
  triple P (query_row f) Q.
Proof.
  intros HP HE HQ. apply triple_stmt; auto. intros now d a d' Hp.
  destruct (f now d) eqn:Hf; intros [= <- <-]. split_and!; auto using rtc_refl.
Qed.

Lemma triple_exec P (f : Z -> DB -> A * DB) (Q : result Error A -> state -> Prop) :
  stable P -> (forall e s, P s -> Q (Err e) s) ->
  (forall now d, P (d, now) -> rtc step (d, now) ((f now d).2, now) /\
     Q (Ok (f now d).1) ((f now d).2, now) /\ Q (Err ErrConn) ((f now d).2, now)) ->
  triple P (exec f) Q.
Proof.
  intros HP HE HQ. apply triple_stmt; auto. intros now d a d' Hp. specialize (HQ now d Hp).
  destruct (f now d). by intros [= <- <-].
Qed.

Lemma safe_ret (a : A) : safe (mret a).
Proof. exact (triple_ret a (fun _ _ => True)). Qed.

Lemma safe_fail e : safe (fail (A := A) e).
Proof. exact (triple_fail e (fun _ _ => True)). Qed.

Lemma safe_bind (m : M A) (f : A -> M B) : safe m -> (forall a, safe (f a)) -> safe (m ≫= f).
Proof. intros Hm Hf. by eapply triple_bind. Qed.

Lemma safe_try (m : M A) : safe m -> safe (try m).
Proof. intros Hm. by apply triple_try. Qed.

Lemma safe_stmt (f : Z -> DB -> result Error (A * DB)) :
  (forall now d a d', f now d = Ok (a, d') -> rtc step (d, now) (d', now)) -> safe (stmt f).
Proof. intros Hf. apply triple_stmt; [done..|]. intros. eauto. Qed.

Lemma safe_query (f : Z -> DB -> A) : safe (query f).
Proof. by apply triple_query. Qed.

Lemma safe_query_row (f : Z -> DB -> option A) : safe (query_row f).
Proof. by apply triple_query_row. Qed.

Lemma safe_exec (f : Z -> DB -> A * DB) :
  (forall now d, rtc step (d, now) ((f now d).2, now)) -> safe (exec f).
Proof. intros Hf. apply triple_exec; [done..|]. auto. Qed.

Lemma safe_gets (f : World -> A) : safe (gets f).
Proof. intros w r w' ??? [= <- <-]. auto using rtc_refl. Qed.

Lemma safe_modify (f : World -> World) :
  (forall w, st (f w) = st w /\ w_events (f w) = w_events w /\ w_tx (f w) = w_tx w) ->
  safe (modify f).
Proof.
  intros Hf w r w' He Ht _ [= <- <-]. destruct (Hf w) as (-> & -> & ->). auto using rtc_refl.
Qed.

Lemma safe_next_event : safe next_event.
Proof.
  intros w r w' He Ht _ Hn. destruct (next_event_inv _ _ _ Hn He Ht) as (?&?&?&?). auto.
Qed.

Lemma safe_fresh_uuid : safe fresh_uuid.
Proof. intros w r w' ??? [= <- <-]. split_and!; auto. apply rtc_refl. Qed.

End derived.

Lemma safe_reg_read {A} (f : NodeRegistry -> A) : safe (reg_read f).
Proof. apply safe_bind; [apply safe_next_event|]. intros _. apply safe_gets. Qed.

Lemma safe_reg_write f : safe (reg_write f).
Proof. apply safe_bind; [apply safe_next_event|]. intros _. by apply safe_modify. Qed.

Lemma safe_record f : safe (record f).
Proof. by apply safe_modify. Qed.

Lemma safe_time_Now : safe time_Now.
Proof. apply safe_gets. Qed.

(** A reading of the clock is never ahead of it. *)
Lemma triple_time_Now P :
  stable P -> triple P time_Now (fun r s => P s /\ exists t, r = Ok t /\ t <= s.2).
Proof.
  intros HP w r w' He Ht Hp [= <- <-]. split_and!; auto using rtc_refl.
  exists (w_now w). split; [done|]. simpl. lia.
Qed.

(** A loop over a list with a body that handles its own errors. *)
Fixpoint forM {A} (l : list A) (f : A -> M unit) : M unit :=
  match l with
  | [] => mret tt
  | a :: l' => _ ← f a; forM l' f
  end.

Lemma safe_forM {A} (l : list A) f : (forall a, safe (f a)) -> safe (forM l f).
Proof.
  intros Hf. induction l as [|a l IH]; simpl; [apply safe_ret|].
  apply safe_bind; [apply Hf|]. auto.
Qed.

(** ** Transactions *)

(** Inside a transaction that began at [t0], where [NOW()] stays [t0] and only
    the process clock moves. *)
Section transactions.
Context (t0 : Z).

Definition tx_triple {A} (P : DB -> Prop) (m : M A) (Q : A -> DB -> Prop) : Prop :=
  forall w r w', w_tx w = Some t0 -> P (w_db w) -> m w = (r, w') ->
    w_events w' `suffix_of` w_events w /\ w_tx w' = Some t0 /\ w_now w <= w_now w' /\
    (forall a, r = Ok a -> Q a (w_db w')).

Lemma next_event_tx w r w' :
  next_event w = (r, w') -> w_tx w = Some t0 ->
  w_events w' `suffix_of` w_events w /\ w_tx w' = Some t0 /\ w_db w' = w_db w /\
  w_now w <= w_now w' /\ exists f, r = Ok f.
Proof.
  unfold next_event. destruct (w_events w) as [|e es]; intros [= <- <-] ->; simpl.
  - split_and!; eauto. lia.
  - split_and!; eauto; [by apply suffix_cons_r|lia].
Qed.

Lemma tx_bind {A B} P (m : M A) (f : A -> M B) R Q :
  tx_triple P m R -> (forall a, tx_triple (R a) (f a) Q) -> tx_triple P (m ≫= f) Q.
Proof.
  intros Hm Hf w r w' Ht Hp. unfold mbind, M_bind.
  destruct (m w) as [[a|e] w1] eqn:Hw; destruct (Hm _ _ _ Ht Hp Hw) as (He1 & Ht1 & Hn1 & Hr).
  - intros Hr'. destruct (Hf a w1 r w' Ht1 (Hr a eq_refl) Hr') as (?&?&?&?).
    split_and!; auto; [by etrans|lia].
  - intros [= <- <-]. split_and!; auto. done.
Qed.

Lemma tx_conseq {A} P P' (m : M A) Q Q' :
  tx_triple P m Q -> (forall d, P' d -> P d) -> (forall a d, Q a d -> Q' a d) -> tx_triple P' m Q'.
Proof.
  intros Hm HP HQ w r w' Ht Hp Hw. destruct (Hm w r w') as (?&?&?&?); auto.
  split_and!; auto.
Qed.

Lemma tx_ret {A} (a : A) Q : tx_triple (Q a) (mret a) Q.
Proof. intros w r w' Ht Hp [= <- <-]. split_and!; auto; [lia|]. by intros ? [= <-]. Qed.

Lemma tx_fail {A} P e Q : tx_triple P (fail (A := A) e) Q.
Proof. intros w r w' Ht Hp [= <- <-]. split_and!; auto; [lia|done]. Qed.

Lemma tx_gets {A} P (f : World -> A) : tx_triple P (gets f) (fun _ => P).
Proof. intros w r w' Ht Hp [= <- <-]. split_and!; auto. lia. Qed.

(** A statement whose error the code inspects: the reply can be lost after the
    statement took effect. *)
Lemma tx_try_stmt {A} (P : DB -> Prop) (f : Z -> DB -> result Error (A * DB)) (Q : result Error A -> DB -> Prop) :
  (forall d a d', P d -> f t0 d = Ok (a, d') -> Q (Ok a) d' /\ Q (Err ErrConn) d') ->
  (forall d e, P d -> f t0 d = Err e \/ e = ErrConn -> Q (Err e) d) ->
  tx_triple P (try (stmt f)) Q.
Proof.
  intros Hf Hfe w r w' Ht Hp. unfold try at 1, stmt, mbind, M_bind.
  destruct (next_event w) as [[x|e] w1] eqn:Hn;
    destruct (next_event_tx _ _ _ Hn Ht) as (He1 & Ht1 & Hd1 & Hn1 & Hx); [|by destruct Hx].
  rewrite <- Hd1 in Hp. unfold run_stmt, try, sql_now.
  destruct x; simpl; rewrite ?Ht1; simpl.
  - destruct (f t0 (w_db w1)) as [[a d']|e] eqn:Hx'; intros [= <- <-]; split_and!; auto;
      intros ? [= <-]; [by apply (Hf _ _ _ Hp Hx')|by auto].
  - intros [= <- <-]. split_and!; auto. intros ? [= <-]. auto.
  - destruct (f t0 (w_db w1)) as [[a d']|e] eqn:Hx'; intros [= <- <-]; split_and!; auto;
      intros ? [= <-]; [by apply (Hf _ _ _ Hp Hx')|by auto].
Qed.

Lemma tx_of_try {A} P (m : M A) Q :
  tx_triple P (try m) (fun r d => forall a, r = Ok a -> Q a d) -> tx_triple P m Q.
Proof.
  intros Hm w r w' Ht Hp Hw. destruct (Hm w (Ok r) w' Ht Hp) as (?&?&?&Hq).
  { unfold try. by rewrite Hw. }
  split_and!; auto. intros a ->. by eapply Hq.
Qed.

Lemma tx_stmt {A} (P : DB -> Prop) (f : Z -> DB -> result Error (A * DB)) Q :
  (forall d a d', P d -> f t0 d = Ok (a, d') -> Q a d') -> tx_triple P (stmt f) Q.
Proof.
  intros Hf. apply tx_of_try, tx_try_stmt; [|done]. intros d a d' Hp Hfe. split; [|done].
  intros ? [= <-]. eauto.
Qed.

Lemma tx_read {A} (P : DB -> Prop) (f : Z -> DB -> option A) : tx_triple P (query_row f) (fun _ => P).
Proof.
  apply tx_stmt. intros d a d' Hp. destruct (f t0 d); [|done]. by intros [= <- <-].
Qed.

(** A read whose error is inspected leaves the database alone either way. *)
Lemma tx_try_read {A} (P : DB -> Prop) (f : Z -> DB -> option A) :
  tx_triple P (try (query_row f)) (fun _ => P).
Proof.
  apply tx_try_stmt; [|done]. intros d a d' Hp. destruct (f t0 d); [|done]. by intros [= <- <-].
Qed.

Lemma tx_forM {A} (P : DB -> Prop) (l : list A) f :
  (forall a, tx_triple P (f a) (fun _ => P)) -> tx_triple P (forM l f) (fun _ => P).
Proof.
  intros Hf. induction l as [|a l IH]; simpl; [apply (tx_ret tt (fun _ => P))|].
  eapply tx_bind; [apply Hf|]. intros []. exact IH.
Qed.

End transactions.

(** A transaction whose committed effect is steps is safe whatever happens:
    an error, a crash before the commit and a lost commit reply included. *)
Lemma triple_transaction {A} (m : M A) (Q : A -> DB -> Prop) (P : state -> Prop) :
  stable P ->
  (forall d0 t0, P (d0, t0) -> tx_triple t0 (fun d => d = d0) m
     (fun a d => rtc step (d0, t0) (d, t0) /\ Q a d)) ->
  triple P (transaction m) (fun r s => forall a, r = Ok a -> Q a s.1).
Proof.
  intros HP Hm w r w' He Ht Hp. unfold transaction, mbind, M_bind.
  destruct (next_event w) as [[x|e] w1] eqn:Hn;
    destruct (next_event_inv _ _ _ Hn He Ht) as (He1 & Ht1 & Hs1 & Hx); [|by destruct Hx].
  pose proof (stable_steps _ _ _ HP Hs1 Hp) as Hp1.
  destruct x; [|intros [= <- <-]; by split_and!..].
  unfold in_tx. destruct (m (w1 <| w_tx := Some (w_now w1) |>)) as [r2 w2] eqn:Hw2.
  destruct (Hm (w_db w1) (w_now w1) Hp1 (w1 <| w_tx := Some (w_now w1) |>) r2 w2)
    as (He2 & Ht2 & Hn2 & Hq2); auto. simpl in Hn2.
  assert (Henv : forall es, es `suffix_of` w_events w1 -> env_ok es).
  { intros es [l Hl]. unfold env_ok in *. rewrite Hl in He1. by apply Forall_app in He1 as [_ ?]. }
  assert (Hback : forall t, w_now w1 <= t -> rtc step (st w) (w_db w1, t)).
  { intros t Ht'. etrans; [exact Hs1|]. apply rtc_once. by apply step_tick. }
  destruct r2 as [a|e]; [|intros [= <- <-]; split_and!; auto; [by apply Hback|done]].
  destruct (next_event w2) as [r3 w3] eqn:Hn3.
  destruct (next_event_tx _ _ _ _ Hn3 Ht2) as (He3 & Ht3 & Hd3 & Hle3 & f & ->).
  pose proof (Henv _ (transitivity He3 He2)) as Hok.
  assert (Hcommit : rtc step (st w) (st w3) /\ Q a (w_db w3)).
  { destruct (Hq2 a eq_refl) as [Hst HQ]. unfold st. rewrite Hd3. split; [|done].
    etrans; [exact Hs1|]. etrans; [exact Hst|]. apply rtc_once, step_tick. lia. }
  destruct Hcommit as [Hc HQ].
  destruct f; intros [= <- <-]; split_and!; auto; try done.
  - by intros ? [= <-].
  - apply Hback. simpl. lia.
Qed.

(** A transaction each of whose statements is a sequence of steps. *)
Lemma safe_transaction {A} (m : M A) :
  (forall d0 t0, tx_triple t0 (fun d => rtc step (d0, t0) (d, t0)) m
     (fun _ d => rtc step (d0, t0) (d, t0))) -> safe (transaction m).
Proof.
  intros Hm. eapply triple_conseq;
    [apply (triple_transaction m (fun _ _ => True) (fun _ => True)); [done|]|done|done].
  intros d0 t0 _. eapply tx_conseq; [apply (Hm d0 t0)| |auto]. intros d ->. apply rtc_refl.
Qed.

Create HintDb safe discriminated.

(** Decompose straight-line code into its statements. *)
Ltac safe_code :=
  repeat first
  [ apply safe_ret | apply safe_fail | apply safe_query | apply safe_query_row
  | apply safe_reg_read | apply safe_reg_write | apply safe_time_Now | apply safe_fresh_uuid
  | apply safe_gets | apply safe_record | apply safe_try | progress eauto with safe nocore
  | apply safe_bind; [|intros ?] | apply safe_forM; intros ?
  | match goal with
    | |- safe (if ?b then _ else _) => destruct b
    | |- safe (match ?x with _ => _ end) => destruct x
    end ].

(** A guarded UPDATE of one job row whose effect is a [job_step]. *)
Lemma update_job_step (now : Z) (d : DB) id guard f :
  (forall j, jobs d !! id = Some j -> guard j = true -> job_step now d j (f j)) ->
  rtc step (d, now) ((update_job id guard f d).2, now).
Proof.
  intros Hf. unfold update_job. destruct (jobs d !! id) as [j|] eqn:Hj; [|apply rtc_refl].
  destruct (guard j) eqn:Hg; [|apply rtc_refl]. simpl. apply rtc_once, step_job with j; auto.
Qed.

Lemma rebind_job_step (now : Z) (d : DB) id node guard f n d' :
  (forall j, jobs d !! id = Some j -> guard j = true -> job_step now d j (f j)) ->
  rebind_job id node guard f d = Ok (n, d') -> rtc step (d, now) (d', now).
Proof.
  intros Hf. unfold rebind_job. pose proof (update_job_step now d id guard f Hf) as Hu.
  destruct (update_job id guard f d) as [n1 d1]. case_match; [done|]. by intros [= <- <-].
Qed.

(** ** Running code *)

Lemma bind_ok {A B} (m : M A) (f : A -> M B) w b w' :
  (m ≫= f) w = (Ok b, w') -> exists a w1, m w = (Ok a, w1) /\ f a w1 = (Ok b, w').
Proof. unfold mbind, M_bind. destruct (m w) as [[a|e] w1]; [eauto|done]. Qed.

(** A world in which nothing else happens and nothing fails. *)
Definition calm (w : World) : Prop := w_events w = [] /\ sql_now w = w_now w.

Lemma next_event_calm w : calm w -> next_event w = (Ok Succeeds, w).
Proof.
  intros [He _]. unfold next_event. rewrite He. simpl. destruct w as [d r s t es u b]; simpl in *.
  subst es. rewrite Z.add_0_r. destruct s; by destruct b.
Qed.

Lemma stmt_calm {A} (f : Z -> DB -> result Error (A * DB)) w :
  calm w -> stmt f w = run_stmt f w.
Proof. intros He. unfold stmt, mbind, M_bind. by rewrite next_event_calm. Qed.

Lemma bind_eq {A B} (m : M A) (f : A -> M B) w a w1 :
  m w = (Ok a, w1) -> (m ≫= f) w = f a w1.
Proof. intros Hm. unfold mbind, M_bind. by rewrite Hm. Qed.

Lemma run_stmt_ok {A} (f : Z -> DB -> result Error (A * DB)) w a d :
  sql_now w = w_now w -> f (w_now w) (w_db w) = Ok (a, d) ->
  run_stmt f w = (Ok a, w <| w_db := d |>).
Proof. unfold run_stmt. by intros -> ->. Qed.

Lemma stmt_calm_ok {A} (f : Z -> DB -> result Error (A * DB)) w a d :
  calm w -> f (w_now w) (w_db w) = Ok (a, d) -> stmt f w = (Ok a, w <| w_db := d |>).
Proof. intros He Hf. rewrite stmt_calm by done. destruct He. by apply run_stmt_ok. Qed.

Lemma query_calm {A} (f : Z -> DB -> A) w :
  calm w -> query f w = (Ok (f (w_now w) (w_db w)), w).
Proof. intros He. unfold query. erewrite stmt_calm_ok by done. by destruct w. Qed.

Lemma query_row_calm {A} (f : Z -> DB -> option A) w a :
  calm w -> f (w_now w) (w_db w) = Some a -> query_row f w = (Ok a, w).
Proof.
  intros He Hf. unfold query_row. erewrite stmt_calm_ok; [|done|by rewrite Hf].
  by destruct w.
Qed.

Lemma reg_read_calm {A} (f : NodeRegistry -> A) w :
  calm w -> reg_read f w = (Ok (f (w_reg w)), w).
Proof. intros He. unfold reg_read. by rewrite (bind_eq _ _ _ _ _ (next_event_calm w He)). Qed.

Lemma reg_write_calm f w :
  calm w -> reg_write f w = (Ok tt, w <| w_reg := f (w_reg w) |>).
Proof. intros He. unfold reg_write. by rewrite (bind_eq _ _ _ _ _ (next_event_calm w He)). Qed.

(** ** Relations the environment respects *)

(** [preserves R m]: if everything the rest of the system does to the database is
    related by the preorder [R], so is what [m] does, whatever fails. *)
Section Preserves.
Context (R : DB -> DB -> Prop) `{!PreOrder R}.

Definition respects (es : list Event) : Prop := Forall (fun e => forall now d, R d (ev_db e now d)) es.

Definition preserves {A} (m : M A) : Prop := forall w r w',
  respects (w_events w) -> m w = (r, w') -> respects (w_events w') /\ R (w_db w) (w_db w').

Lemma preserves_next : preserves next_event.
Proof.
  intros w r w' He. unfold next_event, respects in *.
  destruct (w_events w) as [|e es]; intros [= <- <-]; simpl.
  - split; [constructor|]. by destruct (w_tx w).
  - apply Forall_cons in He as [He Hes]. split; [done|]. destruct (w_tx w); [done|apply He].
Qed.

Lemma preserves_ret {A} (r : result Error A) : preserves (fun w => (r, w)).
Proof. intros w r' w' Hw [= <- <-]. done. Qed.

Lemma preserves_gets {A} (f : World -> A) : preserves (gets f).
Proof. intros w r' w' Hw [= <- <-]. done. Qed.

Lemma preserves_bind {A B} (m : M A) (f : A -> M B) :
  preserves m -> (forall a, preserves (f a)) -> preserves (m ≫= f).
Proof.
  intros Hm Hf w r w' Hw. unfold mbind, M_bind.
  destruct (m w) as [[a|e] w1] eqn:Hw1; destruct (Hm _ _ _ Hw Hw1) as [Hq Hle].
  - intros Hr. destruct (Hf a _ _ _ Hq Hr) as [? Hle2]. split; [done|]. by etrans.
  - by intros [= <- <-].
Qed.

Lemma preserves_try {A} (m : M A) : preserves m -> preserves (try m).
Proof.
  intros Hm w r w' Hw. unfold try. destruct (m w) as [r1 w1] eqn:Hw1. intros [= <- <-].
  by apply (Hm w r1 w1).
Qed.

Lemma preserves_stmt {A} (f : Z -> DB -> result Error (A * DB)) :
  (forall now d a d', f now d = Ok (a, d') -> R d d') -> preserves (stmt f).
Proof.
  intros Hf. apply preserves_bind; [apply preserves_next|].
  assert (Hrun : preserves (run_stmt f)).
  { intros w r w' Hw. unfold run_stmt. destruct (f _ _) as [[a d']|e] eqn:Hfe; intros [= <- <-].
    - split; [done|]. by eapply Hf.
    - done. }
  intros [].
  - exact Hrun.
  - apply preserves_ret.
  - apply preserves_bind; [by apply preserves_try|]. intros _. apply preserves_ret.
Qed.

Lemma preserves_query {A} (f : Z -> DB -> A) : preserves (query f).
Proof. apply preserves_stmt. intros now d a d' [= <- <-]. done. Qed.

Lemma preserves_query_row {A} (f : Z -> DB -> option A) : preserves (query_row f).
Proof. apply preserves_stmt. intros now d a d'. case_match; [|done]. by intros [= <- <-]. Qed.

Lemma preserves_in_tx_ending {A} (m : M (TxEnd A)) : preserves m -> preserves (in_tx_ending m).
Proof.
  intros Hm w r w' Hw. unfold in_tx_ending. pose proof (Hm (w <| w_tx := Some (w_now w) |>)) as Hb.
  destruct (m _) as [[[r1|r1]|e] w1]; destruct (Hb _ _ Hw eq_refl) as [He1 Hle1];
    simpl in Hle1; [|by intros [= <- <-]..].
  destruct (next_event w1) as [[[]|?] w2] eqn:Hn; destruct (preserves_next _ _ _ He1 Hn);
    intros [= <- <-]; simpl; (split; [done|]); [by etrans|done|by etrans|done].
Qed.

Lemma preserves_transaction_ending {A} (m : M (TxEnd A)) :
  preserves m -> preserves (transaction_ending m).
Proof.
  intros Hm. apply preserves_bind; [apply preserves_next|].
  intros []; [by apply preserves_in_tx_ending|apply preserves_ret..].
Qed.

(** [transaction] is the case that commits whatever the body returned. *)
Lemma transaction_as_ending {A} (m : M A) w :
  transaction m w = transaction_ending (a ← m; mret (Committing (Ok a))) w.
Proof.
  unfold transaction, transaction_ending, mbind, M_bind. destruct (next_event w) as [[[]|] w1]; try done.
  unfold in_tx, in_tx_ending. destruct (m _) as [[a|e] w2]; done.
Qed.

Lemma preserves_transaction {A} (m : M A) : preserves m -> preserves (transaction m).
Proof.
  intros Hm w r w' Hw. rewrite transaction_as_ending.
  apply (preserves_transaction_ending (a ← m; mret (Committing (Ok a)))); [|done].
  apply preserves_bind; [done|]. intros a. apply preserves_ret.
Qed.

(** Transactions that are related as a whole, though not statement by
    statement. *)
Lemma preserves_tx_ending {A} (m : M (TxEnd A)) :
  (forall d0 t0, tx_triple t0 (fun d => d = d0) m
     (fun x d => match x with Committing _ => R d0 d | RollingBack _ => True end)) ->
  preserves (transaction_ending m).
Proof.
  intros Hm. apply preserves_bind; [apply preserves_next|].
  intros []; [|apply preserves_ret..]. intros w r w' He. unfold in_tx_ending.
  destruct (m (w <| w_tx := Some (w_now w) |>)) as [r2 w2] eqn:Hw2.
  destruct (Hm (w_db w) (w_now w) (w <| w_tx := Some (w_now w) |>) r2 w2) as (Hs & Ht2 & _ & Hq); [done..|].
  simpl in Hs.
  assert (Henv : forall es, es `suffix_of` w_events w2 -> respects es).
  { intros es Hes. unfold respects in *. destruct (transitivity Hes Hs) as [l Hl]. rewrite Hl in He.
    by apply Forall_app in He as [_ ?]. }
  destruct r2 as [[r2|r2]|e]; [|intros [= <- <-]; simpl; split; [by apply Henv|done]..].
  specialize (Hq _ eq_refl). simpl in Hq.
  destruct (next_event w2) as [x3 w3] eqn:Hn3.
  destruct (next_event_tx _ _ _ _ Hn3 Ht2) as (He3 & Ht3 & Hd3 & _ & f & ->).
  destruct f; intros [= <- <-]; simpl; (split; [by apply Henv|]); try done; by rewrite Hd3.
Qed.

Lemma preserves_tx {A} (m : M A) :
  (forall d0 t0, tx_triple t0 (fun d => d = d0) m (fun _ d => R d0 d)) -> preserves (transaction m).
Proof.
  intros Hm w r w' Hw. rewrite transaction_as_ending. revert w r w' Hw.
  apply preserves_tx_ending. intros d0 t0. eapply tx_bind; [apply Hm|]. intros a.
  exact (tx_ret t0 (Committing (Ok a))
    (fun x d => match x with Committing _ => R d0 d | RollingBack _ => True end)).
Qed.

End Preserves.

(** An invariant of the database that every commit keeps. *)
Section Invariant.
Context (I : DB -> Prop).

Definition env_keeps (es : list Event) : Prop :=
  Forall (fun e => forall now d, I d -> I (ev_db e now d)) es.

Lemma next_event_keeps w r w' :
  env_keeps (w_events w) -> I (w_db w) -> next_event w = (r, w') -> env_keeps (w_events w') /\ I (w_db w').
Proof.
  intros He Hi. unfold next_event, env_keeps in *. destruct (w_events w) as [|e es]; intros [= <- <-]; simpl.
  - split; [constructor|]. by destruct (w_tx w).
  - apply Forall_cons in He as [He Hes]. split; [done|]. destruct (w_tx w); [done|by apply He].
Qed.

Lemma tx_ending_keeps {A} (m : M (TxEnd A)) w r w' :
  (forall t0, tx_triple t0 I m (fun x d => match x with Committing _ => I d | RollingBack _ => True end)) ->
  env_keeps (w_events w) -> I (w_db w) -> transaction_ending m w = (r, w') ->
  env_keeps (w_events w') /\ I (w_db w').
Proof.
  intros Hm He Hi. unfold transaction_ending, mbind, M_bind.
  destruct (next_event w) as [[x|e] w1] eqn:Hn;
    destruct (next_event_keeps _ _ _ He Hi Hn) as [He1 Hi1]; [|by intros [= <- <-]].
  destruct x; [|by intros [= <- <-]..]. unfold in_tx_ending.
  destruct (m (w1 <| w_tx := Some (w_now w1) |>)) as [r2 w2] eqn:Hw2.
  destruct (Hm (w_now w1) (w1 <| w_tx := Some (w_now w1) |>) r2 w2) as (Hs & Ht2 & _ & Hq); [done..|].
  simpl in Hs.
  assert (Henv : forall es, es `suffix_of` w_events w2 -> env_keeps es).
  { intros es Hes. unfold env_keeps in *. destruct (transitivity Hes Hs) as [l Hl]. rewrite Hl in He1.
    by apply Forall_app in He1 as [_ ?]. }
  destruct r2 as [[r2|r2]|e]; [|intros [= <- <-]; simpl; split; [by apply Henv|done]..].
  specialize (Hq _ eq_refl). simpl in Hq.
  destruct (next_event w2) as [x3 w3] eqn:Hn3.
  destruct (next_event_tx _ _ _ _ Hn3 Ht2) as (He3 & Ht3 & Hd3 & _ & f & ->).
  destruct f; intros [= <- <-]; simpl; (split; [by apply Henv|]); try done; by rewrite Hd3.
Qed.

Lemma tx_keeps {A} (m : M A) w r w' :
  (forall t0, tx_triple t0 I m (fun _ => I)) ->
  env_keeps (w_events w) -> I (w_db w) -> transaction m w = (r, w') ->
  env_keeps (w_events w') /\ I (w_db w').
Proof.
  intros Hm He Hi. rewrite transaction_as_ending. apply tx_ending_keeps; [|done..]. intros t0.
  eapply tx_bind; [apply Hm|]. intros a.
  exact (tx_ret t0 (Committing (Ok a))
    (fun x d => match x with Committing _ => I d | RollingBack _ => True end)).
Qed.

End Invariant.

(** What a successful transaction did. *)
Lemma transaction_ok {A} (m : M A) w a w' :
  transaction m w = (Ok a, w') -> exists w1 w2, next_event w = (Ok Succeeds, w1) /\
    m (w1 <| w_tx := Some (w_now w1) |>) = (Ok a, w2) /\
    (w_tx w2 = Some (w_now w1) -> w_db w' = w_db w2).
Proof.
  unfold transaction. intros Ht. apply bind_ok in Ht as (x & w1 & Hn & Ht).
  destruct x; try done. unfold in_tx in Ht.
  destruct (m (w1 <| w_tx := Some (w_now w1) |>)) as [[a'|e] w2] eqn:Hm; [|done].
  destruct (next_event w2) as [[[]|] w3] eqn:Hn3; simplify_eq. eexists _, _. split_and!; [done..|].
  intros Ht2. by destruct (next_event_tx _ _ _ _ Hn3 Ht2) as (_ & _ & ? & _).
Qed.

(** An undisturbed transaction either commits or leaves the database alone. *)
Lemma transaction_ending_calm {A} (m : M (TxEnd A)) Q w r w' :
  calm w -> w_tx w = None -> tx_triple (w_now w) (fun d => d = w_db w) m Q ->
  transaction_ending m w = (r, w') -> calm w' /\ w_tx w' = None /\
  ((exists e, r = Err e /\ w_db w' = w_db w) \/ Q (Committing r) (w_db w') \/
   (w_db w' = w_db w /\ exists d, Q (RollingBack r) d)).
Proof.
  intros Hc Ht Hm. unfold transaction_ending.
  rewrite (bind_eq _ _ _ _ _ (next_event_calm w Hc)). unfold in_tx_ending.
  destruct (m (w <| w_tx := Some (w_now w) |>)) as [r2 w2] eqn:Hw2.
  destruct (Hm (w <| w_tx := Some (w_now w) |>) r2 w2) as (Hs & Ht2 & _ & Hq); [done..|].
  simpl in Hs. destruct Hc as [Hev Hnow]. rewrite Hev in Hs. apply suffix_nil_inv in Hs.
  destruct r2 as [[r2|r2]|e].
  - destruct (next_event w2) as [x3 w3] eqn:Hn3.
    destruct (next_event_tx _ _ _ _ Hn3 Ht2) as (Hs3 & Ht3 & Hd3 & _ & _).
    unfold next_event in Hn3. rewrite Hs in Hn3. injection Hn3 as <- <-. intros [= <- <-].
    split_and!; [split; done|done|]. right. left. simpl in *. rewrite Ht2. by apply Hq.
  - intros [= <- <-]. split_and!; [split; done|done|]. right. right. split; [done|]. eexists. by apply Hq.
  - intros [= <- <-]. split_and!; [split; done|done|]. left. by exists e.
Qed.

Lemma transaction_calm {A} (m : M A) Q w r w' :
  calm w -> w_tx w = None -> tx_triple (w_now w) (fun d => d = w_db w) m Q ->
  transaction m w = (r, w') -> calm w' /\ w_tx w' = None /\
  match r with Ok a => Q a (w_db w') | Err _ => w_db w' = w_db w end.
Proof.
  intros Hc Ht Hm. rewrite transaction_as_ending. intros Hr.
  eapply (transaction_ending_calm _ (fun x d => match x with Committing (Ok a) => Q a d | _ => False end))
    in Hr as (?&?&Hcase); [|done|done|].
  - split_and!; [done..|]. destruct Hcase as [(e & -> & ?)|[Hcase|(_ & d & [])]]; [done|]. by destruct r.
  - eapply tx_bind; [exact Hm|]. intros a.
    exact (tx_ret (w_now w) (Committing (Ok a))
      (fun x d => match x with Committing (Ok a) => Q a d | _ => False end)).
Qed.

(** Decompose a program into its statements; what is left are the statements
    that write. *)
Ltac preserves_step :=
  lazymatch goal with
  | |- preserves _ (mret _) => refine (preserves_ret _ _)
  | |- preserves _ (fail _) => refine (preserves_ret _ _)
  | |- preserves _ time_Now => refine (preserves_gets _ _)
  | |- preserves _ (gets _) => refine (preserves_gets _ _)
  | |- preserves _ next_event => refine (preserves_next _)
  | |- preserves _ (query _) => refine (preserves_query _ _)
  | |- preserves _ (query_row _) => refine (preserves_query_row _ _)
  | |- preserves _ (try _) => refine (preserves_try _ _ _)
  | |- preserves _ (transaction _) => refine (preserves_transaction _ _ _)
  | |- preserves _ (transaction_ending _) => refine (preserves_transaction_ending _ _ _)
  | |- preserves _ (exec _) => refine (preserves_stmt _ _ _)
  | |- preserves _ (stmt _) => refine (preserves_stmt _ _ _)
  | |- preserves _ (match ?x with _ => _ end) => destruct x
  | |- preserves _ (@mbind M _ _ _ _ _) => refine (preserves_bind _ _ _ _ _); [|intros ?]
  end.
