(* ===== verification/Encoding.v ===== *)
(** Byte strings and the encodings the program uses: base64 (URL alphabet
    without padding and the standard alphabet with padding), hexadecimal and
    decimal integers, from the Go packages encoding/base64, encoding/hex, strconv
    and strings.  A Go string and a [[]byte] are both a [string] of bytes. *)
From Stdlib Require Import Ascii DecimalString DecimalZ DecimalPos DecimalN.
From S2P Require Import Prelude.
Local Open Scope string_scope.
Local Open Scope Z_scope.

(** ** Bytes *)

Definition byte_of (a : ascii) : Z := Z.of_N (N_of_ascii a).
Definition ascii_of (z : Z) : ascii := ascii_of_N (Z.to_N z).
Definition bytes_of (s : string) : list Z := byte_of <$> String.list_ascii_of_string s.
Definition string_of (l : list Z) : string := String.string_of_list_ascii (ascii_of <$> l).

Definition is_byte (z : Z) : Prop := 0 <= z < 256.

Lemma byte_of_range a : is_byte (byte_of a).
Proof. unfold is_byte, byte_of. pose proof (N_ascii_bounded a). lia. Qed.

Lemma ascii_of_byte a : ascii_of (byte_of a) = a.
Proof. unfold ascii_of, byte_of. by rewrite N2Z.id, ascii_N_embedding. Qed.

Lemma byte_of_ascii z : is_byte z -> byte_of (ascii_of z) = z.
Proof.
  unfold is_byte, ascii_of, byte_of. intros Hz.
  rewrite N_ascii_embedding by lia. lia.
Qed.

Lemma string_of_bytes s : string_of (bytes_of s) = s.
Proof.
  unfold string_of, bytes_of. rewrite <- list_fmap_compose.
  rewrite (list_fmap_ext _ id); [|intros ? a ?; apply ascii_of_byte].
  by rewrite list_fmap_id, String.string_of_list_ascii_of_string.
Qed.

Lemma bytes_of_string l : Forall is_byte l -> bytes_of (string_of l) = l.
Proof.
  intros Hl. unfold string_of, bytes_of. rewrite String.list_ascii_of_string_of_list_ascii.
  induction Hl as [|z l Hz _ IH]; [done|]. rewrite !fmap_cons. by rewrite byte_of_ascii, IH.
Qed.

Lemma bytes_of_range s : Forall is_byte (bytes_of s).
Proof.
  unfold bytes_of. apply Forall_fmap, Forall_true. intros a. apply byte_of_range.
Qed.

(** ** Base64 *)

(** The sextets of a byte sequence; a final group of one or two bytes gives two
    or three sextets. *)
Fixpoint sextets (l : list Z) : list Z :=
  match l with
  | a :: b :: c :: l' =>
      a / 4 :: (a mod 4) * 16 + b / 16 :: (b mod 16) * 4 + c / 64 :: c mod 64 :: sextets l'
  | [a; b] => [a / 4; (a mod 4) * 16 + b / 16; (b mod 16) * 4]
  | [a] => [a / 4; (a mod 4) * 16]
  | [] => []
  end.

(** The decoder; trailing bits are ignored, a lone sextet is corrupt. *)
Fixpoint unsextets (l : list Z) : option (list Z) :=
  match l with
  | a :: b :: c :: d :: l' =>
      r ← unsextets l';
      Some (a * 4 + b / 16 :: (b mod 16) * 16 + c / 4 :: (c mod 4) * 64 + d :: r)
  | [a; b; c] => Some [a * 4 + b / 16; (b mod 16) * 16 + c / 4]
  | [a; b] => Some [a * 4 + b / 16]
  | [a] => None
  | [] => Some []
  end.

Definition url_alphabet : list ascii := String.list_ascii_of_string
  "ABCDEFGHIJKLMNOPQRSTUVWXYZabcdefghijklmnopqrstuvwxyz0123456789-_".

Definition b64_char (alphabet : list ascii) (z : Z) : ascii :=
  default "A"%char (alphabet !! Z.to_nat z).

Fixpoint index_of (l : list ascii) (a : ascii) : option Z :=
  match l with
  | [] => None
  | x :: l' => if Ascii.eqb x a then Some 0 else Z.succ <$> index_of l' a
  end.

(** [base64.RawURLEncoding]; the decoder skips line breaks. *)
Definition RawURLEncode (s : string) : string :=
  String.string_of_list_ascii (b64_char url_alphabet <$> sextets (bytes_of s)).

Definition line_break (a : ascii) : bool := Ascii.eqb a "010" || Ascii.eqb a "013".

Definition RawURLDecode (s : string) : option string :=
  let cs := filter (fun a => line_break a = false) (String.list_ascii_of_string s) in
  ds ← mapM (index_of url_alphabet) cs;
  string_of <$> unsextets ds.

(** [base64.StdEncoding]: padded to groups of four. *)
Definition std_alphabet : list ascii := String.list_ascii_of_string
  "ABCDEFGHIJKLMNOPQRSTUVWXYZabcdefghijklmnopqrstuvwxyz0123456789+/".

Definition strip_padding (cs : list ascii) : list ascii :=
  match reverse cs with
  | "="%char :: "="%char :: r => reverse r
  | "="%char :: r => reverse r
  | _ => cs
  end.

Definition StdDecode (s : string) : option string :=
  let cs := filter (fun a => line_break a = false) (String.list_ascii_of_string s) in
  if negb (Nat.eqb (length cs mod 4) 0) then None
  else
    ds ← mapM (index_of std_alphabet) (strip_padding cs);
    string_of <$> unsextets ds.

(** [strings.TrimSpace] on ASCII white space. *)
Definition is_space (a : ascii) : bool :=
  let n := byte_of a in ((9 <=? n) && (n <=? 13)) || (n =? 32).
Fixpoint trim_left (s : string) : string :=
  match s with
  | String.String c s' => if is_space c then trim_left s' else s
  | EmptyString => ""
  end.
Definition string_rev (s : string) : string :=
  String.string_of_list_ascii (reverse (String.list_ascii_of_string s)).
Definition TrimSpace (s : string) : string := string_rev (trim_left (string_rev (trim_left s))).

Definition is_sextet (z : Z) : Prop := 0 <= z < 64.

(** Structural induction three bytes at a time. *)
Lemma triples_ind (P : list Z -> Prop) :
  P [] -> (forall a, P [a]) -> (forall a b, P [a; b]) ->
  (forall a b c l, P l -> P (a :: b :: c :: l)) -> forall l, P l.
Proof.
  intros H0 H1 H2 H3. fix IH 1. intros [|a [|b [|c l]]]; [done|done|done|]. apply H3, IH.
Qed.

Ltac div_lia := Z.to_euclidean_division_equations; lia.

Lemma sextets_range l : Forall is_byte l -> Forall is_sextet (sextets l).
Proof.
  unfold is_byte, is_sextet. induction l as [|a|a b|a b c l IH] using triples_ind; intros Hl;
    rewrite ?Forall_cons in Hl; destruct_and?; cbn [sextets];
    repeat (apply Forall_cons; split; [div_lia|]); auto.
Qed.

Lemma unsextets_sextets l : Forall is_byte l -> unsextets (sextets l) = Some l.
Proof.
  unfold is_byte. induction l as [|a|a b|a b c l IH] using triples_ind; intros Hl;
    rewrite ?Forall_cons in Hl; destruct_and?; simpl; rewrite ?IH by done; simpl; [done|..];
    repeat f_equal; div_lia.
Qed.

Lemma index_of_char z : is_sextet z -> index_of url_alphabet (b64_char url_alphabet z) = Some z.
Proof.
  unfold is_sextet. intros Hz. assert (Hin : z ∈ seqZ 0 64) by (apply elem_of_seqZ; lia).
  clear Hz. revert z Hin. apply Forall_forall. apply (bool_decide_unpack _). by vm_compute.
Qed.

Lemma b64_char_plain z : is_sextet z ->
  line_break (b64_char url_alphabet z) = false /\ b64_char url_alphabet z <> "."%char.
Proof.
  unfold is_sextet. intros Hz. assert (Hin : z ∈ seqZ 0 64) by (apply elem_of_seqZ; lia).
  clear Hz. revert z Hin. apply Forall_forall. apply (bool_decide_unpack _). by vm_compute.
Qed.

Lemma sextet_chars_plain l : Forall is_sextet l ->
  filter (fun a => line_break a = false) (b64_char url_alphabet <$> l) = b64_char url_alphabet <$> l.
Proof.
  induction 1 as [|z l Hz _ IH]; [done|]. rewrite fmap_cons, filter_cons_True, IH; [done|].
  by apply b64_char_plain.
Qed.

Lemma sextet_chars_index l : Forall is_sextet l ->
  mapM (index_of url_alphabet) (b64_char url_alphabet <$> l) = Some l.
Proof.
  intros Hl. apply mapM_Some, Forall2_fmap_l, Forall_Forall2_diag.
  eapply Forall_impl; [exact Hl|]. exact index_of_char.
Qed.

(** Decoding inverts encoding. *)
Lemma RawURL_roundtrip s : RawURLDecode (RawURLEncode s) = Some s.
Proof.
  unfold RawURLDecode, RawURLEncode. rewrite String.list_ascii_of_string_of_list_ascii.
  pose proof (sextets_range _ (bytes_of_range s)) as Hs.
  rewrite sextet_chars_plain, sextet_chars_index by done. simpl.
  rewrite unsextets_sextets by apply bytes_of_range. simpl. by rewrite string_of_bytes.
Qed.

(** ** Separators *)

Fixpoint lacks (c : ascii) (s : string) : bool :=
  match s with
  | "" => true
  | String.String a s' => negb (Ascii.eqb a c) && lacks c s'
  end.

(** [strings.SplitN(s, c, 2)] when it yields two parts. *)
Fixpoint cut (c : ascii) (s : string) : option (string * string) :=
  match s with
  | "" => None
  | String.String a s' =>
      if Ascii.eqb a c then Some ("", s')
      else '(x, y) ← cut c s'; Some (String.String a x, y)
  end.

(** [strings.Split(s, c)], the part before the first separator first. *)
Fixpoint split_on (c : ascii) (s : string) : string * list string :=
  match s with
  | "" => ("", [])
  | String.String a s' =>
      let '(x, rest) := split_on c s' in
      if Ascii.eqb a c then ("", x :: rest) else (String.String a x, rest)
  end.
Definition Split (c : ascii) (s : string) : list string :=
  let '(x, rest) := split_on c s in x :: rest.

Lemma sep_app c s : String.String c "" +:+ s = String.String c s.
Proof. done. Qed.

Lemma lacks_app c s1 s2 : lacks c (s1 +:+ s2) = lacks c s1 && lacks c s2.
Proof. induction s1 as [|a s1 IH]; [done|]. simpl. by rewrite IH, andb_assoc. Qed.

Lemma lacks_list c l : Forall (fun a => a <> c) l -> lacks c (String.string_of_list_ascii l) = true.
Proof.
  induction 1 as [|a l Ha _ IH]; [done|]. simpl. rewrite IH.
  by rewrite (proj2 (Ascii.eqb_neq a c) Ha).
Qed.

Lemma cut_app c s1 s2 : lacks c s1 = true -> cut c (s1 +:+ String.String c s2) = Some (s1, s2).
Proof.
  induction s1 as [|a s1 IH]; simpl.
  - by rewrite Ascii.eqb_refl.
  - rewrite andb_true_iff, negb_true_iff. intros [-> Hs]. by rewrite IH.
Qed.

Lemma cut_Some c s s1 s2 :
  cut c s = Some (s1, s2) -> s = s1 +:+ String.String c s2 /\ lacks c s1 = true.
Proof.
  revert s1 s2. induction s as [|a s IH]; intros s1 s2; simpl; [done|].
  destruct (Ascii.eqb a c) eqn:Ha.
  - apply Ascii.eqb_eq in Ha as ->. by intros [= <- <-].
  - destruct (cut c s) as [[x y]|]; simpl; [|done]. intros [= <- <-].
    destruct (IH x y eq_refl) as [-> Hl]. simpl. by rewrite Ha, Hl.
Qed.

Lemma split_on_app c s1 s2 : lacks c s1 = true ->
  split_on c (s1 +:+ String.String c s2) = (s1, Split c s2).
Proof.
  unfold Split. induction s1 as [|a s1 IH]; simpl.
  - destruct (split_on c s2). by rewrite Ascii.eqb_refl.
  - rewrite andb_true_iff, negb_true_iff. intros [Ha Hs]. by rewrite IH, Ha.
Qed.

Lemma Split_app c s1 s2 : lacks c s1 = true ->
  Split c (s1 +:+ String.String c s2) = s1 :: Split c s2.
Proof. intros H. unfold Split at 1. by rewrite split_on_app. Qed.

Lemma Split_lacks c s : lacks c s = true -> Split c s = [s].
Proof.
  intros H. unfold Split. enough (split_on c s = (s, [])) as -> by done.
  induction s as [|a s IH]; [done|]. simpl in *. apply andb_prop in H as [Ha Hs].
  apply negb_true_iff in Ha. by rewrite IH, Ha.
Qed.

(** Joining the parts with the separator gives the string back. *)
Fixpoint join (c : ascii) (l : list string) : string :=
  match l with
  | [] => ""
  | [s] => s
  | s :: l' => s +:+ String.String c (join c l')
  end.

Lemma join_Split c s : join c (Split c s) = s.
Proof.
  unfold Split. induction s as [|a s IH]; [done|]. simpl.
  destruct (split_on c s) as [x rest]. destruct (Ascii.eqb a c) eqn:Ha.
  - apply Ascii.eqb_eq in Ha as ->. simpl in *. by rewrite IH.
  - rewrite <- IH. by destruct rest.
Qed.

(** ** Decimal integers *)

(** [fmt.Sprintf("%d")] *)
Definition FormatInt (z : Z) : string := NilZero.string_of_int (Z.to_int z).

(** [strconv.ParseInt(s, 10, 64)] *)
Definition ParseInt (s : string) : option Z :=
  d ← match s with
      | String.String "+" s' => Decimal.Pos <$> NilZero.uint_of_string s'
      | _ => NilZero.int_of_string s
      end;
  let z := Z.of_int d in
  if (int64_min <=? z) && (z <=? int64_max) then Some z else None.

Lemma to_int_not_nil z : Z.to_int z <> Decimal.Pos Decimal.Nil /\ Z.to_int z <> Decimal.Neg Decimal.Nil.
Proof.
  destruct z as [|p|p]; simpl; split; try done; intros [= H];
    by apply DecimalPos.Unsigned.to_uint_nonnil in H.
Qed.

Lemma string_of_uint_lacks c d :
  forallb (fun a => negb (Ascii.eqb a c)) ["0";"1";"2";"3";"4";"5";"6";"7";"8";"9"]%char = true ->
  lacks c (NilEmpty.string_of_uint d) = true.
Proof.
  intros H. simpl in H. repeat (apply andb_prop in H as [? H]).
  induction d; simpl; [done|..]; by rewrite IHd, andb_true_r.
Qed.

Lemma FormatInt_lacks_bar z : lacks "|" (FormatInt z) = true.
Proof.
  unfold FormatInt, NilZero.string_of_int.
  assert (H : forall d, lacks "|" (NilZero.string_of_uint d) = true).
  { intros d. unfold NilZero.string_of_uint. case_match; [done|..]; by apply string_of_uint_lacks. }
  case_match; simpl; by rewrite H.
Qed.

Lemma ParseInt_FormatInt z : is_int64 z -> ParseInt (FormatInt z) = Some z.
Proof.
  intros [Hlo Hhi]. unfold ParseInt, FormatInt.
  destruct (to_int_not_nil z) as [Hp Hn].
  assert (Hs : forall s', NilZero.string_of_int (Z.to_int z) <> String.String "+" s').
  { intros s' H. pose proof (NilZero.isi _ Hp Hn) as Hi. rewrite H in Hi.
    unfold NilZero.int_of_string in Hi. simpl in Hi. by destruct (NilEmpty.uint_of_string s'). }
  pose proof (NilZero.isi _ Hp Hn) as Hi.
  destruct (NilZero.string_of_int (Z.to_int z)) as [|a s'] eqn:Hz; [done|].
  transitivity (d ← NilZero.int_of_string (String.String a s');
    let z := Z.of_int d in if (int64_min <=? z) && (z <=? int64_max) then Some z else None).
  { destruct a as [[] [] [] [] [] [] [] []]; try done. by destruct (Hs s'). }
  rewrite Hi. simpl. rewrite DecimalZ.of_to.
  by rewrite (proj2 (Z.leb_le _ _) Hlo), (proj2 (Z.leb_le _ _) Hhi).
Qed.

Lemma uint_of_string_lacks c s d :
  forallb (fun a => negb (Ascii.eqb a c)) ["0";"1";"2";"3";"4";"5";"6";"7";"8";"9"]%char = true ->
  NilEmpty.uint_of_string s = Some d -> lacks c s = true.
Proof.
  intros Hc. simpl in Hc. repeat (apply andb_prop in Hc as [? Hc]).
  revert d. induction s as [|a s IH]; intros d; simpl; [done|]. destruct (NilEmpty.uint_of_string s) as [d'|]; [|done].
  intros Ha%uint_of_char_spec. rewrite (IH d' eq_refl), andb_true_r.
  by destruct Ha as [[-> _]|[[-> _]|[[-> _]|[[-> _]|[[-> _]|[[-> _]|[[-> _]|[[-> _]|[[-> _]|[-> _]]]]]]]]]].
Qed.

(** A number has no separator in it. *)
Lemma ParseInt_lacks_bar s z : ParseInt s = Some z -> lacks "|" s = true.
Proof.
  assert (Hu : forall s d, NilZero.uint_of_string s = Some d -> lacks "|" s = true).
  { intros s0 d. unfold NilZero.uint_of_string. case_match; [done|]. by apply uint_of_string_lacks. }
  assert (Hi : forall s d, NilZero.int_of_string s = Some d -> lacks "|" s = true).
  { intros [|a s0] d; [done|]. cbn [NilZero.int_of_string]. destruct (Ascii.eqb a "-") eqn:Ha.
    - apply Ascii.eqb_eq in Ha as ->. destruct (NilZero.uint_of_string s0) eqn:Hs; [|done]. intros _.
      simpl. by eapply Hu.
    - destruct (NilZero.uint_of_string (String.String a s0)) eqn:Hs; [|done]. intros _. by eapply Hu. }
  unfold ParseInt. intros Hp. apply bind_Some in Hp as (d & Hd & _).
  destruct s as [|a s]; [done|].
  destruct (Ascii.eqb a "+") eqn:Ha.
  - apply Ascii.eqb_eq in Ha as ->. destruct (NilZero.uint_of_string s) eqn:Hs; [|done]. simpl. by eapply Hu.
  - apply (Hi _ d). rewrite <- Hd. by destruct a as [[] [] [] [] [] [] [] []].
Qed.

(** ** Strings, reversed and trimmed *)

Local Open Scope list_scope.
Local Open Scope Z_scope.

Lemma chars_app s t : String.list_ascii_of_string (s +:+ t) =
  String.list_ascii_of_string s ++ String.list_ascii_of_string t.
Proof. induction s as [|a s IH]; [done|]. exact (f_equal (cons a) IH). Qed.

Lemma of_list_app l k : String.string_of_list_ascii (l ++ k) =
  String.string_of_list_ascii l +:+ String.string_of_list_ascii k.
Proof. induction l as [|a l IH]; [done|]. exact (f_equal (String.String a) IH). Qed.

Lemma string_rev_app s t : string_rev (s +:+ t) = string_rev t +:+ string_rev s.
Proof. unfold string_rev. by rewrite chars_app, reverse_app, of_list_app. Qed.

Lemma string_rev_rev s : string_rev (string_rev s) = s.
Proof.
  unfold string_rev. rewrite String.list_ascii_of_string_of_list_ascii, reverse_involutive.
  apply String.string_of_list_ascii_of_string.
Qed.

Definition rtrim (s : string) : string := string_rev (trim_left (string_rev s)).

Lemma trim_left_app s t : trim_left s <> "" -> trim_left (s +:+ t) = trim_left s +:+ t.
Proof.
  induction s as [|a s IH]; [done|]. cbn [trim_left]. change (String.String a s +:+ t) with (String.String a (s +:+ t)).
  cbn [trim_left]. destruct (is_space a); [exact IH|done].
Qed.

(** What is trimmed away on the right does not reach into the front. *)
Lemma rtrim_app s t : rtrim t <> "" -> rtrim (s +:+ t) = s +:+ rtrim t.
Proof.
  unfold rtrim. intros Ht. rewrite string_rev_app, trim_left_app.
  - by rewrite string_rev_app, string_rev_rev.
  - intros He. apply Ht. by rewrite He.
Qed.

Lemma length_append s t : String.length (s +:+ t) = (String.length s + String.length t)%nat.
Proof. induction s as [|a s IH]; [done|]. exact (f_equal S IH). Qed.

Lemma length_rev s : String.length (string_rev s) = String.length s.
Proof.
  assert (Hl : forall l, String.length (String.string_of_list_ascii l) = length l)
    by (induction l as [|a l IH]; [done|exact (f_equal S IH)]).
  unfold string_rev. rewrite Hl, length_reverse, <- Hl. by rewrite String.string_of_list_ascii_of_string.
Qed.

Lemma trim_left_length s : (String.length (trim_left s) <= String.length s)%nat.
Proof. induction s as [|a s IH]; [done|]. cbn [trim_left]. destruct (is_space a); simpl in *; lia. Qed.

Lemma trim_left_same s : (String.length s <= String.length (trim_left s))%nat -> trim_left s = s.
Proof.
  destruct s as [|a s]; [done|]. cbn [trim_left]. destruct (is_space a); [|done].
  pose proof (trim_left_length s). simpl. lia.
Qed.

(** A trimmed text has nothing to trim on either side. *)
Lemma trimmed_rtrim d : TrimSpace d = d -> rtrim d = d.
Proof.
  intros Hd. assert (Hl : trim_left d = d).
  { apply trim_left_same. unfold TrimSpace in Hd. rewrite <- Hd at 1. rewrite length_rev.
    etrans; [apply trim_left_length|]. by rewrite length_rev. }
  unfold TrimSpace in Hd. by rewrite Hl in Hd.
Qed.

Lemma substring_long s n : (String.length s <= n)%nat -> String.substring 0 n s = s.
Proof.
  revert n. induction s as [|a s IH]; intros [|n] Hn; simpl in *; try done; try lia. by rewrite IH by lia.
Qed.

Lemma substring_prefix s t : String.substring 0 (String.length s) (s +:+ t) = s.
Proof. induction s as [|a s IH]; [by destruct t|]. exact (f_equal (String.String a) IH). Qed.

Lemma prefix_app p s : String.prefix p (p +:+ s) = true.
Proof.
  induction p as [|a p IH]; [by destruct s|]. change (String.String a p +:+ s) with (String.String a (p +:+ s)).
  cbn [String.prefix]. by destruct (ascii_dec a a).
Qed.
