(* ===== verification/Sha256.v ===== *)
(** crypto/sha256 and crypto/hmac of the Go standard library, executable: the
    job-token signature, the job specification hash and the printer hash are
    computed with them.  Words are 32-bit integers modulo 2^32. *)
From Stdlib Require Import Ascii.
From S2P Require Import Prelude Encoding.
Local Open Scope string_scope.
Local Open Scope list_scope.
Local Open Scope Z_scope.

Definition w32 (z : Z) : Z := z mod 2 ^ 32.
Definition rotr (n x : Z) : Z := Z.lor (Z.shiftr x n) (w32 (Z.shiftl x (32 - n))).

(** The constants are the leading fractional bits of the roots of the first
    primes, computed here as the standard defines them. *)
Definition is_prime (n : Z) : bool :=
  bool_decide (2 <= n) && forallb (fun d => negb (n mod d =? 0)) (seqZ 2 (n - 2)).

Definition primes_below (n : Z) : list Z := filter (fun k => is_prime k = true) (seqZ 0 n).

(** The largest r below 2^bits with r^3 <= n, bit by bit. *)
Fixpoint cube_root (bits : nat) (n r : Z) : Z :=
  match bits with
  | O => r
  | S b => let r' := r + 2 ^ Z.of_nat b in cube_root b n (if r' ^ 3 <=? n then r' else r)
  end.

Definition round_constants : list Z :=
  Eval vm_compute in (fun p => w32 (cube_root 36 (p * 2 ^ 96) 0)) <$> primes_below 312.

Definition initial_hash : list Z :=
  Eval vm_compute in (fun p => w32 (Z.sqrt (p * 2 ^ 64))) <$> primes_below 20.

(** Big-endian conversion between words and bytes. *)
Definition be_bytes (n : nat) (z : Z) : list Z :=
  (fun i => Z.shiftr z (8 * (Z.of_nat n - 1 - i)) mod 256) <$> seqZ 0 (Z.of_nat n).

Fixpoint be_words (l : list Z) : list Z :=
  match l with
  | a :: b :: c :: d :: l' => (a * 2 ^ 24 + b * 2 ^ 16 + c * 2 ^ 8 + d) :: be_words l'
  | _ => []
  end.

Definition sha_pad (l : list Z) : list Z :=
  let n := Z.of_nat (length l) in
  let zeros := (55 - n) mod 64 in
  l ++ [128] ++ replicate (Z.to_nat zeros) 0 ++ be_bytes 8 (8 * n).

(** The message schedule, most recent word first. *)
Fixpoint extend (n : nat) (w : list Z) : list Z :=
  match n with
  | O => w
  | S n' =>
      let g i := default 0 (w !! i) in
      let s0 x := Z.lxor (Z.lxor (rotr 7 x) (rotr 18 x)) (Z.shiftr x 3) in
      let s1 x := Z.lxor (Z.lxor (rotr 17 x) (rotr 19 x)) (Z.shiftr x 10) in
      extend n' (w32 (s1 (g 1%nat) + g 6%nat + s0 (g 14%nat) + g 15%nat) :: w)
  end.

Definition sha_round (h : list Z) (kw : Z * Z) : list Z :=
  match h with
  | [a; b; c; d; e; f; g; hh] =>
      let S1 := Z.lxor (Z.lxor (rotr 6 e) (rotr 11 e)) (rotr 25 e) in
      let ch := Z.lxor (Z.land e f) (Z.land (Z.lxor e (2 ^ 32 - 1)) g) in
      let t1 := hh + S1 + ch + kw.1 + kw.2 in
      let S0 := Z.lxor (Z.lxor (rotr 2 a) (rotr 13 a)) (rotr 22 a) in
      let maj := Z.lxor (Z.lxor (Z.land a b) (Z.land a c)) (Z.land b c) in
      [w32 (t1 + S0 + maj); a; b; c; w32 (d + t1); e; f; g]
  | _ => h
  end.

Definition sha_block (h w : list Z) : list Z :=
  let sched := reverse (extend 48 (reverse w)) in
  zip_with (fun x y => w32 (x + y)) h (foldl sha_round h (zip round_constants sched)).

(** Process the padded words sixteen at a time. *)
Fixpoint sha_blocks (fuel : nat) (h w : list Z) : list Z :=
  match fuel with
  | O => h
  | S n => match w with [] => h | _ => sha_blocks n (sha_block h (take 16 w)) (drop 16 w) end
  end.

Definition sha256_bytes (l : list Z) : list Z :=
  let w := be_words (sha_pad l) in
  sha_blocks (length w) initial_hash w ≫= be_bytes 4.

Definition Sum256 (s : string) : string := string_of (sha256_bytes (bytes_of s)).

(** [hmac.New(sha256.New, secret)] over one [Write]. *)
Definition HMAC (secret msg : string) : string :=
  let k0 := bytes_of secret in
  let k1 := if (64 <? Z.of_nat (length k0)) then sha256_bytes k0 else k0 in
  let k := k1 ++ replicate (64 - length k1) 0 in
  let inner := sha256_bytes ((Z.lxor 0x36 <$> k) ++ bytes_of msg) in
  string_of (sha256_bytes ((Z.lxor 0x5c <$> k) ++ inner)).

(** [hex.EncodeToString] *)
Definition hex_digit (z : Z) : ascii :=
  default "0"%char (String.list_ascii_of_string "0123456789abcdef" !! Z.to_nat z).
Definition hex_encode (s : string) : string :=
  String.string_of_list_ascii (bytes_of s ≫= fun b => [hex_digit (b / 16); hex_digit (b mod 16)]).

(** The published test vectors (FIPS 180-2, RFC 4231 case 2). *)
Example sha256_abc : hex_encode (Sum256 "abc") =
  "ba7816bf8f01cfea414140de5dae2223b00361a396177a9cb410ff61f20015ad".
Proof. by vm_compute. Qed.

Example sha256_two_blocks :
  hex_encode (Sum256 "abcdbcdecdefdefgefghfghighijhijkijkljklmklmnlmnomnopnopq") =
  "248d6a61d20638b8e5c026930c3e6039a33ce45964ff2167f6ecedd419db06c1".
Proof. by vm_compute. Qed.

Example hmac_rfc4231 : hex_encode (HMAC "Jefe" "what do ya want for nothing?") =
  "5bdcc146bf60754e6a042426089575c75a003f089d2739839dec58b964ec3843".
Proof. by vm_compute. Qed.
