(* ===== verification/Operator.v ===== *)
(** The operator registry (internal/operator): the repository of
    repository.go, the email verification of verification.go and the fee
    declarations of governance.go, as transactions over the operator tables.

    The protocol package that defines transmissions, rotations and their
    verification is not part of the repository: [OpProtocol] collects what the
    code calls of it. *)
From Stdlib Require Import Ascii.
From S2P Require Import Prelude Float64 Workload Sounding Registry Database Replay Lifecycle Effects.
From S2P Require Import Encoding Sha256.
Local Open Scope string_scope.
Local Open Scope list_scope.
Local Open Scope Z_scope.

Definition KeyIndexCount : Z := 7.
Definition AlgoEd25519 : string := "ed25519".
Definition MinActiveKeys : Z := 3.

Definition ErrDuplicateOperator : Error := ErrGo "operator: an operator with that slug or email already exists".
Definition ErrOperatorNotFound : Error := ErrGo "operator: operator not found".
Definition ErrKeysetCountMismatch : Error := ErrGo "operator: operator does not hold exactly seven active keys".
Definition ErrActivationPreconditions : Error := ErrGo "operator: activation preconditions not met".
Definition ErrKeysetHashMismatch : Error :=
  ErrGo "operator: current keyset hash does not match the conformance-passed keyset".
Definition ErrReplay : Error := ErrGo "operator: replayed or stale transmission (seq/nonce)".

(** ** The protocol package *)

Record KeyRecord := mkKeyRecord { kr_PublicKey : string; kr_Algo : string }.

Record OperatorTransmission := mkTransmission {
  ot_OperatorID : string; ot_TsUnixNano : Z; ot_Nonce : string; ot_Seq : Z; ot_Algo : string;
  ot_Idx0 : Z; ot_Idx1 : Z; ot_Sig0 : string; ot_Sig1 : string }.

Record OperatorRotation := mkRotation {
  or_OperatorID : string; or_KeyIndex : Z; or_NewPublicKey : string; or_Algo : string;
  or_Nonce : string; or_Seq : Z; or_Idx0 : Z; or_Idx1 : Z; or_Sig0 : string; or_Sig1 : string }.

Record ConformanceResponse := mkConformanceResponse {
  cp_OperatorID : string; cp_Challenge : string; cp_Algo : string;
  cp_Idx0 : Z; cp_Idx1 : Z; cp_Sig0 : string; cp_Sig1 : string }.

Record OpProtocol := mkOpProtocol {
  transmission_Verify : OperatorTransmission -> gmap Z KeyRecord -> bool;
  rotation_Verify : OperatorRotation -> gmap Z KeyRecord -> bool;
  conformance_Verify : ConformanceResponse -> gmap Z KeyRecord -> bool;
  CanonicalBytes : OperatorTransmission -> string }.

(** ** Helpers *)

(** [errors.Is(err, pgx.ErrNoRows)] mapped to a domain error. *)
Definition no_rows_as {A} (e : Error) (m : M A) : M A :=
  r ← try m;
  match r with Ok a => mret a | Err ErrNoRows => fail e | Err x => fail x end.

(** [isUniqueViolation(err)] mapped to a domain error. *)
Definition unique_as {A} (e : Error) (m : M A) : M A :=
  r ← try m;
  match r with Ok a => mret a | Err ErrUnique => fail e | Err x => fail x end.

Definition ensure (b : bool) (e : Error) : M unit := if b then mret tt else fail e.

(** A statement over the operator tables. *)
Definition op_exec {A} (f : Z -> OpTables -> A * OpTables) : M A := exec (fun now d =>
  let '(a, t) := f now (op_tables d) in (a, d <| op_tables := t |>)).
Definition op_insert (f : Z -> OpTables -> result Error OpTables) : M unit := stmt (fun now d =>
  match f now (op_tables d) with
  | Ok t => Ok (tt, d <| op_tables := t |>)
  | Err e => Err e
  end).
Definition op_query {A} (f : OpTables -> A) : M A := query (fun _ d => f (op_tables d)).
Definition op_row {A} (f : OpTables -> option A) : M A := query_row (fun _ d => f (op_tables d)).

(** [UPDATE operators SET ... WHERE id = $1], with the number of rows. *)
Definition update_operator (id : string) (f : Z -> OperatorRow -> OperatorRow) : M Z :=
  op_exec (fun now t =>
    match operators t !! id with
    | Some o => (1, t <| operators := <[id := f now o]> (operators t) |>)
    | None => (0, t)
    end).

Definition is_active_key (id : string) (k : OperatorKeyRow) : bool :=
  bool_decide (ok_operator_id k = id) && bool_decide (ok_state k = KeyActive).
Definition active_keys (id : string) (t : OpTables) : list OperatorKeyRow :=
  List.filter (is_active_key id) (operator_keys t).

(** [UPDATE operator_keys SET state = $s WHERE ... AND state = 'active'] *)
Definition retire_keys (sel : OperatorKeyRow -> bool) (id : string) (s : operator_key_state) : M unit :=
  op_exec (fun _ t => (tt, t <| operator_keys := (fun k =>
    if is_active_key id k && sel k then k <| ok_state := s |> else k) <$> operator_keys t |>)).

(** ** Byte strings *)

Definition to_lower (a : ascii) : ascii :=
  let n := byte_of a in if (65 <=? n) && (n <=? 90) then ascii_of (n + 32) else a.
(** [strings.ToLower] on ASCII letters. *)
Definition ToLower (s : string) : string :=
  String.string_of_list_ascii (to_lower <$> String.list_ascii_of_string s).

Definition normalizeEmail (email : string) : string := ToLower (TrimSpace email).

(** -1, 0 or 1, as [bytes.Compare]. *)
Fixpoint compare_bytes (a b : list Z) : Z :=
  match a, b with
  | x :: a', y :: b' => if x <? y then -1 else if y <? x then 1 else compare_bytes a' b'
  | [], _ :: _ => -1
  | _ :: _, [] => 1
  | [], [] => 0
  end.
Definition stringsCompareBytes (a b : string) : Z := compare_bytes (bytes_of a) (bytes_of b).

Definition hashSortedPubkeys (pubs : list string) : string :=
  Sum256 (String.concat "" (isort string (fun a b => stringsCompareBytes a b <? 0) pubs)).

(** ** GetActiveKeyMap *)

(** The joined and gated rows. *)
Definition gated_keys (id : string) (t : OpTables) : list OperatorKeyRow :=
  match operators t !! id with
  | Some o =>
      if bool_decide (o_status o = OperatorActive) && bool_decide (o_onboarding_state o = OnboardingActive)
      then active_keys id t else []
  | None => []
  end.

(** The scan loop, with its algorithm pin; [None] is the early return of a nil
    map. *)
Fixpoint pin_keys (pin : string) (km : gmap Z KeyRecord) (rows : list OperatorKeyRow)
    : option (gmap Z KeyRecord) :=
  match rows with
  | [] => Some km
  | k :: rows' =>
      if negb (bool_decide (pin = "")) && negb (bool_decide (ok_algo k = pin)) then None
      else pin_keys (if bool_decide (pin = "") then ok_algo k else pin)
             (<[ok_key_index k := mkKeyRecord (ok_public_key k) (ok_algo k)]> km) rows'
  end.

(** A nil map reads as the empty one. *)
Definition GetActiveKeyMap (id : string) : M (gmap Z KeyRecord) :=
  rows ← op_query (gated_keys id);
  mret (default ∅ (pin_keys "" ∅ rows)).

(** ** Onboarding *)

Definition sql_insert_operator (id name email : string) (phone : option string) : M unit :=
  op_insert (fun now t =>
    if bool_decide (is_Some (operators t !! id)) ||
       existsb (fun '(_, o) => bool_decide (o_email o = email)) (map_to_list (operators t))
    then Err ErrUnique
    else Ok (t <| operators := <[id := mkOperator name email phone OperatorActive PendingVerification
      false None None now]> (operators t) |>)).

Definition CreateOperator (id name email phone : string) : M unit :=
  let normEmail := normalizeEmail email in
  let phoneArg := if bool_decide (TrimSpace phone = "") then None else Some (TrimSpace phone) in
  unique_as ErrDuplicateOperator (sql_insert_operator id name normEmail phoneArg).

Definition MarkEmailVerified (id : string) : M unit :=
  n ← update_operator id (fun _ o => o <| o_email_verified := true |>);
  ensure (negb (n =? 0)) ErrOperatorNotFound.

Definition activeKeysetHash (id : string) : M (string * Z) :=
  rows ← op_query (active_keys id);
  mret (hashSortedPubkeys (ok_public_key <$> rows), Z.of_nat (length rows)).

Definition bind_conformance (hash : string) (now : Z) (o : OperatorRow) : OperatorRow :=
  o <| o_conformance_passed_at := Some now |> <| o_conformance_keyset_hash := Some hash |>.

Definition MarkConformancePassed (id : string) : M unit := transaction (
  '(hash, count) ← activeKeysetHash id;
  _ ← ensure (count =? KeyIndexCount) ErrKeysetCountMismatch;
  n ← update_operator id (bind_conformance hash);
  ensure (negb (n =? 0)) ErrOperatorNotFound).

Definition AutoActivate (id : string) : M unit := transaction_ending (
  o ← no_rows_as ErrOperatorNotFound (op_row (fun t => operators t !! id));
  if bool_decide (o_onboarding_state o = OnboardingActive) then mret (RollingBack (Ok tt))
  else
    _ ← ensure (bool_decide (o_status o = OperatorActive)) ErrActivationPreconditions;
    let hash := default "" (o_conformance_keyset_hash o) in
    _ ← ensure (o_email_verified o && bool_decide (is_Some (o_conformance_passed_at o)) &&
          negb (bool_decide (hash = ""))) ErrActivationPreconditions;
    '(curHash, count) ← activeKeysetHash id;
    _ ← ensure (count =? KeyIndexCount) ErrKeysetCountMismatch;
    _ ← ensure (stringsCompareBytes curHash hash =? 0) ErrKeysetHashMismatch;
    n ← update_operator id (fun _ o => o <| o_onboarding_state := OnboardingActive |>);
    _ ← ensure (negb (n =? 0)) ErrOperatorNotFound;
    mret (Committing (Ok tt))).

(** [INSERT INTO operator_keys] with the constraints of the schema. *)
Definition sql_insert_op_key (id : string) (idx : Z) (pub algo : string) (threshold : Z) : M unit :=
  op_insert (fun now t =>
    if bool_decide (operators t !! id = None) then Err ErrForeignKey
    else if (idx <? 0) || (6 <? idx) || (threshold <=? 0) then Err ErrConn
    else if existsb (fun k => is_active_key id k && (ok_key_index k =? idx)) (operator_keys t)
    then Err ErrUnique
    else Ok (t <| operator_keys := operator_keys t ++
      [mkOperatorKey id idx pub algo KeyActive 0 threshold now] |>)).

Fixpoint insert_keys (id algo : string) (i : Z) (keys : list (string * Z)) : M unit :=
  match keys with
  | [] => mret tt
  | (pub, threshold) :: rest =>
      _ ← ensure (0 <? threshold) (ErrGo "operator: key index has non-positive expiration threshold");
      _ ← sql_insert_op_key id i pub algo threshold;
      insert_keys id algo (i + 1) rest
  end.

Definition AddKeys (id : string) (pubkeys : list string) (algo : string) (thresholds : list Z) : M unit :=
  if negb (Z.of_nat (length pubkeys) =? KeyIndexCount) ||
     negb (Z.of_nat (length thresholds) =? KeyIndexCount) then fail ErrKeysetCountMismatch
  else transaction (
    o ← no_rows_as ErrOperatorNotFound (op_row (fun t => operators t !! id));
    _ ← ensure (negb (bool_decide (o_onboarding_state o = OnboardingActive)))
          (ErrGo "operator: cannot AddKeys to an active operator; use signed rotation");
    _ ← op_exec (fun _ t => (tt, t <| operator_keys :=
          List.filter (fun k => negb (bool_decide (ok_operator_id k = id))) (operator_keys t) |>));
    _ ← update_operator id (fun _ o =>
          o <| o_conformance_passed_at := None |> <| o_conformance_keyset_hash := None |>);
    insert_keys id algo 0 (zip pubkeys thresholds)).

(** ** Usage and rotation *)

Definition int4_max : Z := 2 ^ 31 - 1.

(** [UPDATE operator_keys SET usage_count = usage_count + 1 WHERE ... RETURNING
    usage_count, expiration_threshold]: at most one row is active at an index. *)
Definition sql_count_use (id : string) (idx : Z) : M (Z * Z) := stmt (fun _ d =>
  let t := op_tables d in
  let used k := is_active_key id k && (ok_key_index k =? idx) in
  match List.find used (operator_keys t) with
  | None => Err ErrNoRows
  | Some k =>
      let usage := ok_usage_count k + 1 in
      if int4_max <? usage then Err ErrConn
      else Ok ((usage, ok_expiration_threshold k), d <| op_tables := t <| operator_keys :=
        (fun k => if used k then k <| ok_usage_count := usage |> else k) <$> operator_keys t |> |>)
  end).

(** The loop over the two signing indices: [activeCount] and [swapRequired] are
    its variables. *)
Fixpoint record_uses (id : string) (activeCount : Z) (swapRequired : bool) (idxs : list Z) : M bool :=
  match idxs with
  | [] => mret swapRequired
  | idx :: rest =>
      r ← try (sql_count_use id idx);
      match r with
      | Err ErrNoRows => record_uses id activeCount swapRequired rest
      | Err e => fail e
      | Ok (usage, threshold) =>
          if threshold <=? usage then
            if MinActiveKeys <? activeCount then
              _ ← retire_keys (fun k => ok_key_index k =? idx) id KeyExpired;
              record_uses id (activeCount - 1) true rest
            else record_uses id activeCount true rest
          else record_uses id activeCount swapRequired rest
      end
  end.

Definition RecordUsageAndExpire (id : string) (idx0 idx1 : Z) : M bool := transaction (
  activeCount ← op_query (fun t => Z.of_nat (length (active_keys id t)));
  record_uses id activeCount false [idx0; idx1]).

Definition activeKeyMapTx (id : string) : M (gmap Z KeyRecord) :=
  rows ← op_query (active_keys id);
  mret (foldl (fun km k => <[ok_key_index k := mkKeyRecord (ok_public_key k) (ok_algo k)]> km) ∅ rows).

Definition RegisterReplacementKey (P : OpProtocol) (rot : OperatorRotation) (threshold : Z) : M unit :=
  if threshold <=? 0 then fail (ErrGo "operator: replacement key threshold must be positive")
  else transaction (
    km ← activeKeyMapTx (or_OperatorID rot);
    _ ← ensure (rotation_Verify P rot km) (ErrGo "operator: rotation verify failed");
    _ ← retire_keys (fun k => ok_key_index k =? or_KeyIndex rot) (or_OperatorID rot) KeyRetired;
    sql_insert_op_key (or_OperatorID rot) (or_KeyIndex rot) (or_NewPublicKey rot) (or_Algo rot) threshold).

Definition revoke (_ : Z) (o : OperatorRow) : OperatorRow := o <| o_status := OperatorRevoked |>.

Definition Revoke (id : string) : M unit :=
  n ← update_operator id revoke;
  ensure (negb (n =? 0)) ErrOperatorNotFound.

Definition Disconnect (id : string) : M unit := transaction (
  n ← update_operator id revoke;
  _ ← ensure (negb (n =? 0)) ErrOperatorNotFound;
  retire_keys (fun _ => true) id KeyRevoked).

(** ** Anti-replay *)

Definition sql_insert_nonce (nonce id scope : string) (expiry : Z) : M unit := op_insert (fun now t =>
  match operator_nonces t !! nonce with
  | Some _ => Err ErrUnique
  | None => Ok (t <| operator_nonces := <[nonce := mkNonce id scope expiry now]> (operator_nonces t) |>)
  end).

(** [INSERT ... ON CONFLICT DO UPDATE ... RETURNING seq_high, seq_window] *)
Definition sql_load_window (id coord : string) : M ReplayRow := op_exec (fun _ t =>
  match operator_replay t !! (id, coord) with
  | Some r => (r, t)
  | None =>
      let r := mkReplay 0 zero_window in
      (r, t <| operator_replay := <[(id, coord) := r]> (operator_replay t) |>)
  end).

Definition sql_store_window (id coord : string) (r : ReplayRow) : M unit := op_exec (fun _ t =>
  (tt, match operator_replay t !! (id, coord) with
       | Some _ => t <| operator_replay := <[(id, coord) := r]> (operator_replay t) |>
       | None => t
       end)).

Definition CheckAndAdvance (id coord : string) (seq : Z) (nonce scope : string) (nonceExpiry : Z)
    : M unit := transaction (
  _ ← unique_as ErrReplay (sql_insert_nonce nonce id scope nonceExpiry);
  row ← sql_load_window id coord;
  match advanceWindow (to_uint64 (rp_seq_high row)) (rp_seq_window row) seq with
  | None => fail ErrReplay
  | Some (newHigh, newWindow) => sql_store_window id coord (mkReplay (to_int64 newHigh) newWindow)
  end).

(** ** Email verification *)

Definition VerificationChannelEmail : string := "email".
Definition VerificationCodeTTL : Z := 10 * Minute.
Definition VerificationMaxAttempts : Z := 5.
Definition VerificationResendCooldown : Z := 30 * Second.
Definition verificationCodeDigits : nat := 6.

Definition ErrVerificationRateLimited : Error :=
  ErrGo "operator: verification code requested too soon; wait before retrying".
Definition ErrVerificationSessionActive : Error :=
  ErrGo "operator: a verification code is already in flight for another session".
Definition ErrVerificationNotFound : Error := ErrGo "operator: no active verification code".
Definition ErrVerificationExpired : Error := ErrGo "operator: verification code expired".
Definition ErrVerificationSessionMismatch : Error := ErrGo "operator: verification session mismatch".
Definition ErrVerificationTooManyAttempts : Error := ErrGo "operator: too many verification attempts".
Definition ErrVerificationCodeMismatch : Error := ErrGo "operator: incorrect verification code".

(** [fmt.Sprintf("%0*d", digits, n)] for the number [n] drawn from crypto/rand. *)
Definition generateCode (n : Z) : string :=
  let s := FormatInt n in
  String.string_of_list_ascii (replicate (verificationCodeDigits - String.length s) "0"%char) +:+ s.

(** May a new code replace the row a previous request left? *)
Definition reissue (sessionID : string) (now : Z) (v : VerificationRow) : result Error unit :=
  let live := now <? vf_expires_at v in
  if live && negb (bool_decide (vf_session_id v = sessionID)) then Err ErrVerificationSessionActive
  else if live && bool_decide (vf_session_id v = sessionID) &&
          (time_sub now (vf_created_at v) <? VerificationResendCooldown)
  then Err ErrVerificationRateLimited
  else Ok tt.

(** [n] is what crypto/rand returned. *)
Definition IssueEmailCode (n : Z) (id sessionID : string) : M (string * string) :=
  if bool_decide (sessionID = "") then fail (ErrGo "operator: issue code: empty session id")
  else transaction (
    o ← no_rows_as ErrOperatorNotFound (op_row (fun t => operators t !! id));
    prior ← try (op_row (fun t => operator_verifications t !! id));
    _ ← match prior with
        | Err ErrNoRows => mret tt
        | Err e => fail e
        | Ok v =>
            now ← time_Now;
            match reissue sessionID now v with Ok _ => mret tt | Err e => fail e end
        end;
    now ← time_Now;
    _ ← op_exec (fun sqlnow t => (tt, t <| operator_verifications :=
          <[id := mkVerification (generateCode n) 0 sessionID (now + VerificationCodeTTL) sqlnow]>
          (operator_verifications t) |>));
    mret (generateCode n, o_email o)).

Definition sql_delete_verification (id : string) : M unit := op_exec (fun _ t =>
  (tt, t <| operator_verifications := delete id (operator_verifications t) |>)).

Definition sql_count_attempt (id : string) : M unit := op_exec (fun _ t =>
  (tt, match operator_verifications t !! id with
       | Some v => t <| operator_verifications :=
           <[id := v <| vf_attempts := vf_attempts v + 1 |>]> (operator_verifications t) |>
       | None => t
       end)).

Definition CheckEmailCode (id sessionID code : string) : M unit := transaction_ending (
  v ← no_rows_as ErrVerificationNotFound (op_row (fun t => operator_verifications t !! id));
  now ← time_Now;
  if vf_expires_at v <? now then
    _ ← sql_delete_verification id;
    mret (Committing (Err ErrVerificationExpired))
  else if negb (bool_decide (vf_session_id v = sessionID)) then fail ErrVerificationSessionMismatch
  else if VerificationMaxAttempts <=? vf_attempts v then fail ErrVerificationTooManyAttempts
  else if negb (bool_decide (vf_code v = code)) then
    _ ← sql_count_attempt id;
    mret (Committing (Err ErrVerificationCodeMismatch))
  else
    _ ← update_operator id (fun _ o => o <| o_email_verified := true |>);
    _ ← sql_delete_verification id;
    mret (Committing (Ok tt))).

(** ** Fee declarations *)

Definition ErrFeeSeqNotMonotonic : Error :=
  ErrGo "operator: fee declaration Seq must strictly exceed the current declaration".
Definition ErrFeeEffectiveAtRetroactive : Error :=
  ErrGo "operator: fee declaration EffectiveAt must be strictly later than the current declaration".
Definition ErrFeeUnsigned : Error := ErrGo "operator: fee declaration is not signed".
Definition ErrNoFeeDeclaration : Error := ErrGo "operator: no fee declaration published".

Record FeeDeclaration := mkFeeDeclaration {
  fe_CoordinatorID : string; fe_ContributorShareBps : Z; fe_PlatformFeeBps : Z;
  fe_EffectiveAt : Z; fe_Seq : Z; fe_Signature : string }.

(** [ORDER BY seq DESC LIMIT 1] *)
Definition latest_fee (coord : string) (t : OpTables) : option FeeRow :=
  head (isort FeeRow (fun a b => fd_seq b <? fd_seq a)
    (List.filter (fun f => bool_decide (fd_coordinator_id f = coord)) (fee_declarations t))).

(** The shares are INT columns with CHECKs. *)
Definition sql_insert_fee (decl : FeeDeclaration) : M unit := op_insert (fun now t =>
  let seq := to_int64 (fe_Seq decl) in
  if (seq <? 0) || (fe_ContributorShareBps decl <? 0) || (fe_PlatformFeeBps decl <? 0) ||
     (2 ^ 31 <=? fe_ContributorShareBps decl) || (2 ^ 31 <=? fe_PlatformFeeBps decl) then Err ErrConn
  else if existsb (fun f => bool_decide (fd_coordinator_id f = fe_CoordinatorID decl) && (fd_seq f =? seq))
            (fee_declarations t) then Err ErrUnique
  else Ok (t <| fee_declarations := fee_declarations t ++
    [mkFee (fe_CoordinatorID decl) (fe_ContributorShareBps decl) (fe_PlatformFeeBps decl)
       (timestamptz (fe_EffectiveAt decl)) seq (fe_Signature decl) now] |>)).

Definition PublishFeeDeclaration (decl : FeeDeclaration) : M unit :=
  if bool_decide (fe_Signature decl = "") then fail ErrFeeUnsigned
  else transaction (
    cur ← try (op_row (latest_fee (fe_CoordinatorID decl)));
    _ ← match cur with
        | Ok f =>
            _ ← ensure (negb (fe_Seq decl <=? to_uint64 (fd_seq f))) ErrFeeSeqNotMonotonic;
            ensure (fd_effective_at f <? fe_EffectiveAt decl) ErrFeeEffectiveAtRetroactive
        | Err ErrNoRows => mret tt
        | Err e => fail e
        end;
    unique_as ErrFeeSeqNotMonotonic (sql_insert_fee decl)).

Definition CurrentFeeDeclaration (coord : string) : M FeeDeclaration :=
  f ← no_rows_as ErrNoFeeDeclaration (op_row (latest_fee coord));
  mret (mkFeeDeclaration (fd_coordinator_id f) (fd_contributor_share_bps f) (fd_platform_fee_bps f)
    (fd_effective_at f) (to_uint64 (fd_seq f)) (fd_signature f)).

(** ** Recipients *)

(** Deduplicated, non-empty results, in the order of the query. *)
Fixpoint collect_emails (seen : gset string) (rows : list string) : list string :=
  match rows with
  | [] => []
  | e :: rows' =>
      if bool_decide (e = "") || bool_decide (e ∈ seen) then collect_emails seen rows'
      else e :: collect_emails ({[e]} ∪ seen) rows'
  end.

(** [ORDER BY email], under the collation of the database. *)
Definition OperatorEmails (collate : string -> string -> bool) : M (list string) :=
  rows ← op_query (fun t => isort string collate
    (List.filter (fun e => negb (bool_decide (e = ""))) ((fun '(_, o) => o_email o) <$> map_to_list (operators t))));
  mret (collect_emails ∅ rows).
