(* ===== verification/Conformance.v ===== *)
(** The conformance harness (internal/operator/conformance.go): issuing the
    challenges of a run, grading the three suites and finalizing the run.

    Values from crypto/rand are arguments.  The JSON documents of the
    [expected] and [result] columns are typed (Database.v).  Where the source
    appends the text of the protocol package's verification error to the detail
    of a verdict, the model keeps the fixed part of that detail. *)
From S2P Require Import Prelude Float64 Workload Sounding Registry Database Replay Lifecycle Effects.
From S2P Require Import Encoding Sha256 Operator.
Local Open Scope string_scope.
Local Open Scope list_scope.
Local Open Scope Z_scope.

Definition ErrConformanceRunNotFound : Error := ErrGo "operator: conformance run not found".
Definition ErrConformanceNotReady : Error := ErrGo "operator: conformance run not fully passed".

Record ChallengeA := mkChallengeA {
  ca_ChallengeID : string; ca_OperatorID : string; ca_TsUnixNano : Z; ca_Nonce : string;
  ca_Seq : Z; ca_Algo : string; ca_Idx0 : Z; ca_Idx1 : Z }.
#[export] Instance eta_ChallengeA : Eta ChallengeA := fun c => mkChallengeA
  (ca_ChallengeID c) (ca_OperatorID c) (ca_TsUnixNano c) (ca_Nonce c) (ca_Seq c) (ca_Algo c)
  (ca_Idx0 c) (ca_Idx1 c).
Record ResponseA := mkResponseA {
  ra_ChallengeID : string; ra_CanonicalBytes : string; ra_Idx0 : Z; ra_Idx1 : Z;
  ra_Sig0 : string; ra_Sig1 : string }.
Record ChallengeB := mkChallengeB {
  cb_ChallengeID : string; cb_OperatorID : string; cb_TsUnixNano : Z; cb_Nonce : string;
  cb_Seq : Z; cb_Algo : string }.
#[export] Instance eta_ChallengeB : Eta ChallengeB := fun c => mkChallengeB
  (cb_ChallengeID c) (cb_OperatorID c) (cb_TsUnixNano c) (cb_Nonce c) (cb_Seq c) (cb_Algo c).
Record ResponseB := mkResponseB {
  rb_ChallengeID : string; rb_Idx0 : Z; rb_Idx1 : Z; rb_Sig0 : string; rb_Sig1 : string }.

(** ** Small helpers *)

(** Eight random bytes as a big-endian number, halved and incremented. *)
Definition freshSeq (bytes : list Z) : Z :=
  let v := foldl (fun v x => Z.lor (to_uint64 (Z.shiftl v 8)) x) 0 bytes in
  to_uint64 (Z.shiftr v 1 + 1).

Definition bytesEqual (a b : string) : bool :=
  bool_decide (length (bytes_of a) = length (bytes_of b)) &&
  forallb (fun '(x, y) => x =? y) (zip (bytes_of a) (bytes_of b)).

Fixpoint first_diff (a b : list Z) : Z :=
  match a, b with
  | x :: a', y :: b' => if x =? y then 1 + first_diff a' b' else 0
  | _, _ => 0
  end.
Definition firstDiff (a b : string) : Z := first_diff (bytes_of a) (bytes_of b).

(** ** Suite C: the scratch exercise *)

Definition suiteCThresholds : list Z := [3; 6; 9; 12; 365].
Definition suiteCFloor : Z := 2.

Record mockKey := mkMockKey { mk_threshold : Z; mk_usage : Z; mk_active : bool }.

Definition activeCount (keys : list mockKey) : Z := Z.of_nat (length (List.filter mk_active keys)).

(** The closure [record] on one of its two indices. *)
Definition record_mock (keys : list mockKey) (idx : nat) : bool * list mockKey :=
  match keys !! idx with
  | Some k =>
      if mk_active k then
        let usage := mk_usage k + 1 in
        let keys' := <[idx := mkMockKey (mk_threshold k) usage true]> keys in
        if mk_threshold k <=? usage then
          (true, if suiteCFloor <? activeCount keys'
                 then <[idx := mkMockKey (mk_threshold k) usage false]> keys' else keys')
        else (false, keys')
      else (false, keys)
  | None => (false, keys)
  end.

Definition record_pair (keys : list mockKey) (i0 i1 : nat) : bool * list mockKey :=
  let '(swap0, keys) := record_mock keys i0 in
  let '(swap1, keys) := record_mock keys i1 in
  (swap0 || swap1, keys).

Definition show_bool (b : bool) : string := if b then "true" else "false".

(** [for use := ...; use <= keys[i].threshold; use++] with partner key 4. *)
Fixpoint drive_key (fuel : nat) (i : nat) (threshold use : Z) (keys : list mockKey)
    : result string (list mockKey) :=
  match fuel with
  | O => Ok keys
  | S fuel' =>
      let '(swap, keys') := record_pair keys i 4 in
      let crossing := use =? threshold in
      if Bool.eqb swap crossing then drive_key fuel' i threshold (use + 1) keys'
      else Err ("suiteC: key" +:+ FormatInt (Z.of_nat i) +:+ " use " +:+ FormatInt use +:+
        ": swapRequired=" +:+ show_bool swap +:+ " want " +:+ show_bool crossing)
  end.

Definition drive (i : nat) (keys : list mockKey) : result string (list mockKey) :=
  let threshold := default 0 (mk_threshold <$> keys !! i) in
  drive_key (Z.to_nat threshold) i threshold 1 keys.

Definition key_active (i : nat) (keys : list mockKey) : bool := default false (mk_active <$> keys !! i).

Definition check (b : bool) (msg : string) : result string unit := if b then Ok tt else Err msg.

Definition suiteC_exercise : result string unit :=
  let keys := (fun th => mkMockKey th 0 true) <$> suiteCThresholds in
  keys ← drive 0 keys;
  _ ← check (negb (key_active 0 keys)) "suiteC: key0 should have expired after crossing (floor permits)";
  keys ← drive 1 keys;
  _ ← check (negb (key_active 1 keys)) "suiteC: key1 should have expired after crossing (floor permits)";
  keys ← drive 2 keys;
  _ ← check (negb (key_active 2 keys))
        "suiteC: key2 should have expired after crossing (floor still permits: 3>2)";
  _ ← check (activeCount keys =? suiteCFloor)
        ("suiteC: expected " +:+ FormatInt suiteCFloor +:+ " active keys at floor, got " +:+
         FormatInt (activeCount keys));
  keys ← drive 3 keys;
  _ ← check (key_active 3 keys) "suiteC: key3 must remain active at the floor (expired-until-attempted; floor=2)";
  check (activeCount keys =? suiteCFloor)
    ("suiteC: floor breached: " +:+ FormatInt (activeCount keys) +:+ " active keys").

Definition runSuiteCScratch : bool * string :=
  match suiteC_exercise with Ok _ => (true, "") | Err msg => (false, msg) end.

(** ** Issuing *)

Section Conformance.
Context `{MapOrder} (P : OpProtocol) (collate : string -> string -> bool).

(** [INSERT INTO conformance_runs] and the two inserts of [persistChallenge]. *)
Definition sql_insert_run (runID id : string) : M unit := op_insert (fun now t =>
  if bool_decide (operators t !! id = None) then Err ErrForeignKey
  else if bool_decide (is_Some (conformance_runs t !! runID)) then Err ErrUnique
  else Ok (t <| conformance_runs := <[runID := mkRun id RunRunning None None now]> (conformance_runs t) |>)).

Definition sql_reserve_nonce (nonce runID : string) (expiry : Z) : M unit := op_insert (fun now t =>
  match conformance_runs t !! runID with
  | None => Err ErrConn
  | Some run =>
      match operator_nonces t !! nonce with
      | Some _ => Err ErrUnique
      | None => Ok (t <| operator_nonces :=
          <[nonce := mkNonce (rn_operator_id run) "conformance" expiry now]> (operator_nonces t) |>)
      end
  end).

Definition sql_insert_challenge (challengeID : string) (c : ChallengeRow) : M unit := op_insert (fun _ t =>
  if bool_decide (conformance_runs t !! ch_run_id c = None) then Err ErrForeignKey
  else if bool_decide (is_Some (conformance_challenges t !! challengeID)) ||
          existsb (fun '(_, c') => bool_decide (ch_run_id c' = ch_run_id c) &&
             bool_decide (ch_suite c' = ch_suite c) && (ch_idx c' =? ch_idx c))
            (map_to_list (conformance_challenges t)) then Err ErrUnique
  else Ok (t <| conformance_challenges := <[challengeID := c]> (conformance_challenges t) |>)).

Definition persistChallenge (runID : string) (suite : ConformanceSuite) (idx : Z) (nonce : string)
    (expected : Oracle) : M string :=
  now ← time_Now;
  _ ← unique_as ErrReplay (sql_reserve_nonce nonce runID (now + Hour));
  challengeID ← fresh_uuid;
  _ ← sql_insert_challenge challengeID (mkChallenge runID suite idx nonce expected None None);
  mret challengeID.

Definition issueChallengeA (runID id : string) (idx : Z) (algo nonce : string) (seqBytes : list Z)
    : M ChallengeA :=
  now ← time_Now;
  let ch := mkChallengeA "" id now nonce (freshSeq seqBytes) algo 0 1 in
  let oracle := CanonicalBytes P (mkTransmission id now nonce (freshSeq seqBytes) algo 0 1 "" "") in
  challengeID ← persistChallenge runID SuiteA idx nonce (OracleA oracle);
  mret (ch <| ca_ChallengeID := challengeID |>).

Definition issueChallengeB (runID id : string) (idx : Z) (algo nonce : string) (seqBytes : list Z)
    : M ChallengeB :=
  now ← time_Now;
  let ch := mkChallengeB "" id now nonce (freshSeq seqBytes) algo in
  challengeID ← persistChallenge runID SuiteB idx nonce (OracleB now (freshSeq seqBytes) algo);
  mret (ch <| cb_ChallengeID := challengeID |>).

(** The nonces and sequence bytes [freshNonce] and [freshSeq] draw. *)
Record Draws := mkDraws {
  dr_nonceA : string; dr_seqA : list Z; dr_nonceB : string; dr_seqB : list Z }.

Definition StartConformanceRun (dr : Draws) (id : string)
    : M (string * list ChallengeA * list ChallengeB) := transaction (
  '(count, algo) ← op_query (fun t =>
     let rows := active_keys id t in
     (Z.of_nat (length rows), default "" (head (isort string collate (ok_algo <$> rows)))));
  _ ← ensure (count =? KeyIndexCount) ErrKeysetCountMismatch;
  runID ← fresh_uuid;
  _ ← sql_insert_run runID id;
  chA ← issueChallengeA runID id 0 algo (dr_nonceA dr) (dr_seqA dr);
  chB ← issueChallengeB runID id 0 algo (dr_nonceB dr) (dr_seqB dr);
  mret (runID, [chA], [chB])).

(** ** Grading *)

(** The run must belong to the operator. *)
Definition own_run (id runID : string) : M unit :=
  run ← no_rows_as ErrConformanceRunNotFound (op_row (fun t => conformance_runs t !! runID));
  ensure (bool_decide (rn_operator_id run = id)) ErrConformanceRunNotFound.

(** A consumed challenge answers with the verdict it stored. *)
Definition prior_result (challengeID : string) (suite : ConformanceSuite) (r : option ChallengeResult)
    : ChallengeResult :=
  match r with
  | Some r => mkChallengeResult challengeID suite (cr_Passed r) (cr_Detail r)
  | None => mkChallengeResult challengeID suite false ""
  end.

Definition sql_store_result (challengeID : string) (r : ChallengeResult) : M unit := op_exec (fun now t =>
  (tt, match conformance_challenges t !! challengeID with
       | Some c => t <| conformance_challenges :=
           <[challengeID := c <| ch_result := Some r |> <| ch_consumed_at := Some now |>]>
           (conformance_challenges t) |>
       | None => t
       end)).

Definition gradeChallenge (id runID challengeID : string) (suite : ConformanceSuite)
    (grader : Oracle -> string -> gmap Z KeyRecord -> bool * string) : M ChallengeResult :=
  transaction_ending (
    _ ← own_run id runID;
    c ← no_rows_as ErrConformanceRunNotFound (op_row (fun t =>
          c ← conformance_challenges t !! challengeID;
          if bool_decide (ch_run_id c = runID) then Some c else None));
    _ ← ensure (bool_decide (ch_suite c = suite)) (ErrGo "operator: challenge is not of the suite");
    if ch_consumed_at c then mret (RollingBack (Ok (prior_result challengeID suite (ch_result c))))
    else
      km ← activeKeyMapTx id;
      let '(passed, detail) := grader (ch_expected c) (ch_nonce c) km in
      let result := mkChallengeResult challengeID suite passed detail in
      _ ← sql_store_result challengeID result;
      mret (Committing (Ok result))).

(** The algorithm of whichever key a [range] finds first. *)
Definition algoOf (km : gmap Z KeyRecord) : string :=
  default "" (kr_Algo ∘ snd <$> head (map_range km)).

Definition graderA (id : string) (resp : ResponseA) (expected : Oracle) (_ : string)
    (km : gmap Z KeyRecord) : bool * string :=
  match expected with
  | OracleA oracle =>
      if negb (bytesEqual oracle (ra_CanonicalBytes resp)) then
        (false, "canonical bytes mismatch; first-differing offset " +:+
          FormatInt (firstDiff oracle (ra_CanonicalBytes resp)))
      else if conformance_Verify P (mkConformanceResponse id (ra_CanonicalBytes resp) (algoOf km)
                (ra_Idx0 resp) (ra_Idx1 resp) (ra_Sig0 resp) (ra_Sig1 resp)) km then (true, "")
      else (false, "signature verify failed")
  | _ => (false, "grader: cannot read oracle bytes")
  end.

Definition GradeSuiteA (id runID : string) (resp : ResponseA) : M ChallengeResult :=
  gradeChallenge id runID (ra_ChallengeID resp) SuiteA (graderA id resp).

Definition graderB (id : string) (resp : ResponseB) (expected : Oracle) (nonce : string)
    (km : gmap Z KeyRecord) : bool * string :=
  match expected with
  | OracleB ts seq algo =>
      if transmission_Verify P (mkTransmission id ts nonce seq algo (rb_Idx0 resp) (rb_Idx1 resp)
           (rb_Sig0 resp) (rb_Sig1 resp)) km then (true, "")
      else (false, "transmission verify failed")
  | _ => (false, "grader: cannot read ts")
  end.

Definition GradeSuiteB (id runID : string) (resp : ResponseB) : M ChallengeResult :=
  gradeChallenge id runID (rb_ChallengeID resp) SuiteB (graderB id resp).

Definition find_suiteC (runID : string) (t : OpTables) : option (string * ChallengeRow) :=
  List.find (fun '(_, c) => bool_decide (ch_run_id c = runID) && bool_decide (ch_suite c = SuiteC) &&
    (ch_idx c =? 0)) (map_to_list (conformance_challenges t)).

Definition GradeSuiteC (nonce id runID : string) : M ChallengeResult := transaction_ending (
  _ ← own_run id runID;
  existing ← try (op_row (find_suiteC runID));
  match existing with
  | Ok (existingID, c) => mret (RollingBack (Ok (prior_result existingID SuiteC (ch_result c))))
  | Err ErrNoRows =>
      let '(passed, detail) := runSuiteCScratch in
      now ← time_Now;
      _ ← unique_as ErrReplay (sql_insert_nonce nonce id "conformance" (now + Hour));
      let result := mkChallengeResult "" SuiteC passed detail in
      challengeID ← fresh_uuid;
      sqlnow ← gets sql_now;
      _ ← sql_insert_challenge challengeID (mkChallenge runID SuiteC 0 nonce (OracleC suiteCThresholds)
            (Some result) (Some sqlnow));
      mret (Committing (Ok (mkChallengeResult challengeID SuiteC passed detail)))
  | Err e => fail e
  end).

(** ** Finalizing *)

Definition passed_in (suite : ConformanceSuite) (cs : list ChallengeRow) : bool :=
  existsb (fun c => bool_decide (ch_suite c = suite) && default false (cr_Passed <$> ch_result c)) cs.

Definition run_challenges (runID : string) (t : OpTables) : list ChallengeRow :=
  List.filter (fun c => bool_decide (ch_run_id c = runID)) (snd <$> map_to_list (conformance_challenges t)).

Definition update_run (runID : string) (f : Z -> RunRow -> RunRow) : M unit := op_exec (fun now t =>
  (tt, match conformance_runs t !! runID with
       | Some r => t <| conformance_runs := <[runID := f now r]> (conformance_runs t) |>
       | None => t
       end)).

Definition FinalizeRun (id runID : string) : M bool := transaction_ending (
  _ ← own_run id runID;
  rows ← op_query (run_challenges runID);
  let anyUnconsumed := existsb (fun c => bool_decide (ch_result c = None)) rows in
  if passed_in SuiteA rows && passed_in SuiteB rows && passed_in SuiteC rows then
    '(hash, count) ← activeKeysetHash id;
    _ ← ensure (count =? KeyIndexCount) ErrKeysetCountMismatch;
    _ ← update_run runID (fun now r => r <| rn_status := RunPassed |>
          <| rn_keyset_hash := Some hash |> <| rn_finished_at := Some now |>);
    _ ← update_operator id (bind_conformance hash);
    mret (Committing (Ok true))
  else
    _ ← update_run runID (fun now r =>
          if anyUnconsumed then r <| rn_status := RunRunning |>
          else r <| rn_status := RunFailed |> <| rn_finished_at := Some now |>);
    mret (Committing (Err ErrConformanceNotReady))).

End Conformance.
