(* ===== verification/Token.v ===== *)
(** Job tokens: internal/orchestrator/token.go.

    The functions are modelled over any MAC; [HMAC] of Sha256.v is the one the
    program uses, and the facts below hold for every MAC because they only ask
    that the same function is applied on both sides. *)
From Stdlib Require Import Ascii.
From S2P Require Import Prelude Encoding Sha256.
Local Open Scope string_scope.
Local Open Scope Z_scope.

(** [Time.Unix]: whole seconds, rounded down. *)
Definition Unix (t : Z) : Z := t / Second.

Definition jobTokenTTL : Z := 24 * Hour.

Section Token.
Context (mac : string -> string -> string).

Definition sign (secret payload : string) : string := RawURLEncode (mac secret payload).

Definition GenerateJobToken (now : Z) (jobID nodeID : string) (ttl : Z) (secret : string) :
    result string string :=
  if bool_decide (jobID = "") || bool_decide (nodeID = "")
  then Err "generate job token: jobID and nodeID must not be empty"
  else
    let expire := Unix (now + ttl) in
    let raw := jobID +:+ "|" +:+ nodeID +:+ "|" +:+ FormatInt expire in
    let payload := RawURLEncode raw in
    Ok (payload +:+ "." +:+ sign secret payload).

Definition VerifyJobToken (now : Z) (token secret : string) : result string (string * string) :=
  match cut "." token with
  | None => Err "verify job token: invalid format"
  | Some (payload, sig) =>
      if negb (bool_decide (sig = sign secret payload))
      then Err "verify job token: invalid signature"
      else match RawURLDecode payload with
      | None => Err "verify job token: decode payload"
      | Some rawBytes =>
          match Split "|" rawBytes with
          | [c0; c1; c2] =>
              match ParseInt c2 with
              | None => Err "verify job token: parse expiry"
              | Some expireUnix =>
                  if expireUnix <? Unix now then Err "verify job token: token expired"
                  else Ok (c0, c1)
              end
          | _ => Err "verify job token: malformed claims"
          end
      end
  end.

Lemma RawURLEncode_lacks_dot s : lacks "." (RawURLEncode s) = true.
Proof.
  unfold RawURLEncode. apply lacks_list, Forall_fmap.
  eapply Forall_impl; [apply sextets_range, bytes_of_range|].
  intros z Hz. by apply b64_char_plain.
Qed.

(** What [VerifyJobToken] does with a token [GenerateJobToken] made. *)
Lemma verify_generated now now' jobID nodeID ttl secret token :
  GenerateJobToken now jobID nodeID ttl secret = Ok token ->
  lacks "|" jobID = true -> lacks "|" nodeID = true -> is_int64 (Unix (now + ttl)) ->
  VerifyJobToken now' token secret =
    if Unix (now + ttl) <? Unix now' then Err "verify job token: token expired"
    else Ok (jobID, nodeID).
Proof.
  unfold GenerateJobToken. case_match; [done|]. intros [= <-] Hj Hn Hi.
  unfold VerifyJobToken. rewrite !sep_app.
  rewrite cut_app by apply RawURLEncode_lacks_dot. rewrite bool_decide_eq_true_2 by done. simpl.
  rewrite RawURL_roundtrip, !Split_app, Split_lacks by auto using FormatInt_lacks_bar.
  by rewrite ParseInt_FormatInt.
Qed.

End Token.

(** ** Theorems *)

(** C36 Round trip: a token generated for a job and a node (identifiers without
    the separator) verifies, with the same secret, to exactly that job and that
    node until its time to live has passed, and is rejected as expired after. *)
Theorem job_token_roundtrip mac now now' jobID nodeID ttl secret :
  jobID <> "" -> nodeID <> "" -> lacks "|" jobID = true -> lacks "|" nodeID = true ->
  is_int64 (Unix (now + ttl)) ->
  exists token, GenerateJobToken mac now jobID nodeID ttl secret = Ok token /\
    VerifyJobToken mac now' token secret =
      if Unix (now + ttl) <? Unix now' then Err "verify job token: token expired"
      else Ok (jobID, nodeID).
Proof.
  intros Hj Hn Hjl Hnl Hi.
  assert (Hg : exists token, GenerateJobToken mac now jobID nodeID ttl secret = Ok token).
  { unfold GenerateJobToken. rewrite !bool_decide_eq_false_2 by done. by eexists. }
  destruct Hg as [token Hg]. exists token. split; [done|]. by eapply verify_generated.
Qed.

Lemma job_token_roundtrip_witness :
  exists token, GenerateJobToken HMAC (1700000000 * Second) "job-1" "node-1" jobTokenTTL "s3cret"
      = Ok token /\
    VerifyJobToken HMAC (1700000001 * Second) token "s3cret" = Ok ("job-1", "node-1").
Proof.
  apply (job_token_roundtrip HMAC (1700000000 * Second) (1700000001 * Second)
    "job-1" "node-1" jobTokenTTL "s3cret"); try done.
Defined.

(** Authenticity: whatever token is presented, [VerifyJobToken] accepts it only
    if its signature part is the encoded MAC, under the server's secret, of its
    payload part, and only if that payload spells out the returned job and node
    and an expiry that has not passed.  A token therefore cannot be altered or
    made for another job or node without computing that MAC. *)
Theorem job_token_authentic mac now token secret jobID nodeID :
  VerifyJobToken mac now token secret = Ok (jobID, nodeID) ->
  exists payload expire raw,
    token = payload +:+ "." +:+ RawURLEncode (mac secret payload) /\
    RawURLDecode payload = Some (jobID +:+ "|" +:+ nodeID +:+ "|" +:+ raw) /\
    ParseInt raw = Some expire /\ Unix now <= expire.
Proof.
  unfold VerifyJobToken. destruct (cut "." token) as [[payload sig]|] eqn:Hcut; [|done].
  apply cut_Some in Hcut as [-> _]. case_bool_decide as Hsig; [|done]. simpl. subst sig.
  destruct (RawURLDecode payload) as [raw|] eqn:Hraw; [|done].
  pose proof (join_Split "|" raw) as Hj.
  destruct (Split "|" raw) as [|c0 [|c1 [|c2 [|]]]]; try done.
  destruct (ParseInt c2) as [e|] eqn:He; [|done]. case_match; [done|]. intros [= <- <-].
  exists payload, e, c2. reflect_bools. split_and!; auto. by rewrite Hraw, <- Hj.
Qed.

Definition sample_token : string :=
  match GenerateJobToken HMAC 0 "j" "n" jobTokenTTL "k" with Ok t => t | Err _ => "" end.

Lemma job_token_authentic_witness :
  exists payload expire raw,
    sample_token = payload +:+ "." +:+ RawURLEncode (HMAC "k" payload) /\
    RawURLDecode payload = Some ("j" +:+ "|" +:+ "n" +:+ "|" +:+ raw) /\
    ParseInt raw = Some expire /\ Unix 0 <= expire.
Proof. apply (job_token_authentic HMAC 0 sample_token "k" "j" "n"). by vm_compute. Defined.
