(* ===== verification/Allowlist.v ===== *)
(** The workload allowlist of internal/agent/allowlist.go, which both the agent
    and the orchestrator consult before a container image is used.

    Ed25519 and JSON marshalling are not part of the repository: signing and
    verification are functions of the model's section, and the theorems that
    need them name what they assume. *)
From Stdlib Require Import Ascii.
From S2P Require Import Prelude Workload Encoding.
Import Agent.
Local Open Scope string_scope.
Local Open Scope list_scope.
Local Open Scope Z_scope.

Inductive EgressTier := EgressNone | EgressOutbound | EgressOther (s : string).
Inductive DeviceAccess := DeviceCUPSSocket | DeviceUSBPrinter | DeviceOther (s : string).

Record AllowlistEntry := mkEntry {
  ae_Name : string; ae_Digest : string; ae_Type : WorkloadType; ae_Egress : EgressTier;
  ae_AllowedDestinations : list string; ae_DeviceAccess : list DeviceAccess }.

Record Allowlist := mkAllowlist {
  al_Version : Z; al_IssuedAt : Z; al_Entries : list AllowlistEntry; al_Signature : string }.
#[export] Instance eta_Allowlist : Eta Allowlist := fun a =>
  mkAllowlist (al_Version a) (al_IssuedAt a) (al_Entries a) (al_Signature a).

(** ** Lookup *)

(** [strings.LastIndex] with the parts around it. *)
Fixpoint last_cut (c : ascii) (s : string) : option (string * string) :=
  match s with
  | "" => None
  | String.String a s' =>
      match last_cut c s' with
      | Some (x, y) => Some (String.String a x, y)
      | None => if Ascii.eqb a c then Some ("", s') else None
      end
  end.

Definition extractDigest (image : string) : option string :=
  match last_cut "@" image with
  | None => None
  | Some (_, d) =>
      if bool_decide (d = "") then None
      else if negb (String.prefix "sha256:" d)
           || (String.length d <=? String.length "sha256:")%nat then None
      else Some d
  end.

Fixpoint lookup_digest (digest : string) (l : list AllowlistEntry) : option AllowlistEntry :=
  match l with
  | [] => None
  | e :: l' => if bool_decide (ae_Digest e = digest) then Some e else lookup_digest digest l'
  end.

Definition Lookup (a : Allowlist) (image : string) : result string AllowlistEntry :=
  match extractDigest image with
  | None => Err "image not in allowlist: image must be digest-pinned"
  | Some digest =>
      match lookup_digest digest (al_Entries a) with
      | Some e => Ok e
      | None => Err "image not in allowlist"
      end
  end.

Lemma last_cut_Some c s x y :
  last_cut c s = Some (x, y) -> s = x +:+ String.String c y /\ lacks c y = true.
Proof.
  revert x y. induction s as [|a s IH]; intros x y; simpl; [done|].
  destruct (last_cut c s) as [[x' y']|] eqn:Hl.
  - intros [= <- <-]. destruct (IH x' y' eq_refl) as [-> ?]. done.
  - destruct (Ascii.eqb a c) eqn:Ha; [|done]. intros [= <- <-].
    apply Ascii.eqb_eq in Ha as ->. split; [done|].
    clear IH. revert Hl. induction s as [|b s IH]; simpl; [done|].
    destruct (last_cut c s) as [[? ?]|]; [done|]. destruct (Ascii.eqb b c); [done|]. simpl. auto.
Qed.

Lemma lookup_digest_Some d l e : lookup_digest d l = Some e -> e ∈ l /\ ae_Digest e = d.
Proof.
  induction l as [|x l IH]; simpl; [done|]. case_bool_decide.
  - intros [= <-]. split; [constructor|done].
  - intros H'. destruct (IH H'). split; [by constructor|done].
Qed.

(** Only digest-pinned images on the list are accepted: when [Lookup]
    succeeds the reference ends in an [@] followed by a non-trivial sha256
    digest, and the entry it returns is on the list under exactly that digest;
    a tag-only reference never matches. *)
Theorem Lookup_pinned a image e :
  Lookup a image = Ok e ->
  e ∈ al_Entries a /\
  exists name, image = name +:+ String.String "@" (ae_Digest e) /\
    String.prefix "sha256:" (ae_Digest e) = true /\
    (String.length "sha256:" < String.length (ae_Digest e))%nat /\
    lacks "@" (ae_Digest e) = true.
Proof.
  unfold Lookup, extractDigest. destruct (last_cut "@" image) as [[name d]|] eqn:Hc; [|done].
  apply last_cut_Some in Hc as [-> Hl]. case_bool_decide; [done|].
  destruct (negb _ || _) eqn:Hg; [done|]. apply orb_false_iff in Hg as [Hp Hlen].
  apply negb_false_iff in Hp. apply Nat.leb_gt in Hlen.
  destruct (lookup_digest d (al_Entries a)) as [e'|] eqn:He; [|done]. intros [= <-].
  apply lookup_digest_Some in He as [? <-]. split; [done|]. by exists name.
Qed.

Lemma Lookup_pinned_witness :
  let e := mkEntry "worker" "sha256:ab" WorkloadCompute EgressNone [] [] in
  let a := mkAllowlist 1 0 [e] "" in
  e ∈ al_Entries a /\
  exists name, "soholink/worker@sha256:ab" = name +:+ String.String "@" (ae_Digest e) /\
    String.prefix "sha256:" (ae_Digest e) = true /\
    (String.length "sha256:" < String.length (ae_Digest e))%nat /\
    lacks "@" (ae_Digest e) = true.
Proof. intros e a. by apply (Lookup_pinned a "soholink/worker@sha256:ab" e). Defined.

(** ** Signatures and loading *)

Section Signed.
(** [json.Marshal] of the signed payload, [ed25519.Verify], base64 decoding. *)
Context (srt : forall A, (A -> A -> bool) -> list A -> list A).
Context (marshal : Z -> Z -> list AllowlistEntry -> result string string).
Context (ed25519_verify : string -> string -> string -> bool).
Context (b64_decode : string -> option string).
(** The key injected at build time. *)
Context (AllowlistPublicKey : string).

Definition canonicalSigningBytes (a : Allowlist) : result string string :=
  marshal (al_Version a) (al_IssuedAt a)
    (srt _ (fun x y => String.ltb (ae_Digest x) (ae_Digest y)) (al_Entries a)).

Definition Verify (a : Allowlist) : result string unit :=
  if bool_decide (AllowlistPublicKey = "") then Err "allowlist public key not configured"
  else match b64_decode AllowlistPublicKey with
  | Some pub =>
      if negb (String.length pub =? 32)%nat then Err "invalid public key"
      else match b64_decode (al_Signature a) with
      | Some sig =>
          if negb (String.length sig =? 64)%nat then Err "invalid signature encoding"
          else match canonicalSigningBytes a with
          | Err _ => Err "allowlist signature verification failed"
          | Ok msg => if ed25519_verify pub msg sig then Ok tt
                      else Err "allowlist signature verification failed"
          end
      | None => Err "invalid signature encoding"
      end
  | None => Err "invalid public key"
  end.

(** What the HTTP fetch and the cache file yield. *)
Inductive CacheFile := CacheMissing | CacheMalformed | CacheParsed (a : Allowlist).

(** [LoadAllowlistFromURL]: the result and the new cache content; a failed
    cache write ([cacheWritten] false) is ignored. *)
Definition LoadAllowlistFromURL (fetched : result string Allowlist) (cacheWritten : bool)
    (cache : CacheFile) : result string Allowlist * CacheFile :=
  match fetched with
  | Ok al =>
      match Verify al with
      | Err e => (Err e, cache)
      | Ok _ => (Ok al, if cacheWritten then CacheParsed al else cache)
      end
  | Err _ =>
      match cache with
      | CacheMissing => (Err "allowlist fetch failed", cache)
      | CacheMalformed => (Err "allowlist malformed", cache)
      | CacheParsed cached =>
          match Verify cached with
          | Err e => (Err e, cache)
          | Ok _ => (Ok cached, cache)
          end
      end
  end.

End Signed.

(** No unverified allowlist is ever returned: over any sequence of fetch
    outcomes (remote lists, forged ones included, or failures) and any initial
    cache file, every list [LoadAllowlistFromURL] hands to the agent carries a
    valid signature, whether it came from the network or from the cache. *)
Theorem loaded_allowlist_verified srt marshal verify decode key
    (fetches : list (result string Allowlist * bool)) (cache : CacheFile) :
  let load f c := LoadAllowlistFromURL srt marshal verify decode key f.1 f.2 c in
  forall fetched al,
    (load fetched (foldl (fun c f => (load f c).2) cache fetches)).1 = Ok al ->
    exists pub sig msg,
      decode key = Some pub /\ decode (al_Signature al) = Some sig /\
      canonicalSigningBytes srt marshal al = Ok msg /\ verify pub msg sig = true.
Proof.
  intros load fetched al. set (c := foldl _ _ _). unfold load, LoadAllowlistFromURL.
  assert (Hv : forall a, Verify srt marshal verify decode key a = Ok tt ->
    exists pub sig msg, decode key = Some pub /\ decode (al_Signature a) = Some sig /\
      canonicalSigningBytes srt marshal a = Ok msg /\ verify pub msg sig = true).
  { unfold Verify. intros a. repeat (case_match; try done). eauto 10. }
  destruct fetched as [[a|e] written]; simpl; [|destruct c as [| |a]; try done];
    destruct (Verify srt marshal verify decode key a) as [[]|e'] eqn:Ha; try done;
    intros [= <-]; by apply Hv.
Qed.

Lemma loaded_allowlist_verified_witness :
  let a := mkAllowlist 1 0 [] (String.concat "" (repeat "s" 64)) in
  let key := String.concat "" (repeat "k" 32) in
  let marshal := fun _ _ _ => Ok "msg" in
  let verify := fun _ _ _ => true in
  exists pub sig msg, Some key = Some pub /\ Some (al_Signature a) = Some sig /\
    canonicalSigningBytes isort marshal a = Ok msg /\ verify pub msg sig = true.
Proof.
  intros a key marshal verify.
  apply (loaded_allowlist_verified isort marshal verify Some key [(Ok a, true)] CacheMissing
    (Err "offline", true) a). by vm_compute.
Defined.
