(* ===== verification/Orchestrator.v ===== *)
(** Job placement: internal/orchestrator/orchestrator.go and instrument.go.

    [SubmitJob], the rerouting of declined jobs, the rescheduling of jobs whose
    node went away and the expiry passes of the background loop, each statement
    by statement in the monad of Database.v.  The scheduler is used through the
    interface [Placement], which internal/scheduler implements. *)
From S2P Require Import Prelude Float64 Workload Sounding Registry Scheduler Database Lifecycle.
From S2P Require Import Effects Encoding Sha256 Token Allowlist.
Import Types Agent Mapping Rungs.
Local Open Scope string_scope.
Local Open Scope list_scope.
Local Open Scope Z_scope.

(** ** The scheduler's interface *)

Definition ScheduleFunc : Type :=
  (nat -> Z) -> list NodeEntry -> Z -> PlacementContext -> option (result string (list NodeEntry)).

(** What the orchestrator relies on: as many nodes as the tier asks for, all of
    them candidates; and success whenever there are enough candidates. *)
Class Placement (schedule : ScheduleFunc) : Prop := {
  placement_sound : forall clock cands tier pctx l,
    schedule clock cands tier pctx = Some (Ok l) ->
    Z.of_nat (length l) = tier /\ forall n, n ∈ l -> n ∈ cands;
  placement_total : forall clock cands tier pctx,
    0 <= tier <= Z.of_nat (length cands) ->
    exists l, schedule clock cands tier pctx = Some (Ok l)
}.

#[export] Instance Schedule_placement srt `{!SortSlice srt} : Placement (Schedule srt).
Proof.
  split.
  - intros clock cands tier pctx l Hl. split; [by eapply Schedule_length|].
    intros n Hn. by eapply Schedule_incl.
  - intros clock cands tier pctx Ht. unfold Schedule.
    rewrite (proj2 (Z.ltb_ge _ _)), (proj2 (Z.ltb_ge _ _)) by lia. by eexists.
Qed.

(** ** Requests and configuration *)

Record SubmitJobRequest := mkSubmit {
  sj_ConsumerID : string; sj_WorkloadType : MarketplaceWorkloadType; sj_ContainerImage : string;
  sj_CountryConstraint : string; sj_CPUCores : Z; sj_RAMMB : Z; sj_GPURequired : bool;
  sj_StorageGB : Z }.

Definition Validate (r : SubmitJobRequest) : result string unit :=
  if bool_decide (sj_ConsumerID r = "") then Err "ConsumerID is required"
  else if bool_decide (sj_WorkloadType r = "") then Err "WorkloadType is required"
  else if negb (IsValid (sj_WorkloadType r)) then Err "unknown WorkloadType"
  else Ok tt.

Record SubmitJobResponse := mkSubmitResponse {
  sr_JobID : string; sr_NodeID : string; sr_JobToken : string; sr_StripeAccountID : string }.

(** The seven fields hashed by [canonicalJobSpecHash]. *)
Record JobSpec := mkJobSpec {
  sp_WorkloadType : string; sp_ContainerImage : string; sp_CPUCores : Z; sp_RAMMB : Z;
  sp_StorageGB : Z; sp_GPURequired : bool; sp_CountryConstraint : string }.

(** The allowlist file as [loadAllowlist] parses it, [None] when it cannot. *)
Record Orchestrator := mkOrchestrator {
  o_tokenSecret : string; o_schedule : ScheduleFunc; o_allowlist : option Allowlist;
  o_printConfirmEnabled : bool; o_confirmationWindow : Z; o_ladder : Ladder }.

Section Orchestrator.
Context `{MapOrder}.
(** [json.Marshal] of the spec struct, and the collation of ORDER BY. *)
Context (marshalSpec : JobSpec -> string) (collate : string -> string -> bool).
Context (o : Orchestrator).

Definition canonicalJobSpecHash (req : SubmitJobRequest) : string :=
  Sum256 (marshalSpec (mkJobSpec (sj_WorkloadType req) (sj_ContainerImage req) (sj_CPUCores req)
    (sj_RAMMB req) (sj_StorageGB req) (sj_GPURequired req) (sj_CountryConstraint req))).

Definition lift {A} (r : result string A) : M A :=
  match r with Ok a => mret a | Err e => fail (ErrGo e) end.

Definition requesterPlacementContext (participantID : string) : M PlacementContext :=
  if bool_decide (participantID = "") then mret (mkPlacementContext participantID "" "")
  else
    r ← try (query_row (fun _ d => participants d !! participantID));
    match r with
    | Ok p => mret (mkPlacementContext participantID (default "" (p_region p))
                      (default "" (p_country_code p)))
    | Err _ => mret (mkPlacementContext participantID "" "")
    end.

(** ** Telemetry *)

Definition shapeDims (req : SubmitJobRequest) : float64 * Z * Z :=
  (f64_of_Z (sj_CPUCores req), sj_RAMMB req, to_int64 (sj_StorageGB req * 1024)).

Definition recordPlacement (ctx : option string) (req : SubmitJobRequest) (jobID : string) : M unit :=
  let '(cpu, memMB, diskMB) := shapeDims req in
  record (RecordJobShape (mkJobShape (OperatorIDOrUnknown ctx) jobID (sj_WorkloadType req)
    (Intensity (o_ladder o) cpu) 0 cpu memMB diskMB (Footprint (o_ladder o) cpu memMB diskMB)
    true (default "" (FitRung (o_ladder o) cpu memMB diskMB)))).

Definition recordRejection (ctx : option string) (req : SubmitJobRequest) : M unit :=
  let '(cpu, memMB, diskMB) := shapeDims req in
  attached ← gets (fun w => bool_decide (is_Some (w_sink w)));
  if negb attached then mret tt
  else
    let footprint := Footprint (o_ladder o) cpu memMB diskMB in
    let '(reason, wantedRung) := ClassifyRejection (o_ladder o) cpu memMB diskMB in
    let op := OperatorIDOrUnknown ctx in
    jobID ← fresh_uuid;
    _ ← record (RecordJobShape (mkJobShape op jobID (sj_WorkloadType req)
          (Intensity (o_ladder o) cpu) 0 cpu memMB diskMB footprint false ""));
    record (RecordRejection (mkRejection op jobID (sj_WorkloadType req) reason footprint wantedRung)).

(** ** Statements *)

Definition sql_insert_job (id : string) (nj : NewJob) : M unit := stmt (fun now d =>
  if negb (job_fits nj) then Err ErrConn
  else if bool_decide (is_Some (jobs d !! id)) then Err ErrUnique
  else if negb (bool_decide (is_Some (participants d !! nj_consumer nj)))
       || negb (bool_decide (is_Some (nodes d !! nj_node nj))) then Err ErrForeignKey
  else Ok (tt, d <| jobs := <[id := insert_job_row now nj]> (jobs d) |>)).

(** The enabled printers of a node, in the order of the query. *)
Definition enabled_printers (d : DB) (node : string) : list string :=
  isort _ collate ((fun '((_, p), _) => p) <$>
    filter (fun '((n, _), r) => n = node /\ pr_enabled r = true) (map_to_list (node_printers d))).

Definition sql_first_printer (node : string) : M string :=
  query_row (fun _ d => head (enabled_printers d node)).

Definition sql_stripe_account (node : string) : M string := query_row (fun _ d =>
  n ← nodes d !! node;
  p ← participants d !! n_participant_id n;
  Some (default "" (p_stripe_account_id p))).

Definition sql_declines (jobID : string) : M (list string) := query (fun _ d =>
  snd <$> filter (fun '(j, _) => j = jobID) (elements (job_node_declines d))).

(** ** Submission *)

Definition is_print_job (w : MarketplaceWorkloadType) : bool := is_print w.

(** The arguments of the INSERT; an empty country is stored as NULL. *)
Definition new_job (req : SubmitJobRequest) (nodeID : string) : NewJob :=
  mkNewJob (sj_ConsumerID req) nodeID (sj_WorkloadType req)
    (if bool_decide (sj_CountryConstraint req = "") then None else Some (sj_CountryConstraint req))
    (sj_CPUCores req) (sj_RAMMB req) (sj_StorageGB req) (sj_GPURequired req)
    (sj_ContainerImage req).

Definition submit_tx (req : SubmitJobRequest) (jobID : string) (node : NodeEntry) :
    M (string * string) :=
  _ ← sql_insert_job jobID (new_job req (NodeID node));
  now ← time_Now;
  token ← lift (GenerateJobToken HMAC now jobID (NodeID node) jobTokenTTL (o_tokenSecret o));
  _ ← (if is_print_job (sj_WorkloadType req) && o_printConfirmEnabled o then
         printerID ← sql_first_printer (NodeID node);
         let specHash := canonicalJobSpecHash req in
         now ← time_Now;
         let deadline := timestamptz (now + o_confirmationWindow o) in
         exec (fun now d => update_job jobID (fun _ => true)
                 (set_submit_awaiting now token printerID specHash deadline) d)
       else exec (fun now d => update_job jobID (fun _ => true) (set_submit_scheduled token) d));
  stripeAccountID ← sql_stripe_account (NodeID node);
  mret (token, stripeAccountID).

Definition match_request (req : SubmitJobRequest) : MatchRequest :=
  mkMatchRequest (sj_WorkloadType req) (sj_CountryConstraint req) (sj_CPUCores req) (sj_RAMMB req)
    (sj_GPURequired req) (sj_StorageGB req) [] (sj_ConsumerID req).

(** [o.schedule(...)] followed by [scheduled[0]]. *)
Definition pick_node (candidates : list NodeEntry) (pctx : PlacementContext) : M NodeEntry :=
  now ← time_Now;
  match o_schedule o (fun _ => now) candidates SLAStandard pctx with
  | Some (Ok (node :: _)) => mret node
  | Some (Ok []) => fail (ErrGo "index out of range")
  | Some (Err e) => fail (ErrGo e)
  | None => fail (ErrGo "panic")
  end.

(** The Defense-3 checks: the image is on the allowlist under the agent
    category the marketplace type maps to. *)
Definition check_allowlist (req : SubmitJobRequest) : result string unit :=
  match o_allowlist o with
  | None => Err "submit job: load allowlist"
  | Some al =>
      match Lookup al (sj_ContainerImage req) with
      | Err _ => Err "submit job: image not in allowlist"
      | Ok entry =>
          match marketplaceToAgent !! sj_WorkloadType req with
          | None => Err "submit job: no mapping for workload type"
          | Some expected =>
              if bool_decide (ae_Type entry = expected) then Ok tt
              else Err "submit job: workload type mismatch"
          end
      end
  end.

Definition SubmitJob (ctx : option string) (req : SubmitJobRequest) : M SubmitJobResponse :=
  _ ← lift (Validate req);
  _ ← lift (check_allowlist req);
  found ← reg_read (FindMatch (match_request req));
  match found with
  | Err e => _ ← recordRejection ctx req; fail (ErrGo e)
  | Ok candidates =>
      pctx ← requesterPlacementContext (sj_ConsumerID req);
      node ← pick_node candidates pctx;
      jobID ← fresh_uuid;
      '(token, stripe) ← transaction (submit_tx req jobID node);
      _ ← reg_write (AddInFlight (NodeID node) 1);
      _ ← recordPlacement ctx req jobID;
      mret (mkSubmitResponse jobID (NodeID node) token stripe)
  end.

(** ** Rerouting and rescheduling *)

Definition job_match_request (j : JobRow) (excluded : list string) : MatchRequest :=
  mkMatchRequest (j_workload_type j) (default "" (j_country_constraint j))
    (default 0 (j_cpu_cores j)) (default 0 (j_ram_mb j)) (j_gpu_required j)
    (default 0 (j_storage_gb j)) excluded (default "" (j_participant_id j)).

Definition RerouteDeclinedJob (jobID : string) : M unit :=
  j ← query_row (fun _ d => jobs d !! jobID);
  excludedIDs ← sql_declines jobID;
  let previousNodeID := default "" (j_node_id j) in
  found ← reg_read (FindMatch (job_match_request j excludedIDs));
  match found with
  | Err _ =>
      n ← exec (fun now d => update_job jobID (has_status declined) (set_reroute_failed now) d);
      if (n =? 1) && negb (bool_decide (previousNodeID = ""))
      then reg_write (AddInFlight previousNodeID (-1)) else mret tt
  | Ok candidates =>
      pctx ← requesterPlacementContext (default "" (j_participant_id j));
      node ← pick_node candidates pctx;
      now ← time_Now;
      token ← lift (GenerateJobToken HMAC now jobID (NodeID node) jobTokenTTL (o_tokenSecret o));
      n ← (if is_print (j_workload_type j) then
             printerID ← sql_first_printer (NodeID node);
             now ← time_Now;
             let deadline := timestamptz (now + o_confirmationWindow o) in
             stmt (fun now d => rebind_job jobID (NodeID node) (has_status declined)
               (set_reroute_print now (NodeID node) token printerID deadline) d)
           else
             stmt (fun now d => rebind_job jobID (NodeID node) (has_status declined)
               (set_reroute_compute now (NodeID node) token) d));
      if n =? 1 then
        _ ← reg_write (AddInFlight (NodeID node) 1);
        if negb (bool_decide (previousNodeID = ""))
        then reg_write (AddInFlight previousNodeID (-1)) else mret tt
      else mret tt
  end.

Definition RescheduleStaleJob (jobID oldNodeID : string) : M unit :=
  j ← query_row (fun _ d => jobs d !! jobID);
  if is_print (j_workload_type j) then mret tt
  else
    declines ← sql_declines jobID;
    found ← reg_read (FindMatch (job_match_request j (oldNodeID :: declines)));
    match found with
    | Err _ => mret tt
    | Ok candidates =>
        pctx ← requesterPlacementContext (default "" (j_participant_id j));
        node ← pick_node candidates pctx;
        now ← time_Now;
        token ← lift (GenerateJobToken HMAC now jobID (NodeID node) jobTokenTTL (o_tokenSecret o));
        n ← stmt (fun now d => rebind_job jobID (NodeID node)
              (fun j => has_status scheduled j && bound_to oldNodeID j)
              (set_reschedule now (NodeID node) token) d);
        if n =? 1 then
          _ ← reg_write (AddInFlight (NodeID node) 1);
          reg_write (AddInFlight oldNodeID (-1))
        else mret tt
    end.

(** ** Expiry *)

Definition ExpireConfirmation (jobID : string) : M bool :=
  n ← exec (fun now d => update_job jobID
        (fun j => has_status awaiting_confirmation j && before (j_confirmation_deadline j) now)
        (set_expire_confirmation now) d);
  mret (n =? 1).

Definition ExpireDispatched (jobID : string) : M bool :=
  n ← exec (fun now d => update_job jobID
        (fun j => has_status dispatched j && (j_updated_at j <? now - 2 * Minute))
        (set_expire_dispatched now) d);
  mret (n =? 1).

Definition ExpirePickedUp (jobID : string) : M bool :=
  n ← exec (fun now d => update_job jobID
        (fun j => has_status picked_up j && before (j_picked_up_at j) (now - 7 * Day))
        (set_delivered now) d);
  mret (n =? 1).

(** ** The background pass *)

(** [SELECT id FROM jobs WHERE ... LIMIT 100], in no particular order. *)
Definition select_jobs (p : Z -> JobRow -> bool) : M (list (string * JobRow)) :=
  query (fun now d => take 100 (filter (fun '(_, j) => p now j = true) (map_range (jobs d)))).

(** Each row's error is logged and the loop goes on. *)
Definition for_each (l : list (string * JobRow)) (f : string -> M unit) : M unit :=
  forM l (fun '(id, _) => _ ← try (f id); mret tt).

(** A pass whose SELECT fails is skipped. *)
Definition pass (p : Z -> JobRow -> bool) (f : list (string * JobRow) -> M unit) : M unit :=
  r ← try (select_jobs p);
  match r with Ok l => f l | Err _ => mret tt end.

Definition expireConfirmations : M unit :=
  pass (fun now j => has_status awaiting_confirmation j && before (j_confirmation_deadline j) now)
    (fun l => for_each l (fun id => _ ← ExpireConfirmation id; mret tt)).

Definition expireDispatched : M unit :=
  pass (fun now j => has_status dispatched j && (j_updated_at j <? now - 2 * Minute))
    (fun l => for_each l (fun id => _ ← ExpireDispatched id; mret tt)).

Definition rescheduleStale : M unit :=
  pass (fun _ j => has_status scheduled j && negb (is_print (j_workload_type j)))
    (fun l => forM l (fun '(id, j) =>
       match j_node_id j with
       | None => mret tt
       | Some node =>
           if bool_decide (node = "") then mret tt
           else
             up ← reg_read (IsOnline node);
             if up : bool then mret tt else (_ ← try (RescheduleStaleJob id node); mret tt)
       end)).

Definition expirePickedUp : M unit :=
  pass (fun now j => has_status picked_up j && before (j_picked_up_at j) (now - 7 * Day))
    (fun l => for_each l (fun id => _ ← ExpirePickedUp id; mret tt)).

Definition rerouteDeclined : M unit :=
  pass (fun _ j => has_status declined j)
    (fun l => for_each l RerouteDeclinedJob).

(** One tick of [StartDeclineRerouteLoop]. *)
Definition reroute_tick : M unit :=
  _ ← expireConfirmations; _ ← expireDispatched; _ ← rescheduleStale; _ ← expirePickedUp;
  rerouteDeclined.

End Orchestrator.
