(* ===== verification/Samples.v ===== *)
(** A small concrete system on which the theorems are exercised: two members,
    one contributed node, one approved image. *)
From S2P Require Import Prelude Float64 Workload Sounding Registry Scheduler Database Lifecycle.
From S2P Require Import Effects Encoding Sha256 Token Allowlist Orchestrator.
Import Types Agent Mapping Rungs.
Local Open Scope string_scope.
Local Open Scope list_scope.
Local Open Scope Z_scope.

Definition sample_image : string := "soholink/worker@sha256:ab".
Definition sample_print_image : string := "soholink/printer@sha256:cd".

Definition sample_allowlist : Allowlist := mkAllowlist 1 0
  [mkEntry "worker" "sha256:ab" WorkloadCompute EgressNone [] [];
   mkEntry "printer" "sha256:cd" Agent.WorkloadPrintTraditional EgressNone [] [DeviceCUPSSocket]] "".

Definition sample_orchestrator : Orchestrator :=
  mkOrchestrator "s3cret" (Schedule isort) (Some sample_allowlist) true (4 * Hour) [].

Definition sample_entry : NodeEntry :=
  (sample_node "n1" "A" "r" "US" 8 true) <| ParticipantID := "owner" |>
    <| HasEnabledPrinter := true |>.

Definition sample_registry : NodeRegistry := Register sample_entry NewNodeRegistry.

Definition sample_node_row : NodeRow :=
  mkNodeRow "owner" "A" "n1" "US" None "online" None
    {[ "cpu_cores" := JNum 8; "ram_mb" := JNum 16384 ]} (f64_of_Z 100)
    false false false 0 0 0.

Definition sample_participant (account : option string) (email : string) : ParticipantRow :=
  mkParticipant account None None false email (Some "hash") "soho" None None false false.

Definition sample_db : DB := empty_db
  <| participants := {[ "owner" := sample_participant (Some "acct_1") "owner@example.org";
                        "consumer" := sample_participant None "consumer@example.org" ]} |>
  <| nodes := {[ "n1" := sample_node_row ]} |>
  <| node_printers := {[ ("n1", "p1") := mkPrinter "Laser" true 0 ]} |>.

Definition sample_world_with (d : DB) (events : list Event) : World :=
  mkWorld d sample_registry None sample_now events
    (fun n => "job-" +:+ FormatInt (Z.of_nat n)) None.

Definition sample_world : World := sample_world_with sample_db [].

Definition sample_request : SubmitJobRequest :=
  mkSubmit "consumer" MarketplaceBatchCompute sample_image "US" 4 0 false 0.

Definition sample_marshal (s : JobSpec) : string := sp_ContainerImage s.

(** A run that succeeds, as the equation the theorems ask for. *)
Definition result_of {A} (dflt : A) (p : result Error A * World) : A :=
  match p.1 with Ok a => a | Err _ => dflt end.

Lemma run_ok {A} (dflt : A) (p : result Error A * World) :
  is_ok p.1 = true -> p = (Ok (result_of dflt p), p.2).
Proof. by destruct p as [[a|e] w]. Qed.

Lemma sample_owner_only (P : NodeEntry -> Prop) id node :
  P sample_entry -> sample_registry !! id = Some node -> P node.
Proof.
  intros HP. unfold sample_registry, Register, NewNodeRegistry. rewrite lookup_insert.
  case_decide; [by intros [= <-]|]. by rewrite lookup_empty.
Qed.

#[export] Instance sample_placement : Placement (o_schedule sample_orchestrator).
Proof. exact (Schedule_placement isort). Qed.
