(* ===== verification/OrchestratorProofs.v ===== *)
(** The orchestrator keeps the guarantee: whatever requests run concurrently and
    whatever fails, the database effect of placement, rerouting, rescheduling
    and expiry is a sequence of lifecycle steps. *)
From S2P Require Import Prelude Float64 Workload Sounding Registry Scheduler Database Lifecycle.
From S2P Require Import Effects Encoding Sha256 Token Allowlist Orchestrator.
Import Types Agent Mapping Rungs.
Local Open Scope string_scope.
Local Open Scope list_scope.
Local Open Scope Z_scope.

Section Guarantee.
Context `{MapOrder}.
Context (marshalSpec : JobSpec -> string) (collate : string -> string -> bool).
Context (o : Orchestrator).

Lemma safe_lift {A} (r : result string A) : safe (lift r).
Proof. destruct r; [apply safe_ret|apply safe_fail]. Qed.
#[local] Hint Resolve safe_lift : safe.

Lemma safe_requester p : safe (requesterPlacementContext p).
Proof. unfold requesterPlacementContext. safe_code. Qed.

Lemma safe_pick_node cands pctx : safe (pick_node o cands pctx).
Proof. unfold pick_node. safe_code. Qed.

Lemma safe_recordRejection ctx req : safe (recordRejection o ctx req).
Proof.
  unfold recordRejection. destruct (shapeDims req) as [[? ?] ?]. apply safe_bind; [apply safe_gets|].
  intros []; simpl; [|apply safe_ret]. destruct (ClassifyRejection _ _ _ _). safe_code.
Qed.

Lemma safe_recordPlacement ctx req id : safe (recordPlacement o ctx req id).
Proof. unfold recordPlacement. destruct (shapeDims req) as [[? ?] ?]. apply safe_record. Qed.

#[local] Hint Resolve safe_requester safe_pick_node safe_recordRejection safe_recordPlacement : safe.

(** ** Submission *)

(** The database inside a transaction begun at [t] once the row is inserted. *)
Definition inserted (t : Z) (d0 : DB) (id : string) (nj : NewJob) (d : DB) : Prop :=
  jobs d0 !! id = None /\ d = d0 <| jobs := <[id := insert_job_row t nj]> (jobs d0) |>.

(** ... and once it has its final form. *)
Definition placed (R : JobRow -> Prop) (d0 : DB) (id : string) (d : DB) : Prop :=
  exists j, R j /\ jobs d0 !! id = None /\ d = d0 <| jobs := <[id := j]> (jobs d0) |>.

(** The row [SubmitJob] stores for a request: the columns of the request (the
    country as CHAR(2) keeps it), the node and its token, and for a print job
    under confirmation a printer, the hash of the specification and a deadline. *)
Definition placed_row (req : SubmitJobRequest) (node token : string) (j : JobRow) : Prop :=
  j_participant_id j = Some (sj_ConsumerID req) /\ j_node_id j = Some node /\
  j_workload_type j = sj_WorkloadType req /\ j_job_token j = Some token /\
  j_cpu_cores j = Some (sj_CPUCores req) /\ j_ram_mb j = Some (sj_RAMMB req) /\
  j_storage_gb j = Some (sj_StorageGB req) /\ j_gpu_required j = sj_GPURequired req /\
  j_container_image j = Some (sj_ContainerImage req) /\
  j_country_constraint j = (if bool_decide (sj_CountryConstraint req = "") then None
                            else bpchar 2 (sj_CountryConstraint req)) /\
  j_status j = (if is_print (sj_WorkloadType req) && o_printConfirmEnabled o
                then awaiting_confirmation else scheduled) /\
  (j_status j = awaiting_confirmation -> is_Some (j_printer_id j) /\
     is_Some (j_confirmation_deadline j) /\
     j_spec_hash j = Some (canonicalJobSpecHash marshalSpec req)).

Lemma placed_row_scheduled t req node token :
  is_print (sj_WorkloadType req) && o_printConfirmEnabled o = false ->
  placed_row req node token (set_submit_scheduled token (insert_job_row t (new_job req node))).
Proof. intros Hp. unfold placed_row. rewrite Hp. split_and!; try done. simpl. by case_bool_decide. Qed.

Lemma placed_row_awaiting t t' req node token pr deadline :
  is_print (sj_WorkloadType req) && o_printConfirmEnabled o = true ->
  placed_row req node token (set_submit_awaiting t' token pr (canonicalJobSpecHash marshalSpec req)
    deadline (insert_job_row t (new_job req node))).
Proof. intros Hp. unfold placed_row. rewrite Hp. split_and!; try done. simpl. by case_bool_decide. Qed.

Lemma tx_insert t d0 id nj :
  tx_triple t (fun d => d = d0) (sql_insert_job id nj) (fun _ => inserted t d0 id nj).
Proof.
  apply tx_stmt. intros d a d' ->. simpl.
  destruct (job_fits nj); [|done]. cbn [negb].
  case_bool_decide as Hid; [done|]. case_match; [done|]. intros [= <-].
  split; [by apply eq_None_not_Some|done].
Qed.

Lemma tx_update t d0 id nj (f : Z -> JobRow -> JobRow) (R : JobRow -> Prop) :
  R (f t (insert_job_row t nj)) ->
  tx_triple t (inserted t d0 id nj) (exec (fun now d => update_job id (fun _ => true) (f now) d))
    (fun _ => placed R d0 id).
Proof.
  intros Hf. apply tx_stmt. intros d n d' [Hnone ->]. unfold update_job. simpl.
  rewrite lookup_insert_eq. intros [= <- <-].
  exists (f t (insert_job_row t nj)). split_and!; [done|done|].
  simpl. by rewrite insert_insert_eq.
Qed.

Lemma tx_lift_ok {A B} t P (a : A) (f : A -> M B) Q :
  tx_triple t P (f a) Q -> tx_triple t P (lift (Ok a) ≫= f) Q.
Proof. done. Qed.

(** What the transaction of a submission leaves: one new row, a lifecycle
    submission that is the placement of the request under the token generated for
    this job and node. *)
Definition submission (t : Z) (req : SubmitJobRequest) (id node token : string) (j : JobRow) : Prop :=
  (IsValid (sj_WorkloadType req) = true -> submitted t j) /\ placed_row req node token j /\
  exists now, GenerateJobToken HMAC now id node jobTokenTTL (o_tokenSecret o) = Ok token.

Lemma submit_tx_placed t req id node d0 :
  tx_triple t (fun d => d = d0) (submit_tx marshalSpec collate o req id node)
    (fun r => placed (submission t req id (NodeID node) r.1) d0 id).
Proof.
  unfold submit_tx.
  eapply tx_bind; [apply tx_insert|intros ?]. eapply tx_bind; [apply tx_gets|intros now].
  destruct (GenerateJobToken _ now _ _ _ _) as [token|e] eqn:Hg;
    [|exact (tx_fail t _ (ErrGo e) _)].
  apply tx_lift_ok. cbv beta.
  eapply tx_bind with (R := fun _ => placed (submission t req id (NodeID node) token) d0 id); last first.
  { intros _. eapply tx_bind; [apply tx_read|]. intros acct.
    exact (tx_ret t (token, acct) (fun r => placed (submission t req id (NodeID node) r.1) d0 id)). }
  unfold is_print_job. destruct (_ && _) eqn:Hp.
  - eapply tx_bind; [apply tx_read|intros pr].
    eapply tx_bind; [apply tx_gets|intros now2]. apply tx_update. split_and!; [|by apply placed_row_awaiting|by eexists].
    intros Hv. apply andb_prop in Hp as [Hp _]. by constructor.
  - apply (tx_update t d0 id _ (fun _ => set_submit_scheduled token)).
    split_and!; [|by apply placed_row_scheduled|by eexists]. intros Hv. by constructor.
Qed.

Lemma safe_submit_transaction req id node :
  IsValid (sj_WorkloadType req) = true ->
  safe (transaction (submit_tx marshalSpec collate o req id node)).
Proof.
  intros Hv. eapply triple_conseq;
    [apply (triple_transaction _ (fun _ _ => True) (fun _ => True)); [done|]|done|done].
  intros d0 t0 _. eapply tx_conseq; [by apply (submit_tx_placed t0 req id node d0)|done|].
  intros r d (j & (Hj & _) & Hnone & ->). split; [|done]. by apply rtc_once, step_submit; [|auto].
Qed.

Lemma Validate_valid req : Validate req = Ok tt ->
  sj_ConsumerID req <> "" /\ IsValid (sj_WorkloadType req) = true.
Proof.
  unfold Validate. repeat case_bool_decide; try done.
  destruct (IsValid _); [done|]. done.
Qed.

Lemma safe_SubmitJob ctx req : safe (SubmitJob marshalSpec collate o ctx req).
Proof.
  unfold SubmitJob. destruct (Validate req) as [[]|e] eqn:Hv; [|exact (safe_fail (ErrGo e))].
  apply Validate_valid in Hv as [_ Hv]. simpl lift.
  apply safe_bind; [apply safe_ret|intros _]. apply safe_bind; [apply safe_lift|intros _].
  apply safe_bind; [apply safe_reg_read|]. intros [cands|e]; [|safe_code].
  apply safe_bind; [apply safe_requester|intros pctx].
  apply safe_bind; [apply safe_pick_node|intros node].
  apply safe_bind; [apply safe_fresh_uuid|intros id].
  apply safe_bind; [by apply safe_submit_transaction|]. intros [token acct]. safe_code.
Qed.

(** ** Expiry *)

Lemma safe_guarded_update {A} id (guard : Z -> JobRow -> bool) (f : Z -> JobRow -> JobRow)
    (k : Z -> M A) :
  (forall now d j, guard now j = true -> job_step now d j (f now j)) -> (forall n, safe (k n)) ->
  safe (n ← exec (fun now d => update_job id (guard now) (f now) d); k n).
Proof.
  intros Hg Hk. apply safe_bind; [|done]. apply safe_exec. intros now d.
  apply update_job_step. auto.
Qed.

Lemma safe_ExpireConfirmation id : safe (ExpireConfirmation id).
Proof.
  apply safe_guarded_update; [|intros; apply safe_ret]. unfold has_status.
  intros now d j Hg. reflect_bools. by constructor.
Qed.

Lemma safe_ExpireDispatched id : safe (ExpireDispatched id).
Proof.
  apply safe_guarded_update; [|intros; apply safe_ret]. unfold has_status.
  intros now d j Hg. reflect_bools. by constructor.
Qed.

Lemma safe_ExpirePickedUp id : safe (ExpirePickedUp id).
Proof.
  apply safe_guarded_update; [|intros; apply safe_ret]. unfold has_status.
  intros now d j Hg. reflect_bools. by constructor.
Qed.

#[local] Hint Resolve safe_ExpireConfirmation safe_ExpireDispatched safe_ExpirePickedUp : safe.
(** ** Rerouting and rescheduling *)

(** Reading a row pins down its specification for the rest of the run. *)
Lemma triple_read_job {A} id (k : JobRow -> M A) :
  (forall j, triple (job_spec id j) (k j) (fun _ _ => True)) ->
  safe (j ← query_row (fun _ d => jobs d !! id); k j).
Proof.
  intros Hk. apply (triple_bind _ _ _ (fun r s => forall j, r = Ok j -> job_spec id j s)).
  - apply triple_query_row; [done|done|]. intros now d j _ Hj ? [= <-]. by exists j.
  - done.
  - intros j. eapply triple_conseq; [apply (Hk j)| |done]. intros s Hs. by apply Hs.
Qed.

Lemma spec_bind {A B} id j (m : M A) (f : A -> M B) :
  safe m -> (forall a, triple (job_spec id j) (f a) (fun _ _ => True)) ->
  triple (job_spec id j) (m ≫= f) (fun _ _ => True).
Proof.
  intros Hm Hf. eapply triple_bind; [apply safe_frame; [apply stable_job_spec|exact Hm]|done|].
  intros a. apply Hf.
Qed.

Lemma spec_safe {A} id j (m : M A) : safe m -> triple (job_spec id j) m (fun _ _ => True).
Proof. intros Hm. by eapply triple_conseq. Qed.

(** A rebinding UPDATE whose step depends on the specification. *)
Lemma spec_rebind id j node (guard : JobRow -> bool) (f : Z -> JobRow -> JobRow) :
  (forall now d j', same_spec j j' -> guard j' = true -> job_step now d j' (f now j')) ->
  triple (job_spec id j) (stmt (fun now d => rebind_job id node guard (f now) d)) (fun _ _ => True).
Proof.
  intros Hf. apply triple_stmt; [apply stable_job_spec|done|].
  intros now d n d' (j' & Hj' & Hsp) Hr. split; [|done].
  eapply rebind_job_step; [|exact Hr]. intros j1 Hj1 Hg. simpl in Hj'. simplify_eq. auto.
Qed.

Lemma same_spec_print j j' : same_spec j j' ->
  is_print (j_workload_type j') = is_print (j_workload_type j).
Proof. by intros (_ & -> & _). Qed.

Lemma safe_RerouteDeclinedJob id : safe (RerouteDeclinedJob collate o id).
Proof.
  unfold RerouteDeclinedJob. apply triple_read_job. intros j.
  apply spec_bind; [apply safe_query|intros excl]. apply spec_bind; [apply safe_reg_read|].
  intros [cands|e].
  2:{ apply spec_safe, (safe_guarded_update _ (fun _ => has_status declined));
        [|intros; safe_code]. intros now d j' Hg. apply bool_decide_eq_true in Hg. by constructor. }
  apply spec_bind; [apply safe_requester|intros pctx].
  apply spec_bind; [apply safe_pick_node|intros node].
  apply spec_bind; [apply safe_time_Now|intros now].
  apply spec_bind; [apply safe_lift|intros token].
  eapply triple_bind with (R := fun _ _ => True); [|done|].
  - destruct (is_print (j_workload_type j)) eqn:Hp.
    + apply spec_bind; [apply safe_query_row|intros printer].
      apply spec_bind; [apply safe_time_Now|intros now2]. apply spec_rebind.
      intros now' d j' Hs Hg. apply bool_decide_eq_true in Hg.
      constructor; [done|]. by rewrite (same_spec_print _ _ Hs).
    + apply spec_rebind. intros now' d j' Hs Hg. apply bool_decide_eq_true in Hg.
      constructor; [done|]. by rewrite (same_spec_print _ _ Hs).
  - intros n. change (safe (if n =? 1 then (_ ← reg_write (AddInFlight (NodeID node) 1);
      if negb (bool_decide (default "" (j_node_id j) = ""))
      then reg_write (AddInFlight (default "" (j_node_id j)) (-1)) else mret tt) else mret tt)).
    safe_code.
Qed.

Lemma safe_RescheduleStaleJob id old : safe (RescheduleStaleJob o id old).
Proof.
  unfold RescheduleStaleJob. apply triple_read_job. intros j.
  destruct (is_print (j_workload_type j)) eqn:Hp; [apply spec_safe, safe_ret|].
  apply spec_bind; [apply safe_query|intros excl]. apply spec_bind; [apply safe_reg_read|].
  intros [cands|e]; [|apply spec_safe, safe_ret].
  apply spec_bind; [apply safe_requester|intros pctx].
  apply spec_bind; [apply safe_pick_node|intros node].
  apply spec_bind; [apply safe_time_Now|intros now].
  apply spec_bind; [apply safe_lift|intros token].
  eapply triple_bind with (R := fun _ _ => True); [|done|].
  - apply spec_rebind. intros now' d j' Hs Hg. apply andb_prop in Hg as [Hg _].
    apply bool_decide_eq_true in Hg. constructor; [done|]. by rewrite (same_spec_print _ _ Hs).
  - intros n. change (safe (if n =? 1 then (_ ← reg_write (AddInFlight (NodeID node) 1);
      reg_write (AddInFlight old (-1))) else mret tt)). safe_code.
Qed.

#[local] Hint Resolve safe_RerouteDeclinedJob safe_RescheduleStaleJob : safe.

Lemma safe_pass p f : (forall l, safe (f l)) -> safe (pass p f).
Proof. intros Hf. unfold pass, select_jobs. apply safe_bind; [safe_code|]. intros []; [apply Hf|apply safe_ret]. Qed.

Lemma safe_for_each l f : (forall id, safe (f id)) -> safe (for_each l f).
Proof.
  intros Hf. apply safe_forM. intros [id j]. apply safe_bind; [apply safe_try, Hf|].
  intros ?. apply safe_ret.
Qed.

(** One tick of the background loop. *)
Lemma safe_reroute_tick : safe (reroute_tick collate o).
Proof.
  unfold reroute_tick.
  apply safe_bind; [apply safe_pass; intros l; apply safe_for_each; intros id; safe_code|intros _].
  apply safe_bind; [apply safe_pass; intros l; apply safe_for_each; intros id; safe_code|intros _].
  apply safe_bind; [apply safe_pass; intros l; apply safe_forM; intros [id j]; safe_code|intros _].
  apply safe_bind; [apply safe_pass; intros l; apply safe_for_each; intros id; safe_code|intros _].
  apply safe_pass; intros l; apply safe_for_each; intros id; safe_code.
Qed.

End Guarantee.

#[export] Hint Resolve safe_SubmitJob safe_RerouteDeclinedJob safe_RescheduleStaleJob
  safe_ExpireConfirmation safe_ExpireDispatched safe_ExpirePickedUp safe_reroute_tick : safe.
