(* ===== verification/Submission.v ===== *)
(** What [SubmitJob] does: where it places a job, that it is all or nothing when it
    fails, and what it stores when it succeeds. *)
From S2P Require Import Prelude Float64 Workload Sounding Registry Scheduler Database Lifecycle.
From S2P Require Import Effects Encoding Sha256 Token Allowlist Orchestrator Samples OrchestratorProofs.
Import Types Agent Mapping Rungs.
Local Open Scope string_scope.
Local Open Scope list_scope.
Local Open Scope Z_scope.

(** ** Inversion of runs *)

Lemma lift_ok {A} (r : result string A) a w w' : lift r w = (Ok a, w') -> r = Ok a /\ w' = w.
Proof. destruct r; simpl; by intros [= <- <-]. Qed.

(** Turn a successful run into the successful runs of its statements. *)
Ltac run_inv :=
  repeat match goal with
  | H : (_ ≫= _) _ = (Ok _, _) |- _ =>
      let a := fresh "a" in let w := fresh "w" in let H1 := fresh "H" in
      apply bind_ok in H as (a & w & H1 & H)
  | H : lift _ _ = (Ok _, _) |- _ => apply lift_ok in H as [H ->]
  | H : mret _ _ = (Ok _, _) |- _ => injection H as <- <-
  | H : fail _ _ = (Ok _, _) |- _ => discriminate H
  end.

Section Placement.
Context `{MapOrder}.
Context (marshalSpec : JobSpec -> string) (collate : string -> string -> bool).
Context (o : Orchestrator) `{!Placement (o_schedule o)}.

Lemma check_allowlist_inv req : check_allowlist o req = Ok tt ->
  exists al entry, o_allowlist o = Some al /\ Lookup al (sj_ContainerImage req) = Ok entry /\
    MarketplaceToAgent (sj_WorkloadType req) = Ok (ae_Type entry).
Proof.
  unfold check_allowlist, MarketplaceToAgent. destruct (o_allowlist o) as [al|]; [|done].
  destruct (Lookup al _) as [entry|] eqn:Hl; [|done].
  destruct (marketplaceToAgent !! _) as [a|]; [|done]. case_bool_decide; [|done]. subst. eauto.
Qed.

Lemma pick_node_elem cands pctx w node w' :
  pick_node o cands pctx w = (Ok node, w') -> node ∈ cands.
Proof.
  unfold pick_node. intros Hp. run_inv. revert Hp.
  destruct (o_schedule o _ cands SLAStandard pctx) as [[[|n l]|]|] eqn:Hs; try done.
  intros [= <- <-]. apply placement_sound in Hs as [_ Hin]. apply Hin. by constructor.
Qed.

Lemma pick_node_total cands pctx w :
  cands <> [] -> exists node, pick_node o cands pctx w = (Ok node, w) /\ node ∈ cands.
Proof.
  intros Hc. unfold pick_node, time_Now, gets, mbind, M_bind.
  destruct (placement_total (schedule := o_schedule o) (fun _ => w_now w) cands SLAStandard pctx)
    as [l Hl].
  { unfold SLAStandard. destruct cands; [done|]. simpl. lia. }
  rewrite Hl. apply placement_sound in Hl as [Hlen Hin].
  destruct l as [|n l]; [done|]. exists n. split; [done|]. apply Hin. by constructor.
Qed.

(** The transaction's token is the one generated for the job and the node. *)
Lemma in_tx_ok {A} (m : M A) w a w' :
  transaction m w = (Ok a, w') -> exists w0 w1, m w0 = (Ok a, w1).
Proof.
  unfold transaction. intros Ht. apply bind_ok in Ht as (x & w1 & _ & Ht).
  destruct x; try done. unfold in_tx in Ht.
  destruct (m (w1 <| w_tx := Some (w_now w1) |>)) as [[a'|e] w2] eqn:Hm; [|done].
  destruct (next_event w2) as [[[]|] w3]; simplify_eq. eauto.
Qed.

Lemma submit_tx_token req id node w token acct w' :
  submit_tx marshalSpec collate o req id node w = (Ok (token, acct), w') ->
  exists t, GenerateJobToken HMAC t id (NodeID node) jobTokenTTL (o_tokenSecret o) = Ok token.
Proof. unfold submit_tx. intros Hs. run_inv. eauto. Qed.

End Placement.

(** C3 Placement is sound in every environment: when [SubmitJob] succeeds, the
    image was on the allowlist under the agent category of the requested
    workload, the chosen node was registered when the candidates were read and
    eligible for the request (so online, in the required country, large enough,
    not opted out and not owned by the requester), and the returned token was
    generated for exactly that job and node. *)
Theorem SubmitJob_placement `{MapOrder} marshalSpec collate o `{!Placement (o_schedule o)}
    ctx req w resp w' :
  SubmitJob marshalSpec collate o ctx req w = (Ok resp, w') ->
  (exists al entry, o_allowlist o = Some al /\ Lookup al (sj_ContainerImage req) = Ok entry /\
     MarketplaceToAgent (sj_WorkloadType req) = Ok (ae_Type entry)) /\
  (exists id node, w_reg (next_event w).2 !! id = Some node /\ NodeID node = sr_NodeID resp /\
     eligible (match_request req) node /\ ParticipantID node <> sj_ConsumerID req) /\
  (exists t, GenerateJobToken HMAC t (sr_JobID resp) (sr_NodeID resp) jobTokenTTL (o_tokenSecret o)
     = Ok (sr_JobToken resp)).
Proof.
  unfold SubmitJob. intros Hs. run_inv.
  match goal with H : Validate req = Ok ?u |- _ => destruct u; apply Validate_valid in H as [Hc _] end.
  match goal with H : check_allowlist o req = Ok ?u |- _ =>
    destruct u; pose proof (check_allowlist_inv _ _ H) as Hal end.
  match goal with H : reg_read _ w = _ |- _ => unfold reg_read in H; run_inv end.
  match goal with H : gets _ _ = _ |- _ => injection H as <- <- end.
  destruct (FindMatch _ _) as [cands|e] eqn:Hf; [|by run_inv]. run_inv.
  match goal with H : pick_node _ _ _ _ = _ |- _ => apply pick_node_elem in H as Hn; [|done] end.
  apply (FindMatch_elem _ _ _ _ Hf) in Hn as [Hm [id Hid]].
  rewrite node_matches_eligible in Hm. case_match. run_inv. simpl.
  match goal with H : transaction _ _ = _ |- _ =>
    apply in_tx_ok in H as (? & ? & H); apply submit_tx_token in H end.
  split; [done|]. split; [|done]. eexists id, _.
  match goal with H : next_event w = (_, ?w1) |- _ => rewrite H end.
  split_and!; try done. destruct Hm as (_ & Ho & _). by apply Ho.
Qed.

Definition no_response : SubmitJobResponse := mkSubmitResponse "" "" "" "".

Lemma SubmitJob_placement_witness :
  let run := SubmitJob (H := default_order) sample_marshal String.ltb sample_orchestrator None
    sample_request sample_world in
  let resp := result_of no_response run in
  sr_NodeID resp = "n1" /\
  exists id node, w_reg (next_event sample_world).2 !! id = Some node /\
    NodeID node = sr_NodeID resp /\ eligible (match_request sample_request) node /\
    ParticipantID node <> sj_ConsumerID sample_request.
Proof.
  intros run resp. split; [by vm_compute|].
  assert (Hrun : run = (Ok resp, run.2)) by (apply run_ok; by vm_compute).
  apply (SubmitJob_placement (H := default_order) _ _ _ _ _ _ _ _ Hrun).
Defined.

(** ** A failed submission leaves no trace *)

(** Nobody else writes while the code runs; statements may fail in any way. *)
Definition undisturbed (w : World) : Prop :=
  Forall (fun e => forall now d, ev_db e now d = d) (w_events w) /\ w_tx w = None.

(** Some statement ahead takes effect without the process learning of it. *)
Definition lost_reply (w : World) : Prop := Exists (fun e => ev_fault e = LostAfter) (w_events w).

Lemma lost_reply_suffix w w' :
  w_events w' `suffix_of` w_events w -> lost_reply w' -> lost_reply w.
Proof. unfold lost_reply. intros [k ->] Hl. apply Exists_app. by right. Qed.

(** Code that never changes the database. *)
Definition keeps {A} (m : M A) : Prop := forall w r w',
  undisturbed w -> m w = (r, w') ->
  undisturbed w' /\ w_db w' = w_db w /\ w_events w' `suffix_of` w_events w.

(** Code that fails without a trace, unless the reply to its commit was lost:
    then the whole effect [W] is there. *)
Definition all_or_nothing {A} (W : DB -> DB -> Prop) (m : M A) : Prop := forall w e w',
  undisturbed w -> m w = (Err e, w') ->
  w_db w' = w_db w \/ (e = ErrConn /\ lost_reply w /\ W (w_db w) (w_db w')).

Lemma keeps_next : keeps next_event.
Proof.
  intros w r w' [He Ht]. unfold next_event. rewrite Ht.
  destruct (w_events w) as [|e es] eqn:Hes; intros [= <- <-]; simpl.
  - by split_and!; [split; simpl; rewrite ?Hes|..].
  - apply Forall_cons in He as [Hd He]. split_and!; [by split|apply Hd|by apply suffix_cons_r].
Qed.

Lemma keeps_ret {A} (a : A) : keeps (mret a).
Proof. by intros w r w' Hw [= <- <-]. Qed.

Lemma keeps_fail {A} e : keeps (fail (A := A) e).
Proof. by intros w r w' Hw [= <- <-]. Qed.

Lemma keeps_gets {A} (f : World -> A) : keeps (gets f).
Proof. by intros w r w' Hw [= <- <-]. Qed.

Lemma keeps_fresh_uuid : keeps fresh_uuid.
Proof. by intros w r w' Hw [= <- <-]. Qed.

Lemma keeps_bind {A B} (m : M A) (f : A -> M B) :
  keeps m -> (forall a, keeps (f a)) -> keeps (m ≫= f).
Proof.
  intros Hm Hf w r w' Hw. unfold mbind, M_bind. destruct (m w) as [[a|e] w1] eqn:H1.
  - intros H2. destruct (Hm _ _ _ Hw H1) as (Hw1 & <- & Hs1).
    destruct (Hf a w1 r w' Hw1 H2) as (?&?&?). split_and!; [done..|]. by etrans.
  - intros [= <- <-]. by apply (Hm w (Err e)).
Qed.

Lemma keeps_try {A} (m : M A) : keeps m -> keeps (try m).
Proof.
  intros Hm w r w' Hw. unfold try. destruct (m w) as [r1 w1] eqn:H1. intros [= <- <-].
  by apply (Hm w r1).
Qed.

Lemma keeps_modify (f : World -> World) :
  (forall w, w_db (f w) = w_db w /\ w_events (f w) = w_events w /\ w_tx (f w) = w_tx w) ->
  keeps (modify f).
Proof.
  intros Hf w r w' Hw [= <- <-]. destruct (Hf w) as (-> & He & Ht).
  unfold undisturbed. by rewrite He, Ht.
Qed.

Lemma keeps_query_row {A} (f : Z -> DB -> option A) : keeps (query_row f).
Proof.
  unfold query_row, stmt. apply keeps_bind; [apply keeps_next|]. intros [| |].
  - intros w r w' Hw. unfold run_stmt. destruct (f _ _); by intros [= <- <-].
  - apply keeps_fail.
  - apply keeps_bind; [apply keeps_try|intros ?; apply keeps_fail].
    intros w r w' Hw. unfold run_stmt. destruct (f _ _); by intros [= <- <-].
Qed.

Lemma keeps_all_or_nothing {A} W (m : M A) : keeps m -> all_or_nothing W m.
Proof. intros Hm w e w' Hw H1. destruct (Hm _ _ _ Hw H1) as (_ & -> & _). by left. Qed.

Lemma all_or_nothing_bind {A B} W (m : M A) (f : A -> M B) :
  keeps m -> (forall a, all_or_nothing W (f a)) -> all_or_nothing W (m ≫= f).
Proof.
  intros Hm Hf w e w' Hw. unfold mbind, M_bind. destruct (m w) as [[a|e1] w1] eqn:H1;
    destruct (Hm _ _ _ Hw H1) as (Hw1 & Hd & Hs).
  - intros H2. destruct (Hf a w1 e w' Hw1 H2) as [->|(He & Hl & HW)]; [by left|].
    right. rewrite <- Hd. split_and!; [done| |done]. by eapply lost_reply_suffix.
  - intros [= <- <-]. by left.
Qed.

(** After the commit nothing can fail any more. *)
Lemma all_or_nothing_tail {A B} W (m : M A) (f : A -> M B) :
  all_or_nothing W m -> (forall a w e w', f a w <> (Err e, w')) -> all_or_nothing W (m ≫= f).
Proof.
  intros Hm Hok w e w' Hw. unfold mbind, M_bind. destruct (m w) as [[a|e1] w1] eqn:H1.
  - intros H2. by destruct (Hok a w1 e w').
  - intros [= <- <-]. by apply Hm.
Qed.

(** A transaction that fails is rolled back, or its commit went through. *)
Lemma transaction_all_or_nothing {A} W (m : M A) :
  (forall t d0, tx_triple t (fun d => d = d0) m (fun _ d => W d0 d)) ->
  all_or_nothing W (transaction m).
Proof.
  intros Hm. apply all_or_nothing_bind; [apply keeps_next|].
  intros [| |]; [|apply keeps_all_or_nothing, keeps_fail..].
  intros w e w' Hw. unfold in_tx. destruct (m (w <| w_tx := Some (w_now w) |>)) as [r1 w1] eqn:H1.
  destruct (Hm (w_now w) (w_db w) (w <| w_tx := Some (w_now w) |>) r1 w1)
    as (Hs & Ht & _ & HQ); [done..|].
  destruct r1 as [a|e1]; [|intros [= <- <-]; by left].
  destruct (next_event w1) as [f w2] eqn:H2.
  destruct (next_event_tx _ _ _ _ H2 Ht) as (_ & _ & Hd & _ & x & ->).
  destruct x; intros [= <- <-]; [by left|]. right. simpl. rewrite Hd.
  split_and!; [done| |by eapply HQ]. apply (lost_reply_suffix w w1); [exact Hs|].
  unfold next_event in H2. unfold lost_reply. destruct (w_events w1) as [|ev es]; [done|].
  apply Exists_cons. left. congruence.
Qed.

Ltac keeps_code :=
  repeat first
  [ apply keeps_ret | apply keeps_fail | apply keeps_gets | apply keeps_next | apply keeps_query_row
  | apply keeps_fresh_uuid | apply keeps_try | (apply keeps_modify; done) | apply keeps_bind; [|intros ?]
  | match goal with
    | |- keeps (if ?b then _ else _) => destruct b
    | |- keeps (match ?x with _ => _ end) => destruct x
    end ].

Lemma keeps_lift {A} (r : result string A) : keeps (lift r).
Proof. destruct r; keeps_code. Qed.

Lemma keeps_recordRejection o ctx req : keeps (recordRejection o ctx req).
Proof.
  unfold recordRejection, record. destruct (shapeDims req) as [[? ?] ?].
  apply keeps_bind; [apply keeps_gets|]. intros []; simpl; [|apply keeps_ret].
  destruct (ClassifyRejection _ _ _ _). keeps_code.
Qed.

(** The database after a submission: one row more, which is the whole placement
    of the request under a token generated for the job and the node. *)
Definition submitted_whole marshalSpec o (req : SubmitJobRequest) (d d' : DB) : Prop :=
  exists id node token j, jobs d !! id = None /\ placed_row marshalSpec o req node token j /\
    (exists t, GenerateJobToken HMAC t id node jobTokenTTL (o_tokenSecret o) = Ok token) /\
    d' = d <| jobs := <[id := j]> (jobs d) |>.

Lemma SubmitJob_all_or_nothing `{MapOrder} marshalSpec collate o ctx req :
  all_or_nothing (submitted_whole marshalSpec o req) (SubmitJob marshalSpec collate o ctx req).
Proof.
  unfold SubmitJob, requesterPlacementContext, pick_node, reg_read, time_Now.
  do 2 (apply all_or_nothing_bind; [apply keeps_lift|intros ?]).
  apply all_or_nothing_bind; [keeps_code|]. intros [cands|e0].
  2:{ apply keeps_all_or_nothing, keeps_bind; [apply keeps_recordRejection|intros; apply keeps_fail]. }
  apply all_or_nothing_bind; [keeps_code|intros pctx].
  apply all_or_nothing_bind; [keeps_code|intros node].
  apply all_or_nothing_bind; [keeps_code|intros id].
  apply all_or_nothing_tail.
  - apply transaction_all_or_nothing. intros t d0. eapply tx_conseq; [apply (submit_tx_placed _ _ _ t req id node d0)|done|].
    intros [token acct] d (j & (_ & Hrow & Htok) & Hnone & ->).
    exists id, (NodeID node), token, j. split_and!; [exact Hnone|exact Hrow|exact Htok|reflexivity].
  - intros [token acct] w0 e0 w0'. unfold reg_write, recordPlacement, record, mbind, M_bind.
    unfold next_event. destruct (shapeDims req) as [[? ?] ?]. by destruct (w_events w0).
Qed.

(** C4 A submission is all or nothing: while nobody else writes, a submission that
    fails, whichever step fails (validation, the allowlist, matching, scheduling,
    any database statement or the commit), leaves the database exactly what it
    was, with one exception, in which the error is that of the connection and the
    reply to a statement that took effect was lost: then the commit may have gone
    through, and the database has exactly one row more, the whole placement of the
    request under a token generated for that job and node.  A half-placed job (an
    inserted row that was never given its token, status and printer) cannot exist
    after any failure. *)
Theorem SubmitJob_failure_atomic `{MapOrder} marshalSpec collate o ctx req w e w' :
  undisturbed w -> SubmitJob marshalSpec collate o ctx req w = (Err e, w') ->
  w_db w' = w_db w \/
  (e = ErrConn /\ lost_reply w /\ submitted_whole marshalSpec o req (w_db w) (w_db w')).
Proof. intros Hw Hs. by eapply SubmitJob_all_or_nothing. Qed.

(** A lost statement is rolled back; a lost commit leaves the whole job. *)
Lemma SubmitJob_failure_atomic_witness :
  let lost x := mkEvent (fun _ d => d) (fun r => r) (fun s => s) 1 x in
  let run es := SubmitJob (H := default_order) sample_marshal String.ltb sample_orchestrator None
    sample_request (sample_world_with sample_db es) in
  let before := [quiet; quiet; quiet; quiet; quiet; lost LostBefore] in
  let after := [quiet; quiet; quiet; quiet; quiet; quiet; lost LostAfter] in
  ((run before).1 = Err ErrConn /\ w_db (run before).2 = sample_db) /\
  ((run after).1 = Err ErrConn /\ w_db (run after).2 <> sample_db /\
   submitted_whole sample_marshal sample_orchestrator sample_request sample_db (w_db (run after).2)).
Proof.
  intros lost run before after.
  assert (Hwhole : forall es, undisturbed (sample_world_with sample_db es) ->
    (run es).1 = Err ErrConn -> w_db (run es).2 = sample_db \/
      (lost_reply (sample_world_with sample_db es) /\
       submitted_whole sample_marshal sample_orchestrator sample_request sample_db (w_db (run es).2))).
  { intros es Hes He.
    destruct (SubmitJob_failure_atomic (H := default_order) sample_marshal String.ltb
      sample_orchestrator None sample_request (sample_world_with sample_db es) ErrConn (run es).2 Hes)
      as [?|(_ & ? & ?)]; [|by left|by right].
    rewrite <- He. unfold run. by destruct (SubmitJob _ _ _ _ _ _). }
  assert (Hall : forall es, Forall (fun e => forall now d, ev_db e now d = d) es ->
    undisturbed (sample_world_with sample_db es)) by by split.
  split; [split; [by vm_compute|]|split_and!; [by vm_compute| |]].
  - destruct (Hwhole before) as [?|[Hl _]]; [apply Hall; by repeat constructor|by vm_compute|done|].
    unfold lost_reply in Hl. simpl in Hl.
    by repeat (apply Exists_cons in Hl as [?|Hl]); [..|apply Exists_nil in Hl].
  - intros Hd. apply (f_equal (fun d => map_to_list (jobs d))) in Hd. by vm_compute in Hd.
  - destruct (Hwhole after) as [Hd|[_ ?]]; [apply Hall; by repeat constructor|by vm_compute| |done].
    exfalso. apply (f_equal (fun d => map_to_list (jobs d))) in Hd. by vm_compute in Hd.
Defined.

(** ** A submission that can be placed is placed *)

Lemma requester_calm p w : calm w ->
  exists pctx, requesterPlacementContext p w = (Ok pctx, w).
Proof.
  intros He. unfold requesterPlacementContext. case_bool_decide; [by eexists|].
  unfold mbind, M_bind, try, query_row. rewrite stmt_calm by done. unfold run_stmt.
  destruct (participants (w_db w) !! p); eexists; [|done]. by destruct w.
Qed.

Section Success.
Context `{MapOrder}.
Context (marshalSpec : JobSpec -> string) (collate : string -> string -> bool).
Context (o : Orchestrator) `{!Placement (o_schedule o)}.

(** The registry and the database agree about the nodes a request can get. *)
Definition placeable (req : SubmitJobRequest) (d : DB) (node : NodeEntry) : Prop :=
  NodeID node <> "" /\
  (exists n, nodes d !! NodeID node = Some n /\ is_Some (participants d !! n_participant_id n)) /\
  (is_print (sj_WorkloadType req) && o_printConfirmEnabled o = true ->
     enabled_printers collate d (NodeID node) <> []).

(** What the columns of jobs can hold: INTEGER, TEXT and CHAR(2). *)
Definition storable (req : SubmitJobRequest) : Prop :=
  - 2 ^ 31 <= sj_CPUCores req < 2 ^ 31 /\ - 2 ^ 31 <= sj_RAMMB req < 2 ^ 31 /\
  - 2 ^ 31 <= sj_StorageGB req < 2 ^ 31 /\ pg_text (sj_ContainerImage req) = true /\
  pg_text (sj_CountryConstraint req) = true /\ is_Some (bpchar 2 (sj_CountryConstraint req)).

Lemma storable_fits req node : storable req -> job_fits (new_job req node) = true.
Proof.
  intros (Hc & Hr & Hs & Hi & Ht & Hb). unfold job_fits, int4. simpl.
  rewrite !(proj2 (Z.leb_le _ _)), !(proj2 (Z.ltb_lt _ _)), Hi by lia. simpl.
  case_bool_decide; [done|]. by rewrite Ht, bool_decide_eq_true_2.
Qed.

Lemma submit_tx_calm req id node w :
  calm w -> id <> "" -> jobs (w_db w) !! id = None ->
  is_Some (participants (w_db w) !! sj_ConsumerID req) -> storable req ->
  placeable req (w_db w) node ->
  exists token acct j, placed_row marshalSpec o req (NodeID node) token j /\
    submit_tx marshalSpec collate o req id node w =
      (Ok (token, acct), w <| w_db := (w_db w) <| jobs := <[id := j]> (jobs (w_db w)) |> |>).
Proof.
  intros He Hid Hnone Hcons Hfits (Hn & (n & Hnode & [p Hp]) & Hprint).
  assert (Hg : exists token, GenerateJobToken HMAC (w_now w) id (NodeID node) jobTokenTTL
    (o_tokenSecret o) = Ok token).
  { unfold GenerateJobToken. rewrite !bool_decide_eq_false_2 by done. by eexists. }
  destruct Hg as [token Hg]. unfold submit_tx. set (nj := new_job req (NodeID node)).
  set (d1 := (w_db w) <| jobs := <[id := insert_job_row (w_now w) nj]> (jobs (w_db w)) |>).
  assert (Hins : sql_insert_job id nj w = (Ok tt, w <| w_db := d1 |>)).
  { apply stmt_calm_ok; [done|]. rewrite (storable_fits _ (NodeID node) Hfits : job_fits nj = true). simpl.
    rewrite bool_decide_eq_false_2 by (by rewrite Hnone; apply is_Some_None).
    simpl. rewrite !bool_decide_eq_true_2 by (done || by rewrite Hnode). done. }
  rewrite (bind_eq _ _ _ _ _ Hins).
  rewrite (bind_eq time_Now _ (w <| w_db := d1 |>) (w_now w) (w <| w_db := d1 |>)) by done.
  simpl. rewrite Hg. rewrite (bind_eq _ _ _ token (w <| w_db := d1 |>)) by done.
  unfold is_print_job in *.
  destruct (is_print (sj_WorkloadType req) && o_printConfirmEnabled o) eqn:Hpc.
  - destruct (enabled_printers collate (w_db w) (NodeID node)) as [|pr prs] eqn:Hpr;
      [by destruct (Hprint eq_refl)|].
    eexists token, _, (set_submit_awaiting (w_now w) token pr (canonicalJobSpecHash marshalSpec req)
      (timestamptz (w_now w + o_confirmationWindow o)) (insert_job_row (w_now w) nj)).
    split; [by apply placed_row_awaiting|].
    erewrite bind_eq; last first.
    { erewrite (bind_eq (sql_first_printer collate (NodeID node))); last first.
      { apply query_row_calm; [done|]. unfold d1; simpl.
        change (enabled_printers collate _ _) with (enabled_printers collate (w_db w) (NodeID node)).
        by rewrite Hpr. }
      simpl. apply stmt_calm_ok; [done|]. simpl. unfold update_job, d1; simpl.
      rewrite lookup_insert_eq. done. }
    simpl. erewrite bind_eq; last first.
    { apply query_row_calm; [done|]. simpl. rewrite Hnode; simpl. by rewrite Hp. }
    simpl. unfold mret, M_ret. do 2 f_equal. by rewrite insert_insert_eq.
  - eexists token, _, (set_submit_scheduled token (insert_job_row (w_now w) nj)).
    split; [by apply placed_row_scheduled|].
    erewrite bind_eq; last first.
    { apply stmt_calm_ok; [done|]. simpl. unfold update_job, d1; simpl.
      rewrite lookup_insert_eq. done. }
    simpl. erewrite bind_eq; last first.
    { apply query_row_calm; [done|]. simpl. rewrite Hnode; simpl. by rewrite Hp. }
    simpl. unfold mret, M_ret. do 2 f_equal. by rewrite insert_insert_eq.
Qed.

End Success.

(** C8 A submission that can be placed is placed.  In a run in which no statement
    fails and nobody else acts, with a valid request whose numbers and country the
    columns of jobs can hold, an allowlisted image, at least one eligible node, a
    registry each of whose nodes the database knows with its owner (and with an
    enabled printer for a print job under confirmation), a known consumer and a
    fresh job id, [SubmitJob] returns a placement, stores exactly one new row (the
    request bound to an eligible node, with the returned token, awaiting the
    owner's confirmation for a print job when confirmation is enabled and
    scheduled otherwise), changes no other row, and counts the placement against
    the chosen node. *)
Theorem SubmitJob_succeeds `{MapOrder} marshalSpec collate o `{!Placement (o_schedule o)}
    ctx req w :
  calm w -> w_tx w = None ->
  Validate req = Ok tt -> storable req -> check_allowlist o req = Ok tt ->
  (exists id node, w_reg w !! id = Some node /\ eligible (match_request req) node) ->
  (forall id node, w_reg w !! id = Some node -> placeable collate o req (w_db w) node) ->
  is_Some (participants (w_db w) !! sj_ConsumerID req) ->
  w_uuids w 0%nat <> "" -> jobs (w_db w) !! w_uuids w 0%nat = None ->
  exists resp w' node j,
    SubmitJob marshalSpec collate o ctx req w = (Ok resp, w') /\
    eligible (match_request req) node /\ sr_NodeID resp = NodeID node /\
    placed_row marshalSpec o req (NodeID node) (sr_JobToken resp) j /\
    w_db w' = (w_db w) <| jobs := <[sr_JobID resp := j]> (jobs (w_db w)) |> /\
    jobs (w_db w) !! sr_JobID resp = None /\
    w_reg w' = AddInFlight (NodeID node) 1 (w_reg w).
Proof.
  intros He Htx Hv Hfits Hal (id0 & n0 & Hn0 & Hel0) Hpl Hcons Hid Hnone.
  destruct (FindMatch (match_request req) (w_reg w)) as [cands|e] eqn:Hf.
  2:{ apply node_matches_eligible in Hel0. by rewrite (FindMatch_err _ _ _ Hf _ _ Hn0) in Hel0. }
  destruct (requester_calm (sj_ConsumerID req) w He) as [pctx Hpctx].
  destruct (pick_node_total o cands pctx w (FindMatch_nonempty _ _ _ Hf)) as (node & Hpick & Hin).
  apply (FindMatch_elem _ _ _ _ Hf) in Hin as [Hm [id1 Hid1]]. rewrite node_matches_eligible in Hm.
  set (w1 := w <| w_uuids := fun n => w_uuids w (S n) |>).
  destruct (submit_tx_calm marshalSpec collate o req (w_uuids w 0%nat) node (w1 <| w_tx := Some (w_now w1) |>))
    as (token & acct & j & Hrow & Htxn); [by split; [apply He|]|done..| |].
  { apply (Hpl _ _ Hid1). }
  destruct (shapeDims req) as [[cpu mem] disk] eqn:Hdims.
  eexists (mkSubmitResponse (w_uuids w 0%nat) (NodeID node) token acct), _, node, j.
  split.
  - unfold SubmitJob. rewrite Hv, Hal.
    do 2 (rewrite (bind_eq _ _ w tt w) by done).
    rewrite (bind_eq _ _ w _ w (reg_read_calm _ _ He)), Hf.
    rewrite (bind_eq _ _ _ _ _ Hpctx), (bind_eq _ _ _ _ _ Hpick).
    rewrite (bind_eq fresh_uuid _ w (w_uuids w 0%nat) w1) by done.
    erewrite bind_eq; last first.
    { unfold transaction. rewrite (bind_eq _ _ _ _ _ (next_event_calm w1 He)). unfold in_tx.
      rewrite Htxn. rewrite next_event_calm by (by split; [apply He|]). reflexivity. }
    cbv beta iota. erewrite (bind_eq (reg_write _)); [|by apply reg_write_calm; split; [apply He|]].
    unfold recordPlacement. rewrite Hdims.
    erewrite bind_eq by reflexivity. reflexivity.
  - by split_and!.
Qed.

Lemma SubmitJob_succeeds_witness :
  exists resp w' node j,
    SubmitJob (H := default_order) sample_marshal String.ltb sample_orchestrator None sample_request
      sample_world = (Ok resp, w') /\
    eligible (match_request sample_request) node /\ sr_NodeID resp = NodeID node /\
    placed_row sample_marshal sample_orchestrator sample_request (NodeID node) (sr_JobToken resp) j /\
    w_db w' = sample_db <| jobs := <[sr_JobID resp := j]> (jobs sample_db) |> /\
    jobs sample_db !! sr_JobID resp = None /\
    w_reg w' = AddInFlight (NodeID node) 1 sample_registry.
Proof.
  apply (SubmitJob_succeeds (H := default_order) sample_marshal String.ltb sample_orchestrator None
    sample_request sample_world).
  - done.
  - done.
  - by vm_compute.
  - split_and!; done || by eexists.
  - by vm_compute.
  - exists "n1", sample_entry. split; [by vm_compute|]. apply (proj1 (node_matches_eligible _ _)). by vm_compute.
  - intros id node.
    apply (sample_owner_only (placeable String.ltb sample_orchestrator sample_request sample_db)).
    split; [done|]. split; [|intros Hp; vm_compute in Hp; discriminate Hp].
    exists sample_node_row. split; [by vm_compute|].
    by exists (sample_participant (Some "acct_1") "owner@example.org").
  - by eexists.
  - by vm_compute.
  - by vm_compute.
Defined.
