(* ===== verification/Reroute.v ===== *)
(** Rerouting of declined jobs: what one pass does to a job, and where the
    automatic decline of an unanswered confirmation sends it. *)
From S2P Require Import Prelude Float64 Workload Sounding Registry Scheduler Database Lifecycle.
From S2P Require Import Effects Encoding Sha256 Token Allowlist Orchestrator Samples OrchestratorProofs Submission.
Import Types Agent Mapping Rungs.
Local Open Scope string_scope.
Local Open Scope list_scope.
Local Open Scope Z_scope.

(** The nodes that declined a job. *)
Definition declined_by (d : DB) (jobID : string) : list string :=
  snd <$> filter (fun '(j, _) => j = jobID) (elements (job_node_declines d)).

Lemma declined_by_elem d jobID node :
  node ∈ declined_by d jobID <-> (jobID, node) ∈ job_node_declines d.
Proof.
  unfold declined_by. rewrite list_elem_of_fmap. split.
  - intros ([j n] & -> & Hin). apply list_elem_of_filter in Hin as [-> Hin].
    by apply elem_of_elements.
  - intros Hin. exists (jobID, node). split; [done|]. apply list_elem_of_filter.
    split; [done|]. by apply elem_of_elements.
Qed.

Section Reroute.
Context `{MapOrder}.
Context (collate : string -> string -> bool).
Context (o : Orchestrator) `{!Placement (o_schedule o)}.

(** The registered nodes exist in the database, with a printer where needed. *)
Definition rebindable (j : JobRow) (d : DB) (node : NodeEntry) : Prop :=
  NodeID node <> "" /\ is_Some (nodes d !! NodeID node) /\
  (is_print (j_workload_type j) = true -> enabled_printers collate d (NodeID node) <> []).

(** What the pass makes of a declined row. *)
Definition rerouted (now : Z) (d : DB) (id : string) (j : JobRow) (node : NodeEntry) (j' : JobRow) :
    Prop :=
  eligible (job_match_request j (declined_by d id)) node /\
  (id, NodeID node) ∉ job_node_declines d /\
  exists token,
    GenerateJobToken HMAC now id (NodeID node) jobTokenTTL (o_tokenSecret o) = Ok token /\
    if is_print (j_workload_type j)
    then exists printer, j' = set_reroute_print now (NodeID node) token printer
                                (timestamptz (now + o_confirmationWindow o)) j
    else j' = set_reroute_compute now (NodeID node) token j.

Lemma update_declined (f : JobRow -> JobRow) id j d :
  jobs d !! id = Some j -> j_status j = declined ->
  update_job id (has_status declined) f d = (1, d <| jobs := <[id := f j]> (jobs d) |>).
Proof. intros Hj Hs. unfold update_job, has_status. rewrite Hj. by rewrite bool_decide_eq_true_2. Qed.

Lemma rebind_declined (f : JobRow -> JobRow) id j d node :
  jobs d !! id = Some j -> j_status j = declined -> is_Some (nodes d !! node) ->
  rebind_job id node (has_status declined) f d = Ok (1, d <| jobs := <[id := f j]> (jobs d) |>).
Proof.
  intros Hj Hs Hn. unfold rebind_job. erewrite update_declined by done.
  by rewrite (bool_decide_eq_true_2 _ Hn).
Qed.

(** The advisory decrement at the end of either path. *)
Lemma decrement_calm (b : bool) f w : calm w ->
  exists w', (if b then reg_write f else mret tt) w = (Ok tt, w') /\ w_db w' = w_db w.
Proof. intros He. destruct b; eexists; [|done]. by split; [apply reg_write_calm|]. Qed.

(** The rebinding statement of either kind of job. *)
Lemma reroute_update_calm id j node token w :
  calm w -> jobs (w_db w) !! id = Some j -> j_status j = declined ->
  rebindable j (w_db w) node ->
  exists j', (if is_print (j_workload_type j)
    then exists printer, j' = set_reroute_print (w_now w) (NodeID node) token printer
                                (timestamptz (w_now w + o_confirmationWindow o)) j
    else j' = set_reroute_compute (w_now w) (NodeID node) token j) /\
  (if is_print (j_workload_type j) then
     printerID ← sql_first_printer collate (NodeID node);
     now ← time_Now;
     let deadline := timestamptz (now + o_confirmationWindow o) in
     stmt (fun now d => rebind_job id (NodeID node) (has_status declined)
       (set_reroute_print now (NodeID node) token printerID deadline) d)
   else
     stmt (fun now d => rebind_job id (NodeID node) (has_status declined)
       (set_reroute_compute now (NodeID node) token) d)) w =
  (Ok 1, w <| w_db := (w_db w) <| jobs := <[id := j']> (jobs (w_db w)) |> |>).
Proof.
  intros He Hj Hs (_ & Hn & Hpr). destruct (is_print (j_workload_type j)).
  - destruct (enabled_printers collate (w_db w) (NodeID node)) as [|p ps] eqn:Hps;
      [by destruct (Hpr eq_refl)|].
    eexists. split; [by eexists|]. erewrite bind_eq; [|by apply query_row_calm; [done|rewrite Hps]].
    erewrite bind_eq by done. cbv zeta. apply stmt_calm_ok; [done|]. by apply rebind_declined.
  - eexists. split; [done|]. apply stmt_calm_ok; [done|]. by apply rebind_declined.
Qed.

End Reroute.

(** C37 A pass over a declined job always resolves it: with a registry that
    agrees with the database, [RerouteDeclinedJob] either rebinds the job to an
    eligible node that has not declined it (back to the confirmation step for a
    print job, straight to scheduled otherwise) with a token for that node, or,
    when no such node is registered, marks it failed; no other row changes. *)
Theorem RerouteDeclinedJob_resolves `{MapOrder} collate o `{!Placement (o_schedule o)} id j w :
  calm w -> id <> "" -> jobs (w_db w) !! id = Some j -> j_status j = declined ->
  (forall k node, w_reg w !! k = Some node -> rebindable collate j (w_db w) node) ->
  exists w' j', RerouteDeclinedJob collate o id w = (Ok tt, w') /\
    w_db w' = (w_db w) <| jobs := <[id := j']> (jobs (w_db w)) |> /\
    ((exists node, rerouted o (w_now w) (w_db w) id j node j') \/
     (j' = set_reroute_failed (w_now w) j /\ forall k node, w_reg w !! k = Some node ->
        ~ eligible (job_match_request j (declined_by (w_db w) id)) node)).
Proof.
  intros He Hid Hj Hs Hreg. unfold RerouteDeclinedJob.
  erewrite bind_eq; [|by apply query_row_calm].
  erewrite bind_eq; [|by apply query_calm]. fold (declined_by (w_db w) id).
  cbv zeta. erewrite bind_eq; [|by apply reg_read_calm].
  destruct (FindMatch _ (w_reg w)) as [cands|e] eqn:Hf.
  - destruct (requester_calm (default "" (j_participant_id j)) w He) as [pctx Hpctx].
    destruct (pick_node_total o cands pctx w (FindMatch_nonempty _ _ _ Hf)) as (node & Hpick & Hin).
    apply (FindMatch_elem _ _ _ _ Hf) in Hin as [Hm [k Hk]]. rewrite node_matches_eligible in Hm.
    rewrite (bind_eq _ _ _ _ _ Hpctx), (bind_eq _ _ _ _ _ Hpick).
    erewrite (bind_eq time_Now) by done.
    destruct (Hreg _ _ Hk) as (Hne & Hrest).
    assert (Hg : exists token, GenerateJobToken HMAC (w_now w) id (NodeID node) jobTokenTTL
      (o_tokenSecret o) = Ok token).
    { unfold GenerateJobToken. rewrite !bool_decide_eq_false_2 by done. by eexists. }
    destruct Hg as [token Hg]. rewrite Hg. erewrite (bind_eq (lift _)) by done.
    destruct (reroute_update_calm collate o id j node token w He Hj Hs (Hreg _ _ Hk))
      as (j' & Hj' & Hup).
    rewrite (bind_eq _ _ _ _ _ Hup). change (1 =? 1) with true. cbv beta iota.
    erewrite (bind_eq (reg_write _)); [|by apply reg_write_calm].
    edestruct decrement_calm as (w' & Hw' & Hdb); [|rewrite Hw'; exists w', j']; [done|].
    split; [done|]. split; [exact Hdb|].
    + left. exists node. split; [done|]. split; [|by exists token].
      destruct Hm as [Hx _]. simpl in Hx. by rewrite declined_by_elem in Hx.
  - erewrite bind_eq; last first.
    { apply stmt_calm_ok; [done|]. by rewrite (update_declined _ _ _ _ Hj Hs). }
    change (1 =? 1) with true. cbv beta.
    edestruct (decrement_calm (true && negb (bool_decide (default "" (j_node_id j) = ""))))
      as (w' & Hw' & Hdb); [|rewrite Hw'; eexists w', _]; [done|].
    split; [done|]. split; [exact Hdb|].
    + right. split; [done|]. intros k node Hk. rewrite <- node_matches_eligible.
      by rewrite (FindMatch_err _ _ _ Hf _ _ Hk).
Qed.

(** A print job waiting for the owner of [n1], and a declined compute job. *)
Definition sample_job (wt : MarketplaceWorkloadType) (x : job_status) : JobRow :=
  (insert_job_row sample_now
    (mkNewJob "consumer" "n1" wt (Some "US") 4 0 0 false sample_image))
    <| j_status := x |>.

Definition sample_db_with (j : JobRow) : DB := sample_db <| jobs := {[ "job" := j ]} |>.

Lemma RerouteDeclinedJob_resolves_witness :
  let j := sample_job MarketplaceBatchCompute declined in
  let w := sample_world_with (sample_db_with j) [] in
  exists w' j', RerouteDeclinedJob (H := default_order) String.ltb sample_orchestrator "job" w
      = (Ok tt, w') /\
    w_db w' = (w_db w) <| jobs := <["job" := j']> (jobs (w_db w)) |> /\
    ((exists node, rerouted sample_orchestrator (w_now w) (w_db w) "job" j node j') \/
     (j' = set_reroute_failed (w_now w) j /\ forall k node, w_reg w !! k = Some node ->
        ~ eligible (job_match_request j (declined_by (w_db w) "job")) node)).
Proof.
  intros j w. apply (RerouteDeclinedJob_resolves (H := default_order) String.ltb sample_orchestrator "job" j w).
  - done.
  - done.
  - by vm_compute.
  - done.
  - intros k node.
    apply (sample_owner_only (rebindable String.ltb j (sample_db_with j))).
    split; [done|]. split; [|intros Hp; vm_compute in Hp; discriminate Hp].
    by exists sample_node_row.
Defined.

(** An unanswered confirmation comes back to the same node: when the deadline
    of a job passes, the expiry pass declines it without recording which node
    let it lapse, so the reroute pass of the same tick offers it to that node
    again and the job waits for the same owner with a new deadline. *)
Theorem expired_confirmation_same_node :
  let j := (sample_job MarketplacePrintTraditional awaiting_confirmation)
    <| j_printer_id := Some "p1" |> <| j_confirmation_deadline := Some (sample_now - 1) |> in
  let w := sample_world_with (sample_db_with j) [] in
  let run := reroute_tick (H := default_order) String.ltb sample_orchestrator w in
  run.1 = Ok tt /\ job_node_declines (w_db run.2) = ∅ /\
  exists j', jobs (w_db run.2) !! "job" = Some j' /\
    j_status j' = awaiting_confirmation /\ j_node_id j' = j_node_id j /\
    is_Some (j_declined_at j') /\
    j_confirmation_deadline j' = Some (timestamptz (sample_now + o_confirmationWindow sample_orchestrator)).
Proof.
  intros j w run. split; [by vm_compute|]. split; [by vm_compute|].
  assert (Hj : exists j', jobs (w_db run.2) !! "job" = Some j') by (eexists; vm_compute; reflexivity).
  destruct Hj as [j' Hj]. exists j'. split; [done|].
  vm_compute in Hj. injection Hj as <-. split_and!; first [by vm_compute | by eexists].
Qed.
