(* ===== verification/Dispatch.v ===== *)
(** The shared dispatch logic of internal/store: dispatch.go (polling, completion,
    heartbeats), metering.go, payouts.go, payout_runner.go, uptime.go and nodes.go.

    Durations and prices are [float64] as in the source.  NUMERIC columns keep the
    value they are given: PostgreSQL's rounding to the column's scale is not
    modelled. *)
From S2P Require Import Prelude Float64 Workload Sounding Registry Database Lifecycle Effects.
Import Types.
Local Open Scope string_scope.
Local Open Scope list_scope.
Local Open Scope Z_scope.

(** ** Polling *)

Record DispatchedJob := mkDispatched {
  dj_JobID : string; dj_JobToken : string; dj_Image : string; dj_PrinterID : string;
  dj_WorkloadType : string }.

Definition dispatched_job (id : string) (j : JobRow) : DispatchedJob :=
  mkDispatched id (default "" (j_job_token j)) (default "" (j_container_image j))
    (default "" (j_printer_id j)) (j_workload_type j).

(** The rows of the SELECT. *)
Definition pollable (d : DB) (nodeID : string) (j : JobRow) : bool :=
  bound_to nodeID j && has_status scheduled j && not_self_print d nodeID j.

(** One UPDATE over a set of ids: every listed row under the guard. *)
Definition update_jobs (ids : list string) (guard : JobRow -> bool) (f : JobRow -> JobRow) (d : DB) :
    DB :=
  foldl (fun d id => (update_job id guard f d).2) d ids.

Section Poll.
Context `{MapOrder}.

Definition PollScheduledJobs (nodeID : string) : M (list DispatchedJob) :=
  rows ← query (fun _ d => filter (fun '(_, j) => pollable d nodeID j = true) (map_range (jobs d)));
  let jobs := (fun '(id, j) => dispatched_job id j) <$> rows in
  let jobIDs := rows.*1 in
  match jobIDs with
  | [] => mret jobs
  | _ =>
      _ ← exec (fun now d =>
            (tt, update_jobs jobIDs (fun j => has_status scheduled j && not_self_print d nodeID j)
                   (set_dispatched now) d));
      mret jobs
  end.

End Poll.

(** ** Metering *)

(** [Duration.Hours] *)
Definition Hours (d : Z) : float64 :=
  f64_add (f64_of_Z (Z.quot d Hour)) (f64_div (f64_of_Z (Z.rem d Hour)) (f64_of_Z Hour)).

(** [math.Round]: half away from zero. *)
Definition f64_round (x : float64) : float64 :=
  match x with
  | S754_finite s m e =>
      if 0 <=? e then x
      else let q := (Zpos m + 2 ^ (- e - 1)) / 2 ^ (- e) in
           binary_normalize 53 1024 (if s then - q else q) 0 s
  | _ => x
  end.

(** [int64(x)]: truncation; out of range (and NaN) gives the minimum, as on
    amd64. *)
Definition f64_to_int64 (x : float64) : Z :=
  match x with
  | S754_zero _ => 0
  | S754_finite s m e =>
      let q := if 0 <=? e then Zpos m * 2 ^ e else Zpos m / 2 ^ (- e) in
      let z := if s then - q else q in
      if (int64_min <=? z) && (z <=? int64_max) then z else int64_min
  | _ => int64_min
  end.

(** [hardware_profile->>'key'] cast to a number: NULL when absent. *)
Definition hw_number (hw : gmap string jval) (key : string) : option Z :=
  match hw !! key with Some (JNum z) => Some z | _ => None end.

Definition default_profile (d : DB) (node : string) : option ProfileRow :=
  head (snd <$> filter (fun '(_, p) => pf_node_id p = node /\ pf_is_default p = true)
          (map_to_list (resource_profiles d))).

Record MeteringInput := mkMeteringInput {
  mi_startedAt : Z; mi_completedAt : Z; mi_cpuEnabled : bool; mi_ramPct : Z; mi_storageGB : Z;
  mi_priceMultiplier : float64; mi_cpuCores : option Z; mi_ramMB : option Z }.

(** The joined row of the first query, if there is one. *)
Definition metering_row (d : DB) (jobID : string) : option MeteringInput :=
  j ← jobs d !! jobID;
  nid ← j_node_id j;
  n ← nodes d !! nid;
  s ← j_started_at j;
  c ← j_completed_at j;
  let p := default_profile d nid in
  Some (mkMeteringInput s c
    (from_option pf_cpu_enabled true p) (from_option pf_ram_pct 100 p)
    (from_option pf_storage_gb 0 p) (from_option pf_price_multiplier f64_one p)
    (hw_number (n_hardware_profile n) "CPUCores") (hw_number (n_hardware_profile n) "RAMMB")).

(** The enum order of [resource_type], and the order of the rate query. *)
Definition resource_index (t : string) : Z :=
  if bool_decide (t = "cpu_core_hr") then 0 else if bool_decide (t = "ram_gb_hr") then 1
  else if bool_decide (t = "gpu_vram_gb_hr") then 2 else if bool_decide (t = "storage_gb_mo") then 3
  else 4.
Definition rate_less (a b : PricingRow) : bool :=
  (resource_index (rp_type a) <? resource_index (rp_type b)) ||
  ((resource_index (rp_type a) =? resource_index (rp_type b)) &&
   (rp_effective_from b <? rp_effective_from a)).

Definition in_effect (now : Z) (r : PricingRow) : bool :=
  match rp_effective_until r with None => true | Some t => now <? t end.

Definition current_rates (now : Z) (d : DB) : list PricingRow :=
  isort _ rate_less (filter (fun r => in_effect now r = true) (resource_pricing d)).

(** The first row of each type wins; the share is the cpu row's. *)
Definition collect_rates (rows : list PricingRow) : gmap string float64 * float64 :=
  foldl (fun '(rates, share) r =>
    match rates !! rp_type r with
    | Some _ => (rates, share)
    | None => (<[rp_type r := rp_base_rate r]> rates,
               if bool_decide (rp_type r = "cpu_core_hr") then rp_contributor_share r else share)
    end) (∅, f64_lit 65 100) rows.

Definition rate (rates : gmap string float64) (t : string) : float64 := default f64_zero (rates !! t).

Definition metering_amounts (mi : MeteringInput) (cpuCores ramMB : Z) (rows : list PricingRow) :
    MeteringRow :=
  let durationHours := Hours (time_sub (mi_completedAt mi) (mi_startedAt mi)) in
  let cpuCoreHours := if mi_cpuEnabled mi then f64_mul (f64_of_Z cpuCores) durationHours
                      else f64_zero in
  let ramGBHours := f64_mul (f64_div (f64_mul (f64_div (f64_of_Z ramMB) (f64_of_Z 1024))
    (f64_of_Z (mi_ramPct mi))) (f64_of_Z 100)) durationHours in
  let storageGBMonths := f64_mul (f64_div (f64_of_Z (mi_storageGB mi)) (f64_of_Z 730)) durationHours in
  let '(rates, share) := collect_rates rows in
  let totalCost := f64_mul (f64_add (f64_add (f64_mul cpuCoreHours (rate rates "cpu_core_hr"))
    (f64_mul ramGBHours (rate rates "ram_gb_hr")))
    (f64_mul storageGBMonths (rate rates "storage_gb_mo"))) (mi_priceMultiplier mi) in
  let consumerPaidCents := f64_to_int64 (f64_round (f64_mul totalCost (f64_of_Z 100))) in
  let contributorEarnedCents :=
    f64_to_int64 (f64_round (f64_mul (f64_of_Z consumerPaidCents) share)) in
  let platformFeeCents := to_int64 (consumerPaidCents - contributorEarnedCents) in
  mkMetering cpuCoreHours ramGBHours storageGBMonths consumerPaidCents contributorEarnedCents
    platformFeeCents None.

(** INSERT ... ON CONFLICT (job_id) DO NOTHING, under the foreign key. *)
Definition sql_insert_metering (jobID : string) (m : MeteringRow) : M unit := stmt (fun _ d =>
  if negb (bool_decide (is_Some (jobs d !! jobID))) then Err ErrForeignKey
  else match job_metering d !! jobID with
  | Some _ => Ok (tt, d)
  | None => Ok (tt, d <| job_metering := <[jobID := m]> (job_metering d) |>)
  end).

(** A NULL cannot be scanned into an [int]. *)
Definition ComputeMetering (jobID : string) : M unit :=
  r ← try (query_row (fun _ d => metering_row d jobID));
  match r with
  | Err ErrNoRows => mret tt
  | Err e => fail e
  | Ok mi =>
      match mi_cpuCores mi, mi_ramMB mi with
      | Some cpuCores, Some ramMB =>
          rows ← query current_rates;
          sql_insert_metering jobID (metering_amounts mi cpuCores ramMB rows)
      | _, _ => fail (ErrGo "cannot scan NULL")
      end
  end.

(** ** Completion *)

Definition ErrJobNotRunning : Error := ErrGo "store: job is not in running state".

(** The terminal status a report leads to. *)
Definition outcome (exitCode : option Z) (workloadType : string) : job_status :=
  match exitCode with
  | Some 0 => if is_print workloadType then awaiting_pickup else completed
  | _ => failed
  end.

Definition CompleteJob (jobID : string) (exitCode : option Z) (failureCause : string)
    (tmpfsExhausted : bool) : M job_status :=
  j ← query_row (fun _ d => jobs d !! jobID);
  let cause := if bool_decide (failureCause = "") && tmpfsExhausted then "tmpfs_exhausted"
               else failureCause in
  let newStatus := outcome exitCode (j_workload_type j) in
  t ← time_Now;
  let completedAt := if bool_decide (newStatus = completed) || bool_decide (newStatus = failed)
                     then Some (timestamptz t) else None in
  let awaitingPickupAt := if bool_decide (newStatus = awaiting_pickup) then Some (timestamptz t) else None in
  n ← stmt (fun now d =>
        if negb (report_fits exitCode cause) then Err ErrConn
        else Ok (update_job jobID (has_status running)
          (set_complete now exitCode cause newStatus completedAt awaitingPickupAt) d));
  if n =? 0 then fail ErrJobNotRunning
  else
    _ ← (if bool_decide (newStatus = completed) then _ ← try (ComputeMetering jobID); mret tt
         else mret tt);
    mret newStatus.

(** ** Heartbeats, capabilities, uptime *)

Definition RecordNodeHeartbeat (nodeID : string) : M unit :=
  _ ← exec (fun now d => (tt, match nodes d !! nodeID with
        | Some n => d <| nodes := <[nodeID := n <| n_last_heartbeat_at := Some now |>
                                              <| n_updated_at := now |>]> (nodes d) |>
        | None => d end));
  stmt (fun now d => if bool_decide (is_Some (nodes d !! nodeID))
    then Ok (tt, d <| node_heartbeat_events := (nodeID, now) :: node_heartbeat_events d |>)
    else Err ErrForeignKey).

Record NodePlacementRow := mkNodePlacement {
  np_ParticipantID : string; np_CountryCode : string; np_Region : string }.

Definition UpdateNodeCapabilities (nodeID nodeClass : string) (cpuCores ramMB storageGB : Z) :
    M NodePlacementRow :=
  r ← try (stmt (fun now d => match nodes d !! nodeID with
        | None => Err ErrNoRows
        | Some n =>
            let hw := <["cpu_cores" := JNum cpuCores]> (<["ram_mb" := JNum ramMB]>
              (<["storage_gb" := JNum storageGB]> (n_hardware_profile n))) in
            let n' := n <| n_node_class := nodeClass |> <| n_hardware_profile := hw |>
                        <| n_updated_at := now |> in
            Ok (mkNodePlacement (n_participant_id n) (n_country_code n) (default "" (n_region n)),
                d <| nodes := <[nodeID := n']> (nodes d) |>)
        end));
  match r with
  | Ok row => mret row
  | Err ErrNoRows => fail (ErrGo "store: node not found")
  | Err e => fail e
  end.

(** The heartbeats counted and the resulting percentage. *)
Definition recent_heartbeats (now : Z) (nodeID : string) (events : list (string * Z)) : Z :=
  Z.of_nat (length (filter (fun '(n, t) => n = nodeID /\ now - 7 * Day < t) events)).

Definition uptime_pct (count : Z) : float64 :=
  let pct := f64_mul (f64_div (f64_of_Z count) (f64_of_Z 20160)) (f64_of_Z 100) in
  if f64_lt (f64_of_Z 100) pct then f64_of_Z 100 else pct.

Definition scoreUptime `{MapOrder} : M unit :=
  ids ← query (fun _ d => (map_range (nodes d)).*1);
  forM ids (fun id =>
    count ← query (fun now d => recent_heartbeats now id (node_heartbeat_events d));
    exec (fun _ d => (tt, match nodes d !! id with
      | Some n => d <| nodes := <[id := n <| n_uptime_pct := uptime_pct count |>]> (nodes d) |>
      | None => d end))).

(** ** Payouts *)

Record PayoutCandidate := mkCandidate {
  pc_JobID : string; pc_StripeAccountID : string; pc_EarnedCents : Z }.

Definition has_active_dispute (d : DB) (jobID : string) : bool :=
  existsb (fun '(_, x) => bool_decide (d_job_id x = jobID) &&
      (bool_decide (d_status x = d_open) || bool_decide (d_status x = d_under_review)))
    (map_to_list (disputes d)).

Definition payout_candidate (now : Z) (d : DB) (jobID : string) (j : JobRow) :
    option PayoutCandidate :=
  nid ← j_node_id j;
  n ← nodes d !! nid;
  p ← participants d !! n_participant_id n;
  m ← job_metering d !! jobID;
  acct ← p_stripe_account_id p;
  if has_status completed j && before (j_completed_at j) (now - 24 * Hour)
     && (0 <? j_amount_cents j) && negb (has_active_dispute d jobID)
     && (0 <? m_contributor_earned_cents m) && bool_decide (m_payout_released_at m = None)
  then Some (mkCandidate jobID acct (m_contributor_earned_cents m)) else None.

Definition eligible_payouts `{MapOrder} (now : Z) (d : DB) : list PayoutCandidate :=
  omap (fun '(id, j) => payout_candidate now d id j) (map_range (jobs d)).

Definition EligiblePayouts `{MapOrder} : M (list PayoutCandidate) := query eligible_payouts.

(** One tick of [RunPayoutReleaser]; [trigger] is the call to Stripe. *)
Definition payout_tick `{MapOrder} (trigger : string -> Z -> string -> M unit) : M unit :=
  r ← try EligiblePayouts;
  match r with
  | Err _ => mret tt
  | Ok candidates => forM candidates (fun c =>
      p ← try (trigger (pc_StripeAccountID c) (pc_EarnedCents c) (pc_JobID c));
      match p with
      | Err _ => mret tt
      | Ok _ =>
          _ ← try (exec (fun now d => (tt, match job_metering d !! pc_JobID c with
                | Some m => d <| job_metering := <[pc_JobID c :=
                    m <| m_payout_released_at := Some now |>]> (job_metering d) |>
                | None => d end)));
          mret tt
      end)
  end.
