(* ===== verification/DispatchProofs.v ===== *)
(** Dispatch, completion, metering and payouts: the guarantee they keep and what
    they compute. *)
From S2P Require Import Prelude Float64 Workload Sounding Registry Scheduler Database Lifecycle.
From S2P Require Import Effects Encoding Sha256 Token Allowlist Orchestrator Samples OrchestratorProofs Submission Reroute Dispatch.
Import Types.
Local Open Scope string_scope.
Local Open Scope list_scope.
Local Open Scope Z_scope.

(** ** The guarantee *)

Lemma update_jobs_step (now : Z) ids (d0 d : DB) guard f :
  (forall d j, guard j = true -> nodes d = nodes d0 -> job_step now d j (f j)) -> nodes d = nodes d0 ->
  rtc step (d, now) (update_jobs ids guard f d, now).
Proof.
  intros Hf. unfold update_jobs. revert d. induction ids as [|id ids IH]; intros d Hd; simpl;
    [apply rtc_refl|].
  etrans; [apply (update_job_step now d id guard f); eauto|].
  apply IH. rewrite <- Hd. unfold update_job. by repeat case_match.
Qed.

Lemma safe_PollScheduledJobs `{MapOrder} node : safe (PollScheduledJobs node).
Proof.
  unfold PollScheduledJobs. apply safe_bind; [apply safe_query|]. intros rows.
  destruct (rows.*1) as [|x ids]; [apply safe_ret|].
  apply safe_bind; [|intros ?; apply safe_ret]. apply safe_exec. intros now d. simpl.
  apply (update_jobs_step now (x :: ids) d); [|done]. intros d' j Hg Hn.
  unfold has_status in Hg. reflect_bools. apply js_dispatch with node; [done|].
  unfold not_self_print. by rewrite Hn.
Qed.

Lemma triple_ComputeMetering id : triple (job_at id completed) (ComputeMetering id) (fun _ _ => True).
Proof.
  assert (Hst : stable (job_at id completed)) by (by apply stable_job_at).
  assert (Hsafe : forall A (m : M A), safe m -> triple (job_at id completed) m (fun _ _ => True)).
  { intros A m Hm. by eapply triple_conseq. }
  eapply triple_bind; [apply (safe_frame _ _ Hst), safe_try, safe_query_row|done|].
  intros r. change (triple (job_at id completed) (match r with
    | Ok mi => match mi_cpuCores mi, mi_ramMB mi with
        | Some cpuCores, Some ramMB => rows ← query current_rates;
            sql_insert_metering id (metering_amounts mi cpuCores ramMB rows)
        | _, _ => fail (ErrGo "cannot scan NULL") end
    | Err ErrNoRows => mret tt
    | Err e => fail e end) (fun _ _ => True)).
  destruct r as [mi|e]; [|destruct e; apply Hsafe; [apply safe_ret|apply safe_fail..]].
  destruct (mi_cpuCores mi) as [c|]; [|apply Hsafe, safe_fail].
  destruct (mi_ramMB mi) as [r|]; [|apply Hsafe, safe_fail].
  eapply triple_bind; [apply (safe_frame _ _ Hst), safe_query|done|]. intros rows.
  apply triple_stmt; [done|done|]. intros now d a d' (j & Hj & Hs). simpl in Hj.
  case_bool_decide; simpl; [|done]. destruct (job_metering d !! id) eqn:Hm; intros [= <- <-];
    (split; [|done]); [apply rtc_refl|].
  apply rtc_once, step_metering with j; auto; unfold metering_amounts;
    destruct (collect_rates rows); done.
Qed.

Lemma outcome_step now d j exitCode cause t :
  j_status j = running -> t <= now ->
  let x := outcome exitCode (j_workload_type j) in
  job_step now d j (set_complete now exitCode cause x
    (if bool_decide (x = completed) || bool_decide (x = failed) then Some t else None)
    (if bool_decide (x = awaiting_pickup) then Some t else None) j).
Proof.
  intros Hs Ht x. unfold x, outcome. destruct exitCode as [[| |]|]; simpl;
    [|by apply js_complete_failed..].
  destruct (is_print (j_workload_type j)) eqn:Hp; simpl;
    [by apply js_complete_print|by apply js_complete].
Qed.

Lemma pair_eq_split {A B} (p : A * B) a b : p = (a, b) -> a = p.1 /\ b = p.2.
Proof. by intros ->. Qed.

Lemma safe_CompleteJob id exitCode cause tmpfs : safe (CompleteJob id exitCode cause tmpfs).
Proof.
  unfold CompleteJob. apply triple_read_job. intros j. cbv zeta.
  set (x := outcome exitCode (j_workload_type j)).
  eapply triple_bind with (R := fun r s => job_spec id j s /\ exists t, r = Ok t /\ t <= s.2);
    [apply triple_time_Now, stable_job_spec|done|]. intros t.
  eapply triple_bind with (R := fun r s => forall n, r = Ok n -> n <> 0 -> job_at id x s).
  - eapply triple_conseq with (P := fun s => job_spec id j s /\ t <= s.2) (Q := fun r s =>
      forall n, r = Ok n -> n <> 0 -> job_at id x s).
    + apply triple_stmt; [apply stable_and; [apply stable_job_spec|apply stable_now]|done|].
      intros now d a d' [(j' & Hj' & Hsp) Ht]. simpl in Hj', Ht.
      destruct (negb _); [done|]. intros [= Hup].
      apply pair_eq_split in Hup as [-> ->].
      assert (Hx : x = outcome exitCode (j_workload_type j')).
      { unfold x. by destruct Hsp as (_ & -> & _). }
      split.
      * apply update_job_step. intros j1 Hj1 Hg. simplify_eq. apply bool_decide_eq_true in Hg.
        rewrite Hx. apply outcome_step; [done|]. pose proof (timestamptz_floor t). lia.
      * split; [|done]. unfold update_job. rewrite Hj'. destruct (has_status running j'); simpl;
          [|by intros ? [= <-]]. intros ? [= <-] _. eexists. split; [simpl; apply lookup_insert_eq|done].
    + intros s [Hj (t' & [= <-] & Ht)]. done.
    + done.
  - done.
  - intros n. destruct (n =? 0) eqn:Hn.
    { eapply triple_conseq; [apply safe_fail|done|done]. }
    apply Z.eqb_neq in Hn.
    eapply triple_bind with (R := fun _ _ => True); [|done|intros ?; apply safe_ret].
    case_bool_decide as Hc; [|eapply triple_conseq; [apply safe_ret|done|done]].
    eapply triple_bind with (R := fun _ _ => True); [|done|intros ?; apply safe_ret].
    apply triple_try. eapply triple_conseq; [apply triple_ComputeMetering| |done].
    intros s Hs. rewrite <- Hc. by apply (Hs n).
Qed.

Lemma step_nodes_insert d now id n n' :
  nodes d !! id = Some n -> n_participant_id n' = n_participant_id n ->
  step (d, now) (d <| nodes := <[id := n']> (nodes d) |>, now).
Proof.
  intros Hn Hp. apply step_nodes. intros i m Hm. rewrite lookup_insert. case_decide; [|eauto].
  subst i. simplify_eq. eauto.
Qed.

Lemma step_heartbeats d now l : step (d, now) (d <| node_heartbeat_events := l |>, now).
Proof.
  apply (step_rest d now (participants d) (node_printers d) (resource_profiles d)
    (node_registration_tokens d) (node_protocol_keys d) l).
Qed.

Lemma safe_RecordNodeHeartbeat id : safe (RecordNodeHeartbeat id).
Proof.
  apply safe_bind.
  - apply safe_exec. intros now d. simpl. destruct (nodes d !! id) eqn:Hn; [|apply rtc_refl].
    by apply rtc_once, (step_nodes_insert _ _ _ n).
  - intros _. apply safe_stmt. intros now d a d'. case_match; [|done]. intros [= <- <-].
    apply rtc_once, step_heartbeats.
Qed.

Lemma safe_UpdateNodeCapabilities id c x y z : safe (UpdateNodeCapabilities id c x y z).
Proof.
  apply safe_bind.
  - apply safe_try, safe_stmt. intros now d a d'. destruct (nodes d !! id) eqn:Hn; [|done].
    intros [= <- <-]. by apply rtc_once, (step_nodes_insert _ _ _ n).
  - intros [r|[]]; safe_code.
Qed.

Lemma safe_scoreUptime `{MapOrder} : safe scoreUptime.
Proof.
  apply safe_bind; [apply safe_query|]. intros ids. apply safe_forM. intros id.
  apply safe_bind; [apply safe_query|]. intros count. apply safe_exec. intros now d. simpl.
  destruct (nodes d !! id) eqn:Hn; [|apply rtc_refl]. by apply rtc_once, (step_nodes_insert _ _ _ n).
Qed.

Lemma safe_payout_tick `{MapOrder} trigger :
  (forall a c k, safe (trigger a c k)) -> safe (payout_tick trigger).
Proof.
  intros Ht. apply safe_bind; [apply safe_try, safe_query|]. intros [cands|]; [|apply safe_ret].
  apply safe_forM. intros c. apply safe_bind; [apply safe_try, Ht|]. intros [?|]; [|apply safe_ret].
  apply safe_bind; [|intros ?; apply safe_ret]. apply safe_try, safe_exec. intros now d. simpl.
  destruct (job_metering d !! pc_JobID c) eqn:Hm; [|apply rtc_refl]. by apply rtc_once, step_payout.
Qed.

#[export] Hint Resolve safe_PollScheduledJobs safe_CompleteJob safe_RecordNodeHeartbeat
  safe_UpdateNodeCapabilities safe_scoreUptime : safe.

(** ** Completion *)

Lemma exec_calm {A} (f : Z -> DB -> A * DB) w a d :
  calm w -> f (w_now w) (w_db w) = (a, d) -> exec f w = (Ok a, w <| w_db := d |>).
Proof. intros He Hf. unfold exec. apply stmt_calm_ok; [done|]. by rewrite Hf. Qed.

(** Metering never touches the jobs. *)
Lemma ComputeMetering_calm id w : calm w ->
  exists r w', ComputeMetering id w = (r, w') /\ jobs (w_db w') = jobs (w_db w) /\
    calm w' /\ w_reg w' = w_reg w.
Proof.
  intros He. unfold ComputeMetering, mbind, M_bind, try, query_row.
  rewrite stmt_calm by done. unfold run_stmt.
  destruct (metering_row (w_db w) id) as [mi|]; [|by eexists _, _].
  destruct (mi_cpuCores mi) as [c|], (mi_ramMB mi) as [r|]; try by eexists _, _.
  rewrite query_calm by done. unfold sql_insert_metering. rewrite stmt_calm by done.
  unfold run_stmt. repeat case_match; simplify_eq; by eexists _, _.
Qed.

Definition stated_cause (failureCause : string) (tmpfsExhausted : bool) : option string :=
  if bool_decide (failureCause = "") then (if tmpfsExhausted then Some "tmpfs_exhausted" else None)
  else Some failureCause.

(** The row [CompleteJob] writes at [now]. *)
Definition completed_row (now : Z) (exitCode : option Z) (cause : string) (tmpfs : bool) (j : JobRow) :
    JobRow :=
  let x := outcome exitCode (j_workload_type j) in
  set_complete now exitCode (if bool_decide (cause = "") && tmpfs then "tmpfs_exhausted" else cause) x
    (if bool_decide (x = completed) || bool_decide (x = failed) then Some (timestamptz now) else None)
    (if bool_decide (x = awaiting_pickup) then Some (timestamptz now) else None) j.

(** The cause the code fills in is TEXT like any other. *)
Lemma report_fits_cause exitCode cause tmpfs :
  report_fits exitCode (if bool_decide (cause = "") && tmpfs then "tmpfs_exhausted" else cause) =
  report_fits exitCode cause.
Proof. case_bool_decide; subst; destruct tmpfs; done. Qed.

Lemma CompleteJob_running id j exitCode cause tmpfs w :
  calm w -> jobs (w_db w) !! id = Some j -> j_status j = running ->
  report_fits exitCode cause = true ->
  exists w', CompleteJob id exitCode cause tmpfs w = (Ok (outcome exitCode (j_workload_type j)), w') /\
    jobs (w_db w') = <[id := completed_row (w_now w) exitCode cause tmpfs j]> (jobs (w_db w)) /\
    calm w' /\ w_reg w' = w_reg w.
Proof.
  intros He Hj Hs Hfit. unfold completed_row, CompleteJob. cbv zeta.
  set (x := outcome exitCode (j_workload_type j)).
  erewrite bind_eq; [|by apply query_row_calm]. cbv zeta. fold x.
  set (j' := set_complete _ _ _ _ _ _ _).
  erewrite (bind_eq time_Now) by done. erewrite bind_eq; last first.
  { apply stmt_calm_ok; [done|]. rewrite report_fits_cause, Hfit. simpl.
    unfold update_job, has_status. rewrite Hj. by rewrite bool_decide_eq_true_2. }
  change (1 =? 0) with false. cbv beta iota.
  fold j'. set (w1 := w <| w_db := (w_db w) <| jobs := <[id := j']> (jobs (w_db w)) |> |>).
  destruct (ComputeMetering_calm id w1 He) as (r & w2 & Hm & Hjobs & He2 & Hr2).
  exists (if bool_decide (x = completed) then w2 else w1). split.
  { case_bool_decide; [|done]. unfold mbind, M_bind, try. by rewrite Hm. }
  split; [case_bool_decide; [by rewrite Hjobs|done]|]. by case_bool_decide.
Qed.

Lemma CompleteJob_refused id j exitCode cause tmpfs w :
  calm w -> jobs (w_db w) !! id = Some j -> j_status j <> running ->
  report_fits exitCode cause = true ->
  CompleteJob id exitCode cause tmpfs w = (Err ErrJobNotRunning, w).
Proof.
  intros He Hj Hs Hfit. unfold CompleteJob. erewrite bind_eq; [|by apply query_row_calm]. cbv zeta.
  erewrite (bind_eq time_Now) by done. erewrite bind_eq; last first.
  { apply stmt_calm_ok; [done|]. rewrite report_fits_cause, Hfit. simpl.
    unfold update_job, has_status. rewrite Hj. by rewrite bool_decide_eq_false_2. }
  simpl. by destruct w.
Qed.

(** A report the columns cannot hold is not stored, whatever the job's status. *)
Lemma CompleteJob_unfit id j exitCode cause tmpfs w :
  calm w -> jobs (w_db w) !! id = Some j -> report_fits exitCode cause = false ->
  CompleteJob id exitCode cause tmpfs w = (Err ErrConn, w).
Proof.
  intros He Hj Hfit. unfold CompleteJob. erewrite bind_eq; [|by apply query_row_calm]. cbv zeta.
  erewrite (bind_eq time_Now) by done. unfold mbind, M_bind. rewrite stmt_calm by done.
  unfold run_stmt. by rewrite report_fits_cause, Hfit.
Qed.

(** C19 Completion does what the report says and only once, in a run in which no
    statement fails and nobody else acts: for a running job [CompleteJob] stores
    failed unless the exit code is present and zero, and then awaiting_pickup for
    a print job and completed otherwise, with the exit code and the stated cause;
    the completion time is set exactly on the terminal outcomes and the pickup
    anchor exactly on awaiting_pickup, each to the microsecond; a job in any other
    status is rejected with [ErrJobNotRunning] and nothing changes; and a report
    whose exit code is no INTEGER or whose cause is no TEXT is answered by the
    error of the statement and nothing changes, so such a job stays running. *)
Theorem CompleteJob_outcome id j exitCode cause tmpfs w :
  calm w -> jobs (w_db w) !! id = Some j ->
  let x := outcome exitCode (j_workload_type j) in
  if negb (report_fits exitCode cause) then
    CompleteJob id exitCode cause tmpfs w = (Err ErrConn, w)
  else if bool_decide (j_status j = running) then
    exists w' j', CompleteJob id exitCode cause tmpfs w = (Ok x, w') /\
      jobs (w_db w') = <[id := j']> (jobs (w_db w)) /\
      same_spec j j' /\ j_node_id j' = j_node_id j /\
      j_status j' = x /\ j_exit_code j' = exitCode /\ j_failure_cause j' = stated_cause cause tmpfs /\
      j_completed_at j' = (if terminal x then Some (timestamptz (w_now w)) else None) /\
      j_awaiting_pickup_at j' =
        (if bool_decide (x = awaiting_pickup) then Some (timestamptz (w_now w)) else None)
  else CompleteJob id exitCode cause tmpfs w = (Err ErrJobNotRunning, w).
Proof.
  intros He Hj x. destruct (report_fits exitCode cause) eqn:Hfit; cbn [negb];
    [|by eapply CompleteJob_unfit].
  case_bool_decide as Hs; [|by eapply CompleteJob_refused].
  destruct (CompleteJob_running id j exitCode cause tmpfs w He Hj Hs Hfit) as (w' & Hrun & Hjobs & _).
  exists w', (completed_row (w_now w) exitCode cause tmpfs j). split; [done|]. split; [done|].
  unfold completed_row. fold x. split_and!; try done.
  - unfold stated_cause; simpl. destruct tmpfs; repeat case_bool_decide; simpl in *; done.
  - unfold x, outcome; simpl. by repeat case_match.
Qed.

Lemma CompleteJob_outcome_witness :
  let j := sample_job MarketplacePrint3D running in
  let w := sample_world_with (sample_db_with j) [] in
  (exists w' j', CompleteJob "job" (Some 0) "" false w = (Ok awaiting_pickup, w') /\
    jobs (w_db w') = <["job" := j']> (jobs (w_db w)) /\
    same_spec j j' /\ j_node_id j' = j_node_id j /\
    j_status j' = awaiting_pickup /\ j_exit_code j' = Some 0 /\ j_failure_cause j' = None /\
    j_completed_at j' = None /\ j_awaiting_pickup_at j' = Some sample_now) /\
  CompleteJob "job" (Some 4294967296) "" false w = (Err ErrConn, w).
Proof.
  intros j w. split.
  - apply (CompleteJob_outcome "job" j (Some 0) "" false w); by vm_compute.
  - apply (CompleteJob_outcome "job" j (Some 4294967296) "" false w); by vm_compute.
Defined.

(** ** Polling *)

Lemma update_jobs_lookup ids guard f d id :
  NoDup ids ->
  jobs (update_jobs ids guard f d) !! id =
    (fun j => if bool_decide (id ∈ ids) && guard j then f j else j) <$> jobs d !! id.
Proof.
  unfold update_jobs. revert d. induction ids as [|x ids IH]; intros d Hnd; cbn [foldl].
  - destruct (jobs d !! id); [|done]. cbn [fmap option_fmap option_map].
    rewrite bool_decide_eq_false_2 by apply not_elem_of_nil. done.
  - apply NoDup_cons in Hnd as [Hx Hnd]. rewrite IH by done.
    assert (Hu : jobs (update_job x guard f d).2 !! id =
      (fun j => if bool_decide (x = id) && guard j then f j else j) <$> jobs d !! id).
    { unfold update_job. destruct (decide (x = id)) as [->|Hne].
      - rewrite bool_decide_eq_true_2 by done. destruct (jobs d !! id) as [j|] eqn:Hj; simpl;
          [|by rewrite Hj]. destruct (guard j); simpl; by rewrite ?lookup_insert_eq, ?Hj.
      - rewrite bool_decide_eq_false_2 by done. simpl. rewrite option_fmap_id.
        destruct (jobs d !! x) as [j|]; [|done]. destruct (guard j); [|done]. simpl.
        by rewrite lookup_insert_ne. }
    rewrite Hu. destruct (jobs d !! id) as [j|]; simpl; [|done]. f_equal.
    destruct (bool_decide_reflect (x = id)) as [->|Hne].
    + rewrite (bool_decide_eq_false_2 (id ∈ ids)) by done. simpl.
      rewrite (bool_decide_eq_true_2 (id ∈ id :: ids)) by constructor. by destruct (guard j).
    + simpl. rewrite (bool_decide_ext (id ∈ x :: ids) (id ∈ ids)); [done|].
      rewrite elem_of_cons. naive_solver.
Qed.

Lemma poll_rows_elem `{MapOrder} d node id j :
  (id, j) ∈ filter (fun '(_, j) => pollable d node j = true) (map_range (jobs d)) <->
  jobs d !! id = Some j /\ pollable d node j = true.
Proof.
  rewrite list_elem_of_filter, map_range_perm, elem_of_map_to_list. naive_solver.
Qed.

Lemma poll_rows_nodup `{MapOrder} d node :
  NoDup (filter (fun '(_, j) => pollable d node j = true) (map_range (jobs d))).*1.
Proof.
  assert (Hnd : NoDup (map_range (jobs d)).*1).
  { rewrite map_range_perm. apply NoDup_fst_map_to_list. }
  induction (map_range (jobs d)) as [|[k x] l IH]; [constructor|].
  simpl in Hnd. apply NoDup_cons in Hnd as [Hk Hl]. rewrite filter_cons. case_decide; [|auto].
  simpl. apply NoDup_cons. split; [|auto]. rewrite list_elem_of_fmap. intros ([k' x'] & -> & Hin).
  apply Hk. apply list_elem_of_filter in Hin as [_ Hin]. apply list_elem_of_fmap. by exists (k', x').
Qed.

(** C18 Polling is exact: [PollScheduledJobs] returns each scheduled job bound to
    the polling node once, except a print job whose consumer owns that node (or
    whose owner is unknown), flips exactly those rows to dispatched and leaves
    every other row as it is. *)
Theorem PollScheduledJobs_exact `{MapOrder} node w :
  calm w ->
  exists js w', PollScheduledJobs node w = (Ok js, w') /\
    NoDup (dj_JobID <$> js) /\
    (forall dj, dj ∈ js <-> exists id j, jobs (w_db w) !! id = Some j /\
       pollable (w_db w) node j = true /\ dj = dispatched_job id j) /\
    (forall id, jobs (w_db w') !! id =
       (fun j => if pollable (w_db w) node j then set_dispatched (w_now w) j else j)
         <$> jobs (w_db w) !! id).
Proof.
  intros He. unfold PollScheduledJobs. erewrite bind_eq; [|by apply query_calm].
  set (rows := filter _ (map_range (jobs (w_db w)))).
  assert (Hrows : forall id j, (id, j) ∈ rows <->
    jobs (w_db w) !! id = Some j /\ pollable (w_db w) node j = true) by apply poll_rows_elem.
  assert (Hnd : NoDup rows.*1) by apply poll_rows_nodup.
  set (js := (fun '(id, j) => dispatched_job id j) <$> rows).
  assert (Hjs : dj_JobID <$> js = rows.*1).
  { unfold js. rewrite <- list_fmap_compose. apply list_fmap_ext. by intros ? [? ?]. }
  set (d' := update_jobs rows.*1
    (fun j => has_status scheduled j && not_self_print (w_db w) node j)
    (set_dispatched (w_now w)) (w_db w)).
  exists js, (w <| w_db := d' |>). split; [|split; [by rewrite Hjs|split]].
  - cbv zeta. unfold d'. destruct (rows.*1) as [|x ids]; [by destruct w|].
    by erewrite bind_eq; [|by apply exec_calm].
  - intros dj. unfold js. rewrite list_elem_of_fmap. split.
    + intros ([id j] & -> & Hin). apply Hrows in Hin. naive_solver.
    + intros (id & j & Hj & Hp & ->). exists (id, j). by rewrite Hrows.
  - intros id. simpl. unfold d'. rewrite update_jobs_lookup by done.
    destruct (jobs (w_db w) !! id) as [j|] eqn:Hj; [|done]. simpl. f_equal.
    assert (Hin : id ∈ rows.*1 <-> pollable (w_db w) node j = true).
    { rewrite list_elem_of_fmap. split.
      - intros ([id' j'] & -> & Hr). apply Hrows in Hr as [Hr ?]. simpl in Hj. by simplify_eq.
      - intros Hp. exists (id, j). by rewrite Hrows. }
    destruct (pollable (w_db w) node j) eqn:Hp.
    + rewrite bool_decide_eq_true_2 by (by apply Hin). unfold pollable in Hp.
      by apply andb_prop in Hp as [[_ ->]%andb_prop ->].
    + by rewrite bool_decide_eq_false_2 by (rewrite Hin; congruence).
Qed.

Lemma PollScheduledJobs_exact_witness :
  let w := sample_world_with (sample_db_with (sample_job MarketplaceCDNEdge scheduled)) [] in
  exists js w', PollScheduledJobs (H := default_order) "n1" w = (Ok js, w') /\
    NoDup (dj_JobID <$> js) /\
    (forall dj, dj ∈ js <-> exists id j, jobs (w_db w) !! id = Some j /\
       pollable (w_db w) "n1" j = true /\ dj = dispatched_job id j) /\
    (forall id, jobs (w_db w') !! id =
       (fun j => if pollable (w_db w) "n1" j then set_dispatched (w_now w) j else j)
         <$> jobs (w_db w) !! id).
Proof. intros w. by apply (PollScheduledJobs_exact (H := default_order) "n1" w). Defined.

(** The rebinding another request may commit between the two statements. *)
Definition rebind_event : Event :=
  mkEvent (fun now d => (update_job "job" (has_status scheduled) (set_reschedule now "n2" "tok") d).2)
    (fun r => r) (fun s => s) 0 Succeeds.

(** The claim is two statements, not one: if the rescheduling pass rebinds a
    job to another node between the SELECT and the UPDATE of
    [PollScheduledJobs], the job is handed to the polling node and flipped to
    dispatched although it now belongs to the other node, which can no longer
    claim it. *)
Theorem poll_not_atomic :
  let j := sample_job MarketplaceBatchCompute scheduled in
  let w := sample_world_with (sample_db_with j) [quiet; rebind_event] in
  let run := PollScheduledJobs (H := default_order) "n1" w in
  jobs (w_db w) !! "job" = Some j /\
  step (w_db w, sample_now) (ev_db rebind_event sample_now (w_db w), sample_now) /\
  (exists dj, run.1 = Ok [dj] /\ dj_JobID dj = "job") /\
  (exists j', jobs (w_db run.2) !! "job" = Some j' /\ j_status j' = dispatched /\
     j_node_id j' = Some "n2").
Proof.
  intros j w run. split; [done|]. split; [|split].
  - change (ev_db rebind_event sample_now (w_db w)) with
      ((w_db w) <| jobs := <["job" := set_reschedule sample_now "n2" "tok" j]> (jobs (w_db w)) |>).
    eapply step_job; [done|]. by apply js_reschedule.
  - eexists. split; by vm_compute.
  - eexists. split; [by vm_compute|]. by vm_compute.
Qed.

(** ** Payouts *)

Lemma eligible_payouts_elem `{MapOrder} now d c :
  c ∈ eligible_payouts now d <->
  exists id j, jobs d !! id = Some j /\ payout_candidate now d id j = Some c.
Proof.
  unfold eligible_payouts. rewrite list_elem_of_omap. split.
  - intros ([id j] & Hin & Hc). rewrite map_range_perm, elem_of_map_to_list in Hin. eauto.
  - intros (id & j & Hj & Hc). exists (id, j). by rewrite map_range_perm, elem_of_map_to_list.
Qed.

Lemma payout_candidate_inv now d id j c :
  payout_candidate now d id j = Some c ->
  pc_JobID c = id /\ j_status j = completed /\ 0 < j_amount_cents j /\
  before (j_completed_at j) (now - 24 * Hour) = true /\ has_active_dispute d id = false /\
  exists m, job_metering d !! id = Some m /\ m_payout_released_at m = None /\
    pc_EarnedCents c = m_contributor_earned_cents m /\ 0 < pc_EarnedCents c.
Proof.
  unfold payout_candidate. intros Hc.
  apply bind_Some in Hc as (nid & _ & Hc). apply bind_Some in Hc as (n & _ & Hc).
  apply bind_Some in Hc as (p & _ & Hc). apply bind_Some in Hc as (m & Hm & Hc).
  apply bind_Some in Hc as (acct & _ & Hc). revert Hc. case_match eqn:Hg; [|done]. intros [= <-].
  unfold has_status in Hg. reflect_bools. simpl. split_and!; auto. exists m. auto.
Qed.

Lemma metering_released_step s s' id m :
  step s s' -> job_metering s.1 !! id = Some m -> is_Some (m_payout_released_at m) ->
  exists m', job_metering s'.1 !! id = Some m' /\ is_Some (m_payout_released_at m').
Proof.
  intros Hst Hm Hr. destruct Hst; simpl in *; eauto.
  - exists m. rewrite lookup_insert_ne; [done|]. congruence.
  - rewrite lookup_insert. case_decide; [|eauto]. eexists. split; [done|]. by eexists.
Qed.

(** A released payout is never released again: a job is a payout candidate
    only while it is completed for a day, undisputed and unreleased, and once
    [payout_released_at] is recorded no later state of the system, whatever
    requests run in between, offers it again. *)
Theorem payout_released_once `{MapOrder} s s' id m now c :
  job_metering s.1 !! id = Some m -> is_Some (m_payout_released_at m) -> rtc step s s' ->
  c ∈ eligible_payouts now s'.1 -> pc_JobID c <> id.
Proof.
  intros Hm Hr Hs Hc Hid. subst id. apply eligible_payouts_elem in Hc as (id' & j & _ & Hc).
  apply payout_candidate_inv in Hc as (<- & _ & _ & _ & _ & m' & Hm' & Hn & _).
  assert (Hrel : exists m2, job_metering s'.1 !! pc_JobID c = Some m2 /\
    is_Some (m_payout_released_at m2)).
  { clear Hm' Hn m'. revert m Hm Hr. induction Hs as [s|s s1 s2 Hst _ IH]; intros m Hm Hr; [eauto|].
    destruct (metering_released_step _ _ _ _ Hst Hm Hr) as (m1 & ? & ?). eauto. }
  destruct Hrel as (m2 & Hm2 & [t Ht]). congruence.
Qed.

Definition sample_metering (released : option Z) : MeteringRow :=
  mkMetering f64_zero f64_zero f64_zero 200 130 70 released.

Definition sample_completed : JobRow :=
  (sample_job MarketplaceBatchCompute completed) <| j_amount_cents := 200 |>
    <| j_started_at := Some 0 |> <| j_completed_at := Some 0 |>.

Definition sample_paid_db (released : option Z) : DB :=
  (sample_db_with sample_completed) <| job_metering := {[ "job" := sample_metering released ]} |>.

Lemma payout_released_once_witness :
  let s := (sample_paid_db (Some 1), sample_now) in
  let other := (sample_paid_db None) <| jobs := {[ "other" := sample_completed ]} |>
                 <| job_metering := {[ "other" := sample_metering None ]} |> in
  (exists c, c ∈ eligible_payouts (H := default_order) sample_now other /\ pc_JobID c <> "job") /\
  (forall c, c ∈ eligible_payouts (H := default_order) sample_now s.1 -> pc_JobID c <> "job").
Proof.
  intros s other. split.
  - exists (mkCandidate "other" "acct_1" 130). split; [|done].
    vm_compute. constructor.
  - intros c Hc.
    apply (payout_released_once (H := default_order) s s "job" (sample_metering (Some 1)) sample_now c);
      [done|by eexists|apply rtc_refl|done].
Defined.

(** No payout is ever eligible: no statement of the program records the amount
    a consumer was charged, so [amount_cents] keeps its default of zero in every
    reachable state and the guard of [EligiblePayouts] rejects every job, however
    long ago it completed and whatever its metering says. *)
Theorem payouts_never_eligible `{MapOrder} d0 t0 s now :
  jobs d0 = ∅ -> job_metering d0 = ∅ -> disputes d0 = ∅ -> rtc step (d0, t0) s ->
  eligible_payouts now s.1 = [].
Proof.
  intros Hj Hm Hd Hs. destruct (eligible_payouts now s.1) as [|c l] eqn:Hl; [done|].
  assert (Hc : c ∈ eligible_payouts now s.1) by (rewrite Hl; constructor).
  apply eligible_payouts_elem in Hc as (id & j & Hjob & Hc).
  apply payout_candidate_inv in Hc as (_ & _ & Hamt & _).
  pose proof (db_inv_steps _ _ Hs (db_inv_empty _ t0 Hj Hm Hd)) as Hinv.
  apply (di_jobs _ Hinv) in Hjob. destruct Hjob. lia.
Qed.

Lemma payouts_never_eligible_witness :
  let j := set_submit_scheduled "tok" (insert_job_row 0
    (mkNewJob "consumer" "n1" MarketplaceBatchCompute None 1 1 1 false sample_image)) in
  let s : state := (sample_db <| jobs := <["job" := j]> (jobs sample_db) |>, 0) in
  eligible_payouts (H := default_order) sample_now s.1 = [].
Proof.
  intros j s. apply (payouts_never_eligible (H := default_order) sample_db 0 s sample_now).
  - reflexivity.
  - reflexivity.
  - reflexivity.
  - apply rtc_once, step_submit; [reflexivity|]. apply sub_scheduled; [lia|by vm_compute].
Defined.

(** ** Uptime *)

(** The uptime score always satisfies the column's CHECK: whatever number of
    heartbeats is counted, the percentage is a number between 0 and 100. *)
Theorem uptime_pct_bounded count :
  0 <= count <= int64_max ->
  let p := uptime_pct count in
  is_nan p = false /\ f64_lt p f64_zero = false /\ f64_lt (f64_of_Z 100) p = false.
Proof.
  intros Hc p.
  assert (Hp : signed_f64 false (f64_mul (f64_div (f64_of_Z count) (f64_of_Z 20160)) (f64_of_Z 100))).
  { apply f64_mul_signed_r; [by vm_compute|].
    apply f64_div_signed; [by vm_compute|]. apply f64_of_Z_signed. lia. }
  unfold p, uptime_pct. destruct (f64_lt (f64_of_Z 100) _) eqn:Hlt; [by vm_compute|].
  split_and!; [by eapply signed_not_nan|by apply signed_false_not_lt_zero|done].
Qed.

Lemma uptime_pct_bounded_witness :
  let p := uptime_pct 10080 in
  is_nan p = false /\ f64_lt p f64_zero = false /\ f64_lt (f64_of_Z 100) p = false.
Proof. apply uptime_pct_bounded. by vm_compute. Defined.

(** ** Metering *)

Lemma metering_row_hw d id j nid n mi :
  jobs d !! id = Some j -> j_node_id j = Some nid -> nodes d !! nid = Some n ->
  metering_row d id = Some mi -> mi_cpuCores mi = hw_number (n_hardware_profile n) "CPUCores".
Proof.
  intros Hj Hnid Hn. unfold metering_row. rewrite Hj; simpl. rewrite Hnid; simpl. rewrite Hn; simpl.
  destruct (j_started_at j), (j_completed_at j); simpl; try done. by intros [= <-].
Qed.

(** No metering row for nodes registered through the API: the metering query
    reads the key [CPUCores], while registration, claiming and capability
    listings all store [cpu_cores]; for a node whose profile has no [CPUCores],
    completing a job succeeds but its metering fails on the NULL and is only
    logged, so the job has no metering row and earns nothing. *)
Theorem metering_needs_other_key id j nid n exitCode cause tmpfs w w' :
  calm w -> jobs (w_db w) !! id = Some j -> j_node_id j = Some nid ->
  nodes (w_db w) !! nid = Some n -> n_hardware_profile n !! "CPUCores" = None ->
  CompleteJob id exitCode cause tmpfs w = (Ok completed, w') ->
  job_metering (w_db w') = job_metering (w_db w).
Proof.
  intros He Hj Hnid Hn Hkey. unfold CompleteJob. erewrite bind_eq; [|by apply query_row_calm].
  cbv zeta. erewrite (bind_eq time_Now) by done. intros Hc.
  apply bind_ok in Hc as (k & w1 & Hup & Hc).
  rewrite stmt_calm in Hup by done. unfold run_stmt in Hup.
  destruct (negb _); [done|]. unfold update_job in Hup. rewrite Hj in Hup. destruct (has_status running j); [|by simplify_eq].
  injection Hup as <- <-. change (1 =? 0) with false in Hc. cbv beta iota in Hc.
  apply bind_ok in Hc as (u & w2 & Hm & Hc). injection Hc as Hx <-. rewrite Hx in Hm.
  rewrite bool_decide_eq_true_2 in Hm by done. apply bind_ok in Hm as (r & w3 & Hm & Hr).
  injection Hr as _ <-. unfold try, ComputeMetering, mbind, M_bind, try, query_row in Hm.
  rewrite stmt_calm in Hm by done. unfold run_stmt in Hm. simpl in Hm.
  destruct (metering_row _ id) as [mi|] eqn:Hmi.
  2:{ unfold mret, M_ret in Hm. by simplify_eq. }
  eapply metering_row_hw in Hmi; [|simpl; apply lookup_insert_eq|exact Hnid|exact Hn].
  unfold hw_number in Hmi. rewrite Hkey in Hmi. rewrite Hmi in Hm. unfold fail in Hm. by simplify_eq.
Qed.

Lemma metering_needs_other_key_witness :
  let j := (sample_job MarketplaceBatchCompute running) <| j_started_at := Some 0 |> in
  let w := sample_world_with (sample_db_with j) [] in
  let run := CompleteJob "job" (Some 0) "" false w in
  is_ok run.1 = true /\ job_metering (w_db run.2) = ∅.
Proof.
  intros j w run. split; [by vm_compute|].
  assert (Hrun : run = (Ok completed, run.2)) by (by vm_compute).
  apply (metering_needs_other_key "job" j "n1" sample_node_row (Some 0) "" false w run.2);
    [done|done|done|done|by vm_compute|exact Hrun].
Defined.
