(* ===== verification/Http.v ===== *)
(** HTTP handlers: code that runs in the monad of Database.v and ends in a
    response, either a value encoded as JSON with status 200 or an error status.

    [H A] adds the early returns of Go handlers to [M]: [reject code] is
    [writeError(w, code, ...); return].  Request bodies arrive decoded; what is
    checked of the identity layer is the context value a middleware stored. *)
From S2P Require Import Prelude Float64 Workload Sounding Registry Database Lifecycle Effects.
Local Open Scope Z_scope.

(** ** Responses *)

Definition StatusBadRequest : Z := 400.
Definition StatusUnauthorized : Z := 401.
Definition StatusForbidden : Z := 403.
Definition StatusNotFound : Z := 404.
Definition StatusConflict : Z := 409.
Definition StatusGone : Z := 410.
Definition StatusUnprocessableEntity : Z := 422.
Definition StatusTooManyRequests : Z := 429.
Definition StatusInternalServerError : Z := 500.
Definition StatusBadGateway : Z := 502.

(** A handler: [Ok a] is the 200 response with body [a], [Err code] an error. *)
Definition H (A : Type) : Type := M (result Z A).

#[export] Instance H_ret : MRet H := fun A a => (fun w => (Ok (Ok a), w)).
#[export] Instance H_bind : MBind H := fun A B f m w =>
  match m w with
  | (Ok (Ok a), w') => f a w'
  | (Ok (Err c), w') => (Ok (Err c), w')
  | (Err e, w') => (Err e, w')
  end.

Definition reject {A} (code : Z) : H A := fun w => (Ok (Err code), w).

(** [if cond { writeError(w, code, ...); return }] *)
Definition reject_if (cond : bool) (code : Z) : H unit := if cond then reject code else mret tt.

(** [if err != nil { writeError(w, code(err), ...); return }] *)
Definition or_reject {A} (code : Error -> Z) (m : M A) : H A := fun w =>
  match m w with
  | (Ok a, w') => (Ok (Ok a), w')
  | (Err e, w') => (Ok (Err (code e)), w')
  end.

Definition or_500 {A} (m : M A) : H A := or_reject (fun _ => StatusInternalServerError) m.

(** A call whose error is logged and ignored. *)
Definition ignoring {A} (m : M A) : H unit := fun w => let '(_, w') := m w in (Ok (Ok tt), w').

(** A call whose error the handler inspects. *)
Definition attempt {A} (m : M A) : H (result Error A) := fun w =>
  let '(r, w') := m w in (Ok (Ok r), w').

(** ** Request bodies *)

(** What [json.NewDecoder(r.Body).Decode] makes of the body. *)
Inductive Body (A : Type) := InvalidJSON | EmptyBody | Decoded (a : A).
Arguments InvalidJSON {A}.
Arguments EmptyBody {A}.
Arguments Decoded {A} a.

Definition decode {A} (b : Body A) : H A :=
  match b with Decoded a => mret a | _ => reject StatusBadRequest end.

(** [err != nil && err != io.EOF]: an empty body leaves the zero value. *)
Definition decode_opt {A} (zero : A) (b : Body A) : H A :=
  match b with Decoded a => mret a | EmptyBody => mret zero | InvalidJSON => reject StatusBadRequest end.

(** ** Identity *)

(** The request context: the path of the verified SPIFFE ID, if any, and the
    operator authenticated by a signed request, if any. *)
Record Ctx := mkCtx { ctx_spiffe : option string; ctx_operator : option string }.

(** The guard every node-bound handler opens with. *)
Definition node_path (nodeID : string) : string := ("/node/" +:+ nodeID)%string.

Definition require_node (ctx : Ctx) (nodeID : string) : H unit :=
  match ctx_spiffe ctx with
  | None => reject StatusUnauthorized
  | Some path => reject_if (negb (bool_decide (path = node_path nodeID))) StatusForbidden
  end.

Definition is_node (ctx : Ctx) (nodeID : string) : bool :=
  bool_decide (ctx_spiffe ctx = Some (node_path nodeID)).

(** ** The guarantee *)

Section safe.
Context {A B : Type}.

Lemma safe_hret (a : A) : safe (mret a : H A).
Proof. exact (safe_ret (Ok a)). Qed.

Lemma safe_hbind (m : H A) (f : A -> H B) :
  safe m -> (forall a, safe (f a)) -> safe (m ≫= f : H B).
Proof.
  intros Hm Hf w r w' He Ht Hp. unfold mbind, H_bind.
  destruct (m w) as [[[a|c]|e] w1] eqn:Hw; destruct (Hm _ _ _ He Ht I Hw) as (He1 & Ht1 & Hs1 & _).
  - intros Hr. destruct (Hf a w1 r w' He1 Ht1 I Hr) as (?&?&?&?). split_and!; auto. by etrans.
  - intros [= <- <-]. auto.
  - intros [= <- <-]. auto.
Qed.

Lemma safe_reject c : safe (reject c : H A).
Proof. exact (safe_ret (Err c)). Qed.

Lemma safe_or_reject code (m : M A) : safe m -> safe (or_reject code m).
Proof.
  intros Hm w r w' He Ht Hp. unfold or_reject.
  destruct (m w) as [[a|e] w1] eqn:Hw; destruct (Hm _ _ _ He Ht I Hw) as (?&?&?&?);
    intros [= <- <-]; auto.
Qed.

Lemma safe_ignoring (m : M A) : safe m -> safe (ignoring m).
Proof.
  intros Hm w r w' He Ht Hp. unfold ignoring.
  destruct (m w) as [r1 w1] eqn:Hw. destruct (Hm _ _ _ He Ht I Hw) as (?&?&?&?).
  intros [= <- <-]. auto.
Qed.

Lemma safe_attempt (m : M A) : safe m -> safe (attempt m).
Proof.
  intros Hm w r w' He Ht Hp. unfold attempt.
  destruct (m w) as [r1 w1] eqn:Hw. destruct (Hm _ _ _ He Ht I Hw) as (?&?&?&?).
  intros [= <- <-]. auto.
Qed.

End safe.

Lemma safe_reject_if b c : safe (reject_if b c).
Proof. destruct b; [apply safe_reject|apply safe_hret]. Qed.

Lemma safe_or_500 {A} (m : M A) : safe m -> safe (or_500 m).
Proof. apply safe_or_reject. Qed.

Lemma safe_decode {A} (b : Body A) : safe (decode b).
Proof. destruct b; [apply safe_reject..|apply safe_hret]. Qed.

Lemma safe_decode_opt {A} zero (b : Body A) : safe (decode_opt zero b).
Proof. destruct b; [apply safe_reject|apply safe_hret..]. Qed.

Lemma safe_require_node ctx n : safe (require_node ctx n).
Proof. unfold require_node. destruct (ctx_spiffe ctx); [apply safe_reject_if|apply safe_reject]. Qed.

#[export] Hint Resolve safe_reject safe_reject_if safe_decode safe_decode_opt safe_require_node
  safe_hret : safe.

(** Decompose a handler into its statements. *)
Ltac safe_handler :=
  repeat lazymatch goal with
  | |- safe (@mbind H _ _ _ _ _) => apply safe_hbind; [|intros ?]
  | |- safe (or_500 _) => apply safe_or_500
  | |- safe (or_reject _ _) => apply safe_or_reject
  | |- safe (ignoring _) => apply safe_ignoring
  | |- safe (attempt _) => apply safe_attempt
  | |- safe (match ?x with _ => _ end) => destruct x
  | |- _ => progress eauto with safe nocore
  end.

(** ** Running handlers *)

Section run.
Context {A B : Type}.

Lemma hbind_ok (m : H A) (f : A -> H B) w a w1 :
  m w = (Ok (Ok a), w1) -> (m ≫= f : H B) w = f a w1.
Proof. intros Hm. unfold mbind, H_bind. by rewrite Hm. Qed.

Lemma hbind_err (m : H A) (f : A -> H B) w c w1 :
  m w = (Ok (Err c), w1) -> (m ≫= f : H B) w = (Ok (Err c), w1).
Proof. intros Hm. unfold mbind, H_bind. by rewrite Hm. Qed.

Lemma or_reject_ok code (m : M A) w a w1 : m w = (Ok a, w1) -> or_reject code m w = (Ok (Ok a), w1).
Proof. intros Hm. unfold or_reject. by rewrite Hm. Qed.

Lemma or_reject_err code (m : M A) w e w1 :
  m w = (Err e, w1) -> or_reject code m w = (Ok (Err (code e)), w1).
Proof. intros Hm. unfold or_reject. by rewrite Hm. Qed.

End run.

Lemma require_node_ok ctx n w : is_node ctx n = true -> require_node ctx n w = (Ok (Ok tt), w).
Proof.
  unfold is_node. intros Hn. apply bool_decide_eq_true in Hn. unfold require_node. rewrite Hn.
  by rewrite bool_decide_eq_true_2.
Qed.

Lemma require_node_no ctx n w : is_node ctx n = false ->
  exists c, require_node ctx n w = (Ok (Err c), w) /\
    c = (if ctx_spiffe ctx then StatusForbidden else StatusUnauthorized).
Proof.
  unfold is_node. intros Hn. apply bool_decide_eq_false in Hn. unfold require_node.
  destruct (ctx_spiffe ctx) as [p|]; [|by eexists].
  rewrite bool_decide_eq_false_2 by congruence. by eexists.
Qed.

(** A response with status 200 went through every statement before it. *)
Lemma hbind_inv {A B} (m : H A) (f : A -> H B) w b w' :
  (m ≫= f : H B) w = (Ok (Ok b), w') -> exists a w1, m w = (Ok (Ok a), w1) /\ f a w1 = (Ok (Ok b), w').
Proof. unfold mbind, H_bind. destruct (m w) as [[[a|c]|e] w1]; [eauto|done..]. Qed.

Lemma or_reject_inv {A} code (m : M A) w a w' : or_reject code m w = (Ok (Ok a), w') -> m w = (Ok a, w').
Proof. unfold or_reject. by destruct (m w) as [[]]; intros [= <- <-]. Qed.

Lemma reject_if_inv b code w u w' : reject_if b code w = (Ok (Ok u), w') -> b = false /\ w' = w.
Proof. destruct b; [done|]. by intros [= <- <-]. Qed.

(** ** Handlers within a relation the environment respects *)

Section preserves.
Context (R : DB -> DB -> Prop) `{!PreOrder R} {A B : Type}.

Lemma preserves_hbind (m : H A) (f : A -> H B) :
  preserves R m -> (forall a, (exists w w1, m w = (Ok (Ok a), w1)) -> preserves R (f a)) ->
  preserves R (m ≫= f : H B).
Proof.
  intros Hm Hf w r w' He. unfold mbind, H_bind.
  destruct (m w) as [[[a|c]|e] w1] eqn:Hw; destruct (Hm _ _ _ He Hw) as [He1 Hle].
  - intros Hr. destruct (Hf a ltac:(eauto) _ _ _ He1 Hr). split; [done|]. by etrans.
  - by intros [= <- <-].
  - by intros [= <- <-].
Qed.

Lemma preserves_or_reject code (m : M A) : preserves R m -> preserves R (or_reject code m).
Proof.
  intros Hm w r w' He. unfold or_reject. destruct (m w) as [[a|e] w1] eqn:Hw;
    destruct (Hm _ _ _ He Hw); by intros [= <- <-].
Qed.

Lemma preserves_attempt (m : M A) : preserves R m -> preserves R (attempt m).
Proof.
  intros Hm w r w' He. unfold attempt. destruct (m w) as [r1 w1] eqn:Hw.
  destruct (Hm _ _ _ He Hw); by intros [= <- <-].
Qed.

Lemma preserves_ignoring (m : M A) : preserves R m -> preserves R (ignoring m).
Proof.
  intros Hm w r w' He. unfold ignoring. destruct (m w) as [r1 w1] eqn:Hw.
  destruct (Hm _ _ _ He Hw); by intros [= <- <-].
Qed.
End preserves.

(** Decompose a handler into its statements. *)
Ltac preserves_handler :=
  lazymatch goal with
  | |- preserves _ (@mbind H _ _ _ _ _) => refine (preserves_hbind _ _ _ _ _); [|intros ? _]
  | |- preserves _ (@mret H _ _ _) => refine (preserves_ret _ _)
  | |- preserves _ (reject _) => refine (preserves_ret _ _)
  | |- preserves _ (reject_if ?b _) => destruct b; refine (preserves_ret _ _)
  | |- preserves _ (decode ?b) => destruct b; refine (preserves_ret _ _)
  | |- preserves _ (or_500 _) => refine (preserves_or_reject _ _ _ _)
  | |- preserves _ (or_reject _ _) => refine (preserves_or_reject _ _ _ _)
  | |- preserves _ (attempt _) => refine (preserves_attempt _ _ _)
  | |- preserves _ (ignoring _) => refine (preserves_ignoring _ _ _)
  | |- _ => preserves_step
  end.
