(* ===== verification/Notify.v ===== *)
(** Outbound mail: internal/notify/notify.go.  The message the SMTP notifier
    renders, and the recording notifier.

    [net/mail]'s address parser and [net/smtp]'s delivery are arguments. *)
From Stdlib Require Import Ascii.
From S2P Require Import Prelude Encoding.
Local Open Scope string_scope.
Local Open Scope list_scope.

(** ** Padded base64 *)

Definition padding (n : nat) : list ascii :=
  match (n mod 4)%nat with 2%nat => ["="; "="]%char | 3%nat => ["="]%char | _ => [] end.

(** [base64.StdEncoding.EncodeToString] *)
Definition StdEncode (s : string) : string :=
  let ds := sextets (bytes_of s) in
  String.string_of_list_ascii ((b64_char std_alphabet <$> ds) ++ padding (length ds)).

(** ** The message *)

Definition CR : ascii := "013".
Definition LF : ascii := "010".
Definition CRLF : string := String.String CR (String.String LF "").

Record Message := mkMessage { msg_To : string; msg_Subject : string; msg_Body : string }.

(** [strings.ReplaceAll(v, c, "")] for a single byte *)
Fixpoint remove_all (c : ascii) (s : string) : string :=
  match s with
  | "" => ""
  | String.String a s' => if Ascii.eqb a c then remove_all c s' else String.String a (remove_all c s')
  end.

Definition stripHeader (v : string) : string := remove_all LF (remove_all CR v).

Definition net_join (host port : string) : string :=
  if bool_decide (port = "") then host else host +:+ ":" +:+ port.

(** The lines of the encoded body: [for len(enc) > 76], each pass taking 76
    bytes off, so [fuel] is never used up when it starts at the length. *)
Fixpoint wrap76 (fuel : nat) (enc : string) : list string :=
  match fuel with
  | O => [enc]
  | S fuel' =>
      if (76 <? String.length enc)%nat
      then String.substring 0 76 enc :: wrap76 fuel' (String.substring 76 (String.length enc - 76) enc)
      else [enc]
  end.

Definition body_lines (body : string) : list string :=
  let enc := StdEncode body in wrap76 (String.length enc) enc.

Definition header_lines (from : string) (msg : Message) : list string :=
  ["From: " +:+ stripHeader from; "To: " +:+ stripHeader (msg_To msg);
   "Subject: " +:+ stripHeader (msg_Subject msg); "MIME-Version: 1.0";
   "Content-Type: text/plain; charset=utf-8"; "Content-Transfer-Encoding: base64"].

(** [b.WriteString(line + "\r\n")] for each line *)
Definition write_lines (ls : list string) : string := foldr (fun l acc => l +:+ CRLF +:+ acc) "" ls.

Definition buildRFC5322 (from : string) (msg : Message) : string :=
  write_lines (header_lines from msg ++ [""] ++ body_lines (msg_Body msg)).

Record SMTPConfig := mkSMTP {
  smtp_Host : string; smtp_Port : string; smtp_From : string; smtp_Username : string; smtp_Password : string }.

Section Send.
Context (ParseAddress : string -> option string).
(** [smtp.SendMail(addr, auth, from, to, payload)]: the error it returns, if any. *)
Context (SendMail : string -> option (string * string) -> string -> list string -> string -> option string).

Definition Send (cfg : SMTPConfig) (msg : Message) : result string unit :=
  let addr := net_join (smtp_Host cfg) (smtp_Port cfg) in
  match ParseAddress (msg_To msg) with
  | None => Err "notify: invalid recipient address"
  | Some parsed =>
      let msg := mkMessage (stripHeader parsed) (msg_Subject msg) (msg_Body msg) in
      let auth := if bool_decide (smtp_Username cfg = "") then None
                  else Some (smtp_Username cfg, smtp_Password cfg) in
      let payload := buildRFC5322 (smtp_From cfg) msg in
      match SendMail addr auth (smtp_From cfg) [msg_To msg] payload with
      | Some _ => Err "notify: smtp send"
      | None => Ok tt
      end
  end.
End Send.

(** ** The recording notifier *)

Definition LogNotifier_Send (msg : Message) (sent : list Message) : result string unit * list Message :=
  (Ok tt, sent ++ [msg]).
Definition Sent (sent : list Message) : list Message := sent.
Definition Last (sent : list Message) : option Message := last sent.

(** ** Encoding and decoding *)

Lemma std_char z : is_sextet z ->
  index_of std_alphabet (b64_char std_alphabet z) = Some z /\
  line_break (b64_char std_alphabet z) = false /\ b64_char std_alphabet z <> "="%char.
Proof.
  unfold is_sextet. intros Hz. assert (Hin : z ∈ seqZ 0 64) by (apply elem_of_seqZ; lia).
  clear Hz. revert z Hin. apply Forall_forall. apply (bool_decide_unpack _). by vm_compute.
Qed.

Lemma mod4_shift n : (S (S (S (S n))) mod 4 = n mod 4)%nat.
Proof. replace (S (S (S (S n)))) with (n + 1 * 4)%nat by lia. apply Nat.Div0.mod_add. Qed.

Lemma padded_length l : ((length (sextets l) + length (padding (length (sextets l)))) mod 4 = 0)%nat.
Proof.
  induction l as [|a|a b|a b c l IH] using triples_ind; [done..|]. cbn [sextets length].
  unfold padding in *. rewrite mod4_shift. cbn [Nat.add]. by rewrite mod4_shift.
Qed.

(** The padding tells how many characters were added. *)
Lemma strip_two cs : strip_padding (cs ++ ["="; "="]%char) = cs.
Proof. unfold strip_padding. rewrite reverse_app. change (reverse (reverse cs) = cs). apply reverse_involutive. Qed.

Lemma strip_one cs : (forall r, reverse cs <> "="%char :: r) -> strip_padding (cs ++ ["="]%char) = cs.
Proof.
  intros Hl. unfold strip_padding. rewrite reverse_app, reverse_singleton.
  rewrite <- (reverse_involutive cs) at 2. destruct (reverse cs) as [|c r]; [done|].
  destruct c as [[] [] [] [] [] [] [] []]; try done. by destruct (Hl r).
Qed.

Lemma strip_none cs : (forall r, reverse cs <> "="%char :: r) -> strip_padding cs = cs.
Proof.
  intros Hl. unfold strip_padding. destruct (reverse cs) as [|c r]; [done|].
  destruct c as [[] [] [] [] [] [] [] []]; try done. by destruct (Hl r).
Qed.

Lemma strip_padded ds : Forall is_sextet ds ->
  strip_padding ((b64_char std_alphabet <$> ds) ++ padding (length ds)) = b64_char std_alphabet <$> ds.
Proof.
  intros Hr.
  assert (Hlast : forall r, reverse (b64_char std_alphabet <$> ds) <> "="%char :: r).
  { intros r He. assert (Hin : "="%char ∈ reverse (b64_char std_alphabet <$> ds)) by (rewrite He; left).
    rewrite elem_of_reverse in Hin. apply list_elem_of_fmap in Hin as (z & Hz & Hin).
    rewrite Forall_forall in Hr. by destruct (std_char z (Hr z Hin)) as (_ & _ & ?). }
  unfold padding. destruct (length ds mod 4)%nat as [|[|[|[|]]]]; rewrite ?app_nil_r;
    auto using strip_two, strip_one, strip_none.
Qed.

Lemma std_chars_plain ds : Forall is_sextet ds ->
  Forall (fun a => line_break a = false) ((b64_char std_alphabet <$> ds) ++ padding (length ds)).
Proof.
  intros Hd. apply Forall_app. split.
  - apply Forall_fmap. eapply Forall_impl; [exact Hd|]. intros z Hz. by destruct (std_char z Hz) as (_ & ? & _).
  - unfold padding. destruct (length ds mod 4)%nat as [|[|[|[|]]]]; repeat constructor.
Qed.

Lemma filter_all {A} (P : A -> Prop) `{forall x, Decision (P x)} l : Forall P l -> filter P l = l.
Proof. induction 1 as [|x l Hx _ IH]; [done|]. by rewrite filter_cons_True, IH. Qed.

Lemma Std_roundtrip s : StdDecode (StdEncode s) = Some s.
Proof.
  unfold StdDecode, StdEncode. rewrite String.list_ascii_of_string_of_list_ascii.
  pose proof (sextets_range _ (bytes_of_range s)) as Hr.
  rewrite filter_all by (by apply std_chars_plain).
  rewrite length_app, length_fmap, padded_length. cbn [Nat.eqb negb].
  rewrite strip_padded by done.
  assert (Hm : mapM (index_of std_alphabet) (b64_char std_alphabet <$> sextets (bytes_of s)) = Some (sextets (bytes_of s))).
  { apply mapM_Some, Forall2_fmap_l, Forall_Forall2_diag. eapply Forall_impl; [exact Hr|].
    intros z Hz. by destruct (std_char z Hz). }
  rewrite Hm. simpl. rewrite unsextets_sextets by apply bytes_of_range. simpl. by rewrite string_of_bytes.
Qed.

(** ** Lines *)

Lemma remove_all_lacks c s : lacks c (remove_all c s) = true.
Proof. induction s as [|a s IH]; [done|]. simpl. destruct (Ascii.eqb a c) eqn:Ha; [done|]. simpl. by rewrite Ha. Qed.

Lemma remove_all_keeps c c' s : lacks c' s = true -> lacks c' (remove_all c s) = true.
Proof.
  induction s as [|a s IH]; [done|]. simpl. intros [Ha Hs]%andb_prop.
  destruct (Ascii.eqb a c); [by apply IH|]. simpl. by rewrite Ha, IH.
Qed.

Definition one_line (s : string) : Prop := lacks CR s = true /\ lacks LF s = true.

Lemma stripHeader_one_line v : one_line (stripHeader v).
Proof. split; [apply remove_all_keeps|]; apply remove_all_lacks. Qed.

Lemma one_line_app s t : one_line s -> one_line t -> one_line (s +:+ t).
Proof. intros [? ?] [? ?]. split; rewrite lacks_app; by apply andb_true_intro. Qed.

(** Lines without breaks are what splitting at line feeds gives back. *)
Lemma split_write_lines ls : Forall one_line ls ->
  Split LF (write_lines ls) = ((fun l => l +:+ String.String CR "") <$> ls) ++ [""].
Proof.
  induction 1 as [|l ls [Hc Hl] _ IH]; [done|]. cbn [write_lines foldr fmap list_fmap app].
  fold (write_lines ls). rewrite <- IH.
  assert (Heq : l +:+ CRLF +:+ write_lines ls = (l +:+ String.String CR "") +:+ String.String LF (write_lines ls)).
  { clear. induction l as [|a l IH]; [done|]. exact (f_equal (String.String a) IH). }
  rewrite Heq. apply Split_app. rewrite lacks_app, Hl. done.
Qed.

(** ** Wrapping *)

Lemma substring_all s : String.substring 0 (String.length s) s = s.
Proof. induction s as [|b s IH]; [done|]. exact (f_equal (String.String b) IH). Qed.

Lemma substring_split s n : (n <= String.length s)%nat ->
  String.substring 0 n s +:+ String.substring n (String.length s - n) s = s.
Proof.
  revert n. induction s as [|a s IH]; intros [|n] Hn; simpl in *; try done; try lia.
  - exact (f_equal (String.String a) (substring_all s)).
  - exact (f_equal (String.String a) (IH n ltac:(lia))).
Qed.

Lemma substring_length s n m : (n + m <= String.length s)%nat -> String.length (String.substring n m s) = m.
Proof.
  revert n m. induction s as [|a s IH]; intros [|n] [|m] Hn; simpl in *; try done; try lia.
  - f_equal. apply (IH 0%nat). lia.
  - apply IH. lia.
  - apply IH. lia.
Qed.

Lemma lacks_substring c s n m : lacks c s = true -> lacks c (String.substring n m s) = true.
Proof.
  revert n m. induction s as [|a s IH]; intros [|n] [|m] Hs; simpl in *; try done; apply andb_prop in Hs as [Ha Hs].
  - rewrite Ha. by apply IH.
  - by apply IH.
  - by apply IH.
Qed.

Lemma wrap76_concat fuel enc : String.concat "" (wrap76 fuel enc) = enc.
Proof.
  revert enc. induction fuel as [|fuel IH]; intros enc; [done|]. cbn [wrap76].
  destruct (Nat.ltb_spec 76 (String.length enc)); [|done].
  transitivity (String.substring 0 76 enc +:+ String.concat "" (wrap76 fuel (String.substring 76 (String.length enc - 76) enc))).
  - destruct fuel; cbn [wrap76]; [done|]. by case_match.
  - rewrite IH. apply substring_split. lia.
Qed.

(** The loop ends with a line of at most 76 bytes, however long the body. *)
Lemma wrap76_short fuel enc : (String.length enc <= fuel)%nat ->
  Forall (fun l => (String.length l <= 76)%nat) (wrap76 fuel enc).
Proof.
  revert enc. induction fuel as [|fuel IH]; intros enc Hf; [by constructor; [lia|]|]. cbn [wrap76].
  destruct (Nat.ltb_spec 76 (String.length enc)) as [Hl|Hl]; [|constructor; [done|constructor]].
  constructor; [rewrite substring_length by lia; lia|]. apply IH. rewrite substring_length by lia. lia.
Qed.

Lemma wrap76_one_line fuel enc : one_line enc -> Forall one_line (wrap76 fuel enc).
Proof.
  revert enc. induction fuel as [|fuel IH]; intros enc [Hc Hl]; [by constructor; [|constructor]|]. cbn [wrap76].
  destruct (76 <? String.length enc)%nat; [|by constructor; [|constructor]].
  constructor; [|apply IH]; split; by apply lacks_substring.
Qed.

Lemma StdEncode_one_line s : one_line (StdEncode s).
Proof.
  pose proof (std_chars_plain _ (sextets_range _ (bytes_of_range s))) as Hp.
  unfold StdEncode. split; apply lacks_list; (eapply Forall_impl; [exact Hp|]); intros a Ha ->; by vm_compute in Ha.
Qed.

(** ** Theorem *)

(** No injection and no loss: whatever sender, recipient, subject and body are put
    into a message, splitting the rendered mail into lines gives exactly the six
    header lines, the empty line and the body; no header line contains a line break,
    no body line is longer than 76 bytes, and the body decodes to what was given. *)
Theorem mail_lines_exact from msg :
  Split LF (buildRFC5322 from msg) =
    ((fun l => l +:+ String.String CR "") <$> (header_lines from msg ++ [""] ++ body_lines (msg_Body msg))) ++ [""] /\
  Forall one_line (header_lines from msg) /\
  Forall (fun l => one_line l /\ (String.length l <= 76)%nat) (body_lines (msg_Body msg)) /\
  StdDecode (String.concat "" (body_lines (msg_Body msg))) = Some (msg_Body msg).
Proof.
  assert (Hh : Forall one_line (header_lines from msg)).
  { unfold header_lines. repeat (apply Forall_cons; split); [apply one_line_app; [done|apply stripHeader_one_line]..|done|done|done|constructor]. }
  assert (Hb : Forall one_line (body_lines (msg_Body msg))) by apply wrap76_one_line, StdEncode_one_line.
  split_and!.
  - apply split_write_lines. apply Forall_app. split; [done|]. by constructor.
  - done.
  - apply Forall_and. split; [done|]. by apply wrap76_short.
  - unfold body_lines. by rewrite wrap76_concat, Std_roundtrip.
Qed.
