(* ===== verification/Session.v ===== *)
(** Member sessions of the portal: the signed session tokens and the middleware
    of internal/portal/middleware.go.

    Ed25519 with the portal's key pair is the pair of functions [Sign] and
    [Verify]. *)
From Stdlib Require Import Ascii.
From S2P Require Import Prelude Float64 Workload Sounding Registry Database Lifecycle Effects.
From S2P Require Import Encoding Sha256 Token Http.
Local Open Scope string_scope.
Local Open Scope list_scope.
Local Open Scope Z_scope.

Definition StatusFound : Z := 302.

Record SessionClaims := mkClaims { sc_UserID : string; sc_Email : string; sc_ExpiresAt : Z }.

#[export] Instance SessionClaims_eq_dec : EqDecision SessionClaims.
Proof. solve_decision. Defined.

(** [strings.SplitN(s, c, 3)] when it yields three parts. *)
Definition SplitN3 (c : ascii) (s : string) : option (string * string * string) :=
  '(x, rest) ← cut c s;
  '(y, z) ← cut c rest;
  Some (x, y, z).

Section Session.
Context (Sign : string -> string) (Verify : string -> string -> bool).

Definition raw_claims (c : SessionClaims) : string :=
  sc_UserID c +:+ "|" +:+ sc_Email c +:+ "|" +:+ FormatInt (sc_ExpiresAt c).

Definition CreateToken (c : SessionClaims) : string :=
  let encoded := RawURLEncode (raw_claims c) in
  encoded +:+ "." +:+ RawURLEncode (Sign encoded).

Definition VerifyToken (now : Z) (token : string) : result string SessionClaims :=
  match cut "." token with
  | None => Err "verify token: malformed"
  | Some (encoded, sigB64) =>
      match RawURLDecode sigB64 with
      | None => Err "verify token: decode signature"
      | Some actualSig =>
          if negb (Verify encoded actualSig) then Err "verify token: invalid signature"
          else match RawURLDecode encoded with
          | None => Err "verify token: decode payload"
          | Some raw =>
              match SplitN3 "|" raw with
              | None => Err "verify token: malformed claims"
              | Some (f0, f1, f2) =>
                  match ParseInt f2 with
                  | None => Err "verify token: parse expiry"
                  | Some expiresAt =>
                      if expiresAt <? Unix now then Err "verify token: expired"
                      else Ok (mkClaims f0 f1 expiresAt)
                  end
              end
          end
      end
  end.

(** The cookie [session_token], if the request has one.  A redirect to the login
    page is the response 302. *)
Definition RequireAuth {A} (cookie : option string) (next : SessionClaims -> H A) : H A :=
  match cookie with
  | None => reject StatusFound
  | Some token =>
      now ← or_500 time_Now;
      match VerifyToken now token with
      | Err _ => reject StatusFound
      | Ok claims => next claims
      end
  end.

(** ** Parsing what was printed *)

Lemma lacks_cut c s : cut c s = None -> lacks c s = true.
Proof.
  induction s as [|a s IH]; simpl; [done|]. destruct (Ascii.eqb a c) eqn:Ha; [done|].
  destruct (cut c s) as [[x y]|]; simpl; [done|]. intros _. rewrite IH by done. done.
Qed.

Lemma append_assoc (s1 s2 s3 : string) : (s1 +:+ s2) +:+ s3 = s1 +:+ (s2 +:+ s3).
Proof. induction s1 as [|a s1 IH]; [done|]. exact (f_equal (String.String a) IH). Qed.

Lemma cons_app a s t : String.String a s +:+ t = String.String a (s +:+ t).
Proof. done. Qed.

(** The three fields of a token that was made from [c]: an address with the
    separator in it shifts the rest of the address into the expiry. *)
Lemma split_raw_claims c : lacks "|" (sc_UserID c) = true ->
  exists f1 f2, SplitN3 "|" (raw_claims c) = Some (sc_UserID c, f1, f2) /\
    if lacks "|" (sc_Email c) then f1 = sc_Email c /\ f2 = FormatInt (sc_ExpiresAt c)
    else lacks "|" f2 = false.
Proof.
  intros Hu. unfold SplitN3, raw_claims. rewrite !sep_app, cut_app by done. simpl.
  destruct (lacks "|" (sc_Email c)) eqn:He.
  - rewrite cut_app by done. simpl. by eexists _, _.
  - destruct (cut "|" (sc_Email c)) as [[x y]|] eqn:Hc.
    + apply cut_Some in Hc as [Heq Hx]. exists x, (y +:+ String.String "|" (FormatInt (sc_ExpiresAt c))).
      rewrite Heq, append_assoc, cons_app, cut_app by done. simpl. split; [done|].
      rewrite lacks_app. simpl. apply andb_false_r.
    + by rewrite lacks_cut in He.
Qed.

(** What verification makes of a token the portal created. *)
Lemma verify_created c now :
  (forall m, Verify m (Sign m) = true) -> lacks "|" (sc_UserID c) = true -> is_int64 (sc_ExpiresAt c) ->
  VerifyToken now (CreateToken c) =
    if negb (lacks "|" (sc_Email c)) then Err "verify token: parse expiry"
    else if sc_ExpiresAt c <? Unix now then Err "verify token: expired" else Ok c.
Proof.
  intros Hsig Hu Hi. unfold VerifyToken, CreateToken. rewrite sep_app, cut_app by apply RawURLEncode_lacks_dot.
  rewrite RawURL_roundtrip, Hsig. simpl. rewrite RawURL_roundtrip.
  destruct (split_raw_claims c Hu) as (f1 & f2 & -> & Hf). destruct (lacks "|" (sc_Email c)); simpl.
  - destruct Hf as [-> ->]. rewrite ParseInt_FormatInt by done. case_match; [done|]. by destruct c.
  - destruct (ParseInt f2) eqn:Hp; [|done]. apply ParseInt_lacks_bar in Hp. congruence.
Qed.
End Session.

(** ** Theorems *)

(** Round trip: a session token the portal made is accepted with exactly
    the claims it was made for until it expires, and not after; an email address
    with the separator in it makes a token that is never accepted (and never
    mistaken for another member or another expiry). *)
Theorem session_token_roundtrip Sign Verify c now :
  (forall m, Verify m (Sign m) = true) -> lacks "|" (sc_UserID c) = true -> is_int64 (sc_ExpiresAt c) ->
  match VerifyToken Verify now (CreateToken Sign c) with
  | Ok c' => c' = c /\ lacks "|" (sc_Email c) = true /\ Unix now <= sc_ExpiresAt c
  | Err _ => lacks "|" (sc_Email c) = false \/ sc_ExpiresAt c < Unix now
  end.
Proof.
  intros Hs Hu Hi. rewrite verify_created by done. destruct (lacks "|" (sc_Email c)); simpl; [|by left].
  destruct (Z.ltb_spec (sc_ExpiresAt c) (Unix now)); [by right|done].
Qed.

Definition sample_claims (email : string) : SessionClaims := mkClaims "u-1" email 1700000900.

Lemma session_token_roundtrip_witness :
  let token email := CreateToken (HMAC "k") (sample_claims email) in
  let verify := VerifyToken (fun m s => bool_decide (s = HMAC "k" m)) (1700000000 * Second) in
  verify (token "a@example.org") = Ok (sample_claims "a@example.org") /\
  verify (token "a|b@example.org") = Err "verify token: parse expiry" /\
  match verify (token "a@example.org") with
  | Ok c' => c' = sample_claims "a@example.org" /\ lacks "|" "a@example.org" = true /\ 1700000000 <= 1700000900
  | Err _ => lacks "|" "a@example.org" = false \/ 1700000900 < 1700000000
  end.
Proof.
  cbv zeta. split; [vm_compute; reflexivity|]. split; [vm_compute; reflexivity|].
  apply (session_token_roundtrip (HMAC "k") (fun m s => bool_decide (s = HMAC "k" m))
    (sample_claims "a@example.org") (1700000000 * Second)).
  - intros m. by apply bool_decide_eq_true_2.
  - reflexivity.
  - split; vm_compute; discriminate.
Defined.

(** Session integrity: as long as nobody but the portal can produce a
    signature that verifies (every message that verifies is one the portal signed
    for claims it issued), the middleware lets a request through only with claims
    that were issued, unaltered and not expired; whatever else is presented, or
    nothing, is redirected to the login page without running the handler. *)
Theorem session_only_issued {A} (issued : list SessionClaims) Verify cookie (next : SessionClaims -> H A) w :
  Forall (fun c => lacks "|" (sc_UserID c) = true /\ is_int64 (sc_ExpiresAt c)) issued ->
  (forall m s, Verify m s = true -> exists c, c ∈ issued /\ m = RawURLEncode (raw_claims c)) ->
  RequireAuth Verify cookie next w = (Ok (Err StatusFound), w) \/
  exists c, c ∈ issued /\ Unix (w_now w) <= sc_ExpiresAt c /\ RequireAuth Verify cookie next w = next c w.
Proof.
  intros Hiss Hforge. unfold RequireAuth. destruct cookie as [token|]; [|by left].
  rewrite (hbind_ok _ _ w (w_now w) w) by done.
  destruct (VerifyToken Verify (w_now w) token) as [c|e] eqn:Hv; [right|by left]. exists c.
  unfold VerifyToken in Hv. destruct (cut "." token) as [[encoded sig64]|]; [|done].
  destruct (RawURLDecode sig64) as [sig|]; [|done]. destruct (Verify encoded sig) eqn:Hsig; [|done].
  destruct (Hforge _ _ Hsig) as (c0 & Hin & ->). simpl in Hv. rewrite RawURL_roundtrip in Hv.
  rewrite Forall_forall in Hiss. destruct (Hiss c0 Hin) as [Hu Hi].
  destruct (split_raw_claims c0 Hu) as (f1 & f2 & Hs & Hf). rewrite Hs in Hv.
  destruct (ParseInt f2) as [e|] eqn:Hp; [|done].
  destruct (Z.ltb_spec e (Unix (w_now w))); [done|]. injection Hv as <-.
  destruct (lacks "|" (sc_Email c0)).
  - destruct Hf as [-> ->]. rewrite ParseInt_FormatInt in Hp by done. injection Hp as <-. by destruct c0.
  - apply ParseInt_lacks_bar in Hp. congruence.
Qed.

Lemma session_only_issued_witness :
  let c := sample_claims "a@example.org" in
  let verify m s := bool_decide (m = RawURLEncode (raw_claims c)) && bool_decide (s = HMAC "k" m) in
  let w := mkWorld empty_db ∅ None (1700000000 * Second) [] (fun _ => "") None in
  let run := RequireAuth verify (Some (CreateToken (HMAC "k") c)) (fun c => mret (sc_UserID c)) w in
  run = (Ok (Ok "u-1"), w) /\
  (run = (Ok (Err StatusFound), w) \/
   exists c', c' ∈ [c] /\ Unix (w_now w) <= sc_ExpiresAt c' /\ run = (Ok (Ok (sc_UserID c')), w)).
Proof.
  cbv zeta. split; [vm_compute; reflexivity|].
  apply (session_only_issued [sample_claims "a@example.org"]).
  - repeat constructor; vm_compute; discriminate.
  - intros m s [Hm _]%andb_prop. apply bool_decide_eq_true in Hm as ->. eexists. split; [|reflexivity]. set_solver.
Defined.
