(* ===== verification/AllowlistTools.v ===== *)
(** The tools behind the allowlist: [Sign] of internal/agent/allowlist.go and the
    commands scripts/allowlist-genkey and scripts/allowlist-sign.

    Ed25519, JSON and the file system's failures are parameters. *)
From Stdlib Require Import Ascii.
From S2P Require Import Prelude Float64 Workload Sounding Registry Database Lifecycle Effects Encoding Sha256 Token.
From S2P Require Import Allowlist Http Notify Session.
Local Open Scope string_scope.
Local Open Scope list_scope.
Local Open Scope Z_scope.

Definition PublicKeySize : nat := 32.
Definition PrivateKeySize : nat := 64.
Definition SignatureSize : nat := 64.

(** ** Generating a key *)

Definition b64_line (s : string) : string := StdEncode s +:+ String.String LF "".

(** A file as [os.Stat] sees it. *)
Inductive Stat := StatFound | StatMissing | StatError.

(** What a write leaves: the text, or an error after some of its bytes; [None] is
    an error that leaves the file as it was. *)
Inductive WriteResult := Written | WriteFailed (left : option nat).

Definition write_file (files : gmap string string) (path text : string) (r : WriteResult) : bool * gmap string string :=
  match r with
  | Written => (true, <[path := text]> files)
  | WriteFailed (Some n) => (false, <[path := String.substring 0 n text]> files)
  | WriteFailed None => (false, files)
  end.

Section Genkey.
(** Files whose status cannot be read. *)
Context (unreadable : string -> bool).

Definition stat (files : gmap string string) (path : string) : Stat :=
  if unreadable path then StatError
  else match files !! path with Some _ => StatFound | None => StatMissing end.

Definition refuseOverwrite (files : gmap string string) (path : string) : bool :=
  match stat files path with StatMissing => false | _ => true end.

(** The exit status and the files; the key pair is that of [GenerateKey]. *)
Definition allowlist_genkey (privPath pubPath : string) (keys : option (string * string)) (w1 w2 : WriteResult)
    (files : gmap string string) : Z * gmap string string :=
  if bool_decide (privPath = "") || bool_decide (pubPath = "") then (2, files)
  else if refuseOverwrite files privPath then (1, files)
  else if refuseOverwrite files pubPath then (1, files)
  else match keys with
  | None => (1, files)
  | Some (pub, priv) =>
      let '(ok, files) := write_file files privPath (b64_line priv) w1 in
      if negb ok then (1, files)
      else
        let '(ok, files) := write_file files pubPath (b64_line pub) w2 in
        if negb ok then (1, files) else (0, files)
  end.

Lemma write_file_other files path text r p x : refuseOverwrite files path = false -> files !! p = Some x ->
  (write_file files path text r).2 !! p = Some x.
Proof.
  unfold refuseOverwrite, stat. intros Hr Hp. assert (path <> p).
  { intros ->. rewrite Hp in Hr. by destruct (unreadable p). }
  destruct r as [|[n|]]; cbn [write_file snd]; [|by rewrite lookup_insert_ne|done]. by rewrite lookup_insert_ne.
Qed.

(** A file that exists survives, whatever fails. *)
Lemma genkey_keeps_files privPath pubPath keys w1 w2 files p x : files !! p = Some x ->
  (allowlist_genkey privPath pubPath keys w1 w2 files).2 !! p = Some x.
Proof.
  intros Hp. unfold allowlist_genkey. destruct (_ || _); [done|].
  destruct (refuseOverwrite files privPath) eqn:H1; [done|]. destruct (refuseOverwrite files pubPath) eqn:H2; [done|].
  destruct keys as [[pub priv]|]; [|done].
  pose proof (write_file_other files privPath (b64_line priv) w1 p x H1 Hp) as Hq.
  destruct (write_file files privPath (b64_line priv) w1) as [ok files1]. cbn [snd] in Hq.
  destruct ok; cbn [negb]; [|done].
  assert (Hne : pubPath <> p).
  { intros ->. unfold refuseOverwrite, stat in H2. rewrite Hp in H2. by destruct (unreadable p). }
  destruct w2 as [|[n|]]; cbn [write_file negb snd]; by rewrite ?lookup_insert_ne.
Qed.
End Genkey.

(** Only files that existed before are protected: one path for both keys keeps the
    public one. *)
Example one_path_loses_the_key :
  let '(code, files) := allowlist_genkey (fun _ => false) "key" "key" (Some ("pub", "priv")) Written Written ∅ in
  code = 0 /\ files !! "key" = Some (b64_line "pub").
Proof. vm_compute. split; reflexivity. Qed.

(** ** Signing *)

(** What the flag names: nothing, or a file that can be read or not. *)
Inductive FileArg := NoFlag | FileFlag (content : option string).

Section Sign.
Context (srt : forall A, (A -> A -> bool) -> list A -> list A).
Context (marshal : Z -> Z -> list AllowlistEntry -> result string string).
Context (ed25519_Sign : string -> string -> string) (ed25519_verify : string -> string -> string -> bool).
Context (json_Unmarshal : string -> option Allowlist) (MarshalIndent : Allowlist -> option string).

Definition Sign (priv : string) (a : Allowlist) : result string Allowlist :=
  if negb (String.length priv =? PrivateKeySize)%nat then Err "sign: invalid private key length"
  else match canonicalSigningBytes srt marshal a with
  | Err _ => Err "sign: canonicalize"
  | Ok msg => Ok (a <| al_Signature := StdEncode (ed25519_Sign priv msg) |>)
  end.

(** The exit status and what is written; [written] is the write's success. *)
Definition allowlist_sign (key : FileArg) (input : option string) (written : bool) : Z * option string :=
  match key with
  | NoFlag => (2, None)
  | FileFlag None => (1, None)
  | FileFlag (Some keyBytes) =>
      match StdDecode (TrimSpace keyBytes) with
      | None => (1, None)
      | Some priv =>
          if negb (String.length priv =? PrivateKeySize)%nat then (1, None)
          else match input with
          | None => (1, None)
          | Some inputBytes =>
              match json_Unmarshal inputBytes with
              | None => (1, None)
              | Some al =>
                  match Sign priv al with
                  | Err _ => (1, None)
                  | Ok al =>
                      match MarshalIndent al with
                      | None => (1, None)
                      | Some out => if written then (0, Some (out +:+ String.String LF "")) else (1, None)
                      end
                  end
              end
          end
      end
  end.

End Sign.

(** ** From the key to the agent *)

Lemma trim_left_whole s : Forall (fun a => is_space a = false) (String.list_ascii_of_string s) -> trim_left s = s.
Proof. destruct s as [|a s]; [done|]. intros [Ha _]%Forall_cons. cbn [trim_left]. by rewrite Ha. Qed.

(** The line a text without white space was written on, trimmed. *)
Lemma trim_line s : Forall (fun a => is_space a = false) (String.list_ascii_of_string s) ->
  TrimSpace (s +:+ String.String LF "") = s.
Proof.
  intros Hs. destruct s as [|a s]; [reflexivity|]. unfold TrimSpace.
  assert (Hl : trim_left (String.String a s +:+ String.String LF "") = String.String a s +:+ String.String LF "").
  { rewrite cons_app. cbn [trim_left]. by apply Forall_cons in Hs as [-> _]. }
  rewrite Hl, string_rev_app. change (string_rev (String.String LF "")) with (String.String LF "").
  rewrite cons_app. change (trim_left (String.String LF ?x)) with (trim_left x).
  change ("" +:+ ?x) with x. rewrite trim_left_whole; [apply string_rev_rev|].
  unfold string_rev. rewrite String.list_ascii_of_string_of_list_ascii. by apply Forall_reverse.
Qed.

Lemma StdEncode_plain s : Forall (fun a => is_space a = false) (String.list_ascii_of_string (StdEncode s)).
Proof.
  unfold StdEncode. rewrite String.list_ascii_of_string_of_list_ascii. apply Forall_app. split.
  - apply Forall_fmap. eapply Forall_impl; [apply sextets_range, bytes_of_range|]. intros z Hz.
    assert (Hin : z ∈ seqZ 0 64) by (apply elem_of_seqZ; unfold is_sextet in Hz; lia).
    clear Hz. revert z Hin.
    change (forall z, z ∈ seqZ 0 64 -> is_space (b64_char std_alphabet z) = false).
    apply Forall_forall. apply (bool_decide_unpack _). by vm_compute.
  - unfold padding. destruct (_ mod 4)%nat as [|[|[|[|]]]]; repeat constructor.
Qed.

Section Published.
Context (srt : forall A, (A -> A -> bool) -> list A -> list A).
Context (marshal : Z -> Z -> list AllowlistEntry -> result string string).
Context (ed25519_Sign : string -> string -> string) (ed25519_verify : string -> string -> string -> bool).
Context (json_Unmarshal : string -> option Allowlist) (MarshalIndent : Allowlist -> option string).
(** A pair of [GenerateKey], and JSON that can be read back. *)
Context (pub priv : string).
Context (key_sizes : String.length pub = PublicKeySize /\ String.length priv = PrivateKeySize).
Context (signatures : forall m, String.length (ed25519_Sign priv m) = SignatureSize /\
  ed25519_verify pub m (ed25519_Sign priv m) = true).
Context (readable : forall al out, MarshalIndent al = Some out -> json_Unmarshal (out +:+ String.String LF "") = Some al).

(** What is signed with a generated key is loaded by every agent that was built
    with the public half, and it is the list that was given to the tool, with its
    signature. *)
Theorem signed_list_loads unreadable files privPath pubPath files' input al doc written cache :
  privPath <> pubPath ->
  allowlist_genkey unreadable privPath pubPath (Some (pub, priv)) Written Written files = (0, files') ->
  json_Unmarshal input = Some al ->
  allowlist_sign srt marshal ed25519_Sign json_Unmarshal MarshalIndent (FileFlag (files' !! privPath)) (Some input) true =
    (0, Some doc) ->
  exists loaded, json_Unmarshal doc = Some loaded /\
    (LoadAllowlistFromURL srt marshal ed25519_verify StdDecode (StdEncode pub) (Ok loaded) written cache).1 = Ok loaded /\
    loaded <| al_Signature := al_Signature al |> = al.
Proof.
  intros Hne Hg Hin. destruct key_sizes as [Hpub Hpriv].
  assert (Hk : files' !! privPath = Some (b64_line priv)).
  { unfold allowlist_genkey in Hg. destruct (_ || _); [done|]. destruct (refuseOverwrite _ _ privPath); [done|].
    destruct (refuseOverwrite _ _ pubPath); [done|]. cbn in Hg. injection Hg as <-.
    by rewrite lookup_insert_ne, lookup_insert_eq. }
  rewrite Hk. unfold allowlist_sign, b64_line. rewrite trim_line by apply StdEncode_plain.
  rewrite Std_roundtrip, Hpriv, Hin. cbn [negb Nat.eqb PrivateKeySize]. unfold Sign. rewrite Hpriv.
  cbn [negb Nat.eqb PrivateKeySize]. destruct (canonicalSigningBytes srt marshal al) as [msg|] eqn:Hc; [|done].
  set (loaded := al <| al_Signature := _ |>). destruct (MarshalIndent loaded) as [out|] eqn:Ho; [|done]. intros [= <-].
  destruct (signatures msg) as [Hlen Hver]. exists loaded. split; [by apply readable|]. split; [|by destruct al].
  unfold LoadAllowlistFromURL, Verify.
  assert (Hne' : StdEncode pub <> "").
  { intros He. pose proof (Std_roundtrip pub) as Hr. rewrite He in Hr. injection Hr as <-. by simpl in Hpub. }
  rewrite bool_decide_eq_false_2 by done. rewrite Std_roundtrip, Hpub. cbn [negb Nat.eqb PublicKeySize].
  change (al_Signature loaded) with (StdEncode (ed25519_Sign priv msg)). rewrite Std_roundtrip, Hlen.
  cbn [negb Nat.eqb SignatureSize]. change (canonicalSigningBytes srt marshal loaded) with (canonicalSigningBytes srt marshal al).
  rewrite Hc, Hver. done.
Qed.
End Published.

(** ** A concrete list *)

#[export] Instance EgressTier_eq_dec : EqDecision EgressTier.
Proof. solve_decision. Defined.
#[export] Instance DeviceAccess_eq_dec : EqDecision DeviceAccess.
Proof. solve_decision. Defined.
#[export] Instance AllowlistEntry_eq_dec : EqDecision AllowlistEntry.
Proof. solve_decision. Defined.
#[export] Instance Allowlist_eq_dec : EqDecision Allowlist.
Proof. solve_decision. Defined.

Definition chars64 : string := String.concat "" (repeat "s" 64).
Definition chars32 : string := String.concat "" (repeat "p" 32).
Definition sample_list : Allowlist := mkAllowlist 1 0 [mkEntry "worker" "sha256:ab" Agent.WorkloadCompute EgressNone [] []] "".
Definition signed_list : Allowlist := sample_list <| al_Signature := StdEncode chars64 |>.
Definition sample_parse (s : string) : option Allowlist :=
  if bool_decide (s = "unsigned") then Some sample_list
  else if bool_decide (s = "signed" +:+ String.String LF "") then Some signed_list else None.
Definition sample_print (a : Allowlist) : option string := if bool_decide (a = signed_list) then Some "signed" else None.

Lemma signed_list_loads_witness :
  exists loaded, sample_parse ("signed" +:+ String.String LF "") = Some loaded /\
    (LoadAllowlistFromURL isort (fun _ _ _ => Ok "msg") (fun _ _ _ => true) StdDecode (StdEncode chars32)
       (Ok loaded) true CacheMissing).1 = Ok loaded /\
    loaded <| al_Signature := "" |> = sample_list.
Proof.
  apply (signed_list_loads isort (fun _ _ _ => Ok "msg") (fun _ _ => chars64) (fun _ _ _ => true) sample_parse sample_print
    chars32 chars64 (conj eq_refl eq_refl) (fun _ => conj eq_refl eq_refl)) with
    (unreadable := fun _ => false) (files := ∅) (privPath := "priv") (pubPath := "pub") (input := "unsigned") (al := sample_list)
    (files' := {[ "pub" := b64_line chars32; "priv" := b64_line chars64 ]}).
  - intros al out. unfold sample_print. case_bool_decide as Ha; [|done]. intros [= <-]. by rewrite Ha.
  - discriminate.
  - reflexivity.
  - reflexivity.
  - vm_compute. reflexivity.
Defined.
