(* ===== verification/Limits.v ===== *)
(** The in-memory rate limiters: failed logins of the portal
    (internal/portal/ratelimit.go) and failed authentications in front of the
    public operator routes (internal/api/ip_ratelimit.go). *)
From Stdlib Require Import Ascii.
From stdpp Require Import strings.
From S2P Require Import Prelude Float64 Encoding.
Local Open Scope string_scope.
Local Open Scope list_scope.
Local Open Scope Z_scope.

(** ** Failed logins *)

Record attemptRecord := mkAttempt { at_Count : Z; at_WindowStart : Z }.

(** The [sync.Map] of the limiter. *)
Notation LoginRateLimiter := (gmap string attemptRecord) (only parsing).

Section Login.
Context (maxAttempts window : Z).

(** [time.Since(rec.WindowStart) > rl.window] *)
Definition lapsed (now : Z) (rec : attemptRecord) : bool := window <? time_sub now (at_WindowStart rec).

Definition Allow (now : Z) (ip : string) (rl : LoginRateLimiter) : bool * LoginRateLimiter :=
  match rl !! ip with
  | None => (true, rl)
  | Some rec =>
      if lapsed now rec then (true, delete ip rl) else (at_Count rec <? maxAttempts, rl)
  end.

(** The clock is read first for a fresh window ([now]) and again to see whether
    the stored one lapsed ([since]). *)
Definition RecordFailure (now since : Z) (ip : string) (rl : LoginRateLimiter) : LoginRateLimiter :=
  match rl !! ip with
  | None => <[ip := mkAttempt 1 now]> rl
  | Some rec =>
      let rec' := if lapsed since rec then mkAttempt 1 now else mkAttempt (at_Count rec + 1) (at_WindowStart rec) in
      <[ip := rec']> rl
  end.

Definition Reset (ip : string) (rl : LoginRateLimiter) : LoginRateLimiter := delete ip rl.

(** A login that is going to fail, with the three readings of the clock. *)
Record Attempt := mkTry { tr_ip : string; tr_allow : Z; tr_now : Z; tr_since : Z }.

(** Was the password looked at? *)
Definition try_login (a : Attempt) (rl : LoginRateLimiter) : bool * LoginRateLimiter :=
  let '(ok, rl) := Allow (tr_allow a) (tr_ip a) rl in
  (ok, if ok : bool then RecordFailure (tr_now a) (tr_since a) (tr_ip a) rl else rl).

Fixpoint try_logins (l : list Attempt) (rl : LoginRateLimiter) : list bool * LoginRateLimiter :=
  match l with
  | [] => ([], rl)
  | a :: l' =>
      let '(ok, rl) := try_login a rl in
      let '(oks, rl) := try_logins l' rl in
      (ok :: oks, rl)
  end.

(** The passwords looked at for one address. *)
Fixpoint tried (ip : string) (l : list Attempt) (oks : list bool) : Z :=
  match l, oks with
  | a :: l', ok :: oks' => (if bool_decide (tr_ip a = ip) && ok then 1 else 0) + tried ip l' oks'
  | _, _ => 0
  end.

Definition within (from upto : Z) (a : Attempt) : Prop :=
  from <= tr_allow a <= upto /\ from <= tr_now a <= upto /\ from <= tr_since a <= upto.

Lemma lapsed_false now rec : 0 <= window < int64_max ->
  lapsed now rec = false <-> now - at_WindowStart rec <= window.
Proof. intros Hw. unfold lapsed, time_sub, int64_min, int64_max in *. rewrite Z.ltb_ge. lia. Qed.

(** What happens to the record of the address that tries. *)
Definition try_record (a : Attempt) (o : option attemptRecord) : bool * option attemptRecord :=
  match o with
  | None => (true, Some (mkAttempt 1 (tr_now a)))
  | Some rec =>
      if lapsed (tr_allow a) rec then (true, Some (mkAttempt 1 (tr_now a)))
      else if at_Count rec <? maxAttempts then
        (true, Some (if lapsed (tr_since a) rec then mkAttempt 1 (tr_now a)
                     else mkAttempt (at_Count rec + 1) (at_WindowStart rec)))
      else (false, o)
  end.

Lemma try_login_record a rl :
  (try_login a rl).1 = (try_record a (rl !! tr_ip a)).1 /\
  (try_login a rl).2 !! tr_ip a = (try_record a (rl !! tr_ip a)).2 /\
  forall k, k <> tr_ip a -> (try_login a rl).2 !! k = rl !! k.
Proof.
  unfold try_login, Allow, RecordFailure, try_record. destruct (rl !! tr_ip a) as [rec|] eqn:Hr; simpl.
  - destruct (lapsed (tr_allow a) rec); simpl.
    + rewrite lookup_delete_eq, lookup_insert_eq. split_and!; [done..|]. intros k Hk.
      by rewrite lookup_insert_ne, lookup_delete_ne.
    + destruct (at_Count rec <? maxAttempts); simpl; [|done]. rewrite Hr, lookup_insert_eq.
      split_and!; [done..|]. intros k Hk. by rewrite lookup_insert_ne.
  - rewrite Hr, lookup_insert_eq. split_and!; [done..|]. intros k Hk. by rewrite lookup_insert_ne.
Qed.

(** What an address may still try within the span that starts at [from]: what is
    left of a window that began earlier and a whole new one, or what is left of a
    window that began within it. *)
Definition record_allowance (from : Z) (o : option attemptRecord) : Z :=
  match o with
  | None => maxAttempts
  | Some rec =>
      Z.max 0 (maxAttempts - at_Count rec) + (if at_WindowStart rec <? from then maxAttempts else 0)
  end.

Definition record_counted (o : option attemptRecord) : Prop :=
  match o with Some rec => 1 <= at_Count rec | None => True end.

Lemma try_record_allowance from upto a o :
  0 <= window < int64_max -> 1 <= maxAttempts -> upto - from <= window -> record_counted o -> within from upto a ->
  record_counted (try_record a o).2 /\
  (if (try_record a o).1 then 1 else 0) + record_allowance from (try_record a o).2 <= record_allowance from o.
Proof.
  intros Hw Hm Hspan Hc (Ha & Hn & Hs). unfold try_record, record_allowance, record_counted in *.
  assert (Hfresh : (tr_now a <? from) = false) by (apply Z.ltb_ge; lia).
  destruct o as [rec|]; simpl; [|rewrite Hfresh; lia].
  pose proof (lapsed_false (tr_allow a) rec Hw) as Hl1. pose proof (lapsed_false (tr_since a) rec Hw) as Hl2.
  destruct (lapsed (tr_allow a) rec) eqn:Hla; simpl.
  { rewrite Hfresh. assert (at_WindowStart rec < from) by (destruct Hl1; lia).
    rewrite (proj2 (Z.ltb_lt _ _)) by done. lia. }
  destruct (Z.ltb_spec (at_Count rec) maxAttempts); simpl; [|lia].
  destruct (lapsed (tr_since a) rec) eqn:Hlb; simpl.
  - rewrite Hfresh. assert (at_WindowStart rec < from) by (destruct Hl2; lia).
    rewrite (proj2 (Z.ltb_lt _ _)) by done. lia.
  - destruct (at_WindowStart rec <? from); lia.
Qed.

Definition counted (rl : LoginRateLimiter) : Prop := forall ip, record_counted (rl !! ip).

Lemma try_login_allowance from upto ip a rl :
  0 <= window < int64_max -> 1 <= maxAttempts -> upto - from <= window -> counted rl -> within from upto a ->
  counted (try_login a rl).2 /\
  (if bool_decide (tr_ip a = ip) && (try_login a rl).1 then 1 else 0) +
    record_allowance from ((try_login a rl).2 !! ip) <= record_allowance from (rl !! ip).
Proof.
  intros Hw Hm Hspan Hc Ha. destruct (try_login_record a rl) as (H1 & H2 & H3).
  destruct (try_record_allowance from upto a (rl !! tr_ip a) Hw Hm Hspan (Hc _) Ha) as [Hc' Hle].
  split.
  - intros k. destruct (decide (k = tr_ip a)) as [->|Hk]; [by rewrite H2|]. rewrite H3 by done. apply Hc.
  - case_bool_decide as Hip.
    + subst ip. by rewrite H1, H2.
    + simpl. rewrite H3 by done. lia.
Qed.

Lemma try_logins_allowance from upto ip l rl :
  0 <= window < int64_max -> 1 <= maxAttempts -> upto - from <= window -> counted rl ->
  Forall (within from upto) l ->
  tried ip l (try_logins l rl).1 + record_allowance from ((try_logins l rl).2 !! ip) <= record_allowance from (rl !! ip).
Proof.
  intros Hw Hm Hspan Hc Hl. revert rl Hc. induction Hl as [|a l Ha Hl IH]; intros rl Hc; simpl; [lia|].
  destruct (try_login_allowance from upto ip a rl Hw Hm Hspan Hc Ha) as [Hc' Hle].
  destruct (try_login a rl) as [ok rl1]. specialize (IH rl1 Hc'). destruct (try_logins l rl1) as [oks rl2].
  simpl in *. lia.
Qed.
End Login.

(** Password guessing: in any span no longer than the window, whatever other
    addresses do in between and whatever the limiter remembers from before, one
    address gets at most [2 * maxAttempts - 1] passwords looked at before a login
    succeeds.  The bound is attained (the witness): the limiter counts in windows
    that start at a failure, so a span can straddle two of them. *)
Theorem failed_logins_bounded maxAttempts window from upto ip l rl :
  0 <= window < int64_max -> 1 <= maxAttempts -> upto - from <= window -> counted rl ->
  Forall (within from upto) l ->
  tried ip l (try_logins maxAttempts window l rl).1 <= 2 * maxAttempts - 1.
Proof.
  intros Hw Hm Hspan Hc Hl.
  pose proof (try_logins_allowance maxAttempts window from upto ip l rl Hw Hm Hspan Hc Hl) as Hle.
  assert (Hpos : forall o, 0 <= record_allowance maxAttempts from o).
  { intros [rec|]; simpl; [case_match; lia|lia]. }
  specialize (Hpos ((try_logins maxAttempts window l rl).2 !! ip)).
  assert (Hmax : record_allowance maxAttempts from (rl !! ip) <= 2 * maxAttempts - 1).
  { specialize (Hc ip). destruct (rl !! ip) as [rec|]; simpl in *; [case_match; lia|lia]. }
  lia.
Qed.

(** The portal's setting: five attempts in fifteen minutes. *)
Definition portal_max : Z := 5.
Definition portal_window : Z := 15 * Minute.

Definition straddling : list Attempt :=
  (fun t => mkTry "10.0.0.1" t t t) <$>
    [14 * Minute; 14 * Minute; 14 * Minute; 14 * Minute; 14 * Minute;
     16 * Minute; 16 * Minute; 16 * Minute; 16 * Minute; 16 * Minute; 16 * Minute].

Lemma failed_logins_bounded_witness :
  let rl : LoginRateLimiter := {[ "10.0.0.1" := mkAttempt 1 0 ]} in
  let n := tried "10.0.0.1" straddling (try_logins portal_max portal_window straddling rl).1 in
  n = 9 /\ n <= 2 * portal_max - 1.
Proof.
  cbv zeta. split; [vm_compute; reflexivity|].
  apply (failed_logins_bounded portal_max portal_window (14 * Minute) (29 * Minute)).
  - split; vm_compute; [discriminate|reflexivity].
  - vm_compute. discriminate.
  - vm_compute. discriminate.
  - intros ip. rewrite lookup_singleton. case_decide; simpl; [lia|done].
  - unfold straddling, within. repeat constructor; vm_compute; discriminate.
Defined.

(** ** Failed authentications *)

(** [int(x)] of a float: truncation; out of range, the value amd64 gives. *)
Definition f64_to_int (x : float64) : Z :=
  match x with
  | S754_zero _ => 0
  | S754_finite s m e =>
      let n := Z.shiftl (Zpos m) e in
      let z := if s then - n else n in
      if (int64_min <=? z) && (z <=? int64_max) then z else int64_min
  | _ => int64_min
  end.

Record tokenBucket := mkBucket { tb_tokens : float64; tb_lastSeen : Z }.

Record authFailureLimiter := mkLimiter {
  al_buckets : gmap string tokenBucket; al_burst : float64; al_refill : float64 }.
#[export] Instance eta_authFailureLimiter : Eta authFailureLimiter := fun l =>
  mkLimiter (al_buckets l) (al_burst l) (al_refill l).

Definition newAuthFailureLimiter (burst refillPerSec : float64) : authFailureLimiter :=
  mkLimiter ∅
    (if f64_le burst f64_zero then f64_of_Z 10 else burst)
    (if f64_le refillPerSec f64_zero then f64_lit 2 10 else refillPerSec).

Definition put_bucket (ip : string) (b : tokenBucket) (l : authFailureLimiter) : authFailureLimiter :=
  l <| al_buckets := <[ip := b]> (al_buckets l) |>.

Definition refill_bucket (l : authFailureLimiter) (now : Z) (b : tokenBucket) : tokenBucket :=
  let elapsed := Seconds (time_sub now (tb_lastSeen b)) in
  if f64_lt f64_zero elapsed then
    let tokens := f64_add (tb_tokens b) (f64_mul elapsed (al_refill l)) in
    mkBucket (if f64_lt (al_burst l) tokens then al_burst l else tokens) now
  else b.

Definition refillLocked (now : Z) (ip : string) (l : authFailureLimiter) : tokenBucket * authFailureLimiter :=
  let b := match al_buckets l !! ip with
           | None => mkBucket (al_burst l) now
           | Some b => refill_bucket l now b
           end in
  (b, put_bucket ip b l).

Definition allow (now : Z) (ip : string) (l : authFailureLimiter) : bool * Z * authFailureLimiter :=
  let '(b, l) := refillLocked now ip l in
  if f64_le f64_one (tb_tokens b) then (true, 0, l)
  else
    let need := f64_sub f64_one (tb_tokens b) in
    let secs := to_int64 (f64_to_int (f64_div need (al_refill l)) + 1) in
    (false, if secs <? 1 then 1 else secs, l).

Definition penalize (now : Z) (ip : string) (l : authFailureLimiter) : authFailureLimiter :=
  let '(b, l) := refillLocked now ip l in
  let tokens := f64_sub (tb_tokens b) f64_one in
  put_bucket ip (mkBucket (if f64_lt tokens f64_zero then f64_zero else tokens) (tb_lastSeen b)) l.

(** The answer of [Wrap]: the status of the wrapped handler, or 429 with a
    Retry-After. *)
Inductive Answer := Served (status : Z) | Throttled (retryAfter : Z).

(** [status] is what the wrapped handler would record; [t0] and [t1] are the
    readings of the clock before and after it. *)
Definition Wrap (t0 t1 : Z) (ip : string) (status : Z) (l : authFailureLimiter) : Answer * authFailureLimiter :=
  let '(ok, retryAfter, l) := allow t0 ip l in
  if negb ok then (Throttled retryAfter, l)
  else (Served status, if status =? 401 then penalize t1 ip l else l).

(** *** The address of the client *)

Fixpoint indexByte (s : string) (c : ascii) : Z :=
  match s with
  | "" => -1
  | String.String a s' =>
      if Ascii.eqb a c then 0 else let i := indexByte s' c in if i <? 0 then -1 else i + 1
  end.

Definition blank (a : ascii) : bool := Ascii.eqb a " " || Ascii.eqb a "009".
Fixpoint drop_blanks (s : string) : string :=
  match s with
  | String.String a s' => if blank a then drop_blanks s' else s
  | "" => ""
  end.
Definition trimSpace (s : string) : string := string_rev (drop_blanks (string_rev (drop_blanks s))).

(** Digits are written from the end of a 20-byte buffer: [room] is what is left
    of it. *)
Fixpoint itoa_digits (room : nat) (n : Z) (buf : string) : option string :=
  if 0 <? n then
    match room with
    | O => None
    | S room' => itoa_digits room' (Z.quot n 10) (String.String (ascii_of (48 + Z.rem n 10)) buf)
    end
  else Some buf.

(** [None] is the panic of an index out of the buffer. *)
Definition itoa (n : Z) : option string :=
  if n =? 0 then Some "0"
  else
    let neg := n <? 0 in
    buf ← itoa_digits 20 (if neg then to_int64 (- n) else n) "";
    if neg : bool then if (String.length buf <? 20)%nat then Some ("-" +:+ buf) else None else Some buf.

(** [net.SplitHostPort]'s host; [None] is its error. *)
Definition last_colon (s : string) : Z :=
  let i := indexByte (string_rev s) ":" in
  if i <? 0 then -1 else Z.of_nat (String.length s) - 1 - i.
Definition prefix_of (s : string) (i : Z) : string := String.substring 0 (Z.to_nat i) s.
Definition suffix_from (s : string) (i : Z) : string :=
  String.substring (Z.to_nat i) (String.length s - Z.to_nat i) s.

Definition SplitHostPort (hostport : string) : option string :=
  let i := last_colon hostport in
  if i <? 0 then None
  else if (indexByte hostport "[" =? 0) then
    let close := indexByte hostport "]" in
    if close <? 0 then None
    else if negb (close + 1 =? i) then None
    else if negb (indexByte (suffix_from hostport 1) "[" <? 0) || negb (indexByte (suffix_from hostport (close + 1)) "]" <? 0)
    then None
    else Some (suffix_from (prefix_of hostport close) 1)
  else
    let host := prefix_of hostport i in
    if negb (indexByte host ":" <? 0) || negb (indexByte hostport "[" <? 0) || negb (indexByte hostport "]" <? 0)
    then None else Some host.

Record Client := mkClient { cl_XForwardedFor : string; cl_XRealIP : string; cl_RemoteAddr : string }.

Definition clientIP (r : Client) : string :=
  let xff := cl_XForwardedFor r in
  if negb (bool_decide (xff = "")) then
    let i := indexByte xff "," in
    if 0 <=? i then trimSpace (prefix_of xff i) else trimSpace xff
  else if negb (bool_decide (cl_XRealIP r = "")) then trimSpace (cl_XRealIP r)
  else default (cl_RemoteAddr r) (SplitHostPort (cl_RemoteAddr r)).

(** ** The budget of an address *)

(** Requests of one address at one instant, all answered 401 by the handler. *)
Fixpoint failing (n : nat) (now : Z) (ip : string) (l : authFailureLimiter) : list Answer * authFailureLimiter :=
  match n with
  | O => ([], l)
  | S n' =>
      let '(a, l) := Wrap now now ip 401 l in
      let '(rest, l) := failing n' now ip l in
      (a :: rest, l)
  end.

Definition let_through (a : Answer) : bool := match a with Served _ => true | Throttled _ => false end.

Example SplitHostPort_samples :
  SplitHostPort "10.0.0.7:4711" = Some "10.0.0.7" /\ SplitHostPort "[::1]:80" = Some "::1" /\
  SplitHostPort "::1:80" = None /\ SplitHostPort "host" = None /\ SplitHostPort "[::1]" = None /\
  itoa 120 = Some "120" /\ itoa (-7) = Some "-7" /\
  clientIP (mkClient " 1.2.3.4 , 9.9.9.9" "" "10.0.0.7:1") = "1.2.3.4".
Proof. vm_compute. repeat split; reflexivity. Qed.

Definition same_float (x y : float64) : bool :=
  match x, y with
  | S754_zero s, S754_zero s' => Bool.eqb s s'
  | S754_finite s m e, S754_finite s' m' e' => Bool.eqb s s' && (m =? m')%positive && (e =? e')
  | _, _ => false
  end.

Lemma same_float_eq x y : same_float x y = true -> x = y.
Proof.
  destruct x as [| | |s m e], y as [| | |s' m' e']; simpl; try done.
  - by intros ->%Bool.eqb_prop.
  - intros Hs. apply andb_prop in Hs as [Hs ->%Z.eqb_eq]. by apply andb_prop in Hs as [->%Bool.eqb_prop ->%Pos.eqb_eq].
Qed.

(** Small integers are exact. *)
Lemma token_arith k : 1 <= k <= 1000 ->
  f64_le f64_one (f64_of_Z k) = true /\ f64_sub (f64_of_Z k) f64_one = f64_of_Z (k - 1) /\
  f64_lt (f64_of_Z (k - 1)) f64_zero = false.
Proof.
  intros Hk.
  assert (Hall : forallb (fun k => f64_le f64_one (f64_of_Z k) &&
    same_float (f64_sub (f64_of_Z k) f64_one) (f64_of_Z (k - 1)) &&
    negb (f64_lt (f64_of_Z (k - 1)) f64_zero)) (seqZ 1 1000) = true) by (vm_compute; reflexivity).
  rewrite forallb_forall in Hall. specialize (Hall k).
  assert (Hin : In k (seqZ 1 1000)) by (apply list_elem_of_In, elem_of_seqZ; lia).
  apply Hall in Hin. apply andb_prop in Hin as [Hin Hz%negb_true_iff]. apply andb_prop in Hin as [Hle Hs].
  by apply same_float_eq in Hs.
Qed.

(** No time passes. *)
Lemma refill_now l now tokens : refill_bucket l now (mkBucket tokens now) = mkBucket tokens now.
Proof. unfold refill_bucket. simpl. unfold time_sub. rewrite Z.sub_diag. done. Qed.

(** The bucket of [ip] at the instant [now]. *)
Definition holds (ip : string) (now k : Z) (l : authFailureLimiter) : Prop :=
  default (mkBucket (al_burst l) now) (al_buckets l !! ip) = mkBucket (f64_of_Z k) now.

Lemma refill_holds ip now k l : holds ip now k l ->
  exists l', refillLocked now ip l = (mkBucket (f64_of_Z k) now, l') /\ l' = put_bucket ip (mkBucket (f64_of_Z k) now) l.
Proof.
  intros Hh. unfold refillLocked, holds in *. destruct (al_buckets l !! ip) as [b|]; simpl in Hh; subst.
  - rewrite refill_now. by eexists.
  - rewrite Hh. by eexists.
Qed.

Lemma holds_put ip now k l : holds ip now k (put_bucket ip (mkBucket (f64_of_Z k) now) l).
Proof. unfold holds, put_bucket. simpl. by rewrite lookup_insert_eq. Qed.

Lemma allow_holds ip now k l : 0 <= k <= 1000 -> holds ip now k l ->
  exists ok retry l', allow now ip l = (ok, retry, l') /\ ok = (0 <? k) /\ holds ip now k l'.
Proof.
  intros Hk Hh. destruct (refill_holds _ _ _ _ Hh) as (l' & Hr & ->). unfold allow. rewrite Hr. simpl.
  destruct (Z.ltb_spec 0 k).
  - destruct (token_arith k) as (-> & _); [lia|]. eexists _, _, _. split_and!; [done..|apply holds_put].
  - replace k with 0 by lia. eexists _, _, _. split_and!; [done..|apply holds_put].
Qed.

Lemma penalize_holds ip now k l : 1 <= k <= 1000 -> holds ip now k l -> holds ip now (k - 1) (penalize now ip l).
Proof.
  intros Hk Hh. destruct (refill_holds _ _ _ _ Hh) as (l' & Hr & ->). unfold penalize. rewrite Hr. simpl.
  destruct (token_arith k Hk) as (_ & -> & ->). apply holds_put.
Qed.

Lemma failing_holds n now ip k l : 0 <= k <= 1000 -> holds ip now k l ->
  Z.of_nat (length (List.filter let_through (failing n now ip l).1)) = Z.min (Z.of_nat n) k /\
  holds ip now (Z.max 0 (k - Z.of_nat n)) (failing n now ip l).2.
Proof.
  revert k l. induction n as [|n IH]; intros k l Hk Hh; simpl.
  { split; [lia|]. rewrite Z.sub_0_r, Z.max_r by lia. done. }
  unfold Wrap. destruct (allow_holds ip now k l Hk Hh) as (ok & retry & l1 & Ha & -> & Hh1). rewrite Ha.
  destruct (Z.ltb_spec 0 k) as [Hpos|Hz]; simpl.
  - pose proof (IH (k - 1) _ ltac:(lia) (penalize_holds ip now k l1 ltac:(lia) Hh1)) as [Hlen Hh2].
    destruct (failing n now ip (penalize now ip l1)) as [rest l2]. simpl in *. split; [lia|].
    refine (eq_ind _ (fun z => holds ip now z l2) Hh2 _ _). lia.
  - pose proof (IH k l1 Hk Hh1) as [Hlen Hh2]. destruct (failing n now ip l1) as [rest l2]. simpl in *.
    split; [lia|]. refine (eq_ind _ (fun z => holds ip now z l2) Hh2 _ _). lia.
Qed.

(** The failure budget: of any number of failing requests one address sends at
    once, exactly the first [burst] reach the handler and the rest are answered 429
    without running it.  After that the address is throttled as such: a request
    that would be authenticated successfully gets the 429 as well. *)
Theorem failure_budget_exact burst refill n now ip status :
  1 <= burst <= 1000 ->
  let run := failing n now ip (newAuthFailureLimiter (f64_of_Z burst) refill) in
  Z.of_nat (length (List.filter let_through run.1)) = Z.min (Z.of_nat n) burst /\
  let_through (Wrap now now ip status run.2).1 = (Z.of_nat n <? burst).
Proof.
  intros Hb.
  assert (Hh : holds ip now burst (newAuthFailureLimiter (f64_of_Z burst) refill)).
  { unfold holds, newAuthFailureLimiter. simpl. rewrite lookup_empty. simpl.
    destruct (token_arith burst Hb) as (Hle & _).
    assert (Hnz : f64_le (f64_of_Z burst) f64_zero = false).
    { destruct (f64_le (f64_of_Z burst) f64_zero) eqn:Hz; [|done].
      unfold f64_le, SFleb in *. destruct (f64_of_Z burst) as [[]|[]| |[] m e]; done. }
    by rewrite Hnz. }
  destruct (failing_holds n now ip burst _ ltac:(lia) Hh) as [Hlen Hh'].
  destruct (failing n now ip _) as [answers l]. simpl in *. split; [done|].
  unfold Wrap. destruct (allow_holds ip now (Z.max 0 (burst - Z.of_nat n)) l ltac:(lia) Hh') as (ok & retry & l1 & Ha & -> & _). rewrite Ha.
  destruct (Z.ltb_spec 0 (Z.max 0 (burst - Z.of_nat n))); destruct (Z.ltb_spec (Z.of_nat n) burst); simpl; try done; lia.
Qed.

Lemma failure_budget_exact_witness :
  let run := failing 13 0 "10.0.0.1" (newAuthFailureLimiter (f64_of_Z 10) (f64_lit 2 10)) in
  (fst (Wrap 0 0 "10.0.0.1" 200 run.2) = Throttled 6 /\
   fst (Wrap (6 * Second) (6 * Second) "10.0.0.1" 200 run.2) = Served 200) /\
  (Z.of_nat (length (List.filter let_through run.1)) = Z.min (Z.of_nat 13) 10 /\
   let_through (Wrap 0 0 "10.0.0.1" 200 run.2).1 = (Z.of_nat 13 <? 10)).
Proof.
  cbv zeta. split; [split; vm_compute; reflexivity|].
  apply failure_budget_exact. split; discriminate.
Defined.

(** ** Addresses the client chooses *)

Record HttpRequest := mkHttpRequest { rq_client : Client; rq_t0 : Z; rq_t1 : Z; rq_status : Z }.

Fixpoint serve_all (rs : list HttpRequest) (l : authFailureLimiter) : list Answer :=
  match rs with
  | [] => []
  | r :: rs' => let '(a, l) := Wrap (rq_t0 r) (rq_t1 r) (clientIP (rq_client r)) (rq_status r) l in a :: serve_all rs' l
  end.

Lemma put_bucket_ne ip ip' b l : ip' <> ip -> al_buckets (put_bucket ip b l) !! ip' = al_buckets l !! ip'.
Proof. intros Hne. unfold put_bucket. simpl. by rewrite lookup_insert_ne. Qed.

Lemma Wrap_fresh t0 t1 ip status l :
  al_buckets l !! ip = None -> f64_le f64_one (al_burst l) = true ->
  (Wrap t0 t1 ip status l).1 = Served status /\ al_burst (Wrap t0 t1 ip status l).2 = al_burst l /\
  (forall ip', ip' <> ip -> al_buckets (Wrap t0 t1 ip status l).2 !! ip' = al_buckets l !! ip').
Proof.
  intros Hn Hb. unfold Wrap, allow, refillLocked. rewrite Hn. cbn [tb_tokens]. rewrite Hb. cbn [negb fst snd].
  split; [done|]. destruct (status =? 401); [|split; [done|intros ip' Hne; by apply put_bucket_ne]].
  split; [done|]. intros ip' Hne. unfold penalize, refillLocked. by rewrite !put_bucket_ne.
Qed.

(** The budget is per claimed address: requests that name a different client in
    X-Forwarded-For each time are all served, however many of them fail, because
    the bucket is chosen by the leftmost, client-supplied entry of the header. *)
Theorem rotating_addresses_unthrottled rs l :
  f64_le f64_one (al_burst l) = true -> NoDup ((fun r => clientIP (rq_client r)) <$> rs) ->
  Forall (fun r => al_buckets l !! clientIP (rq_client r) = None) rs ->
  serve_all rs l = (fun r => Served (rq_status r)) <$> rs.
Proof.
  revert l. induction rs as [|r rs IH]; intros l Hb Hnd Hf; [done|].
  apply NoDup_cons in Hnd as [Hin Hnd]. apply Forall_cons in Hf as [Hr Hf]. cbn [serve_all].
  destruct (Wrap_fresh (rq_t0 r) (rq_t1 r) _ (rq_status r) l Hr Hb) as (H1 & H2 & H3).
  destruct (Wrap _ _ _ _ l) as [a l1]. simpl in *. subst a. f_equal. apply IH; [by rewrite H2|done|].
  rewrite Forall_forall in Hf |- *. intros r' Hr'. rewrite H3; [by apply Hf|]. intros He. apply Hin.
  rewrite <- He. by apply (list_elem_of_fmap_2 (fun r => clientIP (rq_client r))).
Qed.

Definition rotating : list HttpRequest :=
  (fun i => mkHttpRequest (mkClient (FormatInt i) "" "10.0.0.1:4711") 0 0 401) <$> seqZ 0 30.

Lemma rotating_addresses_unthrottled_witness :
  serve_all rotating (newAuthFailureLimiter (f64_of_Z 10) (f64_lit 2 10)) = replicate 30 (Served 401).
Proof.
  apply (rotating_addresses_unthrottled rotating (newAuthFailureLimiter (f64_of_Z 10) (f64_lit 2 10))).
  - vm_compute. reflexivity.
  - apply (bool_decide_unpack _). vm_compute. reflexivity.
  - repeat constructor.
Defined.
