(* ===== verification/Account.v ===== *)
(** Member accounts: registration, login and session refresh
    (internal/portal/server.go), the onboarding of providers with the payment
    service, the payment client of internal/payment and the payment webhook of
    internal/portal/webhook.go.

    bcrypt and the payment service's SDK are arguments.  The login limiter is
    process memory, passed along explicitly. *)
From Stdlib Require Import Ascii.
From S2P Require Import Prelude Float64 Workload Sounding Registry Database Lifecycle Effects.
From S2P Require Import Encoding Sha256 Token Http Session Limits.
Local Open Scope string_scope.
Local Open Scope list_scope.
Local Open Scope Z_scope.

Definition sessionTTL : Z := 15 * Minute.

(** [SELECT ... FROM participants WHERE email = $1] *)
Definition account_by_email (d : DB) (email : string) : option (string * ParticipantRow) :=
  List.find (fun '(_, p) => bool_decide (p_email p = email)) (map_to_list (participants d)).

(** [INSERT INTO participants (email, password_hash, display_name, soho_name)] *)
Definition sql_insert_participant (id email hash sohoName : string) : M unit := stmt (fun _ d =>
  if bool_decide (is_Some (participants d !! id)) || bool_decide (is_Some (account_by_email d email))
  then Err ErrUnique
  else Ok (tt, d <| participants := <[id := mkParticipant None None None false email (Some hash) sohoName
    None None false false]> (participants d) |>)).

Section Accounts.
Context (Sign : string -> string).
Context (CompareHashAndPassword : string -> string -> bool) (GenerateFromPassword : string -> result Error string).

Record LoginForm := mkLogin { lf_email : string; lf_password : string }.

(** [None] is a form that does not parse.  The session token, set as a cookie with
    the redirect to the dashboard, or the error status. *)
Definition handleLogin (remoteAddr : string) (form : option LoginForm) (rl : LoginRateLimiter)
    : M (result Z string * LoginRateLimiter) :=
  match form with
  | None => mret (Err StatusBadRequest, rl)
  | Some f =>
      let ip := default remoteAddr (SplitHostPort remoteAddr) in
      t ← time_Now;
      let '(ok, rl) := Allow portal_max portal_window t ip rl in
      if negb ok then mret (Err StatusTooManyRequests, rl)
      else
        let email := TrimSpace (lf_email f) in
        if bool_decide (email = "") || bool_decide (lf_password f = "") then mret (Err StatusBadRequest, rl)
        else
          r ← try (query_row (fun _ d => account_by_email d email));
          t ← time_Now;
          match r with
          | Err _ => mret (Err StatusUnauthorized, RecordFailure portal_window t t ip rl)
          | Ok (userID, p) =>
              if negb (CompareHashAndPassword (default "" (p_password_hash p)) (lf_password f))
              then mret (Err StatusUnauthorized, RecordFailure portal_window t t ip rl)
              else mret (Ok (CreateToken Sign (mkClaims userID email (Unix (t + sessionTTL)))), Reset ip rl)
          end
  end.

Record RegisterForm := mkRegister { rf_email : string; rf_password : string; rf_soho_name : string }.

Inductive RegisterResponse := RegisterPage (error : string) | Registered (token : string).

Definition handleRegister (form : option RegisterForm) : H RegisterResponse :=
  match form with
  | None => reject StatusBadRequest
  | Some f =>
      let email := TrimSpace (rf_email f) in
      let sohoName := TrimSpace (rf_soho_name f) in
      if bool_decide (email = "") || bool_decide (sohoName = "") then mret (RegisterPage "all fields are required")
      else if Z.of_nat (String.length (rf_password f)) <? 8
      then mret (RegisterPage "password must be at least 8 characters")
      else
        existing ← attempt (query_row (fun _ d => account_by_email d email));
        if is_ok existing then mret (RegisterPage "email already registered")
        else match GenerateFromPassword (rf_password f) with
        | Err _ => reject StatusInternalServerError
        | Ok hash =>
            userID ← or_500 fresh_uuid;
            _ ← or_500 (sql_insert_participant userID email hash sohoName);
            t ← or_500 time_Now;
            mret (Registered (CreateToken Sign (mkClaims userID email (Unix (t + sessionTTL)))))
        end
  end.

(** [None]: the session is not refreshed. *)
Definition handleRefresh (claims : SessionClaims) : H (option string) :=
  now ← or_500 time_Now;
  if 300 <=? to_int64 (sc_ExpiresAt claims - Unix now) then mret None
  else mret (Some (CreateToken Sign (mkClaims (sc_UserID claims) (sc_Email claims) (Unix (now + sessionTTL))))).

End Accounts.

(** ** The payment client *)

Record StripeAccount := mkAccount {
  acct_ID : string; acct_Transfers : option string;
  acct_Requirements : option (list string * list string) }.

Record StripeEvent := mkStripeEvent { ev_Type : string; ev_Account : option StripeAccount }.

(** What the client calls of the SDK. *)
Record Stripe := mkStripe {
  V1PaymentIntents_Create : Z -> Z -> string -> M (string * string);
  V1Refunds_Create : string -> Z -> M unit;
  V1Accounts_Create : string -> string -> M string;
  V1AccountLinks_Create : string -> string -> string -> M string;
  V1Accounts_GetByID : string -> M StripeAccount;
  V1Payouts_Create : string -> Z -> string -> M string;
  ConstructEvent : string -> string -> string -> option StripeEvent }.

Section Payment.
Context (sc : Stripe).

Definition CreateDestinationCharge (amountCents feeCents : Z) (connectedAccountID : string) : M (string * string) :=
  if amountCents <=? 0 then fail (ErrGo "create destination charge: amountCents must be positive")
  else if feeCents <? 0 then fail (ErrGo "create destination charge: feeCents must be non-negative")
  else if amountCents <=? feeCents then fail (ErrGo "create destination charge: feeCents must be less than amountCents")
  else V1PaymentIntents_Create sc amountCents feeCents connectedAccountID.

Definition CreateRefund (paymentIntentID : string) (amountCents : Z) : M unit :=
  if amountCents <=? 0 then fail (ErrGo "create refund: amountCents must be positive")
  else V1Refunds_Create sc paymentIntentID amountCents.

Definition CreateConnectedAccount (displayName email : string) : M string :=
  V1Accounts_Create sc displayName email.

Definition CreateOnboardingLink (accountID refreshURL returnURL : string) : M string :=
  V1AccountLinks_Create sc accountID refreshURL returnURL.

Definition AccountCapabilityStatusActive : string := "active".

Record OnboardingStatus := mkOnboardingStatus { os_TransfersActive : bool; os_RequirementsPending : bool }.

Definition CheckOnboardingStatus (accountID : string) : M OnboardingStatus :=
  acct ← V1Accounts_GetByID sc accountID;
  mret (mkOnboardingStatus
    (bool_decide (acct_Transfers acct = Some AccountCapabilityStatusActive))
    (match acct_Requirements acct with
     | Some (due, past) => (0 <? Z.of_nat (length due)) || (0 <? Z.of_nat (length past))
     | None => false
     end)).

Definition TriggerPayout (connectedAccountID : string) (amountCents : Z) (idempotencyKey : string) : M string :=
  if amountCents <=? 0 then fail (ErrGo "trigger payout: amountCents must be positive")
  else if bool_decide (idempotencyKey = "") then fail (ErrGo "trigger payout: idempotencyKey must be set")
  else V1Payouts_Create sc connectedAccountID amountCents ("payout:" +:+ idempotencyKey).

(** [body] and the signature header of the request. *)
Definition HandleV1Event (webhookSecret body signature : string) (handler : StripeEvent -> M unit) : M unit :=
  match ConstructEvent sc body signature webhookSecret with
  | None => fail (ErrGo "construct v1 event")
  | Some event => handler event
  end.

(** ** The webhook *)

(** [UPDATE providers SET ...]: the schema has no such table any more, so the
    statement is refused whatever its arguments. *)
Definition sql_update_providers (transfersActive : bool) (accountID : string) : M unit :=
  stmt (fun _ _ => Err (ErrGo "relation providers does not exist")).

Definition onAccountUpdated (event : StripeEvent) : M unit :=
  match ev_Account event with
  | None => fail (ErrGo "unmarshal account")
  | Some acct =>
      let transfersActive := bool_decide (acct_Transfers acct = Some AccountCapabilityStatusActive) in
      sql_update_providers transfersActive (acct_ID acct)
  end.

Definition onStripeEvent (event : StripeEvent) : M unit :=
  if bool_decide (ev_Type event = "account.updated") then onAccountUpdated event else mret tt.

Definition handleStripeWebhook (webhookSecret body signature : string) : H unit :=
  or_reject (fun _ => StatusBadRequest) (HandleV1Event webhookSecret body signature onStripeEvent).

(** ** Onboarding of providers *)

Definition update_participant (id : string) (f : Z -> ParticipantRow -> ParticipantRow) : M unit := exec (fun now d =>
  (tt, match participants d !! id with
       | Some p => d <| participants := <[id := f now p]> (participants d) |>
       | None => d
       end)).

(** [UPDATE participants SET stripe_account_id], under its UNIQUE constraint. *)
Definition sql_set_account (id accountID : string) : M unit := stmt (fun _ d =>
  match participants d !! id with
  | None => Ok (tt, d)
  | Some p =>
      if existsb (fun '(id', p') => negb (bool_decide (id' = id)) &&
           bool_decide (p_stripe_account_id p' = Some accountID)) (map_to_list (participants d)) then Err ErrUnique
      else Ok (tt, d <| participants := <[id := p <| p_stripe_account_id := Some accountID |>]> (participants d) |>)
  end).

Definition validTiers : list string := ["business"; "residential"; "cellular"].

(** The URL the member is sent to. *)
Definition handleProviderOnboarding (baseURL : string) (claims : SessionClaims) (form : option (string * string)) : H string :=
  match form with
  | None => reject StatusBadRequest
  | Some (ispTier, disclosure) =>
      _ ← reject_if (negb (bool_decide (ispTier ∈ validTiers))) StatusBadRequest;
      _ ← reject_if (bool_decide (ispTier = "cellular")) StatusBadRequest;
      _ ← reject_if (negb (bool_decide (disclosure = "true"))) StatusBadRequest;
      _ ← or_500 (update_participant (sc_UserID claims) (fun now p =>
            p <| p_isp_tier := Some ispTier |> <| p_disclosure_accepted_at := Some now |>));
      accountID ← or_500 (CreateConnectedAccount (sc_Email claims) (sc_Email claims));
      _ ← or_500 (sql_set_account (sc_UserID claims) accountID);
      or_500 (CreateOnboardingLink accountID (baseURL +:+ "/provider/onboarding")
        (baseURL +:+ "/provider/onboarding/return"))
  end.

Definition handleProviderOnboardingReturn (claims : SessionClaims) : H string :=
  r ← attempt (query_row (fun _ d => default "" ∘ p_stripe_account_id <$> participants d !! sc_UserID claims));
  match r with
  | Err _ => mret "/provider/onboarding"
  | Ok "" => mret "/provider/onboarding"
  | Ok stripeAccountID =>
      s ← attempt (CheckOnboardingStatus stripeAccountID);
      match s with
      | Err _ => mret "/provider/onboarding"
      | Ok status =>
          if os_TransfersActive status && negb (os_RequirementsPending status) then
            _ ← or_500 (update_participant (sc_UserID claims) (fun _ p =>
                  p <| p_stripe_onboarding_complete := true |> <| p_onboarding_complete := true |>));
            mret "/provider/provision"
          else mret "/provider/onboarding"
      end
  end.

(** [None] renders the page. *)
Definition handleProviderOnboardingPage (claims : SessionClaims) : H (option string) :=
  p ← or_500 (query_row (fun _ d => participants d !! sc_UserID claims));
  mret (if bool_decide (is_Some (p_disclosure_accepted_at p)) && p_stripe_onboarding_complete p
        then Some "/provider/provision" else None).

End Payment.
