(* ===== verification/AccountProofs.v ===== *)
(** Correctness of member accounts: what a login needs, how many passwords a
    client that waits for its answers can try and how the count is evaded, that a registered member can log in, and what the
    payment webhook does. *)
From Stdlib Require Import Ascii.
From S2P Require Import Prelude Float64 Workload Sounding Registry Scheduler Database Lifecycle Effects.
From S2P Require Import Encoding Sha256 Token Allowlist Orchestrator Samples Http Session Limits Account.
Local Open Scope string_scope.
Local Open Scope list_scope.
Local Open Scope Z_scope.

Lemma account_by_email_Some d email id p :
  account_by_email d email = Some (id, p) -> participants d !! id = Some p /\ p_email p = email.
Proof.
  unfold account_by_email. intros Hf. apply find_some in Hf as [Hin He%bool_decide_eq_true].
  split; [|done]. by apply elem_of_map_to_list, list_elem_of_In.
Qed.

Lemma account_by_email_None d email id p :
  account_by_email d email = None -> participants d !! id = Some p -> p_email p <> email.
Proof.
  unfold account_by_email. intros Hf Hp He.
  assert (Hin : In (id, p) (map_to_list (participants d))) by (by apply list_elem_of_In, elem_of_map_to_list).
  apply (find_none _ _ Hf) in Hin. simpl in Hin. by rewrite bool_decide_eq_true_2 in Hin.
Qed.

(** An added account is the one its address finds. *)
Lemma account_by_email_insert d id p :
  account_by_email d (p_email p) = None ->
  account_by_email (d <| participants := <[id := p]> (participants d) |>) (p_email p) = Some (id, p).
Proof.
  intros Hn. destruct (account_by_email (d <| participants := _ |>) (p_email p)) as [[id' p']|] eqn:Hf.
  - apply account_by_email_Some in Hf as [Hl He]. simpl in Hl. apply lookup_insert_Some in Hl as [[<- <-]|[_ Hl]]; [done|].
    by destruct (account_by_email_None _ _ _ _ Hn Hl).
  - eapply account_by_email_None in Hf; [by destruct Hf|]. simpl. by rewrite lookup_insert_eq.
Qed.

Section Login.
Context (Sign : string -> string) (CompareHashAndPassword : string -> string -> bool).

Definition ip_of (remoteAddr : string) : string := default remoteAddr (SplitHostPort remoteAddr).

(** ** Guessing passwords through the handler *)

Lemma Allow_allowance from ip0 ip t rl :
  counted rl -> from <= t -> t - from <= portal_window ->
  counted (Allow portal_max portal_window t ip0 rl).2 /\
  record_allowance portal_max from ((Allow portal_max portal_window t ip0 rl).2 !! ip) <=
    record_allowance portal_max from (rl !! ip).
Proof.
  intros Hc Hf Ht. unfold Allow. destruct (rl !! ip0) as [rec|] eqn:Hr; [|split; [done|simpl; lia]].
  destruct (lapsed portal_window t rec) eqn:Hl; [|split; [done|simpl; lia]]. simpl.
  assert (Hold : at_WindowStart rec < from).
  { destruct (Z.lt_ge_cases (at_WindowStart rec) from) as [|Hge]; [done|].
    rewrite (proj2 (lapsed_false portal_window t rec ltac:(by vm_compute))) in Hl by lia. done. }
  split.
  - intros k. destruct (decide (k = ip0)) as [->|]; [by rewrite lookup_delete_eq|].
    rewrite lookup_delete_ne by done. apply Hc.
  - destruct (decide (ip0 = ip)) as [->|]; [|rewrite lookup_delete_ne by done; lia].
    rewrite lookup_delete_eq, Hr. unfold record_allowance. rewrite (proj2 (Z.ltb_lt _ _) Hold). lia.
Qed.

Definition is_401 (r : result Z string) : bool :=
  match r with Err c => c =? StatusUnauthorized | Ok _ => false end.

Lemma query_row_time {A} (f : Z -> DB -> option A) w r w' : try (query_row f) w = (r, w') -> w_now w <= w_now w'.
Proof.
  unfold try. rewrite query_row_run. unfold next_event. destruct (w_events w); intros [= _ <-]; simpl; lia.
Qed.

Lemma handleLogin_time remoteAddr form rl w r w' :
  handleLogin Sign CompareHashAndPassword remoteAddr form rl w = (r, w') -> w_now w <= w_now w'.
Proof.
  unfold handleLogin. destruct form as [f|]; [|intros [= _ <-]; lia].
  rewrite (bind_eq time_Now _ w (w_now w) w eq_refl). destruct (Allow _ _ _ _ _) as [[] rl1]; [|intros [= _ <-]; lia].
  cbn [negb]. destruct (bool_decide _ || _); [intros [= _ <-]; lia|].
  unfold mbind at 1, M_bind at 1. destruct (try _ w) as [q w1] eqn:Hq. pose proof (query_row_time _ _ _ _ Hq) as Hle.
  destruct q as [q|e]; [|intros [= _ <-]; done]. rewrite (bind_eq time_Now _ w1 (w_now w1) w1 eq_refl).
  destruct q as [[userID p]|e]; [destruct (CompareHashAndPassword _ _)|]; intros [= _ <-]; done.
Qed.

Lemma login_cost from upto ip remoteAddr form rl w r rl' w' :
  handleLogin Sign CompareHashAndPassword remoteAddr form rl w = (Ok (r, rl'), w') ->
  counted rl -> from <= w_now w -> w_now w' <= upto -> upto - from <= portal_window ->
  w_now w <= w_now w' /\ (is_ok r = false -> counted rl' /\
    (if bool_decide (ip_of remoteAddr = ip) && is_401 r then 1 else 0) +
      record_allowance portal_max from (rl' !! ip) <= record_allowance portal_max from (rl !! ip)).
Proof.
  intros Hr Hc Hfrom Hupto Hspan. unfold handleLogin in Hr. fold (ip_of remoteAddr) in Hr.
  destruct form as [f|]; [|injection Hr as <- <- <-; rewrite andb_false_r; split; [lia|split; [done|lia]]].
  apply bind_ok in Hr as (t & w1 & [= <- <-] & Hr).
  set (a := mkTry (ip_of remoteAddr) (w_now w) (w_now w') (w_now w')).
  assert (Htime : w_now w <= w_now w' /\ (is_401 r = true -> (r, rl') = (Err StatusUnauthorized, (try_login portal_max portal_window a rl).2) /\ (try_login portal_max portal_window a rl).1 = true) /\
    (is_ok r = false -> is_401 r = false -> rl' = (Allow portal_max portal_window (w_now w) (ip_of remoteAddr) rl).2)).
  { unfold try_login. subst a. cbn [tr_allow tr_ip tr_now tr_since].
    destruct (Allow portal_max portal_window (w_now w) (ip_of remoteAddr) rl) as [ok rl1]. destruct ok; cbn [negb] in Hr.
    2: { injection Hr as <- <- <-. split_and!; [lia|done|done]. }
    destruct (bool_decide _ || _); [injection Hr as <- <- <-; split_and!; [lia|done|done]|].
    apply bind_ok in Hr as (q & w1 & Hq & Hr). apply query_row_time in Hq.
    apply bind_ok in Hr as (t & w2 & [= <- <-] & Hr).
    destruct q as [[userID p]|e]; [destruct (CompareHashAndPassword _ _)|]; injection Hr as <- <- <-;
      (split_and!; [lia|done|done]). }
  destruct Htime as (Hle & H401 & Hother). split; [done|]. intros Hok.
  destruct (is_401 r) eqn:Hu.
  - destruct (H401 eq_refl) as [[= -> ->] Htrue].
    destruct (try_login_allowance portal_max portal_window from upto ip a rl) as [? Hcost]; try done.
    { unfold within. simpl. lia. }
    rewrite Htrue in Hcost. done.
  - rewrite (Hother Hok eq_refl), andb_false_r. apply Allow_allowance; [done|lia|lia].
Qed.
End Login.

Section Guessing.
Context (Sign : string -> string) (CompareHashAndPassword : string -> string -> bool).

(** Logins served one after the other, with the limiter of the portal. *)
Fixpoint logins (l : list (string * option LoginForm)) (rl : LoginRateLimiter)
    : M (list (result Z string) * LoginRateLimiter) :=
  match l with
  | [] => mret ([], rl)
  | (addr, form) :: l' =>
      '(r, rl) ← handleLogin Sign CompareHashAndPassword addr form rl;
      '(rs, rl) ← logins l' rl;
      mret (r :: rs, rl)
  end.

(** The answers "invalid credentials" an address got. *)
Fixpoint refusals (ip : string) (l : list (string * option LoginForm)) (rs : list (result Z string)) : Z :=
  match l, rs with
  | (addr, _) :: l', r :: rs' => (if bool_decide (ip_of addr = ip) && is_401 r then 1 else 0) + refusals ip l' rs'
  | _, _ => 0
  end.

Lemma logins_cost from upto ip l rl w rs rl' w' :
  logins l rl w = (Ok (rs, rl'), w') -> Forall (fun r => is_ok r = false) rs ->
  counted rl -> from <= w_now w -> w_now w' <= upto -> upto - from <= portal_window ->
  w_now w <= w_now w' /\ refusals ip l rs <= record_allowance portal_max from (rl !! ip).
Proof.
  assert (Hnonneg : forall o, 0 <= record_allowance portal_max from o).
  { intros [rec|]; unfold record_allowance, portal_max; [case_match; lia|lia]. }
  assert (Hmono : forall l rl w rs rl' w', logins l rl w = (Ok (rs, rl'), w') -> w_now w <= w_now w').
  { clear l rl w rs rl' w'. induction l as [|[addr form] l IH]; intros rl w rs rl' w' Hr; cbn [logins] in Hr.
    - injection Hr as _ _ <-. lia.
    - apply bind_ok in Hr as ([r1 rl1] & w1 & H1 & Hr). apply bind_ok in Hr as ([rs1 rl2] & w2 & H2 & Hr).
      injection Hr as _ _ <-. apply IH in H2. apply handleLogin_time in H1. lia. }
  revert rl w rs rl'. induction l as [|[addr form] l IH]; intros rl w rs rl' Hr Hfail Hc Hfrom Hupto Hspan.
  { injection Hr as <- <- <-. simpl. split; [lia|apply Hnonneg]. }
  pose proof (Hmono _ _ _ _ _ _ Hr) as Hall. cbn [logins] in Hr.
  apply bind_ok in Hr as ([r1 rl1] & w1 & H1 & Hr). apply bind_ok in Hr as ([rs1 rl2] & w2 & H2 & Hr).
  injection Hr as <- <- <-. apply Forall_cons in Hfail as [Hf1 Hf2].
  pose proof (Hmono _ _ _ _ _ _ H2) as Hle2.
  destruct (login_cost _ _ from upto ip _ _ _ _ _ _ _ H1 Hc Hfrom ltac:(lia) Hspan) as [Hle1 Hcost].
  destruct (Hcost Hf1) as [Hc1 Hcost1].
  destruct (IH _ _ _ _ H2 Hf2 Hc1 ltac:(lia) Hupto Hspan) as [_ Hrest]. split; [done|]. cbn [refusals]. lia.
Qed.
End Guessing.

(** ** Theorems *)

(** Password guessing by a client that waits for each answer and never logs in: of
    logins served one after the other in any environment (accounts created and
    deleted, the database failing), none of them successful, all within fifteen
    minutes, at most nine get an answer about a password from one address, whatever
    the limiter remembers; the rest are refused unseen.  Neither condition can be
    dropped: a successful login of the guesser's own clears the count
    ([own_login_clears_count]), and requests in flight at the same time are all
    admitted before the first of them is counted. *)
Theorem login_guesses_bounded Sign compare ip l rl w rs rl' w' :
  logins Sign compare l rl w = (Ok (rs, rl'), w') -> Forall (fun r => is_ok r = false) rs ->
  counted rl -> w_now w' - w_now w <= portal_window -> refusals ip l rs <= 9.
Proof.
  intros Hr Hf Hc Hspan.
  destruct (logins_cost Sign compare (w_now w) (w_now w') ip l rl w rs rl' w' Hr Hf Hc) as [_ Hle]; [lia..|].
  specialize (Hc ip). destruct (rl !! ip) as [rec|]; unfold record_allowance, record_counted, portal_max in *;
    [case_match; lia|lia].
Qed.

(** Hashing that stores the password itself. *)
Definition plain_compare (hash password : string) : bool := String.eqb hash password.
Definition plain_generate (password : string) : result Error string := Ok password.

Definition guess : string * option LoginForm := ("10.0.0.1:4711", Some (mkLogin "owner@example.org" "guess")).

Lemma login_guesses_bounded_witness :
  let run := logins (HMAC "k") plain_compare (replicate 8 guess) ∅ sample_world in
  exists rs rl', run = (Ok (rs, rl'), run.2) /\ last rs = Some (Err StatusTooManyRequests) /\
    refusals "10.0.0.1" (replicate 8 guess) rs = 5 /\ refusals "10.0.0.1" (replicate 8 guess) rs <= 9.
Proof.
  cbv zeta. set (run := logins _ _ _ _ _).
  assert (Hrun : exists rs rl', run.1 = Ok (rs, rl') /\ last rs = Some (Err StatusTooManyRequests) /\
    refusals "10.0.0.1" (replicate 8 guess) rs = 5 /\ forallb (fun r => negb (is_ok r)) rs = true /\
    w_now run.2 = w_now sample_world).
  { eexists _, _. split; [vm_compute; reflexivity|]. repeat split; vm_compute; reflexivity. }
  destruct Hrun as (rs & rl' & Hrun & Hlast & Hn & Hf & Hnow). exists rs, rl'.
  assert (Heq : run = (Ok (rs, rl'), run.2)) by (rewrite <- Hrun; apply surjective_pairing).
  split; [exact Heq|]. split; [exact Hlast|]. split; [exact Hn|].
  apply (login_guesses_bounded (HMAC "k") plain_compare "10.0.0.1" (replicate 8 guess) ∅
    sample_world rs rl' run.2).
  - exact Heq.
  - apply Forall_forall. intros r Hr. rewrite forallb_forall in Hf. apply list_elem_of_In, Hf in Hr. by apply negb_true_iff.
  - intros ip. by rewrite lookup_empty.
  - rewrite Hnow. vm_compute. discriminate.
Defined.

(** Four guesses at another's password, then a login to the guesser's own account. *)
Definition guessing_round : list (string * option LoginForm) :=
  replicate 4 guess ++ [("10.0.0.1:4711", Some (mkLogin "consumer@example.org" "hash"))].

Lemma logins_app Sign compare l1 l2 rl w rs1 rl1 w1 rs2 rl2 w2 :
  logins Sign compare l1 rl w = (Ok (rs1, rl1), w1) ->
  logins Sign compare l2 rl1 w1 = (Ok (rs2, rl2), w2) ->
  logins Sign compare (l1 ++ l2) rl w = (Ok (rs1 ++ rs2, rl2), w2).
Proof.
  revert rl w rs1. induction l1 as [|[addr form] l1 IH]; intros rl w rs1 H1 H2; cbn [logins app] in *.
  - by injection H1 as <- <- <-.
  - apply bind_ok in H1 as ([r rl0] & w0 & Hr & H1). apply bind_ok in H1 as ([rs rl'] & w' & Hrs & H1).
    injection H1 as <- <- <-. rewrite (bind_eq _ _ _ _ _ Hr).
    by rewrite (bind_eq _ _ _ _ _ (IH _ _ _ Hrs H2)).
Qed.

Lemma logins_calm Sign compare l rl w : calm w -> (logins Sign compare l rl w).2 = w.
Proof.
  intros Hc. assert (Hone : forall addr form rl, exists r, handleLogin Sign compare addr form rl w = (Ok r, w)).
  { intros addr form rl0. unfold handleLogin. destruct form as [f|]; [|by eexists].
    rewrite (bind_eq time_Now _ w (w_now w) w eq_refl). destruct (Allow _ _ _ _ _) as [[] rl1]; [|by eexists].
    cbn [negb]. destruct (bool_decide _ || _); [by eexists|].
    unfold mbind at 1, M_bind at 1, try. rewrite query_row_run, (next_event_calm w Hc). cbn [fst snd].
    rewrite (bind_eq time_Now _ w (w_now w) w eq_refl).
    destruct (account_by_email _ _) as [[u p]|]; [destruct (compare _ _)|]; by eexists. }
  assert (Hall : exists r, logins Sign compare l rl w = (Ok r, w)).
  { revert rl. induction l as [|[addr form] l IH]; intros rl; cbn [logins]; [by eexists|].
    destruct (Hone addr form rl) as [[r rl1] H1]. destruct (IH rl1) as [[rs rl2] H2].
    rewrite (bind_eq _ _ _ _ _ H1), (bind_eq _ _ _ _ _ H2). by eexists. }
  by destruct Hall as [r ->].
Qed.

Lemma refusals_app ip l1 l2 rs1 rs2 :
  length l1 = length rs1 -> refusals ip (l1 ++ l2) (rs1 ++ rs2) = refusals ip l1 rs1 + refusals ip l2 rs2.
Proof.
  revert rs1. induction l1 as [|[addr form] l1 IH]; intros [|r rs1] Hl; try done.
  simpl in Hl. cbn [app refusals]. rewrite IH by lia. lia.
Qed.

Lemma run_pair {A B} (p : A * B) a b : p.1 = a -> p.2 = b -> p = (a, b).
Proof. destruct p; simpl; by intros -> ->. Qed.

(** A round of logins that leaves the limiter as it was can be repeated. *)
Lemma repeated_round Sign compare ip round answers rl w k n :
  logins Sign compare round rl w = (Ok (answers, rl), w) ->
  refusals ip round answers = k -> length round = length answers ->
  Forall (fun r => r <> Err StatusTooManyRequests) answers ->
  exists rs, logins Sign compare (concat (replicate n round)) rl w = (Ok (rs, rl), w) /\
    Forall (fun r => r <> Err StatusTooManyRequests) rs /\
    refusals ip (concat (replicate n round)) rs = k * Z.of_nat n.
Proof.
  intros Hround Hk Hlen Hany. induction n as [|n (rs & Hr & Hall & Hn)].
  - exists []. split_and!; [done|constructor|simpl; lia].
  - exists (answers ++ rs). cbn [replicate concat]. split_and!.
    + by eapply logins_app.
    + by apply Forall_app.
    + rewrite refusals_app by done. rewrite Hk, Hn. lia.
Qed.

(** The limit is not one for a member: a guesser who logs in to an own account
    after every fourth guess has the count cleared each time and is never refused,
    so any number of guesses is answered within a single instant. *)
Theorem own_login_clears_count n :
  exists rs, logins (HMAC "k") plain_compare (concat (replicate n guessing_round)) ∅ sample_world =
    (Ok (rs, ∅), sample_world) /\
  Forall (fun r => r <> Err StatusTooManyRequests) rs /\
  refusals "10.0.0.1" (concat (replicate n guessing_round)) rs = 4 * Z.of_nat n.
Proof.
  assert (Hround : exists answers,
    (logins (HMAC "k") plain_compare guessing_round ∅ sample_world).1 = Ok (answers, ∅) /\
    refusals "10.0.0.1" guessing_round answers = 4 /\ length guessing_round = length answers /\
    Forall (fun r => r <> Err StatusTooManyRequests) answers).
  { eexists. split; [vm_compute; reflexivity|]. split; [vm_compute; reflexivity|].
    split; [vm_compute; reflexivity|]. repeat constructor; discriminate. }
  destruct Hround as (answers & Hfst & Hfour & Hlen & Hany).
  assert (Hround := run_pair _ _ _ Hfst (logins_calm (HMAC "k") plain_compare guessing_round ∅ sample_world ltac:(by split))).
  exact (repeated_round _ _ _ _ _ _ _ _ n Hround Hfour Hlen Hany).
Qed.

(** C35 A login succeeds only with the password of a stored account: whatever the
    environment does, a session token is handed out only when the account found
    under the given address has a password hash that the given password matches,
    and the token names that account and expires fifteen minutes later. *)
Theorem login_needs_password Sign compare remoteAddr form rl w token rl' w' :
  handleLogin Sign compare remoteAddr form rl w = (Ok (Ok token, rl'), w') ->
  exists f userID p, form = Some f /\
    participants (w_db w') !! userID = Some p /\ p_email p = TrimSpace (lf_email f) /\
    compare (default "" (p_password_hash p)) (lf_password f) = true /\
    token = CreateToken Sign (mkClaims userID (p_email p) (Unix (w_now w' + sessionTTL))).
Proof.
  unfold handleLogin. destruct form as [f|]; [|done]. intros Hr.
  apply bind_ok in Hr as (t & w1 & [= <- <-] & Hr).
  destruct (Allow _ _ _ _ _) as [ok rl1]. destruct ok; [|done]. cbn [negb] in Hr.
  destruct (bool_decide _ || _); [done|].
  apply bind_ok in Hr as (r & w1 & Hq & Hr). apply bind_ok in Hr as (t & w2 & [= <- <-] & Hr).
  destruct r as [[userID p]|e]; [|done].
  destruct (compare _ _) eqn:Hc; [|done]. injection Hr as <- <- <-.
  unfold try in Hq. rewrite query_row_run in Hq.
  destruct (next_event w) as [[[]|] w1'] eqn:Hn; cbn in Hq; try done.
  destruct (account_by_email (w_db w1') (TrimSpace (lf_email f))) as [[id q]|] eqn:Ha; [|done].
  injection Hq as <- <- <-. apply account_by_email_Some in Ha as [Hp He].
  exists f, id, q. split_and!; try done. by rewrite He.
Qed.

Lemma login_needs_password_witness :
  let run := handleLogin (HMAC "k") plain_compare "10.0.0.1:4711"
    (Some (mkLogin " owner@example.org " "hash")) ∅ sample_world in
  exists token rl', run = (Ok (Ok token, rl'), run.2) /\
    exists f userID p, Some (mkLogin " owner@example.org " "hash") = Some f /\
    participants (w_db run.2) !! userID = Some p /\ p_email p = TrimSpace (lf_email f) /\
    plain_compare (default "" (p_password_hash p)) (lf_password f) = true /\
    token = CreateToken (HMAC "k") (mkClaims userID (p_email p) (Unix (w_now run.2 + sessionTTL))).
Proof.
  cbv zeta. set (run := handleLogin _ _ _ _ _ _).
  assert (Hrun : exists token rl', run.1 = Ok (Ok token, rl')) by (eexists _, _; vm_compute; reflexivity).
  destruct Hrun as (token & rl' & Hrun). exists token, rl'.
  assert (Heq : run = (Ok (Ok token, rl'), run.2)) by (rewrite <- Hrun; apply surjective_pairing).
  split; [exact Heq|].
  apply (login_needs_password (HMAC "k") plain_compare "10.0.0.1:4711"
    (Some (mkLogin " owner@example.org " "hash")) ∅ sample_world token rl' run.2). exact Heq.
Defined.

(** Registration and login agree: a member who registers with a new address and a
    password of at least eight bytes is stored and gets a session, and the same
    address and password then log in to the same account, from any address the
    limiter has nothing against.  Asked of bcrypt is only that a password matches
    the hash made from it. *)
Theorem register_then_login Sign compare generate remoteAddr f hash rl w :
  calm w -> TrimSpace (rf_email f) <> "" -> TrimSpace (rf_soho_name f) <> "" -> 8 <= Z.of_nat (String.length (rf_password f)) ->
  account_by_email (w_db w) (TrimSpace (rf_email f)) = None -> participants (w_db w) !! w_uuids w 0 = None ->
  generate (rf_password f) = Ok hash -> compare hash (rf_password f) = true ->
  rl !! ip_of remoteAddr = None ->
  let token := CreateToken Sign (mkClaims (w_uuids w 0) (TrimSpace (rf_email f)) (Unix (w_now w + sessionTTL))) in
  exists w1, handleRegister Sign generate (Some f) w = (Ok (Ok (Registered token)), w1) /\
    handleLogin Sign compare remoteAddr (Some (mkLogin (rf_email f) (rf_password f))) rl w1 =
      (Ok (Ok token, rl), w1).
Proof.
  intros Hc Hemail Hname Hlen Hnew Hid Hgen Hcmp Hrl. cbv zeta.
  assert (Hlook : query_row (fun _ d => account_by_email d (TrimSpace (rf_email f))) w = (Err ErrNoRows, w)).
  { rewrite query_row_run, (next_event_calm w Hc). simpl. by rewrite Hnew. }
  set (w0 := w <| w_uuids := fun n => w_uuids w (S n) |>).
  set (p := mkParticipant None None None false (TrimSpace (rf_email f)) (Some hash) (TrimSpace (rf_soho_name f)) None None false false).
  set (w1 := w0 <| w_db := (w_db w) <| participants := <[w_uuids w 0%nat := p]> (participants (w_db w)) |> |>).
  assert (Hc0 : calm w0) by done. assert (Hc1 : calm w1) by done.
  assert (Hins : sql_insert_participant (w_uuids w 0) (TrimSpace (rf_email f)) hash (TrimSpace (rf_soho_name f)) w0 = (Ok tt, w1)).
  { unfold sql_insert_participant. apply stmt_calm_ok; [done|]. change (w_db w0) with (w_db w).
    rewrite Hid, Hnew. done. }
  exists w1. split.
  - unfold handleRegister. rewrite !bool_decide_eq_false_2 by done. cbn [orb].
    rewrite (proj2 (Z.ltb_ge _ _)) by lia.
    rewrite (hbind_ok _ _ w (Err ErrNoRows) w) by (unfold attempt; by rewrite Hlook). cbn [is_ok]. rewrite Hgen.
    rewrite (hbind_ok _ _ w (w_uuids w 0%nat) w0) by done.
    rewrite (hbind_ok _ _ w0 tt w1) by (by apply or_reject_ok). done.
  - unfold handleLogin. rewrite (bind_eq time_Now _ w1 (w_now w1) w1) by done.
    fold (ip_of remoteAddr). unfold Allow. rewrite Hrl. cbn [negb lf_email lf_password].
    rewrite !bool_decide_eq_false_2 by (try done; intros He; rewrite He in Hlen; simpl in Hlen; lia). cbn [orb].
    rewrite (bind_eq _ _ w1 (Ok (w_uuids w 0%nat, p)) w1).
    2: { unfold try. rewrite (query_row_calm _ w1 (w_uuids w 0%nat, p)); [done|done|].
         exact (account_by_email_insert (w_db w) (w_uuids w 0%nat) p Hnew). }
    rewrite (bind_eq time_Now _ w1 (w_now w1) w1) by done. change (default "" (p_password_hash p)) with hash. rewrite Hcmp. cbn [negb].
    unfold Reset. rewrite delete_id by done. done.
Qed.

Lemma register_then_login_witness :
  let f := mkRegister "New@example.org" "correct horse" "Soho" in
  let token := CreateToken (HMAC "k") (mkClaims (w_uuids sample_world 0) "New@example.org" (Unix (w_now sample_world + sessionTTL))) in
  exists w1, handleRegister (HMAC "k") plain_generate (Some f) sample_world = (Ok (Ok (Registered token)), w1) /\
    handleLogin (HMAC "k") plain_compare "10.0.0.9:80" (Some (mkLogin (rf_email f) (rf_password f))) ∅ w1 =
      (Ok (Ok token, ∅), w1).
Proof.
  cbv zeta. apply (register_then_login (HMAC "k") plain_compare plain_generate "10.0.0.9:80"
    (mkRegister "New@example.org" "correct horse" "Soho") "correct horse" ∅ sample_world).
  - split; reflexivity.
  - vm_compute. discriminate.
  - vm_compute. discriminate.
  - vm_compute. discriminate.
  - vm_compute. reflexivity.
  - vm_compute. reflexivity.
  - reflexivity.
  - vm_compute. reflexivity.
  - apply lookup_empty.
Defined.

(** The payment webhook synchronises nothing: a signed account.updated event, which
    reports that a provider finished the onboarding of the payment service, is
    answered 400 without a write, because the statement addresses a table that a
    migration dropped. *)
Theorem webhook_never_syncs sc secret body signature acct w :
  calm w -> ConstructEvent sc body signature secret = Some (mkStripeEvent "account.updated" (Some acct)) ->
  handleStripeWebhook sc secret body signature w = (Ok (Err StatusBadRequest), w).
Proof.
  intros Hc He. unfold handleStripeWebhook, HandleV1Event. rewrite He. unfold onStripeEvent.
  rewrite bool_decide_eq_true_2 by done. unfold onAccountUpdated, sql_update_providers, or_reject. simpl.
  by rewrite stmt_calm.
Qed.

(** Onboarding again replaces the account but keeps the verdict on the old one: a
    provider whose onboarding is complete and who posts the form once more is bound
    to a new, unverified account of the payment service, and still counts as
    onboarded. *)
Theorem reonboarding_keeps_the_verdict sc baseURL claims p tier account link w :
  calm w -> participants (w_db w) !! sc_UserID claims = Some p -> p_onboarding_complete p = true ->
  tier = "business" \/ tier = "residential" ->
  (forall w, calm w -> V1Accounts_Create sc (sc_Email claims) (sc_Email claims) w = (Ok account, w)) ->
  (forall r1 r2 w, V1AccountLinks_Create sc account r1 r2 w = (Ok link, w)) ->
  (forall id q, participants (w_db w) !! id = Some q -> p_stripe_account_id q <> Some account) ->
  exists w' p', handleProviderOnboarding sc baseURL claims (Some (tier, "true")) w = (Ok (Ok link), w') /\
    participants (w_db w') !! sc_UserID claims = Some p' /\
    p_stripe_account_id p' = Some account /\ p_onboarding_complete p' = true.
Proof.
  intros Hc Hp Hdone Htier Hacct Hlink Hfresh.
  set (p1 := p <| p_isp_tier := Some tier |> <| p_disclosure_accepted_at := Some (w_now w) |>).
  set (d1 := (w_db w) <| participants := <[sc_UserID claims := p1]> (participants (w_db w)) |>).
  set (p2 := p1 <| p_stripe_account_id := Some account |>).
  exists (w <| w_db := d1 <| participants := <[sc_UserID claims := p2]> (participants d1) |> |>), p2.
  split; [|simpl; by rewrite lookup_insert_eq].
  unfold handleProviderOnboarding, reject_if.
  assert (Ht : bool_decide (tier ∈ validTiers) = true /\ bool_decide (tier = "cellular") = false).
  { by destruct Htier as [-> | ->]. }
  destruct Ht as [-> ->]. cbn [negb].
  do 3 rewrite (hbind_ok _ _ w tt w) by done.
  rewrite (hbind_ok _ _ w tt (w <| w_db := d1 |>)).
  2: { apply or_reject_ok. unfold update_participant, exec. apply stmt_calm_ok; [done|]. by rewrite Hp. }
  rewrite (hbind_ok _ _ _ account (w <| w_db := d1 |>)) by (by apply or_reject_ok, Hacct).
  rewrite (hbind_ok _ _ _ tt (w <| w_db := d1 <| participants := <[sc_UserID claims := p2]> (participants d1) |> |>)).
  2: { apply or_reject_ok. unfold sql_set_account. change (w <| w_db := d1 <| participants := <[sc_UserID claims := p2]> (participants d1) |> |>)
         with ((w <| w_db := d1 |>) <| w_db := d1 <| participants := <[sc_UserID claims := p2]> (participants d1) |> |>).
       apply stmt_calm_ok; [done|]. simpl. rewrite lookup_insert_eq.
       destruct (existsb _ _) eqn:Hx; [|done]. apply existsb_exists in Hx as ([id q] & Hin & Hq).
       apply andb_prop in Hq as [Hne Hq%bool_decide_eq_true]. apply negb_true_iff, bool_decide_eq_false in Hne.
       apply list_elem_of_In, elem_of_map_to_list in Hin. rewrite lookup_insert_ne in Hin by done.
       by destruct (Hfresh _ _ Hin). }
  by apply or_reject_ok.
Qed.
