(* ===== verification/OperatorApi.v ===== *)
(** The HTTP surface of the operator registry: authentication of operator
    transmissions (internal/api/operator_auth.go), the public onboarding routes
    (operator_onboarding.go) and the governance routes (governance.go).

    Parsing of JSON documents and of RFC 3339 times, the signing of fee
    declarations and the mail transport are arguments. *)
From Stdlib Require Import Ascii.
From S2P Require Import Prelude Float64 Workload Sounding Registry Database Replay Lifecycle Effects.
From S2P Require Import Encoding Sha256 Operator Conformance Http Notify.
Local Open Scope string_scope.
Local Open Scope list_scope.
Local Open Scope Z_scope.

(** ** OperatorAuth *)

Definition operatorTimestampWindow : Z := 5 * Minute.
Definition operatorNonceRetention : Z := 10 * Minute.

(** The JSON carried base64-encoded in the operator header. *)
Record operatorTransmissionWire := mkWire {
  ow_OperatorID : string; ow_TsUnixNano : Z; ow_Nonce : string; ow_Seq : Z; ow_Algo : string;
  ow_Idx0 : Z; ow_Idx1 : Z; ow_Sig0 : string; ow_Sig1 : string }.

Definition decodeOperatorHeader (unmarshal : string -> option operatorTransmissionWire) (raw : string)
    : option OperatorTransmission :=
  jsonBytes ← StdDecode raw;
  wire ← unmarshal jsonBytes;
  nonce ← StdDecode (ow_Nonce wire);
  sig0 ← StdDecode (ow_Sig0 wire);
  sig1 ← StdDecode (ow_Sig1 wire);
  Some (mkTransmission (ow_OperatorID wire) (ow_TsUnixNano wire) nonce (ow_Seq wire) (ow_Algo wire)
    (ow_Idx0 wire) (ow_Idx1 wire) sig0 sig1).

(** What the middleware needs of the repository. *)
Record operatorVerifier := mkVerifier {
  ov_GetActiveKeyMap : string -> M (gmap Z KeyRecord);
  ov_CheckAndAdvance : string -> string -> Z -> string -> string -> Z -> M unit;
  ov_RecordUsageAndExpire : string -> Z -> Z -> M bool }.

Definition repository : operatorVerifier :=
  mkVerifier GetActiveKeyMap CheckAndAdvance RecordUsageAndExpire.

(** The freshness test on the signed int64, in wrapping arithmetic. *)
Definition stale (now ts : Z) : bool :=
  let delta := to_int64 (now - ts) in
  (operatorTimestampWindow <? delta) || (delta <? - operatorTimestampWindow).

Section OperatorAuth.
Context (P : OpProtocol) (unmarshal : string -> option operatorTransmissionWire).
Context (repo : operatorVerifier) (coordinatorID : string).

(** Everything before [next]: the verified transmission, and whether a key must
    be swapped. *)
Definition authenticate (raw : string) : H (OperatorTransmission * bool) :=
  _ ← reject_if (bool_decide (raw = "")) StatusUnauthorized;
  tx ← match decodeOperatorHeader unmarshal raw with
       | Some tx => mret tx
       | None => reject StatusUnauthorized
       end;
  now ← or_500 time_Now;
  _ ← reject_if (stale now (ot_TsUnixNano tx)) StatusUnauthorized;
  km ← or_reject (fun _ => StatusUnauthorized) (ov_GetActiveKeyMap repo (ot_OperatorID tx));
  _ ← reject_if (negb (transmission_Verify P tx km)) StatusUnauthorized;
  now2 ← or_500 time_Now;
  _ ← or_reject (fun _ => StatusUnauthorized) (ov_CheckAndAdvance repo (ot_OperatorID tx) coordinatorID
        (ot_Seq tx) (ot_Nonce tx) "production" (now2 + operatorNonceRetention));
  swap ← or_500 (ov_RecordUsageAndExpire repo (ot_OperatorID tx) (ot_Idx0 tx) (ot_Idx1 tx));
  mret (tx, swap).

(** The response carries the swap header next to the body of [next]. *)
Definition OperatorAuth {A} (raw : string) (ctx : Ctx) (next : Ctx -> H A) : H (bool * A) :=
  '(tx, swap) ← authenticate raw;
  a ← next (mkCtx (ctx_spiffe ctx) (Some (ot_OperatorID tx)));
  mret (swap, a).

Definition OperatorOrSPIFFE {A} (raw : string) (ctx : Ctx) (spiffeGated : H A)
    (operatorNext : Ctx -> H A) : H (bool * A) :=
  if negb (bool_decide (raw = "")) then OperatorAuth raw ctx operatorNext
  else a ← spiffeGated; mret (false, a).

End OperatorAuth.

(** ** Onboarding *)

Section Onboarding.
Context `{MapOrder} (P : OpProtocol) (collate : string -> string -> bool).
Context (thresholds : list Z).

Context (Send : Message -> M unit).

Definition slug_char (a : ascii) : bool :=
  let n := byte_of a in
  ((97 <=? n) && (n <=? 122)) || ((48 <=? n) && (n <=? 57)) || (n =? 45).
(** [^[a-z0-9-]{1,64}$] *)
Definition operatorSlugPattern (s : string) : bool :=
  let n := Z.of_nat (String.length s) in
  (1 <=? n) && (n <=? 64) && forallb slug_char (String.list_ascii_of_string s).

Record applyRequest := mkApply { ap_Slug : string; ap_Name : string; ap_Email : string; ap_Phone : string }.

Definition handleApply (body : Body applyRequest) : H string :=
  req ← decode body;
  let slug := TrimSpace (ap_Slug req) in
  let name := TrimSpace (ap_Name req) in
  _ ← reject_if (bool_decide (slug = "") || bool_decide (name = "") ||
        bool_decide (TrimSpace (ap_Email req) = "")) StatusBadRequest;
  _ ← reject_if (negb (operatorSlugPattern slug)) StatusBadRequest;
  _ ← or_reject (fun e => if bool_decide (e = ErrDuplicateOperator) then StatusConflict
                          else StatusInternalServerError)
        (CreateOperator slug name (ap_Email req) (ap_Phone req));
  mret slug.

Record registerKeysRequest := mkRegisterKeys { rk_Algo : string; rk_PublicKeys : list string }.

Definition decode_key (b64 : string) : option string :=
  raw ← StdDecode (TrimSpace b64);
  if Z.of_nat (String.length raw) =? 32 then Some raw else None.

Definition defaultThresholds : list Z := replicate (Z.to_nat KeyIndexCount) 365.
Definition server_thresholds : list Z :=
  if Z.of_nat (length thresholds) =? KeyIndexCount then thresholds else defaultThresholds.

Definition register_keys_status (e : Error) : Z :=
  if bool_decide (e = ErrOperatorNotFound) then StatusNotFound
  else if bool_decide (e = ErrKeysetCountMismatch) then StatusBadRequest
  else StatusConflict.

Definition handleRegisterKeys (id : string) (body : Body registerKeysRequest) : H unit :=
  req ← decode body;
  let algo := if bool_decide (rk_Algo req = "") then AlgoEd25519 else rk_Algo req in
  _ ← reject_if (negb (bool_decide (algo = AlgoEd25519))) StatusBadRequest;
  _ ← reject_if (negb (Z.of_nat (length (rk_PublicKeys req)) =? KeyIndexCount)) StatusBadRequest;
  match mapM decode_key (rk_PublicKeys req) with
  | None => reject StatusBadRequest
  | Some pubs => or_reject register_keys_status (AddKeys id pubs algo server_thresholds)
  end.

Record verifyStartRequest := mkVerifyStart { vs_Channel : string; vs_SessionID : string }.

Definition verify_start_status (e : Error) : Z :=
  if bool_decide (e = ErrOperatorNotFound) then StatusNotFound
  else if bool_decide (e = ErrVerificationRateLimited) then StatusTooManyRequests
  else if bool_decide (e = ErrVerificationSessionActive) then StatusConflict
  else StatusInternalServerError.

Definition code_message (email code : string) : Message :=
  mkMessage email "Your SoHoLINK operator verification code"
    ("Your verification code is: " +:+ code +:+
     String.string_of_list_ascii [ascii_of 10; ascii_of 10] +:+ "It expires in 10 minutes.").

(** [n] is the random number behind the code. *)
Definition handleVerifyStart (n : Z) (id : string) (body : Body verifyStartRequest) : H unit :=
  req ← decode body;
  _ ← reject_if (negb (bool_decide (vs_Channel req = "")) &&
        negb (bool_decide (vs_Channel req = VerificationChannelEmail))) StatusBadRequest;
  _ ← reject_if (bool_decide (TrimSpace (vs_SessionID req) = "")) StatusBadRequest;
  '(code, email) ← or_reject verify_start_status (IssueEmailCode n id (vs_SessionID req));
  or_reject (fun _ => StatusBadGateway) (Send (code_message email code)).

Record verifyCheckRequest := mkVerifyCheck { vc_Channel : string; vc_SessionID : string; vc_Code : string }.

Definition verify_check_status (e : Error) : Z :=
  if bool_decide (e = ErrVerificationNotFound) then StatusBadRequest
  else if bool_decide (e = ErrVerificationExpired) then StatusGone
  else if bool_decide (e = ErrVerificationSessionMismatch) then StatusUnauthorized
  else if bool_decide (e = ErrVerificationTooManyAttempts) then StatusTooManyRequests
  else if bool_decide (e = ErrVerificationCodeMismatch) then StatusUnauthorized
  else StatusInternalServerError.

Definition handleVerifyCheck (id : string) (body : Body verifyCheckRequest) : H unit :=
  req ← decode body;
  _ ← reject_if (bool_decide (TrimSpace (vc_SessionID req) = "") ||
        bool_decide (TrimSpace (vc_Code req) = "")) StatusBadRequest;
  _ ← or_reject verify_check_status (CheckEmailCode id (vc_SessionID req) (vc_Code req));
  ignoring (AutoActivate id).

Definition handleConformanceStart (dr : Draws) (id : string)
    : H (string * list ChallengeA * list ChallengeB) :=
  or_reject (fun e => if bool_decide (e = ErrKeysetCountMismatch) then StatusBadRequest
                      else StatusInternalServerError)
    (StartConformanceRun P collate dr id).

Record conformanceSubmitRequest := mkConformanceSubmit { su_SuiteA : list ResponseA; su_SuiteB : list ResponseB }.

Definition grade_status (e : Error) : Z :=
  if bool_decide (e = ErrConformanceRunNotFound) then StatusNotFound else StatusInternalServerError.

Fixpoint grade_all {R} (grade : R -> M ChallengeResult) (rs : list R) : H (list ChallengeResult) :=
  match rs with
  | [] => mret []
  | r :: rs' =>
      res ← or_reject grade_status (grade r);
      rest ← grade_all grade rs';
      mret (res :: rest)
  end.

(** The results, whether the run passed and whether the operator was activated;
    [nonceC] is the nonce drawn for suite C. *)
Definition handleConformanceSubmit (nonceC id runID : string) (body : Body conformanceSubmitRequest)
    : H (list ChallengeResult * bool * bool) :=
  req ← decode body;
  resA ← grade_all (GradeSuiteA P id runID) (su_SuiteA req);
  resB ← grade_all (GradeSuiteB P id runID) (su_SuiteB req);
  resC ← or_reject grade_status (GradeSuiteC nonceC id runID);
  fin ← attempt (FinalizeRun id runID);
  passed ← match fin with
           | Ok b => mret b
           | Err e => if bool_decide (e = ErrConformanceNotReady) then mret false
                      else reject StatusInternalServerError
           end;
  activated ← (if passed : bool then r ← attempt (AutoActivate id); mret (is_ok r) else mret false);
  mret ((resA ++ resB) ++ [resC], passed, activated).

End Onboarding.

(** ** Governance *)

Section Governance.
Context (coordinatorID : string) (Sign : FeeDeclaration -> string).
Context (parse_RFC3339 : string -> option Z) (Send : Message -> M unit).
Context (collate : string -> string -> bool).

Record publishFeesRequest := mkPublishFees {
  pf_ContributorShareBps : Z; pf_PlatformFeeBps : Z; pf_Seq : Z; pf_EffectiveAt : string }.

Definition fee_status (e : Error) : Z :=
  if bool_decide (e = ErrFeeSeqNotMonotonic) then StatusConflict
  else if bool_decide (e = ErrFeeEffectiveAtRetroactive) then StatusConflict
  else StatusInternalServerError.

Definition handlePublishFees (body : Body publishFeesRequest) : H FeeDeclaration :=
  req ← decode body;
  _ ← reject_if ((pf_ContributorShareBps req <? 0) || (pf_PlatformFeeBps req <? 0)) StatusBadRequest;
  match parse_RFC3339 (TrimSpace (pf_EffectiveAt req)) with
  | None => reject StatusBadRequest
  | Some effectiveAt =>
      let unsigned := mkFeeDeclaration coordinatorID (pf_ContributorShareBps req)
        (pf_PlatformFeeBps req) effectiveAt (pf_Seq req) "" in
      let decl := mkFeeDeclaration coordinatorID (pf_ContributorShareBps req)
        (pf_PlatformFeeBps req) effectiveAt (pf_Seq req) (Sign unsigned) in
      _ ← or_reject fee_status (PublishFeeDeclaration decl);
      mret decl
  end.

Definition handleCurrentFees : H FeeDeclaration :=
  or_reject (fun e => if bool_decide (e = ErrNoFeeDeclaration) then StatusNotFound
                      else StatusInternalServerError) (CurrentFeeDeclaration coordinatorID).

Definition lifecycle_status (e : Error) : Z :=
  if bool_decide (e = ErrOperatorNotFound) then StatusNotFound else StatusInternalServerError.

Definition handleRevoke (id : string) : H unit := or_reject lifecycle_status (Revoke id).
Definition handleDisconnect (id : string) : H unit := or_reject lifecycle_status (Disconnect id).

Record sendMessageRequest := mkSendMessage {
  sm_Subject : string; sm_Body : string; sm_Operators : bool; sm_Members : bool }.

(** [SELECT email FROM participants WHERE email <> '' ORDER BY email] *)
Definition MemberEmails : M (list string) :=
  rows ← query (fun _ d => isort string collate (List.filter (fun e => negb (bool_decide (e = "")))
    ((fun '(_, p) => p_email p) <$> map_to_list (participants d))));
  mret (collect_emails ∅ rows).

(** The closure [add]: recipients not seen yet, in order. *)
Fixpoint add_recipients (recipients emails : list string) : list string :=
  match emails with
  | [] => recipients
  | e :: rest => add_recipients (if bool_decide (e ∈ recipients) then recipients else recipients ++ [e]) rest
  end.

(** The addresses that failed, and the number that succeeded. *)
Fixpoint send_all (subject body : string) (recipients : list string) : H (list string * Z) :=
  match recipients with
  | [] => mret ([], 0)
  | to :: rest =>
      r ← attempt (Send (mkMessage to subject body));
      '(bad, sent) ← send_all subject body rest;
      mret (if is_ok r then (bad, sent + 1) else (to :: bad, sent))
  end.

Definition handleSendMessage (body : Body sendMessageRequest) : H (Z * Z * list string) :=
  req ← decode body;
  let subject := TrimSpace (sm_Subject req) in
  _ ← reject_if (bool_decide (subject = "") || bool_decide (TrimSpace (sm_Body req) = "")) StatusBadRequest;
  _ ← reject_if (negb (sm_Operators req) && negb (sm_Members req)) StatusBadRequest;
  ops ← (if sm_Operators req then or_500 (OperatorEmails collate) else mret []);
  mems ← (if sm_Members req then or_500 MemberEmails else mret []);
  let recipients := add_recipients (add_recipients [] ops) mems in
  '(bad, sent) ← send_all subject (sm_Body req) recipients;
  mret (Z.of_nat (length recipients), sent, bad).

End Governance.
