(* ===== verification/OperatorProofs.v ===== *)
(** Correctness of the operator registry: replay protection, authentication,
    activation, email verification, the key floor and the fee declarations. *)
From S2P Require Import Prelude Float64 Workload Sounding Registry Scheduler Database Replay Lifecycle Effects.
From S2P Require Import Encoding Sha256 Token Allowlist Orchestrator Samples Operator Conformance Http OperatorApi.
Local Open Scope string_scope.
Local Open Scope list_scope.
Local Open Scope Z_scope.

(** ** Undisturbed runs over the operator tables *)

(** The world with other operator tables. *)
Definition with_ops (t : OpTables) (w : World) : World :=
  w <| w_db := (w_db w) <| op_tables := t |> |>.
Definition ops (w : World) : OpTables := op_tables (w_db w).

Lemma ops_with t w : ops (with_ops t w) = t.
Proof. done. Qed.
Lemma with_ops_twice t t' w : with_ops t (with_ops t' w) = with_ops t w.
Proof. done. Qed.
Lemma with_ops_id w : with_ops (ops w) w = w.
Proof. by destruct w as [[] ? ? ? ? ? ?]. Qed.
Lemma with_ops_calm t w : calm w -> calm (with_ops t w).
Proof. done. Qed.
#[export] Hint Resolve with_ops_calm : soho.

Section calm.
Context {A : Type}.

Lemma op_exec_calm (f : Z -> OpTables -> A * OpTables) w :
  calm w -> op_exec f w = (Ok (f (w_now w) (ops w)).1, with_ops (f (w_now w) (ops w)).2 w).
Proof.
  intros Hc. unfold op_exec, exec, ops. destruct (f (w_now w) (op_tables (w_db w))) as [a t] eqn:Hf.
  erewrite stmt_calm_ok; [|done|by rewrite Hf]. done.
Qed.

Lemma op_insert_calm f w :
  calm w -> op_insert f w = match f (w_now w) (ops w) with
    | Ok t => (Ok tt, with_ops t w) | Err e => (Err e, w) end.
Proof.
  intros Hc. unfold op_insert, ops. rewrite stmt_calm by done. unfold run_stmt.
  destruct Hc as [_ ->]. by destruct (f _ _).
Qed.

Lemma op_query_calm (f : OpTables -> A) w : calm w -> op_query f w = (Ok (f (ops w)), w).
Proof.
  intros Hc. unfold op_query, query, ops. erewrite stmt_calm_ok; [|done|done]. by destruct w.
Qed.

Lemma op_row_calm (f : OpTables -> option A) w :
  calm w -> op_row f w = (match f (ops w) with Some a => Ok a | None => Err ErrNoRows end, w).
Proof.
  intros Hc. unfold op_row, query_row, ops. rewrite stmt_calm by done. unfold run_stmt.
  destruct (f _); [by destruct w|done].
Qed.

Lemma no_rows_as_calm e (f : OpTables -> option A) w :
  calm w -> no_rows_as e (op_row f) w = (match f (ops w) with Some a => Ok a | None => Err e end, w).
Proof.
  intros Hc. unfold no_rows_as, mbind, M_bind, try. rewrite op_row_calm by done.
  by destruct (f (ops w)).
Qed.

Lemma in_tx_ending_calm (m : M (TxEnd A)) w r w1 :
  calm w -> w_tx w = None -> m (w <| w_tx := Some (w_now w) |>) = (Ok r, w1) ->
  calm w1 -> transaction_ending m w =
    match r with
    | Committing r => (r, w1 <| w_tx := None |>)
    | RollingBack r => (r, w1 <| w_db := w_db w |> <| w_tx := None |>)
    end.
Proof.
  intros Hc Ht Hm Hc1. unfold transaction_ending.
  rewrite (bind_eq _ _ _ _ _ (next_event_calm w Hc)). unfold in_tx_ending. rewrite Hm.
  destruct r; [|done]. by rewrite next_event_calm by done.
Qed.
End calm.

(** ** Statements inside a transaction *)

Section tx.
Context (t0 : Z) {A : Type} (P : DB -> Prop).

Lemma op_tables_set d t : op_tables (d <| op_tables := t |>) = t.
Proof. done. Qed.

Lemma tx_op_exec (f : Z -> OpTables -> A * OpTables) Q :
  (forall d, P d -> Q (f t0 (op_tables d)).1 (d <| op_tables := (f t0 (op_tables d)).2 |>)) ->
  tx_triple t0 P (op_exec f) Q.
Proof.
  intros Hf. apply tx_stmt. intros d a d' Hp. specialize (Hf d Hp).
  destruct (f t0 (op_tables d)) as [x t]. by intros [= <- <-].
Qed.

Lemma tx_op_insert f Q :
  (forall d t, P d -> f t0 (op_tables d) = Ok t -> Q tt (d <| op_tables := t |>)) ->
  tx_triple t0 P (op_insert f) Q.
Proof.
  intros Hf. apply tx_stmt. intros d a d' Hp. specialize (Hf d).
  destruct (f t0 (op_tables d)) as [t|e]; [|done]. intros [= <- <-]. by apply Hf.
Qed.

Lemma tx_op_query (f : OpTables -> A) Q :
  (forall d, P d -> Q (f (op_tables d)) d) -> tx_triple t0 P (op_query f) Q.
Proof. intros Hf. apply tx_stmt. intros d a d' Hp [= <- <-]. by apply Hf. Qed.

Lemma tx_try_op_row (f : OpTables -> option A) Q :
  (forall d a, P d -> f (op_tables d) = Some a -> Q (Ok a) d) ->
  (forall d, P d -> f (op_tables d) = None -> Q (Err ErrNoRows) d) ->
  (forall d, P d -> Q (Err ErrConn) d) -> tx_triple t0 P (try (op_row f)) Q.
Proof.
  intros Hs Hn Hc. apply tx_try_stmt.
  - intros d a d' Hp. destruct (f (op_tables d)) eqn:Hf; [|done]. intros [= <- <-]. auto.
  - intros d e Hp [Hf| ->]; [|auto]. destruct (f (op_tables d)) eqn:Hf'; [done|]. injection Hf as <-. auto.
Qed.

Lemma tx_no_rows_as e (f : OpTables -> option A) Q :
  (forall d a, P d -> f (op_tables d) = Some a -> Q a d) -> tx_triple t0 P (no_rows_as e (op_row f)) Q.
Proof.
  intros Hf. unfold no_rows_as. eapply (tx_bind _ _ _ _ (fun r d => forall a, r = Ok a -> Q a d)).
  - apply tx_try_op_row; [|done..]. intros d a Hp Ha ? [= <-]. eauto.
  - intros [a|x]; [|destruct x; apply tx_fail].
    eapply tx_conseq; [apply (tx_ret t0 a Q)| |done]. intros d Hd. by apply Hd.
Qed.

Lemma tx_unique_as e (f : Z -> OpTables -> result Error OpTables) Q :
  (forall d t, P d -> f t0 (op_tables d) = Ok t -> Q tt (d <| op_tables := t |>)) ->
  tx_triple t0 P (unique_as e (op_insert f)) Q.
Proof.
  intros Hf. unfold unique_as. eapply (tx_bind _ _ _ _ (fun r d => r = Ok tt -> Q tt d)).
  - apply tx_try_stmt; [|done]. intros d a d' Hp. specialize (Hf d).
    destruct (f t0 (op_tables d)) as [t|x]; [|done]. intros [= <- <-]. split; [|done]. intros _. by apply Hf.
  - intros [[]|x]; [|destruct x; apply tx_fail].
    eapply tx_conseq; [apply (tx_ret t0 tt Q)| |done]. auto.
Qed.

Lemma tx_ensure b e Q : (forall d, P d -> b = true -> Q tt d) -> tx_triple t0 P (ensure b e) Q.
Proof.
  intros Hb. unfold ensure. destruct b; [|apply tx_fail].
  eapply tx_conseq; [apply (tx_ret t0 tt Q)| |done]. auto.
Qed.
End tx.

Lemma sym_fwd_ret t0 d0 {A} (a : A) : tx_triple t0 (fun d => d = d0) (mret a) (fun x d => d = d0 /\ x = a).
Proof. eapply tx_conseq; [apply (tx_ret t0 a (fun x d => d = d0 /\ x = a))| |done]. done. Qed.

Definition keyset_hash (id : string) (t : OpTables) : string * Z :=
  (hashSortedPubkeys (ok_public_key <$> active_keys id t), Z.of_nat (length (active_keys id t))).

(** Symbolic execution of a transaction from the database [Begin] saw. *)
Section symbolic.
Context (t0 : Z) (d0 : DB) {A B : Type} (Q : B -> DB -> Prop).
#[local] Notation from d m := (tx_triple t0 (fun d' => d' = d) m Q).

Lemma sym_ret b : Q b d0 -> from d0 (mret b).
Proof. intros Hq. eapply tx_conseq; [apply (tx_ret t0 b Q)| |done]. by intros d ->. Qed.

Lemma sym_ensure b e (k : unit -> M B) : (b = true -> from d0 (k tt)) -> from d0 (ensure b e ≫= k).
Proof.
  intros Hk. unfold ensure. destruct b.
  - eapply tx_bind; [apply (sym_fwd_ret t0 d0)|]. intros [] w r w' Ht [Hd _]. by apply Hk.
  - apply (tx_bind _ _ _ _ (fun _ _ => False)); [apply tx_fail|]. intros a w r w' _ [].
Qed.

Lemma sym_row e (f : OpTables -> option A) (k : A -> M B) :
  (forall a, f (op_tables d0) = Some a -> from d0 (k a)) -> from d0 (no_rows_as e (op_row f) ≫= k).
Proof.
  intros Hk. apply (tx_bind _ _ _ _ (fun a d => d = d0 /\ f (op_tables d0) = Some a)).
  - apply tx_no_rows_as. by intros d a -> ?.
  - intros a w r w' Ht [Hd Ha]. by apply (Hk a Ha).
Qed.

Lemma sym_query (f : OpTables -> A) (k : A -> M B) :
  from d0 (k (f (op_tables d0))) -> from d0 (op_query f ≫= k).
Proof.
  intros Hk. apply (tx_bind _ _ _ _ (fun a d => d = d0 /\ a = f (op_tables d0))).
  - apply tx_op_query. by intros d ->.
  - intros a w r w' Ht [Hd ->]. by apply Hk.
Qed.

Lemma sym_hash id (k : string * Z -> M B) :
  from d0 (k (keyset_hash id (op_tables d0))) -> from d0 (activeKeysetHash id ≫= k).
Proof.
  intros Hk. apply (tx_bind _ _ _ _ (fun a d => d = d0 /\ a = keyset_hash id (op_tables d0))).
  - unfold activeKeysetHash. apply (tx_bind _ _ _ _ (fun a d => d = d0 /\ a = active_keys id (op_tables d0))).
    + apply tx_op_query. by intros d ->.
    + intros rows w r w' Ht [Hd ->]. rewrite <- Hd. apply (sym_fwd_ret t0 (w_db w)); done.
  - intros a w r w' Ht [Hd ->]. by apply Hk.
Qed.

Lemma sym_exec (f : Z -> OpTables -> A * OpTables) (k : A -> M B) :
  from (d0 <| op_tables := (f t0 (op_tables d0)).2 |>) (k (f t0 (op_tables d0)).1) ->
  from d0 (op_exec f ≫= k).
Proof.
  intros Hk. apply (tx_bind _ _ _ _ (fun a d => a = (f t0 (op_tables d0)).1 /\
    d = d0 <| op_tables := (f t0 (op_tables d0)).2 |>)).
  - apply tx_op_exec. by intros d ->.
  - intros a w r w' Ht [-> Hd]. by apply Hk.
Qed.

Lemma sym_now (k : Z -> M B) : (forall now, from d0 (k now)) -> from d0 (time_Now ≫= k).
Proof. intros Hk. eapply tx_bind; [apply (tx_gets t0 (fun d => d = d0))|]. apply Hk. Qed.
End symbolic.

(** ** Replay protection *)

(** The numbers [seen] from an operator at a coordinator are what its row
    represents. *)
Definition seen_at (d : DB) (key : string * string) (seen : gset Z) : Prop :=
  match operator_replay (op_tables d) !! key with
  | None => seen = ∅
  | Some r => window_rep (to_uint64 (rp_seq_high r)) (rp_seq_window r) seen
  end.

(** Every row is a well-formed window: the default row or one the code stored. *)
Definition windows_wf (d : DB) : Prop := forall key, exists seen, seen_at d key seen.

(** A transmission that can no longer be accepted: its nonce was used, or its
    number was accepted before from this operator. *)
Definition spent (id coord : string) (seq : Z) (nonce : string) (d : DB) : Prop :=
  is_Some (operator_nonces (op_tables d) !! nonce) \/
  exists seen, seen_at d (id, coord) seen /\ seq ∈ seen.

(** Nonces stay used and accepted numbers stay accepted. *)
Definition replay_le (d d' : DB) : Prop :=
  (forall n, is_Some (operator_nonces (op_tables d) !! n) -> is_Some (operator_nonces (op_tables d') !! n)) /\
  (forall key seen, seen_at d key seen -> exists seen', seen ⊆ seen' /\ seen_at d' key seen').

#[export] Instance replay_le_preorder : PreOrder replay_le.
Proof.
  split.
  - intros d. split; [done|]. intros key seen Hs. by exists seen.
  - intros d1 d2 d3 [Hn12 Hs12] [Hn23 Hs23]. split; [auto|]. intros key seen Hs.
    destruct (Hs12 _ _ Hs) as (s2 & ? & H2). destruct (Hs23 _ _ H2) as (s3 & ? & H3).
    exists s3. split; [by etrans|done].
Qed.

Lemma replay_le_same d d' :
  operator_nonces (op_tables d') = operator_nonces (op_tables d) ->
  operator_replay (op_tables d') = operator_replay (op_tables d) -> replay_le d d'.
Proof.
  intros Hn Hr. split; [by rewrite Hn|]. intros key seen Hs. exists seen. split; [done|].
  unfold seen_at in *. by rewrite Hr.
Qed.

Lemma spent_mono id coord seq nonce d d' :
  replay_le d d' -> spent id coord seq nonce d -> spent id coord seq nonce d'.
Proof.
  intros [Hn Hs] [Hx|(seen & Hx & Hin)]; [left; auto|right].
  destruct (Hs _ _ Hx) as (seen' & Hsub & Hx'). exists seen'. split; [done|]. by apply Hsub.
Qed.

Lemma windows_wf_mono d d' : replay_le d d' -> windows_wf d -> windows_wf d'.
Proof.
  intros [_ Hs] Hwf key. destruct (Hwf key) as [seen Hx]. destruct (Hs _ _ Hx) as (seen' & _ & ?). eauto.
Qed.

(** What the transaction of [CheckAndAdvance] does when it gets to its end. *)
Definition advanced (id coord : string) (seq : Z) (nonce : string) (d0 d : DB) : Prop :=
  operator_nonces (op_tables d0) !! nonce = None /\
  is_Some (operator_nonces (op_tables d) !! nonce) /\
  (forall n, is_Some (operator_nonces (op_tables d0) !! n) -> is_Some (operator_nonces (op_tables d) !! n)) /\
  (forall key, key <> (id, coord) ->
     operator_replay (op_tables d) !! key = operator_replay (op_tables d0) !! key) /\
  exists row high window, default (mkReplay 0 zero_window) (operator_replay (op_tables d0) !! (id, coord)) = row /\
    advanceWindow (to_uint64 (rp_seq_high row)) (rp_seq_window row) seq = Some (high, window) /\
    operator_replay (op_tables d) !! (id, coord) = Some (mkReplay (to_int64 high) window).

Lemma CheckAndAdvance_tx id coord seq nonce scope expiry d0 t0 :
  tx_triple t0 (fun d => d = d0)
    (_ ← unique_as ErrReplay (sql_insert_nonce nonce id scope expiry);
     row ← sql_load_window id coord;
     match advanceWindow (to_uint64 (rp_seq_high row)) (rp_seq_window row) seq with
     | None => fail ErrReplay
     | Some (newHigh, newWindow) => sql_store_window id coord (mkReplay (to_int64 newHigh) newWindow)
     end)
    (fun _ d => advanced id coord seq nonce d0 d).
Proof.
  set (K := fun d => operator_nonces (op_tables d0) !! nonce = None /\
    d = d0 <| op_tables := (op_tables d0) <| operator_nonces :=
      <[nonce := mkNonce id scope expiry t0]> (operator_nonces (op_tables d0)) |> |>).
  apply (tx_bind _ _ _ _ (fun _ d => K d)).
  { apply tx_unique_as. intros d t ->. destruct (operator_nonces _ !! nonce) eqn:Hn; [done|].
    by intros [= <-]. }
  intros _. eapply tx_bind with (R := fun row d => operator_nonces (op_tables d0) !! nonce = None /\
    row = default (mkReplay 0 zero_window) (operator_replay (op_tables d0) !! (id, coord)) /\
    operator_nonces (op_tables d) = <[nonce := mkNonce id scope expiry t0]> (operator_nonces (op_tables d0)) /\
    operator_replay (op_tables d) = <[(id, coord) := row]> (operator_replay (op_tables d0))).
  { unfold sql_load_window, op_exec, exec. apply tx_stmt. intros d a d' [Hn ->]. simpl.
    destruct (operator_replay (op_tables d0) !! (id, coord)) as [r|] eqn:Hr; intros [= <- <-]; [|done].
    split_and!; [done..|]. simpl. by rewrite insert_id. }
  intros row. destruct (advanceWindow _ _ seq) as [[high window]|] eqn:Hadv; [|apply tx_fail].
  unfold sql_store_window, op_exec, exec. apply tx_stmt. intros d a d' (Hn & Hrow & Hnon & Hrep).
  rewrite Hrep, lookup_insert_eq. intros [= <- <-]. unfold advanced. simpl. rewrite Hnon.
  split_and!; [done|rewrite lookup_insert_eq; eauto| | |].
  - intros n [x Hx]. destruct (decide (n = nonce)) as [->|]; [by rewrite lookup_insert_eq|].
    rewrite lookup_insert_ne by done. eauto.
  - intros key Hk. by rewrite !lookup_insert_ne by done.
  - exists row, high, window. split_and!; [done..|]. by rewrite lookup_insert_eq.
Qed.

(** An accepted number is added to what the row represents. *)
Lemma advanced_seen id coord seq nonce d0 d seen :
  is_uint64 seq -> advanced id coord seq nonce d0 d -> seen_at d0 (id, coord) seen ->
  seq ∉ seen /\ seen_at d (id, coord) ({[seq]} ∪ seen).
Proof.
  intros Hq (_ & _ & _ & _ & row & high & window & Hrow & Hadv & Hnew) Hs.
  assert (Hrep : window_rep (to_uint64 (rp_seq_high row)) (rp_seq_window row) seen).
  { unfold seen_at in Hs. destruct (operator_replay (op_tables d0) !! (id, coord)) as [r|]; simpl in Hrow.
    - by subst.
    - subst. exact zero_window_rep. }
  pose proof (advanceWindow_spec _ _ _ seq Hrep ltac:(destruct Hq; lia)) as Hspec.
  destruct (fresh_seq seen seq) eqn:Hf; [|by rewrite Hspec in Hadv].
  apply fresh_seq_true in Hf as [Hf _]. split; [done|].
  destruct Hspec as (h & w & Heq & Hrep'). rewrite Heq in Hadv. injection Hadv as <- <-.
  unfold seen_at. rewrite Hnew. simpl. rewrite uint64_int64_roundtrip; [done|].
  destruct Hrep' as (_ & _ & Hin & Hb & _). specialize (Hin ltac:(set_solver)).
  apply elem_of_union in Hin as [->%elem_of_singleton|Hin]; [done|].
  destruct Hrep as (_ & _ & _ & Hs' & _). specialize (Hs' _ Hin). unfold is_uint64, to_uint64 in *.
  pose proof (Z.mod_pos_bound (rp_seq_high row) (2 ^ 64)). unfold uint64_max. lia.
Qed.

Lemma advanced_le id coord seq nonce d0 d :
  is_uint64 seq -> advanced id coord seq nonce d0 d -> replay_le d0 d.
Proof.
  intros Hq Hadv. pose proof Hadv as (_ & _ & Hn & Hr & _). split; [done|]. intros key seen Hs.
  destruct (decide (key = (id, coord))) as [->|Hk].
  - destruct (advanced_seen _ _ _ _ _ _ _ Hq Hadv Hs) as [_ Hs']. exists ({[seq]} ∪ seen).
    split; [set_solver|done].
  - exists seen. split; [done|]. unfold seen_at in *. by rewrite Hr.
Qed.

Lemma preserves_CheckAndAdvance id coord seq nonce scope expiry :
  is_uint64 seq -> preserves replay_le (CheckAndAdvance id coord seq nonce scope expiry).
Proof.
  intros Hq. unfold CheckAndAdvance. refine (preserves_tx _ _ _). intros d0 t0.
  eapply tx_conseq; [apply (CheckAndAdvance_tx _ _ _ _ _ _ d0 t0)|done|]. intros a d. by apply advanced_le.
Qed.

(** An accepted transmission was not spent before and is spent afterwards. *)
Lemma CheckAndAdvance_ok id coord seq nonce scope expiry w w' :
  is_uint64 seq -> respects replay_le (w_events w) -> windows_wf (w_db w) ->
  CheckAndAdvance id coord seq nonce scope expiry w = (Ok tt, w') ->
  ~ spent id coord seq nonce (w_db w) /\
  (forall id' seq' nonce', nonce' = nonce \/ (id' = id /\ seq' = seq) ->
     spent id' coord seq' nonce' (w_db w')).
Proof.
  intros Hq He Hwf Hr. apply transaction_ok in Hr as (w1 & w2 & Hn & Hb & Hc).
  destruct (preserves_next replay_le w _ w1 He Hn) as [_ Hle].
  destruct (CheckAndAdvance_tx id coord seq nonce scope expiry (w_db w1) (w_now w1)
    (w1 <| w_tx := Some (w_now w1) |>) (Ok tt) w2) as (_ & Ht2 & _ & Hadv); [done..|].
  specialize (Hadv _ eq_refl). rewrite (Hc Ht2). pose proof Hadv as (Hfree & Hused & _).
  destruct (windows_wf_mono _ _ Hle Hwf (id, coord)) as [seen Hs].
  destruct (advanced_seen _ _ _ _ _ _ _ Hq Hadv Hs) as [_ Hs'].
  split.
  - intros Hsp. apply (spent_mono _ _ _ _ _ _ Hle) in Hsp as [[x Hx]|(seen0 & Hx & Hin)]; [congruence|].
    by destruct (advanced_seen _ _ _ _ _ _ _ Hq Hadv Hx).
  - intros id' seq' nonce' [->|[-> ->]]; [by left|right]. eexists. split; [done|set_solver].
Qed.

(** ** The interface of the middleware *)

(** What the middleware is promised of the registry: its calls stay within a
    relation [R] that the rest of the system respects, what is spent stays spent,
    and an accepted transmission was unspent and is spent from then on. *)
Class ReplayGuard (repo : operatorVerifier) (R : DB -> DB -> Prop) (wf : DB -> Prop)
    (spent : string -> string -> Z -> string -> DB -> Prop) := {
  guard_order :: PreOrder R;
  guard_keys id : preserves R (ov_GetActiveKeyMap repo id);
  guard_advance id coord seq nonce scope expiry : is_uint64 seq ->
    preserves R (ov_CheckAndAdvance repo id coord seq nonce scope expiry);
  guard_usage id i j : preserves R (ov_RecordUsageAndExpire repo id i j);
  guard_wf d d' : R d d' -> wf d -> wf d';
  guard_spent id coord seq nonce d d' : R d d' -> spent id coord seq nonce d -> spent id coord seq nonce d';
  guard_accept id coord seq nonce scope expiry w w' : is_uint64 seq -> respects R (w_events w) ->
    wf (w_db w) -> ov_CheckAndAdvance repo id coord seq nonce scope expiry w = (Ok tt, w') ->
    ~ spent id coord seq nonce (w_db w) /\
    (forall id' seq' nonce', nonce' = nonce \/ (id' = id /\ seq' = seq) ->
       spent id' coord seq' nonce' (w_db w')) }.

(** The operator tables other code of the registry writes leave the replay state
    alone. *)
Lemma preserves_op_exec {A} (f : Z -> OpTables -> A * OpTables) :
  (forall now t, operator_nonces (f now t).2 = operator_nonces t /\
     operator_replay (f now t).2 = operator_replay t) -> preserves replay_le (op_exec f).
Proof.
  intros Hf. unfold op_exec, exec. refine (preserves_stmt _ _ _). intros now d a d'.
  specialize (Hf now (op_tables d)). destruct (f now (op_tables d)) as [a' t]. intros [= <- <-].
  destruct Hf. by apply replay_le_same.
Qed.

Lemma preserves_count_use id idx : preserves replay_le (sql_count_use id idx).
Proof.
  unfold sql_count_use. refine (preserves_stmt _ _ _). intros now d a d'. simpl.
  case_match; [|done]. case_match; [done|]. intros [= <- <-]. by apply replay_le_same.
Qed.

Lemma preserves_record_uses id idxs n swap : preserves replay_le (record_uses id n swap idxs).
Proof.
  revert n swap. induction idxs as [|idx rest IH]; intros n swap; simpl; [preserves_step|].
  preserves_step; [preserves_step; apply preserves_count_use|].
  repeat first [apply IH | progress preserves_step | by apply preserves_op_exec].
Qed.

#[export] Instance repository_guard : ReplayGuard repository replay_le windows_wf spent.
Proof.
  split; simpl.
  - apply _.
  - intros id. unfold GetActiveKeyMap, op_query. repeat preserves_step.
  - apply preserves_CheckAndAdvance.
  - intros id i j. unfold RecordUsageAndExpire, op_query. repeat preserves_step.
    apply preserves_record_uses.
  - apply windows_wf_mono.
  - apply spent_mono.
  - apply CheckAndAdvance_ok.
Qed.

(** ** Authentication accepts a transmission once *)

Section Client.
Context (P : OpProtocol) (unmarshal : string -> option operatorTransmissionWire) (coord : string).
Context (repo : operatorVerifier) (R : DB -> DB -> Prop) (wf : DB -> Prop).
Context (spent : string -> string -> Z -> string -> DB -> Prop) `{!ReplayGuard repo R wf spent}.

(** encoding/json refuses a number outside the range of the field's type. *)
Definition bounded_wire : Prop := forall s wire, unmarshal s = Some wire ->
  is_uint64 (ow_Seq wire) /\ is_int64 (ow_TsUnixNano wire).

Lemma decode_bounded raw tx : bounded_wire -> decodeOperatorHeader unmarshal raw = Some tx ->
  is_uint64 (ot_Seq tx) /\ is_int64 (ot_TsUnixNano tx).
Proof.
  intros Hb. unfold decodeOperatorHeader. intros Hd.
  apply bind_Some in Hd as (js & _ & Hd). apply bind_Some in Hd as (wire & Hw & Hd).
  repeat (apply bind_Some in Hd as (? & _ & Hd)). injection Hd as <-. simpl. by apply (Hb js).
Qed.

Lemma preserves_authenticate raw : bounded_wire ->
  preserves R (authenticate P unmarshal repo coord raw).
Proof.
  intros Hb. unfold authenticate. preserves_handler; [preserves_handler|].
  refine (preserves_hbind _ _ _ _ _); [destruct (decodeOperatorHeader _ _); preserves_handler|].
  intros tx (w0 & w1 & Htx). destruct (decodeOperatorHeader unmarshal raw) as [tx0|] eqn:Hd; [|done].
  injection Htx as -> _. destruct (decode_bounded _ _ Hb Hd) as [Hseq _].
  repeat preserves_handler; [apply guard_keys|by apply guard_advance|apply guard_usage].
Qed.

(** What an accepted header proves. *)
Lemma authenticate_ok raw w tx swap w' :
  bounded_wire -> respects R (w_events w) -> wf (w_db w) ->
  authenticate P unmarshal repo coord raw w = (Ok (Ok (tx, swap)), w') ->
  decodeOperatorHeader unmarshal raw = Some tx /\
  ~ spent (ot_OperatorID tx) coord (ot_Seq tx) (ot_Nonce tx) (w_db w) /\
  (forall id seq nonce, nonce = ot_Nonce tx \/ (id = ot_OperatorID tx /\ seq = ot_Seq tx) ->
     spent id coord seq nonce (w_db w')).
Proof.
  intros Hb He Hwf Hr. unfold authenticate in Hr.
  apply hbind_inv in Hr as ([] & w1 & H1 & Hr). apply reject_if_inv in H1 as [_ ->].
  apply hbind_inv in Hr as (tx0 & w1 & H1 & Hr).
  destruct (decodeOperatorHeader unmarshal raw) as [tx1|] eqn:Hd; [|done]. injection H1 as -> ->.
  apply hbind_inv in Hr as (now & w2 & H1 & Hr). apply or_reject_inv in H1. injection H1 as _ <-.
  apply hbind_inv in Hr as ([] & w2 & H1 & Hr). apply reject_if_inv in H1 as [_ ->].
  apply hbind_inv in Hr as (km & w2 & H1 & Hr). apply or_reject_inv in H1.
  destruct (guard_keys _ _ _ _ He H1) as [He2 Hle2].
  apply hbind_inv in Hr as ([] & w3 & H3 & Hr). apply reject_if_inv in H3 as [_ ->].
  apply hbind_inv in Hr as (now2 & w3 & H3 & Hr). apply or_reject_inv in H3. injection H3 as _ <-.
  apply hbind_inv in Hr as ([] & w3 & H3 & Hr). apply or_reject_inv in H3.
  destruct (decode_bounded _ _ Hb Hd) as [Hseq _].
  destruct (guard_advance _ _ _ _ _ _ Hseq _ _ _ He2 H3) as [He3 Hle3].
  destruct (guard_accept _ _ _ _ _ _ _ _ Hseq He2 (guard_wf _ _ Hle2 Hwf) H3) as [Hfresh Hused].
  apply hbind_inv in Hr as (swap0 & w4 & H4 & Hr). apply or_reject_inv in H4.
  injection Hr as <- <- <-. destruct (guard_usage _ _ _ _ _ _ He3 H4) as [_ Hle4].
  split_and!; [done| |].
  - intros Hs. apply Hfresh. by eapply guard_spent.
  - intros id seq nonce Hcase. eapply guard_spent; [exact Hle4|]. by apply Hused.
Qed.

(** Headers presented one after the other; the accepted transmissions. *)
Fixpoint presented (raws : list string) : M (list OperatorTransmission) :=
  match raws with
  | [] => mret []
  | raw :: rest =>
      r ← authenticate P unmarshal repo coord raw;
      acc ← presented rest;
      mret (match r with Ok (tx, _) => tx :: acc | Err _ => acc end)
  end.

Definition unspent_all (d : DB) (acc : list OperatorTransmission) : Prop :=
  Forall (fun tx => ~ spent (ot_OperatorID tx) coord (ot_Seq tx) (ot_Nonce tx) d) acc.

Lemma presented_unspent raws w acc w' :
  bounded_wire -> respects R (w_events w) -> wf (w_db w) -> presented raws w = (Ok acc, w') ->
  unspent_all (w_db w) acc /\ NoDup (ot_Nonce <$> acc) /\
  NoDup ((fun tx => (ot_OperatorID tx, ot_Seq tx)) <$> acc).
Proof.
  intros Hb. revert w acc. induction raws as [|raw rest IH]; intros w acc He Hwf; simpl.
  { intros [= <- <-]. split_and!; constructor. }
  intros Hr. apply bind_ok in Hr as (r & w1 & Ha & Hr). apply bind_ok in Hr as (acc0 & w2 & Hrest & Hr).
  injection Hr as <- <-. destruct (preserves_authenticate raw Hb _ _ _ He Ha) as [He1 Hle].
  destruct (IH _ _ He1 (guard_wf _ _ Hle Hwf) Hrest) as (Hun & Hnd1 & Hnd2).
  assert (Hun' : unspent_all (w_db w) acc0).
  { eapply Forall_impl; [exact Hun|]. intros tx Hn Hs. apply Hn. by eapply guard_spent. }
  destruct r as [[tx swap]|c]; [|done].
  destruct (authenticate_ok _ _ _ _ _ Hb He Hwf Ha) as (_ & Hfresh & Hused).
  unfold unspent_all in *. rewrite Forall_forall in Hun.
  split_and!; [by constructor| |]; simpl; constructor; try done;
    intros Hin; apply list_elem_of_fmap in Hin as (tx' & Heq & Hin); apply (Hun _ Hin), Hused.
  - by left.
  - right. by injection Heq as -> ->.
Qed.
End Client.

(** C5 No operator transmission is honoured twice: however the headers are
    presented (replayed, reordered, with statements failing or taking effect
    without an answer and other requests in between), the transmissions one
    coordinator accepts have pairwise distinct nonces, and no operator gets the
    same sequence number accepted twice.  Proved against the interface of the
    middleware, which the repository implements; the environment is asked to keep
    used nonces and accepted numbers. *)
Theorem operator_replay_rejected P unmarshal coord raws w acc w' :
  bounded_wire unmarshal -> respects replay_le (w_events w) -> windows_wf (w_db w) ->
  presented P unmarshal coord repository raws w = (Ok acc, w') ->
  NoDup (ot_Nonce <$> acc) /\ NoDup ((fun tx => (ot_OperatorID tx, ot_Seq tx)) <$> acc).
Proof. intros Hb He Hwf Hr. by destruct (presented_unspent _ _ _ _ _ _ _ _ _ _ _ Hb He Hwf Hr). Qed.

(** ** A sample registry *)

(** A protocol whose signatures are the public keys themselves. *)
Definition sample_verify (i j : Z) (s0 s1 : string) (km : gmap Z KeyRecord) : bool :=
  negb (i =? j) && bool_decide (kr_PublicKey <$> km !! i = Some s0) &&
  bool_decide (kr_PublicKey <$> km !! j = Some s1).

Definition sample_op_protocol : OpProtocol := mkOpProtocol
  (fun tx => sample_verify (ot_Idx0 tx) (ot_Idx1 tx) (ot_Sig0 tx) (ot_Sig1 tx))
  (fun rot => sample_verify (or_Idx0 rot) (or_Idx1 rot) (or_Sig0 rot) (or_Sig1 rot))
  (fun cr => sample_verify (cp_Idx0 cr) (cp_Idx1 cr) (cp_Sig0 cr) (cp_Sig1 cr))
  (fun tx => ot_OperatorID tx +:+ "/" +:+ ot_Nonce tx).

Definition sample_pub (i : Z) : string := string_of (replicate 32 i).

Definition sample_keys (id : string) : list OperatorKeyRow :=
  (fun i => mkOperatorKey id i (sample_pub i) AlgoEd25519 KeyActive 0 365 0) <$> seqZ 0 7.

Definition sample_operator : OperatorRow :=
  mkOperator "Cloudy" "ops@example.org" None OperatorActive OnboardingActive true (Some 0) (Some "h") 0.

Definition sample_op_tables : OpTables := empty_op_tables
  <| operators := {[ "cloudy" := sample_operator ]} |> <| operator_keys := sample_keys "cloudy" |>.

Definition sample_op_world (t : OpTables) : World :=
  sample_world_with (sample_db <| op_tables := t |>) [].

(** Documents "A", "B" and "C" carry transmissions 7, 5 and 7 with the nonces 0, 1
    and 2; the signatures are the keys at indices 0 and 1. *)
Definition sample_wire (nonce : string) (seq : Z) : operatorTransmissionWire :=
  mkWire "cloudy" sample_now nonce seq AlgoEd25519 0 0 "" "".
Definition sample_unmarshal (s : string) : option operatorTransmissionWire :=
  if bool_decide (s = "A") then Some (sample_wire "AAAA" 7)
  else if bool_decide (s = "B") then Some (sample_wire "AAAB" 5)
  else if bool_decide (s = "C") then Some (sample_wire "AAAC" 7)
  else None.

(** A protocol that accepts any non-empty key map. *)
Definition lenient_protocol : OpProtocol := mkOpProtocol
  (fun _ km => negb (bool_decide (km = ∅))) (fun _ _ => false) (fun _ _ => false) ot_Nonce.

Lemma sample_unmarshal_bounded : bounded_wire sample_unmarshal.
Proof.
  intros s wire. unfold sample_unmarshal. repeat case_bool_decide; intros [= <-];
    (split; [split; vm_compute; discriminate|split; vm_compute; discriminate]).
Qed.

Lemma fresh_tables_wf d : operator_replay (op_tables d) = ∅ -> windows_wf d.
Proof. intros He key. exists ∅. unfold seen_at. by rewrite He, lookup_empty. Qed.

Lemma operator_replay_rejected_witness :
  let w := sample_op_world sample_op_tables in
  let raws := ["QQ=="; "Qg=="; "QQ=="; "Qw=="] in
  let run := presented lenient_protocol sample_unmarshal "soholink" repository raws w in
  exists acc, run.1 = Ok acc /\ (ot_Seq <$> acc) = [7; 5] /\ NoDup (ot_Nonce <$> acc).
Proof.
  cbv zeta. set (run := presented _ _ _ _ _ _).
  assert (Hrun : exists acc, run.1 = Ok acc /\ (ot_Seq <$> acc) = [7; 5]).
  { eexists. split; vm_compute; reflexivity. }
  destruct Hrun as (acc & Hrun & Hseq). exists acc. split; [exact Hrun|]. split; [exact Hseq|].
  apply (operator_replay_rejected lenient_protocol sample_unmarshal "soholink"
    ["QQ=="; "Qg=="; "QQ=="; "Qw=="] (sample_op_world sample_op_tables) acc run.2).
  - apply sample_unmarshal_bounded.
  - apply Forall_nil_2.
  - apply fresh_tables_wf. reflexivity.
  - fold run. rewrite <- Hrun. apply surjective_pairing.
Defined.
