(* ===== verification/OperatorSafety.v ===== *)
(** What the operator registry keeps true in every environment: the floor under
    the active keys and the order of the fee declarations; and where the floor
    is lost when two transactions are not serialized. *)
From S2P Require Import Prelude Float64 Workload Sounding Registry Scheduler Database Replay Lifecycle Effects.
From S2P Require Import Encoding Sha256 Token Allowlist Orchestrator Samples Operator Conformance Http OperatorApi.
From S2P Require Import OperatorProofs.
Local Open Scope string_scope.
Local Open Scope list_scope.
Local Open Scope Z_scope.

(** ** The key floor *)

Definition active_count (id : string) (t : OpTables) : Z := Z.of_nat (length (active_keys id t)).

(** The unique index of the schema: one active key per operator and index. *)
Definition unique_active (t : OpTables) : Prop :=
  forall id, NoDup (ok_key_index <$> active_keys id t).

Definition has_floor (id : string) (d : DB) : Prop :=
  unique_active (op_tables d) /\ MinActiveKeys <= active_count id (op_tables d).

(** Rewriting rows without touching owner, state and index rewrites the active
    rows. *)
Lemma active_keys_rewrite (f : OperatorKeyRow -> OperatorKeyRow) id t :
  (forall k, is_active_key id (f k) = is_active_key id k) ->
  active_keys id (t <| operator_keys := f <$> operator_keys t |>) = f <$> active_keys id t.
Proof.
  intros Hf. unfold active_keys. simpl. induction (operator_keys t) as [|k l IH]; [done|].
  csimpl. rewrite Hf. destruct (is_active_key id k); csimpl; by rewrite IH.
Qed.

(** Taking active rows out of use filters the active rows. *)
Lemma active_keys_retire (sel : OperatorKeyRow -> bool) id id' s t :
  s <> KeyActive ->
  active_keys id' (t <| operator_keys := (fun k => if is_active_key id k && sel k
      then k <| ok_state := s |> else k) <$> operator_keys t |>) =
  List.filter (fun k => negb (is_active_key id k && sel k)) (active_keys id' t).
Proof.
  intros Hs. unfold active_keys. simpl. induction (operator_keys t) as [|k l IH]; [done|].
  csimpl. destruct (is_active_key id k && sel k) eqn:Hk.
  - assert (Hoff : is_active_key id' (k <| ok_state := s |>) = false).
    { unfold is_active_key. simpl. rewrite (bool_decide_eq_false_2 (s = KeyActive)) by done.
      apply andb_false_r. }
    simpl in Hoff. rewrite Hoff. destruct (is_active_key id' k); csimpl; rewrite ?Hk; exact IH.
  - destruct (is_active_key id' k); csimpl; rewrite ?Hk; csimpl; by rewrite IH.
Qed.

Lemma filter_sublist {A} (p : A -> bool) (l : list A) : sublist (List.filter p l) l.
Proof.
  induction l as [|x l IH]; simpl; [constructor|]. by case_match; constructor.
Qed.

Lemma nodup_filter_fmap {A B} (p : A -> bool) (g : A -> B) (l : list A) :
  NoDup (g <$> l) -> NoDup (g <$> List.filter p l).
Proof. intros Hnd. eapply sublist_NoDup; [exact Hnd|]. apply fmap_sublist, filter_sublist. Qed.

(** Removing one index from rows with distinct indices removes one row. *)
Lemma filter_one_index (l : list OperatorKeyRow) idx (p : OperatorKeyRow -> bool) :
  NoDup (ok_key_index <$> l) ->
  (forall k, k ∈ l -> p k = negb (ok_key_index k =? idx)) ->
  (length l <= S (length (List.filter p l)))%nat.
Proof.
  induction l as [|k l IH]; simpl; [lia|]. intros Hnd Hp. apply NoDup_cons in Hnd as [Hni Hnd].
  rewrite (Hp k) by set_solver. destruct (Z.eqb_spec (ok_key_index k) idx) as [<-|]; simpl.
  - assert (Hall : List.filter p l = l).
    { assert (Hp' : forall k', k' ∈ l -> p k' = true).
      { intros k' Hk'. rewrite Hp by set_solver. apply negb_true_iff, Z.eqb_neq. intros Heq.
        apply Hni. rewrite <- Heq. by apply list_elem_of_fmap_2. }
      clear -Hp'. induction l as [|k' l IH]; simpl; [done|]. rewrite Hp' by set_solver.
      f_equal. apply IH. set_solver. }
    rewrite Hall. lia.
  - specialize (IH Hnd ltac:(set_solver)). lia.
Qed.

(** Inside the transaction: the loop variable never exceeds the number of active
    keys. *)
Definition floor_tx (id0 id : string) (n : Z) (d : DB) : Prop :=
  unique_active (op_tables d) /\ n <= active_count id (op_tables d) /\ has_floor id0 d.

Lemma unique_rewrite (f : OperatorKeyRow -> OperatorKeyRow) t :
  (forall id k, is_active_key id (f k) = is_active_key id k) ->
  (forall k, ok_key_index (f k) = ok_key_index k) ->
  unique_active t -> unique_active (t <| operator_keys := f <$> operator_keys t |>).
Proof.
  intros Hf Hi Hu id. rewrite active_keys_rewrite by done. rewrite <- list_fmap_compose.
  erewrite list_fmap_ext; [apply (Hu id)|]. intros i k _. apply Hi.
Qed.

Lemma count_use_floor id0 id n idx t0 :
  tx_triple t0 (floor_tx id0 id n) (try (sql_count_use id idx)) (fun _ => floor_tx id0 id n).
Proof.
  unfold sql_count_use. apply tx_try_stmt; [|done]. intros d a d' (Hu & Hn & Hf0). simpl.
  case_match; [|done]. case_match; [done|]. intros [= <- <-].
  match goal with |- context [fmap ?f _] => set (g := f) end.
  assert (Hg : forall id' k, is_active_key id' (g k) = is_active_key id' k).
  { intros id' k. unfold g. by case_match. }
  assert (Hgi : forall k, ok_key_index (g k) = ok_key_index k) by (intros k; unfold g; by case_match).
  assert (Hcount : forall id', active_count id' ((op_tables d) <| operator_keys := g <$> operator_keys (op_tables d) |>) =
    active_count id' (op_tables d)).
  { intros id'. unfold active_count. by rewrite active_keys_rewrite, length_fmap. }
  assert (Hu' : unique_active ((op_tables d) <| operator_keys := g <$> operator_keys (op_tables d) |>)).
  { by apply unique_rewrite. }
  assert (Hk : floor_tx id0 id n (d <| op_tables := (op_tables d) <| operator_keys := g <$> operator_keys (op_tables d) |> |>)).
  { unfold floor_tx, has_floor. cbn [op_tables update_field set_field]. rewrite !Hcount.
    destruct Hf0. done. }
  done.
Qed.

Lemma active_key_owner id t k : k ∈ active_keys id t -> ok_operator_id k = id /\ is_active_key id k = true.
Proof.
  unfold active_keys. rewrite list_elem_of_In, filter_In. intros [_ Hk]. split; [|done].
  unfold is_active_key in Hk. apply andb_prop in Hk as [Hk _]. by apply bool_decide_eq_true in Hk.
Qed.

Lemma filter_true {A} (p : A -> bool) (l : list A) :
  (forall x, x ∈ l -> p x = true) -> List.filter p l = l.
Proof.
  induction l as [|x l IH]; simpl; [done|]. intros Hp. rewrite Hp by set_solver. f_equal.
  apply IH. set_solver.
Qed.

Lemma expire_floor id0 id n idx t0 :
  MinActiveKeys < n ->
  tx_triple t0 (floor_tx id0 id n) (retire_keys (fun k => ok_key_index k =? idx) id KeyExpired)
    (fun _ => floor_tx id0 id (n - 1)).
Proof.
  intros Hlt. unfold retire_keys. apply tx_op_exec. intros d (Hu & Hn & _ & Hf0).
  cbv beta iota delta [snd]. unfold floor_tx, has_floor, active_count. rewrite !op_tables_set.
  assert (Hlen : (length (active_keys id (op_tables d)) <=
    S (length (List.filter (fun k => negb (is_active_key id k && (ok_key_index k =? idx)%Z))
      (active_keys id (op_tables d)))))%nat).
  { apply (filter_one_index _ idx); [apply Hu|]. intros k Hk.
    apply active_key_owner in Hk as [_ ->]. done. }
  unfold active_count in *. split_and!.
  - intros id'. rewrite active_keys_retire by done. apply nodup_filter_fmap, Hu.
  - rewrite active_keys_retire by done. lia.
  - intros id'. rewrite active_keys_retire by done. apply nodup_filter_fmap, Hu.
  - rewrite active_keys_retire by done. destruct (decide (id0 = id)) as [->|Hne]; [unfold MinActiveKeys in *; lia|].
    rewrite filter_true; [done|]. intros k Hk. apply active_key_owner in Hk as [Ho _].
    unfold is_active_key. rewrite bool_decide_eq_false_2; [done|congruence].
Qed.

Lemma record_uses_floor id0 id idxs n swap t0 :
  tx_triple t0 (floor_tx id0 id n) (record_uses id n swap idxs) (fun _ d => has_floor id0 d).
Proof.
  revert n swap. induction idxs as [|idx rest IH]; intros n swap; simpl.
  { eapply tx_conseq; [apply (tx_ret t0 swap (fun _ d => has_floor id0 d))| |done]. by intros d (_ & _ & ?). }
  eapply tx_bind; [apply count_use_floor|]. intros [[usage threshold]|e].
  - case_match; [|apply IH]. case_match eqn:Hfl; [|apply IH].
    eapply tx_bind; [apply expire_floor; apply Z.ltb_lt in Hfl; lia|]. intros []. apply IH.
  - destruct e; first [apply IH|apply tx_fail].
Qed.

(** The key floor survives use: recording a transmission never takes an
    operator below three active keys, in any environment whose other code does
    not and whatever statement fails or loses its answer, so expiry by use can
    never lock an operator out of signing or rotating.  The unique index of the
    schema (one active key per index) is part of what is kept. *)
Theorem RecordUsage_floor id0 id idx0 idx1 w r w' :
  env_keeps (has_floor id0) (w_events w) -> has_floor id0 (w_db w) ->
  RecordUsageAndExpire id idx0 idx1 w = (r, w') -> has_floor id0 (w_db w').
Proof.
  intros He Hf Hr. eapply (tx_keeps (has_floor id0)); [|exact He|exact Hf|exact Hr]. intros t0.
  apply (tx_bind _ _ _ _ (fun n d => floor_tx id0 id n d)).
  - unfold op_query, query. apply tx_stmt. intros d a d' Hd [= <- <-].
    destruct Hd as [Hu Hc]. unfold floor_tx, has_floor, active_count. split_and!; done || lia.
  - intros n. apply record_uses_floor.
Qed.

(** Four keys one use away from their threshold. *)
Definition worn_tables : OpTables := sample_op_tables
  <| operator_keys := (fun k => k <| ok_usage_count := 364 |>) <$> take 4 (sample_keys "cloudy") |>.

(** Decide [unique_active] for the operators that own keys. *)
Definition owners (t : OpTables) : list string := ok_operator_id <$> operator_keys t.

Lemma unique_active_owners t :
  Forall (fun id => NoDup (ok_key_index <$> active_keys id t)) (owners t) -> unique_active t.
Proof.
  intros Hall id. destruct (decide (id ∈ owners t)) as [Hin|Hout].
  - rewrite Forall_forall in Hall. by apply Hall.
  - enough (active_keys id t = []) as -> by constructor.
    destruct (active_keys id t) as [|k l] eqn:Hk; [done|]. exfalso. apply Hout.
    assert (Hin : k ∈ active_keys id t) by (rewrite Hk; constructor).
    destruct (active_key_owner _ _ _ Hin) as [<- _]. apply list_elem_of_fmap_2.
    unfold active_keys in Hin. rewrite list_elem_of_In, filter_In in Hin.
    apply list_elem_of_In, Hin.
Qed.

Lemma worn_tables_floor : has_floor "cloudy" (w_db (sample_op_world worn_tables)).
Proof.
  split; [|vm_compute; discriminate]. apply unique_active_owners. unfold owners.
  repeat constructor; vm_compute; repeat constructor; set_solver.
Qed.

Lemma RecordUsage_floor_witness :
  let w := sample_op_world worn_tables in
  let run := RecordUsageAndExpire "cloudy" 0 1 w in
  run.1 = Ok true /\ active_count "cloudy" (ops run.2) = 3 /\ has_floor "cloudy" (w_db run.2).
Proof.
  cbv zeta. split; [vm_compute; reflexivity|]. split; [vm_compute; reflexivity|].
  eapply (RecordUsage_floor "cloudy" "cloudy" 0 1 (sample_op_world worn_tables)).
  - apply Forall_nil_2.
  - exact worn_tables_floor.
  - apply surjective_pairing.
Defined.

(** Two usage transactions that both count the active keys before either of them
    expires one, as READ COMMITTED lets them: the statements of both bodies, the
    two counts first.  The loops touch different rows. *)
Definition interleaved_usage (id : string) (i0 i1 j0 j1 : Z) : M (bool * bool) :=
  n1 ← op_query (active_count id);
  n2 ← op_query (active_count id);
  s1 ← record_uses id n1 false [i0; i1];
  s2 ← record_uses id n2 false [j0; j1];
  mret (s1, s2).

(** The floor needs serialization: the count of active keys is read without a
    lock, so two concurrent transmissions signed with different keys can each see
    four active keys and each expire one, which leaves the operator with two, one
    below the floor the code promises. *)
Theorem key_floor_race :
  has_floor "cloudy" (w_db (sample_op_world worn_tables)) /\
  exists w', interleaved_usage "cloudy" 0 1 2 3 (sample_op_world worn_tables) = (Ok (true, true), w') /\
    active_count "cloudy" (ops w') = 2 /\ active_count "cloudy" (ops w') < MinActiveKeys.
Proof.
  split; [exact worn_tables_floor|].
  exists (interleaved_usage "cloudy" 0 1 2 3 (sample_op_world worn_tables)).2.
  split; [vm_compute; reflexivity|]. split; vm_compute; reflexivity.
Qed.

(** ** Fee declarations *)

Definition coord_fees (coord : string) (t : OpTables) : list FeeRow :=
  List.filter (fun f => bool_decide (fd_coordinator_id f = coord)) (fee_declarations t).

(** A later row has a greater number and does not take effect earlier.  The order
    of the effective times is not strict here, since the column keeps microseconds
    of a time that is signed in nanoseconds. *)
Definition fee_follows (a b : FeeRow) : Prop := fd_seq a < fd_seq b /\ fd_effective_at a <= fd_effective_at b.

(** The declarations of a coordinator in the order of publication. *)
Definition fees_ordered (t : OpTables) : Prop :=
  Forall (fun f => 0 <= fd_seq f <= int64_max /\ timestamptz (fd_effective_at f) = fd_effective_at f)
    (fee_declarations t) /\
  forall coord, StronglySorted fee_follows (coord_fees coord t).

Lemma latest_fee_None coord t : latest_fee coord t = None -> coord_fees coord t = [].
Proof.
  unfold latest_fee, coord_fees. set (l := List.filter _ _). intros Hn.
  pose proof (isort_perm (fun a b => fd_seq b <? fd_seq a) l) as Hp.
  destruct (isort FeeRow _ l); [|done]. by apply Permutation_nil_r.
Qed.

Lemma latest_fee_Some coord t f : latest_fee coord t = Some f ->
  f ∈ coord_fees coord t /\ forall g, g ∈ coord_fees coord t -> fd_seq g <= fd_seq f.
Proof.
  unfold latest_fee, coord_fees. set (l := List.filter _ _). set (less := fun a b => _). intros Hs.
  pose proof (isort_perm less l) as Hp.
  assert (Hsort : sorted_by less (isort FeeRow less l)).
  { apply isort_sorted. unfold less. split; intros *; rewrite ?Z.ltb_lt, ?Z.ltb_ge; lia. }
  destruct (isort FeeRow less l) as [|x rest]; [done|]. injection Hs as ->.
  unfold sorted_by in Hsort. apply StronglySorted_inv in Hsort as [_ Hall]. rewrite Forall_forall in Hall.
  split; [rewrite Hp; constructor|]. intros g Hg. rewrite Hp in Hg.
  apply elem_of_cons in Hg as [->|Hg]; [lia|]. specialize (Hall g Hg). unfold less in Hall.
  by apply Z.ltb_ge in Hall.
Qed.

(** In an ordered list the greatest number takes effect last. *)
Lemma ordered_effective l f g :
  StronglySorted fee_follows l -> f ∈ l -> g ∈ l -> fd_seq g <= fd_seq f ->
  fd_effective_at g <= fd_effective_at f.
Proof.
  intros Hs. induction Hs as [|x l Hs IH Hx]; intros Hf Hg Hle; [by apply not_elem_of_nil in Hf|].
  rewrite Forall_forall in Hx. apply elem_of_cons in Hf as [->|Hf]; apply elem_of_cons in Hg as [->|Hg].
  - lia.
  - destruct (Hx g Hg). lia.
  - destruct (Hx f Hf). lia.
  - auto.
Qed.

Lemma sorted_snoc l f :
  StronglySorted fee_follows l -> (forall g, g ∈ l -> fee_follows g f) -> StronglySorted fee_follows (l ++ [f]).
Proof.
  intros Hs. induction Hs as [|x l Hs IH Hx]; intros Hall; simpl; [repeat constructor|].
  constructor; [apply IH; set_solver|]. apply Forall_app. split; [done|]. repeat constructor; apply Hall; constructor.
Qed.

Lemma coord_fees_snoc coord t f :
  coord_fees coord (t <| fee_declarations := fee_declarations t ++ [f] |>) =
    coord_fees coord t ++ (if bool_decide (fd_coordinator_id f = coord) then [f] else []).
Proof. unfold coord_fees. simpl. rewrite List.filter_app. simpl. by case_bool_decide. Qed.

(** The declaration fits after the current one. *)
Definition fee_fits (decl : FeeDeclaration) (t : OpTables) : Prop :=
  forall f, latest_fee (fe_CoordinatorID decl) t = Some f ->
    to_uint64 (fd_seq f) < fe_Seq decl /\ fd_effective_at f < fe_EffectiveAt decl.

Definition fee_row (now : Z) (decl : FeeDeclaration) : FeeRow :=
  mkFee (fe_CoordinatorID decl) (fe_ContributorShareBps decl) (fe_PlatformFeeBps decl)
    (timestamptz (fe_EffectiveAt decl)) (to_int64 (fe_Seq decl)) (fe_Signature decl) now.

Lemma timestamptz_idem t : timestamptz (timestamptz t) = timestamptz t.
Proof. unfold timestamptz. Z.to_euclidean_division_equations; lia. Qed.
(** A time in a column stays below a later time when that is stored. *)
Lemma timestamptz_le t u : timestamptz t = t -> t < u -> t <= timestamptz u.
Proof. unfold timestamptz. Z.to_euclidean_division_equations; lia. Qed.

Lemma stored_seq z : is_uint64 z -> 0 <= to_int64 z -> to_int64 z = z /\ z <= int64_max.
Proof.
  intros Hz Hp. pose proof (to_int64_range z) as [_ Hr]. pose proof (uint64_int64_roundtrip z Hz) as Hrt.
  unfold to_uint64 in Hrt. rewrite Z.mod_small in Hrt; [lia|]. unfold int64_max in Hr. lia.
Qed.

(** A declaration that fits comes after every declaration of its coordinator. *)
Lemma fee_fits_after decl t g :
  fees_ordered t -> fee_fits decl t -> g ∈ coord_fees (fe_CoordinatorID decl) t ->
  fd_seq g < fe_Seq decl /\ fd_effective_at g < fe_EffectiveAt decl /\
  timestamptz (fd_effective_at g) = fd_effective_at g.
Proof.
  intros [Hall Hs] Hfit Hg. rewrite Forall_forall in Hall.
  assert (Hrow : forall f, f ∈ coord_fees (fe_CoordinatorID decl) t ->
    0 <= fd_seq f <= int64_max /\ timestamptz (fd_effective_at f) = fd_effective_at f).
  { intros f Hf. apply Hall. unfold coord_fees in Hf.
    rewrite list_elem_of_In, filter_In in Hf. apply list_elem_of_In, Hf. }
  destruct (latest_fee (fe_CoordinatorID decl) t) as [f|] eqn:Hl.
  - destruct (Hfit f Hl) as [Hseq Heff]. apply latest_fee_Some in Hl as [Hf Hmx].
    pose proof (Hmx g Hg). pose proof (ordered_effective _ _ _ (Hs _) Hf Hg (Hmx g Hg)).
    destruct (Hrow f Hf) as [Hfr _]. destruct (Hrow g Hg) as [_ Hal].
    unfold to_uint64 in Hseq. rewrite Z.mod_small in Hseq by (unfold int64_max in Hfr; lia).
    split_and!; [lia|lia|done].
  - apply latest_fee_None in Hl. rewrite Hl in Hg. by apply not_elem_of_nil in Hg.
Qed.

Lemma insert_fee_ordered now decl t :
  is_uint64 (fe_Seq decl) -> 0 <= to_int64 (fe_Seq decl) -> fees_ordered t -> fee_fits decl t ->
  fees_ordered (t <| fee_declarations := fee_declarations t ++ [fee_row now decl] |>).
Proof.
  intros Hu Hp Hord Hfit. destruct (stored_seq _ Hu Hp) as [Heq Hmax]. split.
  { simpl. apply Forall_app. split; [apply Hord|]. repeat constructor; simpl; [lia..|]. apply timestamptz_idem. }
  intros coord. rewrite coord_fees_snoc. simpl. case_bool_decide as Hc; [|rewrite app_nil_r; apply Hord].
  apply sorted_snoc; [apply Hord|]. subst coord. intros g Hg.
  destruct (fee_fits_after _ _ _ Hord Hfit Hg) as (Hseq & Heff & Hal).
  pose proof (timestamptz_le _ _ Hal Heff). split; simpl; lia.
Qed.

(** The transaction of [PublishFeeDeclaration] started in [d0]. *)
Definition published (now : Z) (decl : FeeDeclaration) (d0 d : DB) : Prop :=
  fee_fits decl (op_tables d0) /\ 0 <= to_int64 (fe_Seq decl) /\
  d = d0 <| op_tables := (op_tables d0)
    <| fee_declarations := fee_declarations (op_tables d0) ++ [fee_row now decl] |> |>.

Lemma PublishFee_tx decl d0 t0 :
  tx_triple t0 (fun d => d = d0) (
    cur ← try (op_row (latest_fee (fe_CoordinatorID decl)));
    _ ← match cur with
        | Ok f =>
            _ ← ensure (negb (fe_Seq decl <=? to_uint64 (fd_seq f))) ErrFeeSeqNotMonotonic;
            ensure (fd_effective_at f <? fe_EffectiveAt decl) ErrFeeEffectiveAtRetroactive
        | Err ErrNoRows => mret tt
        | Err e => fail e
        end;
    unique_as ErrFeeSeqNotMonotonic (sql_insert_fee decl)) (fun _ => published t0 decl d0).
Proof.
  apply (tx_bind _ _ _ _ (fun cur d => d = d0 /\ match cur with
    | Ok f => latest_fee (fe_CoordinatorID decl) (op_tables d0) = Some f
    | Err ErrNoRows => latest_fee (fe_CoordinatorID decl) (op_tables d0) = None
    | Err _ => True end)).
  { apply tx_try_op_row; by intros; subst. }
  intros cur. apply (tx_bind _ _ _ _ (fun _ d => d = d0 /\ fee_fits decl (op_tables d0))).
  { destruct cur as [f|e].
    - apply (tx_bind _ _ _ _ (fun _ d => (d = d0 /\ latest_fee (fe_CoordinatorID decl) (op_tables d0) = Some f) /\
        to_uint64 (fd_seq f) < fe_Seq decl)).
      + apply tx_ensure. intros d Hd Hb. apply negb_true_iff, Z.leb_gt in Hb. done.
      + intros []. apply tx_ensure. intros d [[-> Hl] Hlt] Hb. apply Z.ltb_lt in Hb. split; [done|].
        intros f' Hf'. rewrite Hl in Hf'. injection Hf' as <-. done.
    - destruct e; try apply tx_fail.
      eapply tx_conseq; [apply (tx_ret t0 tt (fun _ d => d = d0 /\ fee_fits decl (op_tables d0)))| |done].
      intros d [-> Hl]. split; [done|]. intros f. by rewrite Hl. }
  intros []. apply tx_unique_as. intros d t [-> Hfit]. cbv zeta.
  destruct (_ || _) eqn:Hc; [done|]. destruct (existsb _ _); [done|]. intros [= <-].
  repeat apply orb_false_elim in Hc as [Hc _]. apply Z.ltb_ge in Hc. done.
Qed.

(** What a publication that is answered with success did: in an ordered table it
    appended the row of the declaration, which comes strictly after every earlier
    one of its coordinator. *)
Definition appended (I : DB -> Prop) (decl : FeeDeclaration) (d' : DB) : Prop :=
  exists d now, I d /\
    d' = d <| op_tables := (op_tables d)
      <| fee_declarations := fee_declarations (op_tables d) ++ [fee_row now decl] |> |> /\
    forall g, g ∈ coord_fees (fe_CoordinatorID decl) (op_tables d) ->
      fd_seq g < fe_Seq decl /\ fd_effective_at g < fe_EffectiveAt decl /\
      (fe_EffectiveAt decl mod 1000 = 0 -> fd_effective_at g < fd_effective_at (fee_row now decl)).

Lemma PublishFee_appended (I : DB -> Prop) decl w w' :
  (forall d, I d -> fees_ordered (op_tables d)) -> env_keeps I (w_events w) -> I (w_db w) ->
  PublishFeeDeclaration decl w = (Ok tt, w') -> appended I decl (w_db w').
Proof.
  intros HI He Hi. unfold PublishFeeDeclaration. case_bool_decide; [done|]. intros Hr.
  apply transaction_ok in Hr as (w1 & w2 & Hn & Hm & Hd).
  destruct (next_event_keeps I _ _ _ He Hi Hn) as [_ Hi1].
  destruct (PublishFee_tx decl (w_db w1) (w_now w1) (w1 <| w_tx := Some (w_now w1) |>) (Ok tt) w2)
    as (_ & Ht2 & _ & Hq); [done..|].
  destruct (Hq tt eq_refl) as (Hfit & Hpos & Hd2). rewrite (Hd Ht2), Hd2.
  exists (w_db w1), (w_now w1). split_and!; [done..|]. intros g Hg.
  destruct (fee_fits_after _ _ _ (HI _ Hi1) Hfit Hg) as (Hseq & Heff & Hal). split_and!; [done..|].
  intros Hz. simpl. unfold timestamptz. lia.
Qed.

(** C28 Fee declarations are append-only and move forward, whatever is published, in
    whatever environment that keeps the order and however statements fail.  The
    rows of every coordinator stay strictly increasing in sequence number, in the
    order of publication, no row takes effect before an earlier one, and no
    published row is changed or removed.  A publication answered with success
    appended exactly its declaration, with a number and a signed effective time
    strictly later than those of every earlier row of the coordinator; the stored
    time is strictly later too when the signed one has no part below a
    microsecond, which is all the column keeps. *)
Theorem fees_append_only decl history w r w' :
  let I d := fees_ordered (op_tables d) /\ history `prefix_of` fee_declarations (op_tables d) in
  is_uint64 (fe_Seq decl) -> env_keeps I (w_events w) -> I (w_db w) ->
  PublishFeeDeclaration decl w = (r, w') ->
  I (w_db w') /\ (r = Ok tt -> appended I decl (w_db w')).
Proof.
  intros I Hu He Hi Hrun. split.
  - revert Hrun. unfold PublishFeeDeclaration. case_bool_decide; [by intros [= <- <-]|].
    intros Hr. eapply (tx_keeps I); [|exact He|exact Hi|exact Hr]. intros t0 w0 r0 w0' Ht0 Hp0 Hw0.
    destruct (PublishFee_tx decl (w_db w0) t0 w0 r0 w0' Ht0 eq_refl Hw0) as (?&?&?&Hq).
    split_and!; [done..|]. intros a Ha. destruct (Hq a Ha) as (Hfit & Hpos & ->).
    destruct Hp0 as [Hord Hpre]. unfold I. rewrite op_tables_set.
    split; [by apply insert_fee_ordered|]. simpl. by apply prefix_app_r.
  - intros ->. eapply PublishFee_appended; [|done..]. by intros d [? _].
Qed.

(** What is served of a declaration. *)
Definition as_stored (decl : FeeDeclaration) : FeeDeclaration :=
  mkFeeDeclaration (fe_CoordinatorID decl) (fe_ContributorShareBps decl) (fe_PlatformFeeBps decl)
    (timestamptz (fe_EffectiveAt decl)) (fe_Seq decl) (fe_Signature decl).

Lemma as_stored_exact decl : fe_EffectiveAt decl mod 1000 = 0 -> as_stored decl = decl.
Proof. intros Hz. destruct decl. unfold as_stored, timestamptz. simpl in *. f_equal. lia. Qed.

(** Publishing and reading back: after an undisturbed publication the current
    declaration is the published one, signature included. *)
Lemma latest_after_publish now decl t :
  is_uint64 (fe_Seq decl) -> 0 <= to_int64 (fe_Seq decl) -> fees_ordered t -> fee_fits decl t ->
  latest_fee (fe_CoordinatorID decl)
    (t <| fee_declarations := fee_declarations t ++ [fee_row now decl] |>) = Some (fee_row now decl).
Proof.
  intros Hu Hp Hord Hfit. set (t' := t <| fee_declarations := _ |>).
  pose proof (insert_fee_ordered now decl t Hu Hp Hord Hfit) as [_ Hs']. fold t' in Hs'.
  assert (Hin : coord_fees (fe_CoordinatorID decl) t' = coord_fees (fe_CoordinatorID decl) t ++ [fee_row now decl]).
  { unfold t'. rewrite coord_fees_snoc. by rewrite bool_decide_eq_true_2. }
  destruct (latest_fee (fe_CoordinatorID decl) t') as [f|] eqn:Hl.
  - apply latest_fee_Some in Hl as [Hf Hmax]. rewrite Hin in Hf. apply elem_of_app in Hf as [Hf|Hf].
    + specialize (Hs' (fe_CoordinatorID decl)). specialize (Hmax (fee_row now decl)).
      rewrite Hin in Hs', Hmax. specialize (Hmax ltac:(set_solver)).
      enough (Hlt : fd_seq f < fd_seq (fee_row now decl)) by lia.
      clear -Hs' Hf. induction (coord_fees (fe_CoordinatorID decl) t) as [|x l IH];
        [by apply not_elem_of_nil in Hf|]. simpl in Hs'. apply StronglySorted_inv in Hs' as [Hs' Hx].
      apply elem_of_cons in Hf as [->|Hf]; [|auto]. rewrite Forall_forall in Hx.
      apply (Hx (fee_row now decl)). set_solver.
    + by apply list_elem_of_singleton in Hf as ->.
  - apply latest_fee_None in Hl. rewrite Hin in Hl. by destruct (coord_fees _ t).
Qed.

(** The state an undisturbed publication leaves. *)
Lemma published_fees decl w w' :
  calm w -> w_tx w = None -> is_uint64 (fe_Seq decl) -> fees_ordered (ops w) ->
  PublishFeeDeclaration decl w = (Ok tt, w') ->
  calm w' /\ fe_Seq decl <= int64_max /\
  ops w' = (ops w) <| fee_declarations := fee_declarations (ops w) ++ [fee_row (w_now w) decl] |> /\
  fees_ordered (ops w') /\ latest_fee (fe_CoordinatorID decl) (ops w') = Some (fee_row (w_now w) decl).
Proof.
  intros Hc Ht Hu Hord. unfold PublishFeeDeclaration. case_bool_decide; [done|]. intros Hr.
  destruct (transaction_calm _ _ _ _ _ Hc Ht (PublishFee_tx decl (w_db w) (w_now w)) Hr)
    as (Hc' & _ & Hfit & Hpos & Hd).
  destruct (stored_seq _ Hu Hpos) as [_ Hmax].
  split_and!; [done..| | |]; unfold ops; rewrite Hd, op_tables_set; [done| |].
  - by apply insert_fee_ordered.
  - by apply latest_after_publish.
Qed.

Lemma current_fee_run coord w f :
  calm w -> fees_ordered (ops w) -> latest_fee coord (ops w) = Some f ->
  CurrentFeeDeclaration coord w = (Ok (mkFeeDeclaration (fd_coordinator_id f) (fd_contributor_share_bps f)
    (fd_platform_fee_bps f) (fd_effective_at f) (fd_seq f) (fd_signature f)), w).
Proof.
  intros Hc [Hall _] Hl. unfold CurrentFeeDeclaration.
  erewrite bind_eq; [|rewrite no_rows_as_calm by done; by rewrite Hl].
  apply latest_fee_Some in Hl as [Hf _]. unfold coord_fees in Hf.
  rewrite list_elem_of_In, filter_In in Hf. destruct Hf as [Hf _]. apply list_elem_of_In in Hf.
  rewrite Forall_forall in Hall. destruct (Hall f Hf) as [Hr _].
  unfold to_uint64. rewrite Z.mod_small by (unfold int64_max in Hr; lia). done.
Qed.

Lemma published_current decl w w' :
  calm w -> w_tx w = None -> is_uint64 (fe_Seq decl) -> fees_ordered (ops w) ->
  PublishFeeDeclaration decl w = (Ok tt, w') ->
  CurrentFeeDeclaration (fe_CoordinatorID decl) w' = (Ok (as_stored decl), w').
Proof.
  intros Hc Ht Hu Hord Hr. destruct (published_fees decl w w' Hc Ht Hu Hord Hr) as (Hc' & Hmax & _ & Hord' & Hl).
  rewrite (current_fee_run _ _ _ Hc' Hord' Hl). unfold as_stored, fee_row. simpl.
  by rewrite to_int64_id by (destruct Hu; unfold is_int64, int64_min, int64_max in *; lia).
Qed.

(** Published fees are served back: in an undisturbed run a publication that
    succeeds makes [CurrentFeeDeclaration] return the declaration that was signed,
    number, terms and signature, with the time it takes effect as the column keeps
    it: exactly the signed artifact when that time has no part below a
    microsecond. *)
Theorem fee_publish_roundtrip decl w w' :
  calm w -> w_tx w = None -> is_uint64 (fe_Seq decl) -> fees_ordered (ops w) ->
  PublishFeeDeclaration decl w = (Ok tt, w') ->
  CurrentFeeDeclaration (fe_CoordinatorID decl) w' = (Ok (as_stored decl), w') /\
  (fe_EffectiveAt decl mod 1000 = 0 -> as_stored decl = decl).
Proof. intros. split; [by eapply published_current|apply as_stored_exact]. Qed.

Definition sample_decl (seq at_ : Z) : FeeDeclaration :=
  mkFeeDeclaration "soholink" 6500 3500 at_ seq "sig".

Lemma empty_fees_ordered t : fee_declarations t = [] -> fees_ordered t.
Proof.
  intros He. unfold fees_ordered, coord_fees. rewrite He. split; [constructor|]. intros coord. constructor.
Qed.

Lemma fees_append_only_witness :
  let w := sample_op_world sample_op_tables in
  let run := PublishFeeDeclaration (sample_decl 3 100) w in
  run.1 = Ok tt /\ fees_ordered (ops run.2) /\ length (fee_declarations (ops run.2)) = 1%nat /\
  appended (fun d => fees_ordered (op_tables d) /\ [] `prefix_of` fee_declarations (op_tables d))
    (sample_decl 3 100) (w_db run.2).
Proof.
  cbv zeta.
  destruct (fees_append_only (sample_decl 3 100) [] (sample_op_world sample_op_tables)
    (PublishFeeDeclaration (sample_decl 3 100) (sample_op_world sample_op_tables)).1
    (PublishFeeDeclaration (sample_decl 3 100) (sample_op_world sample_op_tables)).2) as [[Hord _] Happ].
  { split; vm_compute; discriminate. }
  { apply Forall_nil_2. }
  { split; [by apply empty_fees_ordered|]. apply prefix_nil. }
  { apply surjective_pairing. }
  split; [vm_compute; reflexivity|]. split; [exact Hord|]. split; [vm_compute; reflexivity|].
  apply Happ. vm_compute. reflexivity.
Defined.

Lemma fee_publish_roundtrip_witness :
  let w := sample_op_world sample_op_tables in
  let w' := (PublishFeeDeclaration (sample_decl 3 1000) w).2 in
  CurrentFeeDeclaration "soholink" w' = (Ok (sample_decl 3 1000), w').
Proof.
  cbv zeta. destruct (fee_publish_roundtrip (sample_decl 3 1000) (sample_op_world sample_op_tables)
    (PublishFeeDeclaration (sample_decl 3 1000) (sample_op_world sample_op_tables)).2) as [Hc He].
  - split; reflexivity.
  - reflexivity.
  - split; vm_compute; discriminate.
  - by apply empty_fees_ordered.
  - rewrite (surjective_pairing (PublishFeeDeclaration (sample_decl 3 1000) _)) at 1. f_equal.
  - rewrite He in Hc by reflexivity. exact Hc.
Defined.

(** A time given to the nanosecond is signed as given and served without its last
    digits, and the next declaration may take effect at the very instant the table
    holds already. *)
Example below_a_microsecond :
  let w := (PublishFeeDeclaration (sample_decl 3 1500) (sample_op_world sample_op_tables)).2 in
  let w' := (PublishFeeDeclaration (sample_decl 4 1700) w).2 in
  (CurrentFeeDeclaration "soholink" w).1 = Ok (sample_decl 3 1000) /\
  (fd_effective_at <$> fee_declarations (ops w')) = [1000; 1000].
Proof. cbv zeta. split; vm_compute; reflexivity. Qed.
