(* ===== verification/OperatorGates.v ===== *)
(** The registry as a whole: every method of the repository as a call, and the
    invariants of the operator records that no sequence of calls breaks. *)
From S2P Require Import Prelude Float64 Workload Sounding Registry Scheduler Database Replay Lifecycle Effects.
From S2P Require Import Encoding Sha256 Token Allowlist Orchestrator Samples Operator Conformance Http OperatorApi.
From S2P Require Import OperatorProofs OperatorSafety.
Local Open Scope string_scope.
Local Open Scope list_scope.
Local Open Scope Z_scope.

(** ** Calls *)

Inductive OpCall :=
| CallCreateOperator (id name email phone : string)
| CallMarkEmailVerified (id : string)
| CallMarkConformancePassed (id : string)
| CallAutoActivate (id : string)
| CallAddKeys (id : string) (pubkeys : list string) (algo : string) (thresholds : list Z)
| CallRecordUsage (id : string) (idx0 idx1 : Z)
| CallRegisterReplacementKey (rot : OperatorRotation) (threshold : Z)
| CallRevoke (id : string)
| CallDisconnect (id : string)
| CallCheckAndAdvance (id coord : string) (seq : Z) (nonce scope : string) (expiry : Z)
| CallIssueEmailCode (n : Z) (id sessionID : string)
| CallCheckEmailCode (id sessionID code : string)
| CallPublishFee (decl : FeeDeclaration)
| CallStartRun (dr : Draws) (id : string)
| CallGradeA (id runID : string) (resp : ResponseA)
| CallGradeB (id runID : string) (resp : ResponseB)
| CallGradeC (nonce id runID : string)
| CallFinalizeRun (id runID : string).

Section Calls.
Context `{MapOrder} (P : OpProtocol) (collate : string -> string -> bool).

(** Run a call, its value and error dropped. *)
Definition drop {A} (m : M A) : M unit := _ ← try m; mret tt.

Definition call (c : OpCall) : M unit :=
  match c with
  | CallCreateOperator id name email phone => drop (CreateOperator id name email phone)
  | CallMarkEmailVerified id => drop (MarkEmailVerified id)
  | CallMarkConformancePassed id => drop (MarkConformancePassed id)
  | CallAutoActivate id => drop (AutoActivate id)
  | CallAddKeys id pubkeys algo thresholds => drop (AddKeys id pubkeys algo thresholds)
  | CallRecordUsage id idx0 idx1 => drop (RecordUsageAndExpire id idx0 idx1)
  | CallRegisterReplacementKey rot threshold => drop (RegisterReplacementKey P rot threshold)
  | CallRevoke id => drop (Revoke id)
  | CallDisconnect id => drop (Disconnect id)
  | CallCheckAndAdvance id coord seq nonce scope expiry =>
      drop (CheckAndAdvance id coord seq nonce scope expiry)
  | CallIssueEmailCode n id sessionID => drop (IssueEmailCode n id sessionID)
  | CallCheckEmailCode id sessionID code => drop (CheckEmailCode id sessionID code)
  | CallPublishFee decl => drop (PublishFeeDeclaration decl)
  | CallStartRun dr id => drop (StartConformanceRun P collate dr id)
  | CallGradeA id runID resp => drop (GradeSuiteA P id runID resp)
  | CallGradeB id runID resp => drop (GradeSuiteB P id runID resp)
  | CallGradeC nonce id runID => drop (GradeSuiteC nonce id runID)
  | CallFinalizeRun id runID => drop (FinalizeRun id runID)
  end.

Fixpoint calls (cs : list OpCall) : M unit :=
  match cs with [] => mret tt | c :: cs' => _ ← call c; calls cs' end.
End Calls.

(** ** Invariants of the operator records *)

Definition record_inv (J : gmap string OperatorRow -> Prop) (d : DB) : Prop := J (operators (op_tables d)).

(** [J] is kept from [d] to [d']. *)
Definition kept (J : gmap string OperatorRow -> Prop) (d d' : DB) : Prop :=
  record_inv J d -> record_inv J d'.

#[export] Instance kept_preorder J : PreOrder (kept J).
Proof. split; unfold kept; [intros d|intros d1 d2 d3]; auto. Qed.

Lemma kept_same J d d' : operators (op_tables d') = operators (op_tables d) -> kept J d d'.
Proof. intros He. unfold kept, record_inv. by rewrite He. Qed.

Section Kept.
Context (J : gmap string OperatorRow -> Prop).
#[local] Notation preserves := (preserves (kept J)).

Lemma preserves_fresh_uuid : preserves fresh_uuid.
Proof. intros w r w' Hw [= <- <-]. done. Qed.

Lemma kept_exec {A} (f : Z -> OpTables -> A * OpTables) :
  (forall now t, J (operators t) -> J (operators (f now t).2)) -> preserves (op_exec f).
Proof.
  intros Hf. unfold op_exec, exec. refine (preserves_stmt _ _ _). intros now d a d'.
  specialize (Hf now (op_tables d)). destruct (f now (op_tables d)) as [x t]. intros [= <- <-]. exact Hf.
Qed.

Lemma kept_insert f :
  (forall now t t', f now t = Ok t' -> J (operators t) -> J (operators t')) -> preserves (op_insert f).
Proof.
  intros Hf. unfold op_insert. refine (preserves_stmt _ _ _). intros now d a d'.
  specialize (Hf now (op_tables d)). destruct (f now (op_tables d)) as [t|]; [|done].
  intros [= <- <-]. exact (Hf _ eq_refl).
Qed.

Lemma kept_no_rows_as {A} e (m : M A) : preserves m -> preserves (no_rows_as e m).
Proof. intros Hm. unfold no_rows_as. repeat preserves_step. exact Hm. Qed.

Lemma kept_unique_as {A} e (m : M A) : preserves m -> preserves (unique_as e m).
Proof. intros Hm. unfold unique_as. repeat preserves_step. exact Hm. Qed.

Lemma kept_op_query {A} (f : OpTables -> A) : preserves (op_query f).
Proof. unfold op_query. preserves_step. Qed.

Lemma kept_op_row {A} (f : OpTables -> option A) : preserves (op_row f).
Proof. unfold op_row. preserves_step. Qed.

Lemma kept_ensure b e : preserves (ensure b e).
Proof. unfold ensure. repeat preserves_step. Qed.

(** Statements on other tables. *)
Lemma kept_other {A} (f : Z -> OpTables -> A * OpTables) :
  (forall now t, operators (f now t).2 = operators t) -> preserves (op_exec f).
Proof. intros Hf. apply kept_exec. intros now t. by rewrite Hf. Qed.

Lemma kept_other_insert f :
  (forall now t t', f now t = Ok t' -> operators t' = operators t) -> preserves (op_insert f).
Proof. intros Hf. apply kept_insert. intros now t t' Hr. by rewrite (Hf _ _ _ Hr). Qed.

Lemma kept_count_use id idx : preserves (sql_count_use id idx).
Proof.
  unfold sql_count_use. refine (preserves_stmt _ _ _). intros now d a d'. simpl.
  case_match; [|done]. case_match; [done|]. intros [= <- <-]. by apply kept_same.
Qed.
End Kept.

(** The row changes the registry makes, each under the condition its code checks
    first.  An invariant closed under them is kept by every call. *)
Class RecordInv (J : gmap string OperatorRow -> Prop) := {
  inv_create m id name email phone now : J m -> m !! id = None ->
    J (<[id := mkOperator name email phone OperatorActive PendingVerification false None None now]> m);
  inv_verify m id o : J m -> m !! id = Some o -> J (<[id := o <| o_email_verified := true |>]> m);
  inv_bind m id o hash now : J m -> m !! id = Some o -> J (<[id := bind_conformance hash now o]> m);
  inv_revoke m id o now : J m -> m !! id = Some o -> J (<[id := revoke now o]> m);
  inv_clear m id o : J m -> m !! id = Some o -> o_onboarding_state o <> OnboardingActive ->
    J (<[id := o <| o_conformance_passed_at := None |> <| o_conformance_keyset_hash := None |>]> m);
  inv_activate m id o : J m -> m !! id = Some o -> o_status o = OperatorActive ->
    o_email_verified o = true -> is_Some (o_conformance_passed_at o) ->
    is_Some (o_conformance_keyset_hash o) ->
    J (<[id := o <| o_onboarding_state := OnboardingActive |>]> m) }.

Section KeptCalls.
Context (J : gmap string OperatorRow -> Prop) `{!RecordInv J}.
#[local] Notation preserves := (preserves (kept J)).

Lemma kept_update id f :
  (forall now m o, J m -> m !! id = Some o -> J (<[id := f now o]> m)) -> preserves (update_operator id f).
Proof.
  intros Hf. apply kept_exec. intros now t Hj. destruct (operators t !! id) eqn:Ho; [|done]. by apply Hf.
Qed.

Lemma kept_retire sel id s : preserves (retire_keys sel id s).
Proof. by apply kept_other. Qed.

Lemma kept_insert_key id idx pub algo th : preserves (sql_insert_op_key id idx pub algo th).
Proof. apply kept_other_insert. intros now t t'. repeat case_match; by intros [= <-]. Qed.

Lemma kept_insert_keys id algo i keys : preserves (insert_keys id algo i keys).
Proof.
  revert i. induction keys as [|[pub th] keys IH]; intros i; simpl; [preserves_step|].
  preserves_step; [apply kept_ensure|]. preserves_step; [apply kept_insert_key|apply IH].
Qed.

Lemma kept_record_uses id idxs n swap : preserves (record_uses id n swap idxs).
Proof.
  revert n swap. induction idxs as [|idx rest IH]; intros n swap; simpl; [preserves_step|].
  preserves_step; [preserves_step; apply kept_count_use|].
  repeat first [apply IH | apply kept_retire | progress preserves_step].
Qed.

Lemma kept_insert_nonce nonce id scope expiry : preserves (sql_insert_nonce nonce id scope expiry).
Proof. apply kept_other_insert. intros now t t'. case_match; [done|]. by intros [= <-]. Qed.

Lemma kept_insert_challenge cid c : preserves (sql_insert_challenge cid c).
Proof. apply kept_other_insert. intros now t t'. repeat case_match; by intros [= <-]. Qed.

Lemma kept_persist runID suite idx nonce expected :
  preserves (persistChallenge runID suite idx nonce expected).
Proof.
  unfold persistChallenge. preserves_step; [preserves_step|]. preserves_step.
  { apply kept_unique_as, kept_other_insert. intros now t t'. repeat case_match; by intros [= <-]. }
  preserves_step; [apply preserves_fresh_uuid|]. preserves_step; [apply kept_insert_challenge|preserves_step].
Qed.

Lemma kept_own_run id runID : preserves (own_run id runID).
Proof. unfold own_run. preserves_step; [apply kept_no_rows_as, kept_op_row|apply kept_ensure]. Qed.

Lemma kept_keyset_hash id : preserves (activeKeysetHash id).
Proof. unfold activeKeysetHash. preserves_step; [apply kept_op_query|preserves_step]. Qed.

Lemma kept_key_map_tx id : preserves (activeKeyMapTx id).
Proof. unfold activeKeyMapTx. preserves_step; [apply kept_op_query|preserves_step]. Qed.

Lemma kept_grade `{MapOrder} id runID cid suite grader : preserves (gradeChallenge id runID cid suite grader).
Proof.
  unfold gradeChallenge. preserves_step. preserves_step; [apply kept_own_run|].
  preserves_step; [apply kept_no_rows_as, kept_op_row|]. preserves_step; [apply kept_ensure|].
  preserves_step; [preserves_step|]. preserves_step; [apply kept_key_map_tx|].
  case_match. preserves_step; [|preserves_step]. apply kept_other. intros now t. simpl. by case_match.
Qed.

Lemma kept_update_run runID f : preserves (update_run runID f).
Proof. apply kept_other. intros now t. simpl. by case_match. Qed.

(** The two transactions whose writes rest on what they read. *)
Lemma kept_AutoActivate id : preserves (AutoActivate id).
Proof.
  unfold AutoActivate. refine (preserves_tx_ending _ _ _). intros d0 t0.
  apply sym_row. intros o Ho. case_bool_decide; [by apply sym_ret|].
  apply sym_ensure. intros Hs%bool_decide_eq_true. apply sym_ensure. intros Hb.
  apply andb_prop in Hb as [Hb Hh]. apply andb_prop in Hb as [Hv Hp%bool_decide_eq_true].
  apply sym_hash. cbv beta iota. apply sym_ensure. intros _. apply sym_ensure. intros _.
  apply sym_exec. rewrite Ho. cbv beta iota delta [fst snd]. apply sym_ensure. intros _. apply sym_ret.
  unfold kept, record_inv. rewrite op_tables_set. simpl. intros Hj. apply inv_activate; try done.
  by destruct (o_conformance_keyset_hash o).
Qed.

Lemma tx_insert_keys t0 m id algo i keys :
  tx_triple t0 (fun d => operators (op_tables d) = m) (insert_keys id algo i keys)
    (fun _ d => operators (op_tables d) = m).
Proof.
  revert i. induction keys as [|[pub th] keys IH]; intros i; simpl.
  { exact (tx_ret t0 tt (fun _ d => operators (op_tables d) = m)). }
  apply (tx_bind _ _ _ _ (fun _ d => operators (op_tables d) = m)); [by apply tx_ensure|]. intros [].
  apply (tx_bind _ _ _ _ (fun _ d => operators (op_tables d) = m)); [|intros []; apply IH].
  unfold sql_insert_op_key. apply tx_op_insert. intros d t Hd. rewrite op_tables_set.
  repeat case_match; intros [= <-]; done.
Qed.

Lemma kept_AddKeys id pubkeys algo thresholds : preserves (AddKeys id pubkeys algo thresholds).
Proof.
  unfold AddKeys. preserves_step; [preserves_step|]. refine (preserves_tx _ _ _). intros d0 t0.
  apply sym_row. intros o Ho. apply sym_ensure. intros Hs%negb_true_iff%bool_decide_eq_false.
  apply sym_exec. cbv beta iota delta [fst snd]. apply sym_exec. rewrite op_tables_set. simpl.
  rewrite Ho. cbv beta iota delta [fst snd]. eapply tx_conseq; [apply tx_insert_keys| |].
  { intros d ->. reflexivity. }
  intros [] d Hd. unfold kept, record_inv. intros Hj. rewrite Hd. simpl. by apply inv_clear.
Qed.

Lemma kept_CheckAndAdvance id coord seq nonce scope expiry : preserves (CheckAndAdvance id coord seq nonce scope expiry).
Proof.
  unfold CheckAndAdvance. preserves_step. preserves_step; [apply kept_unique_as, kept_insert_nonce|].
  preserves_step; [apply kept_other; intros now t; simpl; by case_match|]. preserves_step; [|preserves_step].
  case_match. apply kept_other. intros now t. simpl. by case_match.
Qed.

Lemma kept_IssueEmailCode n id sessionID : preserves (IssueEmailCode n id sessionID).
Proof.
  unfold IssueEmailCode. preserves_step; [preserves_step|]. preserves_step.
  preserves_step; [apply kept_no_rows_as, kept_op_row|]. preserves_step; [preserves_step; apply kept_op_row|].
  preserves_step; [repeat preserves_step|]. preserves_step; [preserves_step|].
  preserves_step; [by apply kept_other|preserves_step].
Qed.

Lemma kept_PublishFeeDeclaration decl : preserves (PublishFeeDeclaration decl).
Proof.
  unfold PublishFeeDeclaration. preserves_step; [preserves_step|]. preserves_step.
  preserves_step; [preserves_step; apply kept_op_row|].
  preserves_step; [repeat first [progress preserves_step | apply kept_ensure]|].
  apply kept_unique_as, kept_other_insert. intros now t t'. simpl. repeat case_match; by intros [= <-].
Qed.

Lemma kept_StartConformanceRun `{MapOrder} P collate dr id : preserves (StartConformanceRun P collate dr id).
Proof.
  unfold StartConformanceRun. preserves_step. preserves_step; [apply kept_op_query|]. case_match.
  preserves_step; [apply kept_ensure|]. preserves_step; [apply preserves_fresh_uuid|]. preserves_step.
  { apply kept_other_insert. intros now t t'. repeat case_match; by intros [= <-]. }
  unfold issueChallengeA, issueChallengeB.
  repeat first [apply kept_persist | progress preserves_step].
Qed.

Lemma kept_GradeSuiteC nonce id runID : preserves (GradeSuiteC nonce id runID).
Proof.
  unfold GradeSuiteC. preserves_step. preserves_step; [apply kept_own_run|].
  preserves_step; [preserves_step; apply kept_op_row|].
  repeat first [apply kept_unique_as, kept_insert_nonce | apply kept_insert_challenge
    | apply preserves_fresh_uuid | progress preserves_step].
Qed.

Lemma kept_FinalizeRun id runID : preserves (FinalizeRun id runID).
Proof.
  unfold FinalizeRun. preserves_step. preserves_step; [apply kept_own_run|].
  preserves_step; [apply kept_op_query|].
  repeat first [apply kept_keyset_hash | apply kept_update_run | apply kept_ensure
    | apply kept_update; intros now m o; apply inv_bind | progress preserves_step].
Qed.

(** Every call keeps the invariant. *)
Lemma kept_call `{MapOrder} P collate c : preserves (call P collate c).
Proof.
  assert (Hdrop : forall A (m : M A), preserves m -> preserves (drop m)).
  { intros A m Hm. unfold drop. preserves_step; [by preserves_step|preserves_step]. }
  destruct c; simpl; apply Hdrop.
  - unfold CreateOperator. apply kept_unique_as, kept_insert. intros now t t'.
    destruct (_ || _) eqn:Hd; [done|]. intros [= <-] Hj. simpl. apply orb_false_elim in Hd as [Hd _].
    apply bool_decide_eq_false, eq_None_not_Some in Hd. by apply inv_create.
  - unfold MarkEmailVerified. preserves_step; [|apply kept_ensure]. apply kept_update.
    intros now m o. apply inv_verify.
  - unfold MarkConformancePassed. preserves_step. preserves_step; [apply kept_keyset_hash|].
    case_match. preserves_step; [apply kept_ensure|]. preserves_step; [|apply kept_ensure].
    apply kept_update. intros now m o. apply inv_bind.
  - apply kept_AutoActivate.
  - apply kept_AddKeys.
  - unfold RecordUsageAndExpire. preserves_step. preserves_step; [apply kept_op_query|apply kept_record_uses].
  - unfold RegisterReplacementKey. preserves_step; [preserves_step|]. preserves_step.
    preserves_step; [apply kept_key_map_tx|]. preserves_step; [apply kept_ensure|].
    preserves_step; [apply kept_retire|apply kept_insert_key].
  - unfold Revoke. preserves_step; [|apply kept_ensure]. apply kept_update. intros now m o. apply inv_revoke.
  - unfold Disconnect. preserves_step. preserves_step; [apply kept_update; intros now m o; apply inv_revoke|].
    preserves_step; [apply kept_ensure|apply kept_retire].
  - apply kept_CheckAndAdvance.
  - apply kept_IssueEmailCode.
  - unfold CheckEmailCode. preserves_step. preserves_step; [apply kept_no_rows_as, kept_op_row|].
    preserves_step; [preserves_step|]. repeat first [progress preserves_step |
      apply kept_update; intros now m o; apply inv_verify | apply kept_other; intros now t; simpl; by repeat case_match].
  - apply kept_PublishFeeDeclaration.
  - apply kept_StartConformanceRun.
  - apply kept_grade.
  - apply kept_grade.
  - apply kept_GradeSuiteC.
  - apply kept_FinalizeRun.
Qed.

Lemma kept_calls `{MapOrder} P collate cs : preserves (calls P collate cs).
Proof.
  induction cs as [|c cs IH]; simpl; [preserves_step|]. preserves_step; [apply kept_call|exact IH].
Qed.
End KeptCalls.

(** ** Revocation *)

#[local] Existing Instance default_order.

Definition is_revoked (id : string) (m : gmap string OperatorRow) : Prop :=
  exists o, m !! id = Some o /\ o_status o = OperatorRevoked.

(** No registry call touches the status but to revoke. *)
Lemma is_revoked_insert id m id' o o' :
  is_revoked id m -> m !! id' = Some o -> (o_status o' = o_status o \/ o_status o' = OperatorRevoked) ->
  is_revoked id (<[id' := o']> m).
Proof.
  intros (o1 & Ho1 & Hs) Ho Hcase. destruct (decide (id' = id)) as [->|Hne].
  - exists o'. rewrite lookup_insert_eq. split; [done|]. destruct Hcase as [->|]; [|done]. congruence.
  - exists o1. by rewrite lookup_insert_ne.
Qed.

#[export] Instance is_revoked_inv id : RecordInv (is_revoked id).
Proof.
  split; intros; try (eapply is_revoked_insert; [done..|by auto]).
  destruct H as (o & Ho & Hs). exists o. rewrite lookup_insert_ne; [done|]. congruence.
Qed.

Lemma revoked_no_keys id d : record_inv (is_revoked id) d -> gated_keys id (op_tables d) = [].
Proof. intros (o & Ho & Hs). unfold gated_keys. by rewrite Ho, Hs. Qed.

Lemma query_run {A} (f : Z -> DB -> A) w r w' : query f w = (r, w') ->
  exists x, next_event w = (Ok x, w') /\ r = (if x is Succeeds then Ok (f (sql_now w') (w_db w')) else Err ErrConn).
Proof.
  unfold query, stmt, run_stmt, try, fail, mbind, M_bind. intros Hr.
  destruct (next_event w) as [[x|e] w1] eqn:Hn.
  - exists x. destruct x; simplify_eq; [|done|]; by destruct w1.
  - unfold next_event in Hn. by destruct (w_events w).
Qed.

Section Revoked.
Context (P : OpProtocol) (unmarshal : string -> option operatorTransmissionWire) (coord : string).

Lemma revoked_key_map id w r w' :
  respects (kept (is_revoked id)) (w_events w) -> record_inv (is_revoked id) (w_db w) ->
  GetActiveKeyMap id w = (r, w') -> r = Ok ∅ \/ exists e, r = Err e.
Proof.
  intros He Hj. unfold GetActiveKeyMap, mbind, M_bind.
  destruct (op_query (gated_keys id) w) as [r1 w1] eqn:Hq.
  destruct (query_run _ _ _ _ Hq) as (x & Hn & ->).
  destruct (preserves_next (kept (is_revoked id)) _ _ _ He Hn) as [_ Hk].
  destruct x; [|by intros [= <- _]; eauto..]. rewrite (revoked_no_keys _ _ (Hk Hj)).
  intros [= <- _]. by left.
Qed.

Lemma authenticate_revoked raw tx w r w' :
  decodeOperatorHeader unmarshal raw = Some tx -> transmission_Verify P tx ∅ = false ->
  respects (kept (is_revoked (ot_OperatorID tx))) (w_events w) ->
  record_inv (is_revoked (ot_OperatorID tx)) (w_db w) ->
  authenticate P unmarshal repository coord raw w = (r, w') -> r = Ok (Err StatusUnauthorized).
Proof.
  intros Hd Hv He Hj. unfold authenticate. destruct (bool_decide (raw = "")); [by intros [= <- _]|].
  rewrite (hbind_ok _ _ w tt w) by done. rewrite Hd. rewrite (hbind_ok _ _ w tx w) by done.
  rewrite (hbind_ok _ _ w (w_now w) w) by done.
  destruct (stale (w_now w) (ot_TsUnixNano tx)); [by intros [= <- _]|].
  rewrite (hbind_ok _ _ w tt w) by done. simpl.
  destruct (GetActiveKeyMap (ot_OperatorID tx) w) as [rk w1] eqn:Hk.
  destruct (revoked_key_map _ _ _ _ He Hj Hk) as [->|[e ->]].
  - erewrite hbind_ok by (apply or_reject_ok, Hk). rewrite Hv. by intros [= <- _].
  - erewrite hbind_err by (apply or_reject_err, Hk). by intros [= <- _].
Qed.
End Revoked.

(** C7 The kill switch is final: once an operator is revoked, no sequence of calls
    on the registry (a new registration under its slug, conformance, activation,
    key rotation, ...) brings it back, whatever fails in between, and from then on
    every transmission in its name is answered 401 and nothing else, however well
    it is signed.  Asked of the protocol is only that two signatures do not verify
    against an empty key map. *)
Theorem revocation_is_final `{MapOrder} P collate unmarshal coord cs raw tx w r1 w1 r2 w2 :
  record_inv (is_revoked (ot_OperatorID tx)) (w_db w) ->
  respects (kept (is_revoked (ot_OperatorID tx))) (w_events w) ->
  decodeOperatorHeader unmarshal raw = Some tx -> transmission_Verify P tx ∅ = false ->
  calls P collate cs w = (r1, w1) ->
  authenticate P unmarshal repository coord raw w1 = (r2, w2) ->
  record_inv (is_revoked (ot_OperatorID tx)) (w_db w1) /\ r2 = Ok (Err StatusUnauthorized).
Proof.
  intros Hj He Hd Hv Hc Ha. destruct (kept_calls (is_revoked (ot_OperatorID tx)) P collate cs _ _ _ He Hc) as [He1 Hk].
  split; [by apply Hk|]. eapply authenticate_revoked; [done..|by apply Hk|done].
Qed.

Lemma revocation_is_final_witness :
  let w := sample_op_world sample_op_tables in
  let w1 := (calls lenient_protocol (fun _ _ => true) [CallRevoke "cloudy"] w).2 in
  let cs := [CallCreateOperator "cloudy" "Cloudy" "new@example.org" ""; CallMarkEmailVerified "cloudy";
             CallMarkConformancePassed "cloudy"; CallAutoActivate "cloudy"] in
  let w2 := (calls lenient_protocol (fun _ _ => true) cs w1).2 in
  (authenticate lenient_protocol sample_unmarshal repository "soholink" "QQ==" w).1 <> Ok (Err StatusUnauthorized) /\
  (authenticate lenient_protocol sample_unmarshal repository "soholink" "QQ==" w2).1 = Ok (Err StatusUnauthorized).
Proof.
  cbv zeta. set (w := sample_op_world sample_op_tables). split; [vm_compute; discriminate|].
  set (w1 := (calls _ _ [CallRevoke "cloudy"] w).2). set (cs := [_; _; _; _]).
  eapply (revocation_is_final lenient_protocol (fun _ _ => true) sample_unmarshal "soholink" cs "QQ=="
    (mkTransmission "cloudy" sample_now (string_of [0; 0; 0]) 7 AlgoEd25519 0 0 "" "") w1).
  - eexists. split; vm_compute; reflexivity.
  - apply Forall_nil_2.
  - vm_compute. reflexivity.
  - reflexivity.
  - apply surjective_pairing.
  - apply surjective_pairing.
Defined.

(** ** The onboarding gates *)

Definition gates (o : OperatorRow) : Prop :=
  o_email_verified o = true /\ is_Some (o_conformance_passed_at o) /\ is_Some (o_conformance_keyset_hash o).

Definition activation_gated (m : gmap string OperatorRow) : Prop :=
  map_Forall (fun _ o => o_onboarding_state o = OnboardingActive -> gates o) m.

#[export] Instance activation_gated_inv : RecordInv activation_gated.
Proof.
  split; intros; (apply map_Forall_insert_2; [|done]); simpl; intros Hs; try done.
  - destruct (H _ _ H0 Hs) as (_ & ? & ?). by split_and!.
  - destruct (H _ _ H0 Hs) as (? & _ & _). split_and!; [done|by eexists..].
  - destruct (H _ _ H0 Hs) as (? & ? & ?). by split_and!.
Qed.

(** C25 An operator in the active onboarding state has proved its email address and
    passed conformance, with the hash of a keyset bound to the pass: no sequence of
    registry calls, failing or not, ever gets an operator past the gates.  In
    particular clearing the pass (AddKeys) is refused once the operator is active. *)
Theorem active_operators_passed_the_gates `{MapOrder} P collate cs w r w' id o :
  record_inv activation_gated (w_db w) -> respects (kept activation_gated) (w_events w) ->
  calls P collate cs w = (r, w') ->
  operators (op_tables (w_db w')) !! id = Some o -> o_onboarding_state o = OnboardingActive ->
  o_email_verified o = true /\ is_Some (o_conformance_passed_at o) /\ is_Some (o_conformance_keyset_hash o).
Proof.
  intros Hj He Hc Ho Hs. destruct (kept_calls activation_gated P collate cs _ _ _ He Hc) as [_ Hk].
  exact (Hk Hj id o Ho Hs).
Qed.

Definition onboarding_calls : list OpCall :=
  [CallCreateOperator "cloudy" "Cloudy" "Ops@example.org" ""; CallAutoActivate "cloudy";
   CallAddKeys "cloudy" (sample_pub <$> seqZ 0 7) AlgoEd25519 (replicate 7 365);
   CallMarkConformancePassed "cloudy"; CallAutoActivate "cloudy";
   CallMarkEmailVerified "cloudy"; CallAutoActivate "cloudy"].

Lemma active_operators_passed_the_gates_witness :
  let w := sample_op_world empty_op_tables in
  let run cs := (calls lenient_protocol (fun _ _ => true) cs w).2 in
  o_onboarding_state <$> operators (ops (run (take 5 onboarding_calls))) !! "cloudy" = Some PendingVerification /\
  exists o, operators (ops (run onboarding_calls)) !! "cloudy" = Some o /\
    o_onboarding_state o = OnboardingActive /\ o_email_verified o = true.
Proof.
  cbv zeta. split; [vm_compute; reflexivity|].
  set (w := sample_op_world empty_op_tables).
  set (row := operators (ops (calls lenient_protocol (fun _ _ => true) onboarding_calls w).2) !! "cloudy").
  assert (Hrow : exists o, row = Some o /\ o_onboarding_state o = OnboardingActive).
  { eexists. split; vm_compute; reflexivity. }
  destruct Hrow as (o & Ho & Hs). exists o. split; [exact Ho|]. split; [exact Hs|].
  unfold row, ops in Ho. clear row.
  eapply (active_operators_passed_the_gates lenient_protocol (fun _ _ => true) onboarding_calls w).
  - apply map_Forall_empty.
  - apply Forall_nil_2.
  - apply surjective_pairing.
  - exact Ho.
  - exact Hs.
Defined.
