(* ===== verification/OperatorRuns.v ===== *)
(** Runs of the onboarding flow: how many guesses at an email code are evaluated,
    exactly when an operator is activated, and what a conformance pass stands
    for. *)
From S2P Require Import Prelude Float64 Workload Sounding Registry Scheduler Database Replay Lifecycle Effects.
From S2P Require Import Encoding Sha256 Token Allowlist Orchestrator Samples Operator Conformance Http OperatorApi.
From S2P Require Import OperatorProofs OperatorSafety.
Local Open Scope string_scope.
Local Open Scope list_scope.
Local Open Scope Z_scope.

(** ** Guessing a code *)

(** The wrong guesses the pending code of an operator still tolerates. *)
Definition guesses_left (id : string) (d : DB) : nat :=
  match operator_verifications (op_tables d) !! id with
  | Some v => Z.to_nat (VerificationMaxAttempts - vf_attempts v)
  | None => O
  end.

(** No fresh code, no reset counter. *)
Definition no_reissue (id : string) (d d' : DB) : Prop := (guesses_left id d' <= guesses_left id d)%nat.

#[export] Instance no_reissue_preorder id : PreOrder (no_reissue id).
Proof. split; unfold no_reissue; [intros d|intros d1 d2 d3]; lia. Qed.

(** The answer tells the caller whether the guess was right. *)
Definition revealing (r : result Error unit) : bool :=
  match r with Ok _ => true | Err e => bool_decide (e = ErrVerificationCodeMismatch) end.

(** What one transaction of [CheckEmailCode] commits. *)
Definition guess_cost (id : string) (d0 : DB) (x : TxEnd unit) (d : DB) : Prop :=
  match x with
  | Committing r => ((if revealing r then 1 else 0) + guesses_left id d <= guesses_left id d0)%nat
  | RollingBack _ => False
  end.

Lemma guesses_left_deleted id m d :
  operator_verifications (op_tables d) = delete id m -> guesses_left id d = 0%nat.
Proof. intros Hd. unfold guesses_left. by rewrite Hd, lookup_delete_eq. Qed.

Lemma CheckEmailCode_tx id sessionID code d0 t0 :
  tx_triple t0 (fun d => d = d0) (
    v ← no_rows_as ErrVerificationNotFound (op_row (fun t => operator_verifications t !! id));
    now ← time_Now;
    if vf_expires_at v <? now then
      _ ← sql_delete_verification id;
      mret (Committing (Err ErrVerificationExpired))
    else if negb (bool_decide (vf_session_id v = sessionID)) then fail ErrVerificationSessionMismatch
    else if VerificationMaxAttempts <=? vf_attempts v then fail ErrVerificationTooManyAttempts
    else if negb (bool_decide (vf_code v = code)) then
      _ ← sql_count_attempt id;
      mret (Committing (Err ErrVerificationCodeMismatch))
    else
      _ ← update_operator id (fun _ o => o <| o_email_verified := true |>);
      _ ← sql_delete_verification id;
      mret (Committing (Ok tt))) (guess_cost id d0).
Proof.
  apply sym_row. intros v Hv. apply sym_now. intros now.
  case_match; [|case_match; [apply tx_fail|case_match; [apply tx_fail|]]].
  - apply sym_exec. cbv beta iota delta [fst snd]. apply sym_ret. unfold guess_cost, revealing. erewrite guesses_left_deleted by reflexivity.
    rewrite bool_decide_eq_false_2 by done. lia.
  - assert (Hleft : (1 <= guesses_left id d0)%nat) by (unfold guesses_left; rewrite Hv; lia).
    case_match.
    + apply sym_exec. rewrite Hv. cbv beta iota delta [fst snd]. apply sym_ret. unfold guess_cost, revealing.
      rewrite bool_decide_eq_true_2 by done. unfold guesses_left in *. rewrite op_tables_set. simpl.
      rewrite Hv, lookup_insert_eq in *. simpl. lia.
    + apply sym_exec. cbv beta iota. apply sym_exec. cbv beta iota delta [fst snd]. apply sym_ret. unfold guess_cost, revealing.
      erewrite guesses_left_deleted by reflexivity. lia.
Qed.

(** The verdict on a guess is only ever given with the commit. *)
Definition never_fails_with {A} (e : Error) (m : M A) : Prop := forall w w', m w <> (Err e, w').

Lemma never_bind {A B} e (m : M A) (f : A -> M B) :
  never_fails_with e m -> (forall a, never_fails_with e (f a)) -> never_fails_with e (m ≫= f).
Proof.
  intros Hm Hf w w'. unfold mbind, M_bind. destruct (m w) as [[a|x] w1] eqn:Hw; [apply Hf|].
  intros [= -> ->]. exact (Hm _ _ Hw).
Qed.

Lemma never_exec {A} e (f : Z -> OpTables -> A * OpTables) : e <> ErrConn -> never_fails_with e (op_exec f).
Proof.
  intros He w w'. unfold op_exec, exec, stmt, run_stmt, try, fail, mbind, M_bind.
  destruct (next_event w) as [[x|x] w1] eqn:Hn; [|unfold next_event in Hn; by destruct (w_events w)].
  destruct x; simpl; try congruence; destruct (f (sql_now w1) (op_tables (w_db w1))); simpl; congruence.
Qed.

Lemma never_row {A} e e' (f : OpTables -> option A) :
  e <> ErrConn -> e <> e' -> never_fails_with e (no_rows_as e' (op_row f)).
Proof.
  intros He He' w w'. unfold no_rows_as, op_row, try at 1, mbind at 1, M_bind at 1. rewrite query_row_run.
  destruct (next_event w) as [[[]|x] w1]; simpl; unfold fail; try congruence.
  destruct (f (op_tables (w_db w1))); simpl; unfold mret, M_ret, fail; congruence.
Qed.

(** One guess in any environment. *)
Lemma CheckEmailCode_cost id sessionID code w r w' :
  respects (no_reissue id) (w_events w) -> CheckEmailCode id sessionID code w = (r, w') ->
  respects (no_reissue id) (w_events w') /\
  ((if revealing r then 1 else 0) + guesses_left id (w_db w') <= guesses_left id (w_db w))%nat.
Proof.
  intros He Hr.
  assert (Hpres : preserves (no_reissue id) (CheckEmailCode id sessionID code)).
  { refine (preserves_tx_ending _ _ _). intros d0 t0. eapply tx_conseq; [apply (CheckEmailCode_tx _ _ _ d0)|by intros d ->|].
    unfold guess_cost, no_reissue. intros [x|x] d; [lia|done]. }
  destruct (Hpres _ _ _ He Hr) as [He' Hle]. split; [done|].
  destruct (revealing r) eqn:Hrev; [|done]. revert Hr. unfold CheckEmailCode, transaction_ending, mbind at 1, M_bind at 1.
  destruct (next_event w) as [[x|e] w1] eqn:Hn; [|unfold next_event in Hn; by destruct (w_events w)].
  destruct (preserves_next (no_reissue id) _ _ _ He Hn) as [_ Hle1]. unfold no_reissue in Hle1.
  destruct x; [|by intros [= <- <-]..]. unfold in_tx_ending.
  match goal with |- context [?m (w1 <| w_tx := _ |>)] => destruct (m (w1 <| w_tx := Some (w_now w1) |>)) as [r2 w2] eqn:Hw2 end.
  destruct (CheckEmailCode_tx id sessionID code (w_db w1) (w_now w1) (w1 <| w_tx := Some (w_now w1) |>) r2 w2)
    as (_ & Ht2 & _ & Hq); [done..|].
  destruct r2 as [[r2|r2]|e]; [|by destruct (Hq _ eq_refl)|].
  - specialize (Hq _ eq_refl). unfold guess_cost in Hq.
    destruct (next_event w2) as [x3 w3] eqn:Hn3.
    destruct (next_event_tx _ _ _ _ Hn3 Ht2) as (_ & _ & Hd3 & _ & f & ->).
    destruct f; intros [= <- <-]; [|by vm_compute in Hrev..].
    rewrite Hrev in Hq. simpl. rewrite Hd3. lia.
  - intros [= <- <-]. simpl in Hrev. apply bool_decide_eq_true in Hrev. subst e. exfalso.
    revert Hw2. apply never_bind; [by apply never_row|]. intros v. apply never_bind; [done|]. intros now.
    repeat case_match; try done; repeat (apply never_bind; [by apply never_exec|intros ?]); done.
Qed.

Fixpoint guesses (id sessionID : string) (codes : list string) : M (list (result Error unit)) :=
  match codes with
  | [] => mret []
  | code :: rest =>
      r ← try (CheckEmailCode id sessionID code);
      rs ← guesses id sessionID rest;
      mret (r :: rs)
  end.

(** C27 Brute force: however many codes an attacker tries, in whatever session and
    environment (statements and commits failing, other requests in between, short of
    a new code being issued), at most as many tries get a verdict as the counter of
    the pending code has left; a code whose counter starts at zero gives five. *)
Theorem email_guesses_bounded id sessionID codes w rs w' :
  respects (no_reissue id) (w_events w) -> guesses id sessionID codes w = (Ok rs, w') ->
  (length (List.filter revealing rs) + guesses_left id (w_db w') <= guesses_left id (w_db w))%nat /\
  (forall v, operator_verifications (op_tables (w_db w)) !! id = Some v -> 0 <= vf_attempts v ->
     (length (List.filter revealing rs) <= 5)%nat).
Proof.
  intros He Hr.
  assert (Hcost : (length (List.filter revealing rs) + guesses_left id (w_db w') <= guesses_left id (w_db w))%nat).
  { revert w rs He Hr. induction codes as [|c codes IH]; intros w rs He; simpl; [by intros [= <- <-]|].
    intros Hr. apply bind_ok in Hr as (r & w1 & Hc & Hr). apply bind_ok in Hr as (rs1 & w2 & Hrest & Hr).
    injection Hr as <- <-. unfold try in Hc. destruct (CheckEmailCode id sessionID c w) as [r1 w3] eqn:Hg.
    injection Hc as <- <-. destruct (CheckEmailCode_cost _ _ _ _ _ _ He Hg) as [He1 Hle].
    specialize (IH _ _ He1 Hrest). simpl. destruct (revealing r1); simpl; lia. }
  split; [done|]. intros v Hv Ha. unfold guesses_left at 2 in Hcost. rewrite Hv in Hcost.
  unfold VerificationMaxAttempts in Hcost. lia.
Qed.

Definition coded_tables : OpTables := sample_op_tables
  <| operator_verifications := {[ "cloudy" := mkVerification "000042" 0 "s" (sample_now + Minute) sample_now ]} |>.

Lemma email_guesses_bounded_witness :
  let w := sample_op_world coded_tables in
  let run := guesses "cloudy" "s" ["1"; "2"; "3"; "4"; "5"; "000042"] w in
  exists rs, run.1 = Ok rs /\ last rs = Some (Err ErrVerificationTooManyAttempts) /\
    length (List.filter revealing rs) = 5%nat /\ (length (List.filter revealing rs) <= 5)%nat.
Proof.
  cbv zeta. set (run := guesses _ _ _ _).
  assert (Hrun : exists rs, run.1 = Ok rs /\ last rs = Some (Err ErrVerificationTooManyAttempts) /\
    length (List.filter revealing rs) = 5%nat) by (eexists; split_and!; vm_compute; reflexivity).
  destruct Hrun as (rs & Hrun & Hlast & Hlen). exists rs. do 3 (split; [assumption|]).
  apply (email_guesses_bounded "cloudy" "s" ["1"; "2"; "3"; "4"; "5"; "000042"] (sample_op_world coded_tables) rs run.2)
    with (v := mkVerification "000042" 0 "s" (sample_now + Minute) sample_now).
  - apply Forall_nil_2.
  - fold run. rewrite <- Hrun. apply surjective_pairing.
  - vm_compute. reflexivity.
  - vm_compute. discriminate.
Defined.

(** ** Activation *)

Lemma compare_bytes_eq a b : compare_bytes a b = 0 <-> a = b.
Proof.
  revert b. induction a as [|x a IH]; intros [|y b]; simpl; try (split; [lia|congruence]); [done|].
  destruct (Z.ltb_spec x y); [split; [lia|]; intros [= -> ->]; lia|].
  destruct (Z.ltb_spec y x); [split; [lia|]; intros [= -> ->]; lia|].
  rewrite IH. split; [intros ->; f_equal; lia|congruence].
Qed.

Lemma stringsCompareBytes_eq a b : stringsCompareBytes a b = 0 <-> a = b.
Proof.
  unfold stringsCompareBytes. rewrite compare_bytes_eq. split; [|congruence].
  intros Hs%(f_equal string_of). by rewrite !string_of_bytes in Hs.
Qed.

Lemma stringsCompareBytes_eqb a b : (stringsCompareBytes a b =? 0) = bool_decide (a = b).
Proof.
  case_bool_decide as Hs; [by apply Z.eqb_eq, stringsCompareBytes_eq|].
  apply Z.eqb_neq. by rewrite stringsCompareBytes_eq.
Qed.

(** A failing body is rolled back. *)
Lemma transaction_ending_fails {A} (m : M (TxEnd A)) w e w1 :
  calm w -> w_tx w = None -> m (w <| w_tx := Some (w_now w) |>) = (Err e, w1) ->
  transaction_ending m w = (Err e, w1 <| w_db := w_db w |> <| w_tx := None |>).
Proof.
  intros Hc Ht Hm. unfold transaction_ending. rewrite (bind_eq _ _ _ _ _ (next_event_calm w Hc)).
  unfold in_tx_ending. by rewrite Hm.
Qed.

Lemma hash_calm id w : calm w -> activeKeysetHash id w = (Ok (keyset_hash id (ops w)), w).
Proof. intros Hc. unfold activeKeysetHash. by rewrite (bind_eq _ _ _ _ _ (op_query_calm _ w Hc)). Qed.

(** The gates, with the keys as they are now. *)
Definition activatable (id : string) (o : OperatorRow) (t : OpTables) : bool :=
  bool_decide (o_status o = OperatorActive) && o_email_verified o &&
  bool_decide (is_Some (o_conformance_passed_at o)) &&
  bool_decide (o_conformance_keyset_hash o = Some (keyset_hash id t).1) &&
  bool_decide ((keyset_hash id t).1 <> "") && bool_decide (length (active_keys id t) = 7%nat).

Definition activated (id : string) (o : OperatorRow) (t : OpTables) : OpTables :=
  t <| operators := <[id := o <| o_onboarding_state := OnboardingActive |>]> (operators t) |>.

(** The guards of the body, in order; [Ok] when all hold. *)
Definition activation_guard (id : string) (o : OperatorRow) (t : OpTables) : result Error unit :=
  let hash := default "" (o_conformance_keyset_hash o) in
  if negb (bool_decide (o_status o = OperatorActive)) then Err ErrActivationPreconditions
  else if negb (o_email_verified o && bool_decide (is_Some (o_conformance_passed_at o)) &&
                negb (bool_decide (hash = ""))) then Err ErrActivationPreconditions
  else if negb (bool_decide (length (active_keys id t) = 7%nat)) then Err ErrKeysetCountMismatch
  else if negb (bool_decide ((keyset_hash id t).1 = hash)) then Err ErrKeysetHashMismatch
  else Ok tt.

Lemma activation_guard_ok id o t : is_ok (activation_guard id o t) = activatable id o t.
Proof.
  unfold activation_guard, activatable. destruct (bool_decide (o_status o = OperatorActive)); [|done].
  destruct (o_email_verified o); [|done]. destruct (bool_decide (is_Some _)); [|done].
  cbn [andb negb]. destruct (o_conformance_keyset_hash o) as [h|]; cbn [default]; [|done].
  destruct (decide (h = "")) as [->|Hh].
  { simpl. symmetry.
    destruct (decide (hashSortedPubkeys (ok_public_key <$> active_keys id t) = "")) as [He|He].
    - by rewrite (bool_decide_eq_false_2 (_ <> "")), andb_false_r by (intros Hn; by apply Hn).
    - by rewrite bool_decide_eq_false_2 by congruence. }
  rewrite (bool_decide_eq_false_2 (h = "")) by done. simpl. repeat case_bool_decide; simplify_eq; done.
Qed.

Lemma ensure_run {B} b e (k : unit -> M B) w :
  (ensure b e ≫= k) w = if b then k tt w else (Err e, w).
Proof. by destruct b. Qed.

Lemma AutoActivate_run id w o :
  calm w -> w_tx w = None -> operators (ops w) !! id = Some o -> o_onboarding_state o <> OnboardingActive ->
  AutoActivate id w =
    match activation_guard id o (ops w) with
    | Ok _ => (Ok tt, with_ops (activated id o (ops w)) w)
    | Err e => (Err e, w)
    end.
Proof.
  intros Hc Ht Ho Hs.
  assert (Hw : forall d, w <| w_tx := Some (w_now w) |> <| w_db := d |> <| w_tx := None |> = w <| w_db := d |>).
  { intros d. destruct w. simpl in Ht. by subst. }
  assert (Hc' : calm (w <| w_tx := Some (w_now w) |>)) by (destruct Hc; by split).
  assert (Hself : w <| w_db := w_db w |> = w) by (by destruct w).
  match goal with |- context [AutoActivate id w] => unfold AutoActivate end.
  match goal with |- transaction_ending ?m w = _ => set (body := m) end.
  assert (Hbody : body (w <| w_tx := Some (w_now w) |>) = match activation_guard id o (ops w) with
    | Ok _ => (Ok (Committing (Ok tt)), with_ops (activated id o (ops w)) (w <| w_tx := Some (w_now w) |>))
    | Err e => (Err e, w <| w_tx := Some (w_now w) |>) end).
  { unfold body. erewrite bind_eq by (rewrite no_rows_as_calm by done; change (ops (w <| w_tx := Some (w_now w) |>)) with (ops w); by rewrite Ho).
    rewrite bool_decide_eq_false_2 by done. unfold activation_guard. rewrite ensure_run.
    destruct (bool_decide (o_status o = OperatorActive)); [|done]. cbv beta iota delta [negb]. rewrite ensure_run.
    destruct (o_email_verified o && _ && _); [|done]. cbv beta iota delta [negb].
    rewrite (bind_eq _ _ _ _ _ (hash_calm id _ Hc')). change (ops (w <| w_tx := Some (w_now w) |>)) with (ops w).
    cbv beta iota delta [keyset_hash fst]. rewrite ensure_run.
    assert (Hn : (Z.of_nat (length (active_keys id (ops w))) =? KeyIndexCount) =
      bool_decide (length (active_keys id (ops w)) = 7%nat)).
    { unfold KeyIndexCount. case_bool_decide; [apply Z.eqb_eq|apply Z.eqb_neq]; lia. }
    rewrite Hn. destruct (bool_decide (length _ = _)); [|done]. cbv beta iota delta [negb]. rewrite ensure_run, stringsCompareBytes_eqb.
    destruct (bool_decide (_ = default "" _)); [|done]. cbv beta iota delta [negb].
    erewrite bind_eq by (unfold update_operator; rewrite op_exec_calm by done;
      change (ops (w <| w_tx := Some (w_now w) |>)) with (ops w); rewrite Ho; reflexivity). done. }
  destruct (activation_guard id o (ops w)) as [[]|e].
  - rewrite (in_tx_ending_calm body w _ _ Hc Ht Hbody) by (destruct Hc; by split).
    f_equal. exact (Hw _).
  - rewrite (transaction_ending_fails body w _ _ Hc Ht Hbody). f_equal. rewrite Hw. exact Hself.
Qed.

(** C26 Activation, exactly: an operator that is not active yet is activated if and
    only if it is not revoked, its email address is verified, it passed conformance
    and the hash stored with the pass is the hash of its seven active keys as they
    are now.  A refused activation changes nothing. *)
Theorem AutoActivate_exact id w o :
  calm w -> w_tx w = None -> operators (ops w) !! id = Some o -> o_onboarding_state o <> OnboardingActive ->
  if activatable id o (ops w)
  then AutoActivate id w = (Ok tt, with_ops (activated id o (ops w)) w)
  else exists e, AutoActivate id w = (Err e, w).
Proof.
  intros Hc Ht Ho Hs. rewrite (AutoActivate_run _ _ _ Hc Ht Ho Hs), <- activation_guard_ok.
  destruct (activation_guard id o (ops w)) as [[]|e]; [done|]. by exists e.
Qed.

Definition pending_operator (hash : string) : OperatorRow := sample_operator
  <| o_onboarding_state := PendingVerification |> <| o_conformance_keyset_hash := Some hash |>.

Definition pending_tables (hash : string) : OpTables :=
  sample_op_tables <| operators := {[ "cloudy" := pending_operator hash ]} |>.

Lemma AutoActivate_exact_witness :
  let hash := (keyset_hash "cloudy" sample_op_tables).1 in
  let w := sample_op_world (pending_tables hash) in
  activatable "cloudy" (pending_operator hash) (ops w) = true /\
  AutoActivate "cloudy" w = (Ok tt, with_ops (activated "cloudy" (pending_operator hash) (ops w)) w).
Proof.
  cbv zeta. set (hash := (keyset_hash "cloudy" sample_op_tables).1).
  set (w := sample_op_world (pending_tables hash)).
  assert (Ha : activatable "cloudy" (pending_operator hash) (ops w) = true) by (vm_compute; reflexivity).
  split; [exact Ha|].
  assert (He : if activatable "cloudy" (pending_operator hash) (ops w)
    then AutoActivate "cloudy" w = (Ok tt, with_ops (activated "cloudy" (pending_operator hash) (ops w)) w)
    else exists e, AutoActivate "cloudy" w = (Err e, w)).
  { apply (AutoActivate_exact "cloudy" w (pending_operator hash)).
    - split; reflexivity.
    - reflexivity.
    - vm_compute. reflexivity.
    - discriminate. }
  rewrite Ha in He. exact He.
Defined.

(** ** What a conformance pass stands for *)

#[local] Existing Instance default_order.

(** Answers to the two challenges of a run, signed with keys 0 and 1. *)
Definition answers (pub : Z -> string) (chA : list ChallengeA) (chB : list ChallengeB) : conformanceSubmitRequest :=
  mkConformanceSubmit
    ((fun c => mkResponseA (ca_ChallengeID c) (CanonicalBytes sample_op_protocol (mkTransmission (ca_OperatorID c)
        (ca_TsUnixNano c) (ca_Nonce c) (ca_Seq c) (ca_Algo c) (ca_Idx0 c) (ca_Idx1 c) "" "")) 0 1 (pub 0) (pub 1)) <$> chA)
    ((fun c => mkResponseB (cb_ChallengeID c) 0 1 (pub 0) (pub 1)) <$> chB).

Definition old_key (i : Z) : string := sample_pub i.
Definition new_key (i : Z) : string := sample_pub (10 + i).

Definition submit (nonceC runID : string) (req : conformanceSubmitRequest) : M (result Z (list ChallengeResult * bool * bool)) :=
  handleConformanceSubmit sample_op_protocol nonceC "cloudy" runID (Decoded req).

(** Onboard with the old keys, pass the suites, replace the keyset, submit nothing,
    verify the email address. *)
Definition swap_keyset : M (result Z (list ChallengeResult * bool * bool) * result Z (list ChallengeResult * bool * bool)) :=
  _ ← CreateOperator "cloudy" "Cloudy" "ops@example.org" "";
  _ ← AddKeys "cloudy" (old_key <$> seqZ 0 7) AlgoEd25519 (replicate 7 365);
  '(runID, chA, chB) ← StartConformanceRun sample_op_protocol (fun _ _ => true)
     (mkDraws "nonceA" (replicate 8 1) "nonceB" (replicate 8 2)) "cloudy";
  first ← submit "nonceC" runID (answers old_key chA chB);
  _ ← AddKeys "cloudy" (new_key <$> seqZ 0 7) AlgoEd25519 (replicate 7 365);
  second ← submit "nonceC2" runID (mkConformanceSubmit [] []);
  _ ← MarkEmailVerified "cloudy";
  _ ← AutoActivate "cloudy";
  mret (first, second).

Definition verdict (r : result Z (list ChallengeResult * bool * bool)) : bool :=
  match r with Ok (_, passed, _) => passed | Err _ => false end.

Definition swap_run := swap_keyset (sample_op_world empty_op_tables).

(** What a run leaves behind. *)
Definition run_verdicts (run : result Error _ * World) : bool * bool :=
  match run.1 with Ok (first, second) => (verdict first, verdict second) | Err _ => (false, false) end.
Definition final_row {A} (run : A * World) : option OperatorRow := operators (ops run.2) !! "cloudy".
Definition final_keys {A} (run : A * World) : gmap Z KeyRecord := result_of ∅ (GetActiveKeyMap "cloudy" run.2).

(** A keyset that no challenge was ever answered with can be activated: AddKeys
    withdraws the pass, but the graded challenges of the old run stay, and finalizing
    that run again, with no answers at all, binds the pass to whatever keyset is
    installed by then.  In this run of the real calls the operator ends up active with
    the new keys, while the answers that were graded do not verify against them. *)
Theorem untested_keyset_activates :
  run_verdicts swap_run = (true, true) /\
  o_onboarding_state <$> final_row swap_run = Some OnboardingActive /\
  (final_row swap_run ≫= o_conformance_keyset_hash) = Some (hashSortedPubkeys (new_key <$> seqZ 0 7)) /\
  size (final_keys swap_run) = 7%nat /\
  sample_verify 0 1 (old_key 0) (old_key 1) (final_keys swap_run) = false.
Proof. do 4 (split; [vm_compute; reflexivity|]). vm_compute. reflexivity. Qed.

(** Suite C examines nothing of the operator's: its exercise runs over made-up keys
    inside the coordinator, and its verdict is a constant. *)
Theorem suite_C_always_passes : runSuiteCScratch = (true, "").
Proof. vm_compute. reflexivity. Qed.
