(* ===== verification/ReadModel.v ===== *)
(** The operator read model: internal/operator/readmodel.go.  The queries behind
    the operator dashboards: the queue with its status counts, the detail page,
    the transmissions of a day and the fee history.

    The enumerations of the schema stand for their text; [collate] is the order of
    text columns. *)
From Stdlib Require Import Ascii.
From S2P Require Import Prelude Float64 Workload Sounding Registry Database Replay Lifecycle Effects.
From S2P Require Import Encoding Sha256 Operator Conformance Notify.
Local Open Scope string_scope.
Local Open Scope list_scope.
Local Open Scope Z_scope.

(** ** The queue *)

Record OperatorStatusCounts := mkCounts {
  oc_Pending : Z; oc_Verified : Z; oc_VerifiedPassed : Z; oc_Active : Z; oc_Revoked : Z; oc_Total : Z }.
#[export] Instance eta_OperatorStatusCounts : Eta OperatorStatusCounts := fun c => mkCounts
  (oc_Pending c) (oc_Verified c) (oc_VerifiedPassed c) (oc_Active c) (oc_Revoked c) (oc_Total c).

Record OperatorSummary := mkSummary {
  os_ID : string; os_Name : string; os_Email : string; os_Status : operator_status;
  os_OnboardingState : operator_onboarding_state; os_EmailVerified : bool; os_ConformancePassed : bool;
  os_ConformancePassedAt : option Z; os_ActiveKeyCount : Z; os_CreatedAt : Z; os_ReadyToActivate : bool }.

Section ReadModel.
Context (collate : string -> string -> bool).

(** [ORDER BY o.created_at DESC, o.id ASC] *)
Definition newest_first (a b : string * OperatorRow) : bool :=
  (o_created_at b.2 <? o_created_at a.2) ||
  ((o_created_at b.2 =? o_created_at a.2) && collate a.1 b.1).

Definition list_rows (t : OpTables) : list (string * OperatorRow * Z) :=
  (fun '(id, o) => (id, o, Z.of_nat (length (active_keys id t)))) <$> isort _ newest_first (map_to_list (operators t)).

Definition summary (row : string * OperatorRow * Z) : OperatorSummary :=
  let '(id, o, keys) := row in
  let passed := bool_decide (is_Some (o_conformance_passed_at o)) in
  mkSummary id (o_name o) (o_email o) (o_status o) (o_onboarding_state o) (o_email_verified o) passed
    (o_conformance_passed_at o) keys (o_created_at o)
    (bool_decide (o_status o = OperatorActive) && bool_decide (o_onboarding_state o = Verified) && passed).

(** The switch of the loop. *)
Definition count (c : OperatorStatusCounts) (s : OperatorSummary) : OperatorStatusCounts :=
  let c := c <| oc_Total := oc_Total c + 1 |> in
  if bool_decide (os_Status s = OperatorRevoked) then c <| oc_Revoked := oc_Revoked c + 1 |>
  else if bool_decide (os_OnboardingState s = OnboardingActive) then c <| oc_Active := oc_Active c + 1 |>
  else if bool_decide (os_OnboardingState s = Verified) then
    let c := c <| oc_Verified := oc_Verified c + 1 |> in
    if os_ConformancePassed s then c <| oc_VerifiedPassed := oc_VerifiedPassed c + 1 |> else c
  else if bool_decide (os_OnboardingState s = PendingVerification) then c <| oc_Pending := oc_Pending c + 1 |>
  else c.

Definition ListOperators : M (list OperatorSummary * OperatorStatusCounts) :=
  rows ← op_query list_rows;
  let out := summary <$> rows in
  mret (out, foldl count (mkCounts 0 0 0 0 0 0) out).

(** ** The detail page *)

Record KeyView := mkKeyView {
  kv_KeyIndex : Z; kv_PublicKeyB64Trunc : string; kv_Algo : string; kv_State : operator_key_state;
  kv_UsageCount : Z; kv_ExpirationThreshold : Z; kv_NearThreshold : bool }.

Definition NearThresholdWindow : Z := 10.

Definition ellipsis : string := string_of [226; 128; 166].

Definition truncPubKey (pub : string) : string :=
  let full := StdEncode pub in
  if Z.of_nat (String.length full) <=? 12 then full else String.substring 0 12 full +:+ ellipsis.

Definition state_ordinal (s : operator_key_state) : Z :=
  match s with KeyActive => 0 | KeyExpired => 1 | KeyRetired => 2 | KeyRevoked => 3 end.

(** [ORDER BY key_index ASC, CASE state ... END ASC, created_at DESC] *)
Definition key_order (a b : OperatorKeyRow) : bool :=
  (ok_key_index a <? ok_key_index b) || ((ok_key_index a =? ok_key_index b) &&
    ((state_ordinal (ok_state a) <? state_ordinal (ok_state b)) ||
     ((state_ordinal (ok_state a) =? state_ordinal (ok_state b)) && (ok_created_at b <? ok_created_at a)))).

Definition key_view (k : OperatorKeyRow) : KeyView :=
  mkKeyView (ok_key_index k) (truncPubKey (ok_public_key k)) (ok_algo k) (ok_state k) (ok_usage_count k)
    (ok_expiration_threshold k)
    (bool_decide (ok_state k = KeyActive) && (ok_expiration_threshold k - NearThresholdWindow <=? ok_usage_count k)).

Definition keyViews (id : string) : M (list KeyView * Z) :=
  rows ← op_query (fun t => isort _ key_order
    (List.filter (fun k => bool_decide (ok_operator_id k = id)) (operator_keys t)));
  mret (key_view <$> rows, Z.of_nat (length (List.filter (fun k => bool_decide (ok_state k = KeyActive)) rows))).

Record SuiteVerdictView := mkVerdict {
  sv_Suite : ConformanceSuite; sv_Graded : bool; sv_Passed : bool; sv_Detail : string }.
#[export] Instance eta_SuiteVerdictView : Eta SuiteVerdictView := fun v =>
  mkVerdict (sv_Suite v) (sv_Graded v) (sv_Passed v) (sv_Detail v).

Definition suite_ordinal (s : ConformanceSuite) : Z := match s with SuiteA => 0 | SuiteB => 1 | SuiteC => 2 end.
Definition challenge_order (a b : ChallengeRow) : bool :=
  (suite_ordinal (ch_suite a) <? suite_ordinal (ch_suite b)) ||
  ((suite_ordinal (ch_suite a) =? suite_ordinal (ch_suite b)) && (ch_idx a <? ch_idx b)).

(** One row into the verdict of its suite. *)
Definition grade_into (c : ChallengeRow) (v : SuiteVerdictView) : SuiteVerdictView :=
  match ch_consumed_at c, ch_result c with
  | Some _, Some res =>
      let v := v <| sv_Graded := true |> in
      if cr_Passed res then v
      else let v := v <| sv_Passed := false |> in
           if bool_decide (sv_Detail v = "") then v <| sv_Detail := cr_Detail res |> else v
  | _, _ => v <| sv_Graded := false |> <| sv_Passed := false |>
  end.

(** [bySuite] and [order]: the verdicts in the order their suites came up. *)
Fixpoint collapse (c : ChallengeRow) (vs : list SuiteVerdictView) : list SuiteVerdictView :=
  match vs with
  | [] => [grade_into c (mkVerdict (ch_suite c) false true "")]
  | v :: vs' => if bool_decide (sv_Suite v = ch_suite c) then grade_into c v :: vs' else v :: collapse c vs'
  end.

Definition suiteVerdicts (runID : string) : M (list SuiteVerdictView) :=
  rows ← op_query (fun t => isort _ challenge_order (run_challenges runID t));
  mret (foldl (fun vs c => collapse c vs) [] rows).

Record ConformanceRunView := mkRunView {
  rv_RunID : string; rv_Status : run_status; rv_StartedAt : Z; rv_FinishedAt : option Z;
  rv_Suites : list SuiteVerdictView }.

Definition latest_run (id : string) (t : OpTables) : option (string * RunRow) :=
  head (isort _ (fun a b => rn_started_at b.2 <? rn_started_at a.2)
    (List.filter (fun '(_, r) => bool_decide (rn_operator_id r = id)) (map_to_list (conformance_runs t)))).

Definition latestRunView (id : string) : M (option ConformanceRunView) :=
  r ← try (op_row (latest_run id));
  match r with
  | Err ErrNoRows => mret None
  | Err e => fail e
  | Ok (runID, run) =>
      suites ← suiteVerdicts runID;
      mret (Some (mkRunView runID (rn_status run) (rn_started_at run) (rn_finished_at run) suites))
  end.

Definition TransmissionsLast24h (id : string) : M Z := query (fun now d =>
  Z.of_nat (length (List.filter (fun '(_, n) => bool_decide (nc_operator_id n = id) &&
    bool_decide (nc_scope n = "production") && (now - Day <? nc_created_at n))
    (map_to_list (operator_nonces (op_tables d)))))).

Definition currentActiveKeysetHash (id : string) : M (string * Z) :=
  pubs ← op_query (fun t => ok_public_key <$> active_keys id t);
  mret (hashSortedPubkeys pubs, Z.of_nat (length pubs)).

Record LifecycleView := mkLifecycle {
  lv_CreatedAt : Z; lv_EmailVerified : bool; lv_ConformancePassed : option Z; lv_Activated : bool; lv_Revoked : bool }.

Record OperatorDetail := mkDetail {
  od_ID : string; od_Name : string; od_Email : string; od_Phone : string; od_Status : operator_status;
  od_OnboardingState : operator_onboarding_state; od_EmailVerified : bool; od_ConformancePassedAt : option Z;
  od_ActiveKeyCount : Z; od_Keys : list KeyView; od_Lifecycle : LifecycleView;
  od_LatestRun : option ConformanceRunView; od_TransmissionsLast24h : Z; od_KeysetHashMatches : bool;
  od_ReadyToActivate : bool }.

Definition GetOperator (id : string) : M OperatorDetail :=
  o ← no_rows_as ErrOperatorNotFound (op_row (fun t => operators t !! id));
  '(keys, activeCount) ← keyViews id;
  let lifecycle := mkLifecycle (o_created_at o) (o_email_verified o) (o_conformance_passed_at o)
    (bool_decide (o_onboarding_state o = OnboardingActive)) (bool_decide (o_status o = OperatorRevoked)) in
  run ← latestRunView id;
  tx24 ← TransmissionsLast24h id;
  let conformanceHash := default "" (o_conformance_keyset_hash o) in
  hashMatches ← (if negb (bool_decide (conformanceHash = "")) then
      '(curHash, n) ← currentActiveKeysetHash id;
      mret ((n =? KeyIndexCount) && (stringsCompareBytes curHash conformanceHash =? 0))
    else mret false);
  mret (mkDetail id (o_name o) (o_email o) (default "" (o_phone o)) (o_status o) (o_onboarding_state o)
    (o_email_verified o) (o_conformance_passed_at o) activeCount keys lifecycle run tx24 hashMatches
    (bool_decide (o_status o = OperatorActive) && bool_decide (o_onboarding_state o = Verified) &&
     bool_decide (is_Some (o_conformance_passed_at o)) && hashMatches)).

(** ** Fees *)

Record FeeDeclarationView := mkFeeView {
  fv_CoordinatorID : string; fv_ContributorShareBps : Z; fv_PlatformFeeBps : Z; fv_EffectiveAt : Z;
  fv_Seq : Z; fv_CreatedAt : Z; fv_IsCurrent : bool }.

Definition fee_view (current : bool) (f : FeeRow) : FeeDeclarationView :=
  mkFeeView (fd_coordinator_id f) (fd_contributor_share_bps f) (fd_platform_fee_bps f) (fd_effective_at f)
    (to_uint64 (fd_seq f)) (fd_created_at f) current.

(** [ORDER BY seq DESC] *)
Definition fees_by_seq (coord : string) (t : OpTables) : list FeeRow :=
  isort FeeRow (fun a b => fd_seq b <? fd_seq a)
    (List.filter (fun f => bool_decide (fd_coordinator_id f = coord)) (fee_declarations t)).

Definition FeeHistory (coord : string) : M (list FeeDeclarationView) :=
  rows ← op_query (fees_by_seq coord);
  mret (match rows with
        | [] => []
        | f :: rest => fee_view true f :: (fee_view false <$> rest)
        end).

(** [SELECT MAX(seq)] *)
Definition max_seq (coord : string) (t : OpTables) : option Z :=
  foldr (fun f m => if bool_decide (fd_coordinator_id f = coord)
                    then Some (match m with Some x => Z.max (fd_seq f) x | None => fd_seq f end) else m)
    None (fee_declarations t).

Definition NextSeq (coord : string) : M Z :=
  m ← op_query (max_seq coord);
  mret (match m with None => 0 | Some maxSeq => to_uint64 (to_uint64 maxSeq + 1) end).

Definition CurrentFeeDeclarationView (coord : string) : M FeeDeclarationView :=
  f ← no_rows_as ErrNoFeeDeclaration (op_row (latest_fee coord));
  mret (fee_view true f).

End ReadModel.
