(* ===== verification/ReadModelProofs.v ===== *)
(** The read model agrees with the registry it reads: the counts of the queue, the
    activation preview, and the number offered for the next fee declaration. *)
From S2P Require Import Prelude Float64 Workload Sounding Registry Scheduler Database Replay Lifecycle Effects.
From S2P Require Import Encoding Sha256 Token Allowlist Orchestrator Samples Operator Conformance Http OperatorApi.
From S2P Require Import OperatorProofs OperatorSafety OperatorGates OperatorRuns ReadModel.
Local Open Scope string_scope.
Local Open Scope list_scope.
Local Open Scope Z_scope.

(** ** The queue *)

Definition live (o : OperatorRow) : bool :=
  bool_decide (o_status o = OperatorActive) && bool_decide (o_onboarding_state o = OnboardingActive).
Definition revoked_row (o : OperatorRow) : bool := bool_decide (o_status o = OperatorRevoked).

(** The number of operators with a property, straight from the table. *)
Definition how_many (f : OperatorRow -> bool) (rows : list (string * OperatorRow)) : Z :=
  Z.of_nat (length (List.filter (fun r => f r.2) rows)).

Lemma how_many_perm f l l' : l ≡ₚ l' -> how_many f l = how_many f l'.
Proof.
  intros Hp. unfold how_many. f_equal. apply Permutation_length.
  induction Hp; simpl; repeat case_match; eauto using Permutation; by etrans.
Qed.

Lemma counts_fold (l : list (string * OperatorRow)) keys c :
  let c' := foldl count c (summary <$> ((fun '(id, o) => (id, o, keys id : Z)) <$> l)) in
  oc_Total c' = oc_Total c + Z.of_nat (length l) /\
  oc_Active c' = oc_Active c + how_many live l /\
  oc_Revoked c' = oc_Revoked c + how_many revoked_row l /\
  oc_Pending c' + oc_Verified c' + oc_Active c' + oc_Revoked c' - oc_Total c' =
    oc_Pending c + oc_Verified c + oc_Active c + oc_Revoked c - oc_Total c.
Proof.
  revert c. induction l as [|[id o] l IH]; intros c; cbv zeta; [unfold how_many; simpl; lia|].
  rewrite !fmap_cons. cbn [foldl]. specialize (IH (count c (summary (id, o, keys id)))). cbv zeta in IH.
  set (c' := foldl count _ _) in *. destruct IH as (IHt & IHa & IHr & IHs).
  unfold how_many in *. cbn [List.filter length snd]. unfold count, summary, live, revoked_row in *.
  cbn [os_Status os_OnboardingState os_ConformancePassed] in *.
  destruct (o_status o), (o_onboarding_state o), (bool_decide (is_Some _)); simpl in *; lia.
Qed.

(** The counts of the queue are those of the table: whatever happens around the
    read, the header that is returned with the rows counts every operator once, its
    four dispositions add up to the total, and its active operators are exactly those
    whose keys authenticate. *)
Theorem queue_counts_exact collate w out c w' :
  ListOperators collate w = (Ok (out, c), w') ->
  let rows := map_to_list (operators (op_tables (w_db w'))) in
  os_ID <$> out ≡ₚ rows.*1 /\
  oc_Total c = Z.of_nat (length rows) /\ oc_Active c = how_many live rows /\
  oc_Revoked c = how_many revoked_row rows /\
  oc_Pending c + oc_Verified c + oc_Active c + oc_Revoked c = oc_Total c.
Proof.
  intros Hr. unfold ListOperators in Hr. apply bind_ok in Hr as (rows & w1 & Hq & Hr).
  injection Hr as <- <- <-. destruct (query_run _ _ _ _ Hq) as (x & _ & Hrows). destruct x; simplify_eq.
  cbv zeta. unfold list_rows. set (t := op_tables (w_db w1)).
  set (l := isort _ (newest_first collate) (map_to_list (operators t))).
  assert (Hp : l ≡ₚ map_to_list (operators t)) by (symmetry; apply isort_perm).
  destruct (counts_fold l (fun id => Z.of_nat (length (active_keys id t))) (mkCounts 0 0 0 0 0 0)) as (Ht & Ha & Hr & Hs).
  cbn [oc_Total oc_Active oc_Revoked oc_Pending oc_Verified] in *.
  rewrite <- (how_many_perm live _ _ Hp), <- (how_many_perm revoked_row _ _ Hp), <- (Permutation_length Hp).
  split_and!; [|exact Ht|exact Ha|exact Hr|lia].
  rewrite <- Hp. clear. induction l as [|[id o] l IH]; [done|]. cbn. by f_equiv.
Qed.

Definition queue_tables : OpTables := sample_op_tables
  <| operators := {[ "cloudy" := sample_operator; "gone" := sample_operator <| o_status := OperatorRevoked |>;
                     "new" := sample_operator <| o_onboarding_state := PendingVerification |> ]} |>.

Lemma queue_counts_exact_witness :
  let run := ListOperators (fun _ _ => true) (sample_op_world queue_tables) in
  exists out c, run.1 = Ok (out, c) /\ (oc_Pending c, oc_Active c, oc_Revoked c) = (1, 1, 1) /\
    oc_Pending c + oc_Verified c + oc_Active c + oc_Revoked c = oc_Total c.
Proof.
  cbv zeta. set (run := ListOperators _ _).
  assert (Hrun : exists out c, run.1 = Ok (out, c) /\ (oc_Pending c, oc_Active c, oc_Revoked c) = (1, 1, 1))
    by (eexists _, _; split; vm_compute; reflexivity).
  destruct Hrun as (out & c & Hrun & Hc). exists out, c. split; [exact Hrun|]. split; [exact Hc|].
  apply (queue_counts_exact (fun _ _ => true) (sample_op_world queue_tables) out c run.2).
  fold run. rewrite <- Hrun. apply surjective_pairing.
Defined.

(** ** The detail page *)

Lemma bind_run {A B} (m : M A) (k : A -> M B) w r w' :
  (m ≫= k) w = (r, w') -> forall a w1, m w = (Ok a, w1) -> k a w1 = (r, w').
Proof. intros Hr a w1 Hm. by rewrite (bind_eq _ _ _ _ _ Hm) in Hr. Qed.

Lemma keyViews_calm id w : calm w -> exists v, keyViews id w = (Ok v, w).
Proof. intros Hc. unfold keyViews. rewrite (bind_eq _ _ _ _ _ (op_query_calm _ w Hc)). by eexists. Qed.

Lemma latestRunView_calm id w : calm w -> exists v, latestRunView id w = (Ok v, w).
Proof.
  intros Hc. unfold latestRunView. unfold mbind at 1, M_bind at 1, try. rewrite op_row_calm by done.
  destruct (latest_run id (ops w)) as [[runID run]|]; [|by eexists].
  unfold suiteVerdicts. unfold mbind at 1, M_bind at 1. rewrite (bind_eq _ _ _ _ _ (op_query_calm _ w Hc)). by eexists.
Qed.

(** Does the current keyset match the one that passed? *)
Definition hash_matches (id : string) (o : OperatorRow) (t : OpTables) : bool :=
  let hash := default "" (o_conformance_keyset_hash o) in
  negb (bool_decide (hash = "")) && (Z.of_nat (length (active_keys id t)) =? KeyIndexCount) &&
  (stringsCompareBytes (keyset_hash id t).1 hash =? 0).

Lemma GetOperator_calm id w o : calm w -> operators (ops w) !! id = Some o ->
  exists d, GetOperator id w = (Ok d, w) /\
    od_Status d = o_status o /\ od_OnboardingState d = o_onboarding_state o /\
    od_EmailVerified d = o_email_verified o /\ od_ConformancePassedAt d = o_conformance_passed_at o /\
    od_KeysetHashMatches d = hash_matches id o (ops w) /\
    od_ReadyToActivate d = bool_decide (o_status o = OperatorActive) && bool_decide (o_onboarding_state o = Verified) &&
      bool_decide (is_Some (o_conformance_passed_at o)) && hash_matches id o (ops w).
Proof.
  intros Hc Ho. unfold GetOperator.
  erewrite bind_eq by (rewrite no_rows_as_calm by done; by rewrite Ho).
  destruct (keyViews_calm id w Hc) as [[keys n] Hk]. rewrite (bind_eq _ _ _ _ _ Hk).
  destruct (latestRunView_calm id w Hc) as [run Hrun]. rewrite (bind_eq _ _ _ _ _ Hrun).
  unfold TransmissionsLast24h. rewrite (bind_eq _ _ _ _ _ (query_calm _ w Hc)).
  assert (Hm : (if negb (bool_decide (default "" (o_conformance_keyset_hash o) = "")) then
      '(curHash, n) ← currentActiveKeysetHash id;
      mret ((n =? KeyIndexCount) && (stringsCompareBytes curHash (default "" (o_conformance_keyset_hash o)) =? 0))
    else mret false) w = (Ok (hash_matches id o (ops w)), w)).
  { unfold hash_matches. destruct (bool_decide (default _ _ = "")); [done|]. cbn [negb andb].
    unfold currentActiveKeysetHash. unfold mbind at 1, M_bind at 1. rewrite (bind_eq _ _ _ _ _ (op_query_calm _ w Hc)).
    cbn. by rewrite length_fmap. }
  rewrite (bind_eq _ _ _ _ _ Hm). eexists. split; [reflexivity|]. done.
Qed.

Lemma activation_preview id o t :
  is_ok (activation_guard id o t) =
    bool_decide (o_status o = OperatorActive) && o_email_verified o &&
    bool_decide (is_Some (o_conformance_passed_at o)) && hash_matches id o t.
Proof.
  unfold activation_guard, hash_matches. rewrite stringsCompareBytes_eqb.
  assert (Hn : (Z.of_nat (length (active_keys id t)) =? KeyIndexCount) = bool_decide (length (active_keys id t) = 7%nat)).
  { unfold KeyIndexCount. case_bool_decide; [apply Z.eqb_eq|apply Z.eqb_neq]; lia. }
  rewrite Hn. destruct (bool_decide (o_status o = OperatorActive)); [|done]. destruct (o_email_verified o); [|done].
  destruct (bool_decide (is_Some _)); [|done]. destruct (bool_decide (default _ _ = "")); [done|].
  destruct (bool_decide (length _ = _)); [|done]. by destruct (bool_decide (_ = default _ _)).
Qed.

(** Activating an active operator again is answered with success and does nothing. *)
Lemma AutoActivate_again id w o :
  calm w -> w_tx w = None -> operators (ops w) !! id = Some o -> o_onboarding_state o = OnboardingActive ->
  AutoActivate id w = (Ok tt, w).
Proof.
  intros Hc Ht Ho Hs. unfold AutoActivate, transaction_ending.
  rewrite (bind_eq _ _ _ _ _ (next_event_calm w Hc)). unfold in_tx_ending.
  assert (Hc' : calm (w <| w_tx := Some (w_now w) |>)) by (destruct Hc; by split).
  erewrite bind_eq by (rewrite no_rows_as_calm by done;
    change (ops (w <| w_tx := Some (w_now w) |>)) with (ops w); by rewrite Ho).
  rewrite bool_decide_eq_true_2 by done. destruct w. simpl in Ht. by subst.
Qed.

(** What the page shows of the conditions for activation. *)
Definition shown_conditions (d : OperatorDetail) : bool :=
  bool_decide (od_Status d = OperatorActive) && od_EmailVerified d &&
  bool_decide (is_Some (od_ConformancePassedAt d)) && od_KeysetHashMatches d.

(** C39 The detail page shows what decides an activation, in a run in which no
    statement fails and nobody else acts.  For an operator the page says is active
    already, activating again is answered with success and changes nothing,
    whatever else the page shows (also when the operator was revoked since).  For
    any other, activation succeeds exactly when the page shows the operator not
    revoked, its address verified, the conformance passed and the current keyset
    matching the one that passed; success makes it active and a refusal changes
    nothing.  The page's own flag for "ready to activate" is a different condition:
    it asks for the state 'verified' and not for the verified address. *)
Theorem detail_explains_activation id w o :
  calm w -> w_tx w = None -> operators (ops w) !! id = Some o ->
  exists d, GetOperator id w = (Ok d, w) /\
    (od_OnboardingState d = OnboardingActive -> AutoActivate id w = (Ok tt, w)) /\
    (od_OnboardingState d <> OnboardingActive ->
       if shown_conditions d
       then AutoActivate id w = (Ok tt, with_ops (activated id o (ops w)) w)
       else exists e, AutoActivate id w = (Err e, w)) /\
    od_ReadyToActivate d = bool_decide (od_Status d = OperatorActive) &&
      bool_decide (od_OnboardingState d = Verified) &&
      bool_decide (is_Some (od_ConformancePassedAt d)) && od_KeysetHashMatches d.
Proof.
  intros Hc Ht Ho. destruct (GetOperator_calm id w o Hc Ho) as (d & Hd & H1 & H0 & H2 & H3 & H4 & H5).
  exists d. unfold shown_conditions. rewrite H0, H1, H2, H3, H4, H5. split_and!; [done| | |done].
  - by eapply AutoActivate_again.
  - intros Hs. rewrite (AutoActivate_run _ _ _ Hc Ht Ho Hs), <- activation_preview.
    destruct (activation_guard id o (ops w)) as [[]|e]; [done|]. by exists e.
Qed.

Lemma detail_explains_activation_witness :
  let w := sample_op_world (pending_tables (keyset_hash "cloudy" sample_op_tables).1) in
  let o := pending_operator (keyset_hash "cloudy" sample_op_tables).1 in
  exists d, GetOperator "cloudy" w = (Ok d, w) /\ shown_conditions d = true /\
    AutoActivate "cloudy" w = (Ok tt, with_ops (activated "cloudy" o (ops w)) w) /\
    od_ReadyToActivate d = false.
Proof.
  cbv zeta.
  destruct (detail_explains_activation "cloudy"
    (sample_op_world (pending_tables (keyset_hash "cloudy" sample_op_tables).1))
    (pending_operator (keyset_hash "cloudy" sample_op_tables).1)) as (d & Hd & _ & Ha & Hr).
  - split; reflexivity.
  - reflexivity.
  - vm_compute. reflexivity.
  - assert (Hshow : exists d', (GetOperator "cloudy"
      (sample_op_world (pending_tables (keyset_hash "cloudy" sample_op_tables).1))).1 = Ok d' /\
      shown_conditions d' = true /\ od_OnboardingState d' = PendingVerification).
    { eexists. split; [vm_compute; reflexivity|]. split; reflexivity. }
    destruct Hshow as (d' & Hd' & Hs & Hst). rewrite Hd in Hd'. injection Hd' as <-.
    exists d. rewrite Hs, Hst in *. split; [exact Hd|]. split; [reflexivity|].
    split; [by apply Ha|]. by rewrite Hr, andb_false_r.
Defined.

(** ** The state nobody enters *)

Definition none_verified (m : gmap string OperatorRow) : Prop :=
  map_Forall (fun _ o => o_onboarding_state o <> Verified) m.

#[export] Instance none_verified_inv : RecordInv none_verified.
Proof. split; intros; (apply map_Forall_insert_2; [|done]); simpl; try done; by eapply H. Qed.

(** The flag that enables the activation button is never set: no call of the
    registry puts an operator into the state 'verified' (onboarding goes straight from
    pending to active), so from an empty registry, whatever was called and however it
    failed, every detail page says that the operator is not ready. *)
Theorem ready_flag_never_set `{MapOrder} P collate cs w r w' id d w'' :
  record_inv none_verified (w_db w) -> respects (kept none_verified) (w_events w) ->
  calls P collate cs w = (r, w') -> GetOperator id w' = (Ok d, w'') -> od_ReadyToActivate d = false.
Proof.
  intros Hj He Hc Hg. destruct (kept_calls none_verified P collate cs _ _ _ He Hc) as [He1 Hk]. specialize (Hk Hj).
  unfold GetOperator in Hg. apply bind_ok in Hg as (o & w1 & Ho & Hg).
  assert (Hs : o_onboarding_state o <> Verified).
  { unfold no_rows_as in Ho. apply bind_ok in Ho as (q & w2 & Hq & Ho).
    destruct q as [o1|[]]; try done. injection Ho as -> ->. unfold try, op_row in Hq. rewrite query_row_run in Hq.
    destruct (next_event w') as [x w3] eqn:Hn. destruct (preserves_next (kept none_verified) _ _ _ He1 Hn) as [_ Hk2].
    specialize (Hk2 Hk). cbn [fst snd] in Hq. destruct x as [[]|]; try done.
    destruct (operators (op_tables (w_db w3)) !! id) eqn:Hl; [|done]. injection Hq as <- <-. exact (Hk2 id _ Hl). }
  apply bind_ok in Hg as ([keys n] & w2 & _ & Hg). apply bind_ok in Hg as (run & w3 & _ & Hg).
  apply bind_ok in Hg as (tx & w4 & _ & Hg). apply bind_ok in Hg as (hm & w5 & _ & Hg). injection Hg as <- <-. simpl.
  rewrite (bool_decide_eq_false_2 (_ = Verified)) by done. by rewrite andb_false_r.
Qed.

Lemma ready_flag_never_set_witness :
  let w := sample_op_world empty_op_tables in
  let w1 := (calls (H0 := default_order) lenient_protocol (fun _ _ => true) (take 4 onboarding_calls) w).2 in
  exists d, (GetOperator "cloudy" w1).1 = Ok d /\ od_ConformancePassedAt d <> None /\ od_KeysetHashMatches d = true /\
    od_ReadyToActivate d = false.
Proof.
  cbv zeta. set (w := sample_op_world empty_op_tables). set (w1 := (calls _ _ _ w).2).
  assert (Hrun : exists d, (GetOperator "cloudy" w1).1 = Ok d /\ od_ConformancePassedAt d <> None /\
    od_KeysetHashMatches d = true).
  { eexists. split; [vm_compute; reflexivity|]. split; [vm_compute; discriminate|vm_compute; reflexivity]. }
  destruct Hrun as (d & Hd & Hp & Hm). exists d. split; [exact Hd|]. split; [exact Hp|]. split; [exact Hm|].
  eapply (@ready_flag_never_set default_order lenient_protocol (fun _ _ => true) (take 4 onboarding_calls) w _ w1 "cloudy" d
    (GetOperator "cloudy" w1).2).
  - apply map_Forall_empty.
  - apply Forall_nil_2.
  - apply surjective_pairing.
  - rewrite <- Hd. apply surjective_pairing.
Defined.

(** ** The next fee declaration *)

Lemma max_seq_spec coord t :
  match max_seq coord t with
  | None => coord_fees coord t = []
  | Some m => (exists f, f ∈ coord_fees coord t /\ fd_seq f = m) /\ forall f, f ∈ coord_fees coord t -> fd_seq f <= m
  end.
Proof.
  unfold max_seq, coord_fees. induction (fee_declarations t) as [|f l IH]; [done|]. cbn [foldr List.filter].
  case_bool_decide as Hc; [|exact IH]. destruct (foldr _ None l) as [m|].
  - destruct IH as [(g & Hg & <-) Hmax]. split.
    + destruct (Z.max_spec (fd_seq f) (fd_seq g)) as [[_ ->]|[_ ->]]; [exists g|exists f]; (split; [|done]); set_solver.
    + intros h Hh. apply elem_of_cons in Hh as [->|Hh]; [lia|]. specialize (Hmax h Hh). lia.
  - rewrite IH. split; [exists f; split; [set_solver|done]|]. intros h Hh.
    apply list_elem_of_singleton in Hh as ->. done.
Qed.

(** The maximum is the number of the current declaration. *)
Lemma max_seq_latest coord t : max_seq coord t = fd_seq <$> latest_fee coord t.
Proof.
  pose proof (max_seq_spec coord t) as Hm. destruct (latest_fee coord t) as [f|] eqn:Hl; simpl.
  - apply latest_fee_Some in Hl as [Hf Hmax]. destruct (max_seq coord t) as [m|].
    + destruct Hm as [(g & Hg & <-) Hm]. f_equal. specialize (Hm f Hf). specialize (Hmax g Hg). lia.
    + rewrite Hm in Hf. by apply not_elem_of_nil in Hf.
  - apply latest_fee_None in Hl. destruct (max_seq coord t) as [m|]; [|done].
    destruct Hm as [(g & Hg & _) _]. rewrite Hl in Hg. by apply not_elem_of_nil in Hg.
Qed.

(** A number nobody used can be inserted. *)
Lemma insert_fee_calm decl w :
  calm w -> 0 <= fe_Seq decl <= int64_max -> 0 <= fe_ContributorShareBps decl < 2 ^ 31 -> 0 <= fe_PlatformFeeBps decl < 2 ^ 31 ->
  (forall g, g ∈ coord_fees (fe_CoordinatorID decl) (ops w) -> fd_seq g < fe_Seq decl) ->
  exists t, unique_as ErrFeeSeqNotMonotonic (sql_insert_fee decl) w = (Ok tt, with_ops t w).
Proof.
  intros Hc Hn Hsh Hfee Hmax. unfold unique_as, mbind, M_bind, try, sql_insert_fee. rewrite op_insert_calm by done.
  assert (Hi : to_int64 (fe_Seq decl) = fe_Seq decl) by (apply to_int64_id; unfold is_int64, int64_min; lia).
  rewrite Hi, !(proj2 (Z.ltb_ge _ _)), !(proj2 (Z.leb_gt _ _)) by lia. cbn [orb].
  destruct (existsb _ _) eqn:Hx; [|by eexists]. exfalso. apply existsb_exists in Hx as (g & Hg & Hx).
  apply andb_prop in Hx as [Hgc Hgn%Z.eqb_eq].
  assert (Hgin : g ∈ coord_fees (fe_CoordinatorID decl) (ops w)).
  { unfold coord_fees. by rewrite list_elem_of_In, filter_In. }
  specialize (Hmax g Hgin). lia.
Qed.

Lemma latest_fee_range coord t f : fees_ordered t -> latest_fee coord t = Some f -> 0 <= fd_seq f <= int64_max.
Proof.
  intros [Hall _] [Hf _]%latest_fee_Some. rewrite Forall_forall in Hall. apply (Hall f).
  unfold coord_fees in Hf. rewrite list_elem_of_In, filter_In in Hf. apply list_elem_of_In, Hf.
Qed.

(** What the form offers. *)
Lemma NextSeq_run coord w n : calm w -> fees_ordered (ops w) -> NextSeq coord w = (Ok n, w) ->
  0 <= n /\ (forall g, g ∈ coord_fees coord (ops w) -> fd_seq g < n) /\
  forall f, latest_fee coord (ops w) = Some f -> to_uint64 (fd_seq f) < n.
Proof.
  intros Hc Hord Hn. unfold NextSeq in Hn.
  rewrite (bind_eq _ _ _ _ _ (op_query_calm _ w Hc)), max_seq_latest in Hn. injection Hn as Hn.
  destruct (latest_fee coord (ops w)) as [f|] eqn:Hf; simpl in Hn.
  - pose proof (latest_fee_range _ _ _ Hord Hf) as Hr. apply latest_fee_Some in Hf as [_ Hm].
    unfold to_uint64, int64_max in *. rewrite (Z.mod_small (fd_seq f)) in Hn by lia. rewrite Z.mod_small in Hn by lia.
    split_and!; [lia| |].
    + intros g Hg. specialize (Hm g Hg). lia.
    + intros f' [= <-]. rewrite Z.mod_small; lia.
  - apply latest_fee_None in Hf. split_and!; [lia| |done]. rewrite Hf. intros g Hg. by apply not_elem_of_nil in Hg.
Qed.

(** The number the form offers is the number the registry accepts: in an undisturbed
    run, publishing under [NextSeq] (a signed declaration with sane terms, in effect
    later than the current one) succeeds, as long as the 63 bits of the column last. *)
Theorem next_seq_publishes coord share fee at_ sig n w :
  calm w -> w_tx w = None -> fees_ordered (ops w) -> NextSeq coord w = (Ok n, w) -> n <= int64_max ->
  sig <> "" -> 0 <= share < 2 ^ 31 -> 0 <= fee < 2 ^ 31 ->
  (forall f, latest_fee coord (ops w) = Some f -> fd_effective_at f < at_) ->
  (PublishFeeDeclaration (mkFeeDeclaration coord share fee at_ n sig) w).1 = Ok tt.
Proof.
  intros Hc Ht Hord Hn Hmax Hsig Hsh Hfee Hat. destruct (NextSeq_run _ _ _ Hc Hord Hn) as (Hn0 & Hall & Hcur).
  set (decl := mkFeeDeclaration coord share fee at_ n sig).
  set (w0 := w <| w_tx := Some (w_now w) |>). assert (Hc0 : calm w0) by (destruct Hc; by split).
  destruct (insert_fee_calm decl w0 Hc0 (conj Hn0 Hmax) Hsh Hfee Hall) as [t Hins].
  unfold PublishFeeDeclaration. rewrite bool_decide_eq_false_2 by done. rewrite transaction_as_ending.
  rewrite (in_tx_ending_calm _ w (Committing (Ok tt)) (with_ops t w0) Hc Ht); [done| |done]. fold w0.
  erewrite bind_eq; [reflexivity|].
  rewrite (bind_eq _ _ w0 (match latest_fee coord (ops w) with Some f => Ok f | None => Err ErrNoRows end) w0)
    by (unfold try; by rewrite op_row_calm).
  destruct (latest_fee coord (ops w)) as [f|]; rewrite (bind_eq _ _ w0 tt w0); try exact Hins; [|done].
  rewrite ensure_run. cbn [fe_Seq fe_EffectiveAt decl]. rewrite (proj2 (Z.leb_gt _ _)) by (by apply Hcur).
  unfold ensure. by rewrite (proj2 (Z.ltb_lt _ _)) by (by apply Hat).
Qed.

Lemma next_seq_publishes_witness :
  let w := sample_op_world (sample_op_tables <| fee_declarations := [mkFee "soholink" 6500 3500 1000 7 "sig" 0] |>) in
  NextSeq "soholink" w = (Ok 8, w) /\
  (PublishFeeDeclaration (mkFeeDeclaration "soholink" 7000 3000 2000 8 "sig") w).1 = Ok tt.
Proof.
  cbv zeta. set (t := sample_op_tables <| fee_declarations := _ |>).
  assert (Hn : NextSeq "soholink" (sample_op_world t) = (Ok 8, sample_op_world t)).
  { unfold NextSeq. rewrite (bind_eq _ _ _ _ _ (op_query_calm _ (sample_op_world t) (conj eq_refl eq_refl))). vm_compute (match max_seq _ _ with _ => _ end). reflexivity. }
  split; [exact Hn|].
  apply (next_seq_publishes "soholink" 7000 3000 2000 "sig" 8 (sample_op_world t)).
  - split; reflexivity.
  - reflexivity.
  - split; [repeat constructor; vm_compute; discriminate|]. intros coord. unfold coord_fees. simpl.
    case_bool_decide; repeat constructor.
  - exact Hn.
  - vm_compute. discriminate.
  - discriminate.
  - lia.
  - lia.
  - intros f Hf. vm_compute in Hf. injection Hf as <-. vm_compute. reflexivity.
Defined.
