(* ===== verification/NodesApi.v ===== *)
(** The node-facing HTTP API of internal/api/nodes.go: registration, claims,
    heartbeats, printer reports, polling, start and completion reports, and the
    enrolment of protocol keys.

    [SPIRE] and the random source are arguments; the environment variables are a
    configuration record.  The database rejects malformed values (a uuid, a
    two-letter country code) with an error, which is one of the faults a
    statement can have; the [node_class] enum cast is modelled. *)
From Stdlib Require Import Ascii String.
From S2P Require Import Prelude Float64 Workload Sounding Registry Database Lifecycle.
From S2P Require Import Effects Encoding Sha256 Dispatch Http.
Local Open Scope string_scope.
Local Open Scope list_scope.
Local Open Scope Z_scope.

(** ** Requests and responses *)

Record nodePrinterInfo := mkPrinterInfo { pi_ID : string; pi_Name : string }.

Record registerNodeRequest := mkRegisterNode {
  rn_NodeID : string; rn_ProviderID : string; rn_NodeClass : string; rn_CountryCode : string;
  rn_Region : string; rn_Hardware : HardwareProfile; rn_Printers : list nodePrinterInfo }.

Record claimNodeRequest := mkClaimNode {
  cn_Token : string; cn_Hostname : string; cn_CountryCode : string; cn_Region : string;
  cn_Hardware : HardwareProfile }.

Record claimNodeResponse := mkClaimResponse {
  cr_NodeID : string; cr_TokenSecret : string; cr_SpireJoinToken : string }.

Record heartbeatRequest := mkHeartbeatRequest {
  hb_NodeID : string; hb_OptOutVersion : Z; hb_PrinterHash : string;
  hb_OwnerActive : bool; hb_CPUPct : float64 }.

Record heartbeatOptOut := mkHeartbeatOptOut {
  ho_Version : Z; ho_ComputeEnabled : bool; ho_StorageEnabled : bool; ho_PrintingEnabled : bool;
  ho_EnabledPrinters : gmap string bool }.

Record heartbeatResponse := mkHeartbeatResponse {
  hr_OptOut : option heartbeatOptOut; hr_RequestPrinterReport : bool }.

Record reportPrintersRequest := mkReportPrinters {
  rp_NodeID : string; rp_Printers : list nodePrinterInfo }.

Record jobEntry := mkJobEntry {
  je_JobID : string; je_JobToken : string; je_Image : string; je_PrinterID : string }.

Record completeJobRequest := mkCompleteJob {
  cj_ExitCode : option Z; cj_FailureCause : string; cj_TmpfsExhausted : bool }.

Record nodePubkeyRequest := mkPubkey { pk_NodeID : string; pk_PublicKey : string; pk_Algo : string }.

(** ** Statements and registry calls *)

(** A registry method that can fail. *)
Definition reg_update (f : Z -> NodeRegistry -> result string NodeRegistry) : M unit :=
  _ ← next_event;
  ((fun w => match f (w_now w) (w_reg w) with
            | Ok r => (Ok tt, w <| w_reg := r |>)
            | Err e => (Err (ErrGo e), w)
            end) : M unit).

Definition node_classes : list string := ["A"; "B"; "C"; "D"].

(** [json.Marshal(req.HardwareProfile)] as the stored JSONB object. *)
Definition hw_json (hw : HardwareProfile) : gmap string jval :=
  {[ "cpu_cores" := JNum (CPUCores hw); "ram_mb" := JNum (RAMMB hw);
     "gpu_present" := JBool (GPUPresent hw); "storage_gb" := JNum (StorageGB hw);
     "bandwidth_mbps" := JNum (BandwidthMbps hw) ]}.

Definition nullable (s : string) : option string := if bool_decide (s = "") then None else Some s.

(** A new row of [nodes] with the columns' defaults. *)
Definition new_node_row (now : Z) (participant class hostname country : string)
    (region : option string) (hw : gmap string jval) : NodeRow :=
  mkNodeRow participant class hostname country region "online" None hw (f64_of_Z 100)
    false false false 0 now now.

(** The unique index on (participant_id, hostname). *)
Definition hostname_taken (d : DB) (participant hostname : string) : bool :=
  existsb (fun '(_, n) => bool_decide (n_participant_id n = participant) && bool_decide (n_hostname n = hostname))
    (map_to_list (nodes d)).

Definition sql_upsert_node (id participant class hostname country : string)
    (region : option string) (hw : gmap string jval) : M string := stmt (fun now d =>
  if negb (bool_decide (class ∈ node_classes)) then Err ErrConn
  else match nodes d !! id with
  | Some n =>
      if bool_decide (n_participant_id n = participant) then
        let n' := n <| n_node_class := class |> <| n_country_code := country |>
                    <| n_region := region |> <| n_status := "online" |>
                    <| n_hardware_profile := hw |> <| n_updated_at := now |> in
        Ok (id, d <| nodes := <[id := n']> (nodes d) |>)
      else Err ErrNoRows
  | None =>
      if hostname_taken d participant hostname then Err ErrUnique
      else if bool_decide (is_Some (participants d !! participant)) then
        Ok (id, d <| nodes := <[id := new_node_row now participant class hostname country region hw]>
                       (nodes d) |>)
      else Err ErrForeignKey
  end).

Definition sql_insert_node (id participant hostname country : string) (region : option string)
    (hw : gmap string jval) : M string := stmt (fun now d =>
  if bool_decide (is_Some (nodes d !! id)) || hostname_taken d participant hostname then Err ErrUnique
  else if negb (bool_decide (is_Some (participants d !! participant))) then Err ErrForeignKey
  else Ok (id, d <| nodes := <[id := new_node_row now participant "C" hostname country region hw]>
                      (nodes d) |>)).

(** The upsert keeps [enabled], which only the portal sets. *)
Definition sql_upsert_printer (node : string) (p : nodePrinterInfo) : M unit := stmt (fun now d =>
  if negb (bool_decide (is_Some (nodes d !! node))) then Err ErrForeignKey
  else
    let k := (node, pi_ID p) in
    let row := match node_printers d !! k with
      | Some r => r <| pr_name := pi_Name p |> <| pr_detected_at := now |>
      | None => mkPrinter (pi_Name p) false now
      end in
    Ok (tt, d <| node_printers := <[k := row]> (node_printers d) |>)).

(** [DELETE FROM nodes WHERE id = $1] with the foreign keys' actions: a dispute
    on the node blocks it, jobs and tokens keep their rows with a NULL node, the
    rest cascades. *)
Definition delete_node (id : string) (d : DB) : result Error DB :=
  if bool_decide (map_Exists (fun _ x => d_node_id x = id) (disputes d)) then Err ErrForeignKey
  else
    let d1 := update_jobs (map_to_list (jobs d)).*1 (bound_to id)
                (fun j => j <| j_node_id := None |>) d in
    let d2 := d1 <| nodes := delete id (nodes d1) |>
      <| job_node_declines := filter (fun '(_, n) => n <> id) (job_node_declines d1) |> in
    Ok (d2
      <| node_printers := filter (fun '((n, _), _) => n <> id) (node_printers d2) |>
      <| resource_profiles := filter (fun '(_, r) => pf_node_id r <> id) (resource_profiles d2) |>
      <| node_registration_tokens := (fun t =>
           if bool_decide (t_node_id t = Some id) then t <| t_node_id := None |> else t)
           <$> node_registration_tokens d2 |>
      <| node_protocol_keys := delete id (node_protocol_keys d2) |>
      <| node_heartbeat_events := filter (fun '(n, _) => n <> id) (node_heartbeat_events d2) |>).

Definition sql_delete_node (id : string) : M unit := stmt (fun _ d =>
  match delete_node id d with Ok d' => Ok (tt, d') | Err e => Err e end).

(** [SELECT j.node_id::text]: a NULL does not scan into a string. *)
Definition sql_job_node (jobID : string) : M string :=
  query_row (fun _ d => j ← jobs d !! jobID; j_node_id j).

Definition printers_of (d : DB) (node : string) : list (string * PrinterRow) :=
  (fun '((_, p), r) => (p, r)) <$>
    filter (fun '((n, _), _) => n = node) (map_to_list (node_printers d)).

Section NodesApi.
Context `{MapOrder}.
(** The collation of ORDER BY, [spire-server entry create] (parent, id,
    selector) and [rand.Read]. *)
Context (collate : string -> string -> bool).
Context (spire_entry_create : string -> string -> string -> M unit) (rand_Read : Z -> M string).
(** CONTROL_PLANE_REGISTER_SECRET and SPIRE_NODE_SELECTOR. *)
Context (register_secret spire_selector : string).

(** ** Registration *)

Definition handleRegisterNode (header : string) (body : Body registerNodeRequest) : H unit :=
  _ ← reject_if (bool_decide (register_secret = "")) StatusForbidden;
  _ ← reject_if (negb (bool_decide (header = register_secret))) StatusUnauthorized;
  req ← decode body;
  _ ← reject_if (bool_decide (rn_NodeID req = "") || bool_decide (rn_ProviderID req = ""))
        StatusBadRequest;
  now ← or_500 time_Now;
  _ ← or_500 (reg_write (Register (mkNodeEntry (rn_NodeID req) (rn_ProviderID req)
        (rn_NodeClass req) (rn_CountryCode req) (rn_Region req) (rn_Hardware req) now "online"
        false false false false false f64_zero time_zero 0)));
  let hwJSON := <["printers" := JPrinters ((fun p => (pi_ID p, pi_Name p)) <$> rn_Printers req)]>
    (hw_json (rn_Hardware req)) in
  _ ← or_reject (fun e => match e with ErrNoRows => StatusConflict
                          | _ => StatusInternalServerError end)
        (sql_upsert_node (rn_NodeID req) (rn_ProviderID req) (rn_NodeClass req) (rn_NodeID req)
           (rn_CountryCode req) (nullable (rn_Region req)) hwJSON);
  or_500 (forM (rn_Printers req) (sql_upsert_printer (rn_NodeID req))).

Definition registerNodeSpireEntry (nodeID spireJoinToken selector : string) : M unit :=
  if bool_decide (spireJoinToken = "") then mret tt
  else spire_entry_create
    ("spiffe://soholink.org/spire/agent/join_token/" +:+ spireJoinToken)
    ("spiffe://soholink.org/node/" +:+ nodeID) selector.

(** The token row as the claim's SELECT sees it. *)
Definition claimable (now : Z) (t : RegTokenRow) : bool :=
  (now <? t_expires_at t) && bool_decide (t_used_at t = None).

Definition sql_mark_token_used (nodeID token : string) : M unit := stmt (fun now d =>
  match node_registration_tokens d !! token with
  | None => Ok (tt, d)
  | Some t =>
      if bool_decide (is_Some (nodes d !! nodeID)) then
        Ok (tt, d <| node_registration_tokens := <[token := t <| t_used_at := Some now |>
                       <| t_node_id := Some nodeID |>]> (node_registration_tokens d) |>)
      else Err ErrForeignKey
  end).

(** The hostname of the row; an agent that names none is "unknown". *)
Definition claimed_hostname (req : claimNodeRequest) : string :=
  if bool_decide (cn_Hostname req = "") then "unknown" else cn_Hostname req.

Definition handleClaimNode (body : Body claimNodeRequest) : H claimNodeResponse :=
  req ← decode body;
  _ ← reject_if (bool_decide (cn_Token req = "")) StatusBadRequest;
  participantID ← or_reject (fun _ => StatusUnauthorized) (query_row (fun now d =>
    t ← node_registration_tokens d !! cn_Token req;
    if claimable now t then Some (t_participant_id t) else None));
  let hostname := claimed_hostname req in
  id ← or_500 fresh_uuid;
  nodeID ← or_500 (sql_insert_node id participantID hostname (cn_CountryCode req)
    (nullable (cn_Region req)) (hw_json (cn_Hardware req)));
  scanned ← attempt (query_row (fun _ d =>
    t ← node_registration_tokens d !! cn_Token req; Some (default "" (t_spire_join_token t))));
  let spireJoinToken := match scanned with Ok s => s | Err _ => "" end in
  let selector := if bool_decide (spire_selector = "")
    then "windows:user_name:NT AUTHORITY\SYSTEM" else spire_selector in
  spire ← attempt (registerNodeSpireEntry nodeID spireJoinToken selector);
  match spire with
  | Err _ => _ ← ignoring (sql_delete_node nodeID); reject StatusInternalServerError
  | Ok _ =>
      _ ← or_500 (sql_mark_token_used nodeID (cn_Token req));
      now ← or_500 time_Now;
      _ ← or_500 (reg_write (Register (mkNodeEntry nodeID participantID "C" (cn_CountryCode req)
            (cn_Region req) (cn_Hardware req) now "online"
            false false false false false f64_zero time_zero 0)));
      secretBytes ← or_500 (rand_Read 32);
      mret (mkClaimResponse nodeID (hex_encode secretBytes) spireJoinToken)
  end.

(** ** Heartbeats and printers *)

(** ORDER BY printer_id, joined by newlines and hashed. *)
Definition hash_ids (ids : list string) : string :=
  match ids with [] => "" | _ => hex_encode (Sum256 (join "010" ids)) end.

Definition serverPrinterHash (nodeID : string) : M string :=
  ids ← query (fun _ d => isort _ collate (printers_of d nodeID).*1);
  mret (hash_ids ids).

(** The opt-out columns of the node row and whether it has an enabled printer. *)
Definition opt_out_columns (d : DB) (node : string) : option (Z * bool * bool * bool * bool) :=
  n ← nodes d !! node;
  Some (n_opt_out_version n, n_opt_out_compute n, n_opt_out_storage n, n_opt_out_printing n,
        existsb (fun '(_, r) => pr_enabled r) (printers_of d node)).

Definition handleHeartbeat (ctx : Ctx) (body : Body heartbeatRequest) : H heartbeatResponse :=
  req ← decode body;
  let nodeID := hb_NodeID req in
  _ ← reject_if (bool_decide (nodeID = "")) StatusBadRequest;
  _ ← require_node ctx nodeID;
  _ ← or_reject (fun _ => StatusNotFound) (reg_update (fun now => Heartbeat now nodeID));
  _ ← or_500 (RecordNodeHeartbeat nodeID);
  '(dbVersion, computeEnabled, storageEnabled, printingEnabled, hasEnabledPrinter) ←
    or_500 (query_row (fun _ d => opt_out_columns d nodeID));
  _ ← ignoring (reg_update (fun _ => UpdateOptOut nodeID
        (mkOptOut computeEnabled storageEnabled printingEnabled hasEnabledPrinter)));
  now ← or_500 time_Now;
  _ ← ignoring (reg_update (fun _ => UpdateLoad nodeID
        (mkLoad (hb_OwnerActive req) (hb_CPUPct req) now)));
  optOut ← (if hb_OptOutVersion req <? dbVersion then
              rows ← or_500 (query (fun _ d => printers_of d nodeID));
              mret (Some (mkHeartbeatOptOut dbVersion computeEnabled storageEnabled printingEnabled
                (list_to_map ((fun '(pid, _) => (pid, true)) <$>
                   filter (fun '(_, r) => pr_enabled r = true) rows))))
            else mret None : H (option heartbeatOptOut));
  dbHash ← or_500 (serverPrinterHash nodeID);
  mret (mkHeartbeatResponse optOut (negb (bool_decide (hb_PrinterHash req = dbHash)))).

Definition handleReportPrinters (ctx : Ctx) (body : Body reportPrintersRequest) : H unit :=
  req ← decode body;
  _ ← reject_if (bool_decide (rp_NodeID req = "")) StatusBadRequest;
  _ ← require_node ctx (rp_NodeID req);
  or_500 (forM (rp_Printers req) (sql_upsert_printer (rp_NodeID req))).

(** ** Jobs *)

Definition handleGetJobs (ctx : Ctx) (nodeID : string) : H (list jobEntry) :=
  _ ← reject_if (bool_decide (nodeID = "")) StatusBadRequest;
  _ ← require_node ctx nodeID;
  dispatched ← or_500 (PollScheduledJobs nodeID);
  mret ((fun d => mkJobEntry (dj_JobID d) (dj_JobToken d) (dj_Image d) (dj_PrinterID d))
          <$> dispatched).

Definition handleCompleteJob (ctx : Ctx) (jobID : string) (body : Body completeJobRequest) :
    H job_status :=
  _ ← reject_if (bool_decide (jobID = "")) StatusBadRequest;
  nodeID ← or_reject (fun _ => StatusNotFound) (sql_job_node jobID);
  _ ← require_node ctx nodeID;
  req ← decode_opt (mkCompleteJob None "" false) body;
  newStatus ← or_reject (fun e => if bool_decide (e = ErrJobNotRunning) then StatusConflict
                                  else StatusInternalServerError)
    (CompleteJob jobID (cj_ExitCode req) (cj_FailureCause req) (cj_TmpfsExhausted req));
  _ ← or_500 (reg_write (AddInFlight nodeID (-1)));
  mret newStatus.

Definition handleStartedJob (ctx : Ctx) (jobID : string) : H unit :=
  _ ← reject_if (bool_decide (jobID = "")) StatusBadRequest;
  nodeID ← or_reject (fun _ => StatusNotFound) (sql_job_node jobID);
  _ ← require_node ctx nodeID;
  n ← or_500 (exec (fun now d => update_job jobID (has_status dispatched) (set_started now) d));
  reject_if (n =? 0) StatusConflict.

(** The telemetry body is only logged. *)
Definition handleTelemetry {A} (ctx : Ctx) (jobID : string) (body : Body A) : H unit :=
  _ ← reject_if (bool_decide (jobID = "")) StatusBadRequest;
  nodeID ← or_reject (fun _ => StatusNotFound) (sql_job_node jobID);
  _ ← require_node ctx nodeID;
  _ ← decode body;
  mret tt.

(** ** Protocol keys *)

Definition sql_insert_key (node key algo : string) : M Z := stmt (fun _ d =>
  match node_protocol_keys d !! node with
  | Some _ => Ok (0, d)
  | None =>
      if bool_decide (is_Some (nodes d !! node)) then
        Ok (1, d <| node_protocol_keys := <[node := mkProtocolKey key algo 0 0]>
                     (node_protocol_keys d) |>)
      else Err ErrForeignKey
  end).

Definition PublicKeySize : Z := 32.

Definition handleRegisterNodePubkey (ctx : Ctx) (body : Body nodePubkeyRequest) : H unit :=
  req ← decode body;
  let nodeID := pk_NodeID req in
  _ ← reject_if (bool_decide (nodeID = "")) StatusBadRequest;
  _ ← (match ctx_operator ctx with Some _ => mret tt | None => require_node ctx nodeID end : H unit);
  let algo := if bool_decide (pk_Algo req = "") then "ed25519" else pk_Algo req in
  _ ← reject_if (negb (bool_decide (algo = "ed25519"))) StatusBadRequest;
  match StdDecode (pk_PublicKey req) with
  | None => reject StatusBadRequest
  | Some key =>
      _ ← reject_if (negb (Z.of_nat (String.length key) =? PublicKeySize)) StatusBadRequest;
      n ← or_reject (fun e => match e with ErrForeignKey => StatusNotFound
                              | _ => StatusInternalServerError end)
            (sql_insert_key nodeID key algo);
      if n =? 0 then
        row ← or_500 (query_row (fun _ d => node_protocol_keys d !! nodeID));
        reject_if (negb (bool_decide (k_public_key row = key)) || negb (bool_decide (k_algo row = algo)))
          StatusConflict
      else mret tt
  end.

End NodesApi.
