(* ===== verification/NodesApiProofs.v ===== *)
(** The node API: the guarantee it keeps, the identity binding of its handlers
    and the effect of registration, claims, heartbeats and key enrolment. *)
From Stdlib Require Import Ascii String.
From S2P Require Import Prelude Float64 Workload Sounding Registry Scheduler Database Lifecycle.
From S2P Require Import Effects Encoding Sha256 Token Allowlist Orchestrator Samples OrchestratorProofs Submission Reroute Dispatch DispatchProofs Http NodesApi.
Import Types.
Local Open Scope string_scope.
Local Open Scope list_scope.
Local Open Scope Z_scope.

(** ** The guarantee *)

Lemma step_nodes_fresh d now id n :
  nodes d !! id = None -> step (d, now) (d <| nodes := <[id := n]> (nodes d) |>, now).
Proof.
  intros Hn. apply step_nodes. intros i m Hm. exists m.
  rewrite lookup_insert_ne by congruence. auto.
Qed.

(** The tables [step_rest] leaves alone. *)
Lemma step_others d d' now :
  jobs d' = jobs d -> nodes d' = nodes d -> job_node_declines d' = job_node_declines d ->
  job_metering d' = job_metering d -> resource_pricing d' = resource_pricing d ->
  disputes d' = disputes d -> step (d, now) (d', now).
Proof.
  destruct d as [j n p pr de m rp rf di t k h o],
    d' as [j' n' p' pr' de' m' rp' rf' di' t' k' h' o'].
  simpl. intros -> -> -> -> -> ->. exact (step_rest (mkDB j n p pr de m rp rf di t k h o) now
    p' pr' rf' t' k' h' o').
Qed.

Lemma safe_reg_update f : safe (reg_update f).
Proof.
  apply safe_bind; [apply safe_next_event|intros _]. intros w r w' He Ht _.
  destruct (f (w_now w) (w_reg w)); intros [= <- <-]; split_and!; auto; apply rtc_refl.
Qed.

Lemma safe_sql_upsert_node a b c d e f g : safe (sql_upsert_node a b c d e f g).
Proof.
  apply safe_stmt. intros now db x db'. case_match; [done|].
  destruct (nodes db !! a) eqn:Hn; repeat (case_match; try done); intros [= <- <-]; apply rtc_once.
  - by apply (step_nodes_insert _ _ _ n).
  - by apply step_nodes_fresh.
Qed.

Lemma safe_sql_insert_node a b c d e f : safe (sql_insert_node a b c d e f).
Proof.
  apply safe_stmt. intros now db x db'. case_bool_decide as Hn; [done|]. do 2 (case_match; [done|]).
  intros [= <- <-]. apply rtc_once, step_nodes_fresh. by apply eq_None_not_Some.
Qed.

Lemma safe_sql_upsert_printer n p : safe (sql_upsert_printer n p).
Proof.
  apply safe_stmt. intros now db x db'. case_match; [done|]. intros [= <- <-].
  by apply rtc_once, step_others.
Qed.

Lemma safe_sql_delete_node id : safe (sql_delete_node id).
Proof.
  apply safe_stmt. intros now d x d'. unfold delete_node. case_bool_decide; [done|].
  intros [= <- <-].
  etrans; [apply (update_jobs_step now (map_to_list (jobs d)).*1 d d (bound_to id)
    (fun j => j <| j_node_id := None |>)); [intros; apply js_unbound|done]|].
  set (d1 := update_jobs _ _ _ d).
  eapply rtc_l; [apply (step_node_deleted d1 now id
    (filter (fun '(_, n) => n <> id) (job_node_declines d1)))|].
  { intros p Hp. by apply elem_of_filter in Hp as [_ Hp]. }
  by apply rtc_once, step_others.
Qed.

Lemma safe_sql_mark_token_used n t : safe (sql_mark_token_used n t).
Proof.
  apply safe_stmt. intros now d x d'. repeat case_match; intros [= <- <-];
    [by apply rtc_once, step_others|apply rtc_refl].
Qed.

Lemma safe_sql_insert_key n k a : safe (sql_insert_key n k a).
Proof.
  apply safe_stmt. intros now d x d'. repeat case_match; intros [= <- <-];
    [apply rtc_refl|by apply rtc_once, step_others].
Qed.

#[export] Hint Resolve safe_reg_update safe_sql_upsert_node safe_sql_insert_node
  safe_sql_upsert_printer safe_sql_delete_node safe_sql_mark_token_used safe_sql_insert_key
  safe_query safe_query_row safe_reg_read safe_reg_write safe_time_Now safe_fresh_uuid
  safe_forM : safe.

Section Guarantee.
Context `{MapOrder}.
Context (collate : string -> string -> bool).
Context (spire_entry_create : string -> string -> string -> M unit) (rand_Read : Z -> M string).
Context (register_secret spire_selector : string).
Hypothesis safe_spire : forall p i s, safe (spire_entry_create p i s).
Hypothesis safe_rand : forall n, safe (rand_Read n).

Lemma safe_serverPrinterHash n : safe (serverPrinterHash collate n).
Proof. unfold serverPrinterHash. safe_code. Qed.

Lemma safe_registerNodeSpireEntry n t s :
  safe (registerNodeSpireEntry spire_entry_create n t s).
Proof. unfold registerNodeSpireEntry. case_match; [apply safe_ret|done]. Qed.

#[local] Hint Resolve safe_serverPrinterHash safe_registerNodeSpireEntry safe_spire safe_rand : safe.

Lemma safe_handleRegisterNode h b : safe (handleRegisterNode register_secret h b).
Proof. unfold handleRegisterNode. safe_handler. Qed.

Lemma safe_handleClaimNode b :
  safe (handleClaimNode spire_entry_create rand_Read spire_selector b).
Proof. unfold handleClaimNode. cbv zeta. safe_handler. Qed.

Lemma safe_handleHeartbeat ctx b : safe (handleHeartbeat collate ctx b).
Proof. unfold handleHeartbeat. cbv zeta. safe_handler. Qed.

Lemma safe_handleReportPrinters ctx b : safe (handleReportPrinters ctx b).
Proof. unfold handleReportPrinters. safe_handler. Qed.

Lemma safe_handleGetJobs ctx n : safe (handleGetJobs ctx n).
Proof. unfold handleGetJobs. safe_handler. Qed.

Lemma safe_handleCompleteJob ctx j b : safe (handleCompleteJob ctx j b).
Proof. unfold handleCompleteJob, sql_job_node. safe_handler. Qed.

Lemma safe_handleStartedJob ctx j : safe (handleStartedJob ctx j).
Proof.
  unfold handleStartedJob, sql_job_node. safe_handler. apply safe_exec. intros now d.
  apply update_job_step. unfold has_status. intros j' _ Hg. apply bool_decide_eq_true in Hg.
  by apply js_started.
Qed.

Lemma safe_handleTelemetry {A} ctx j (b : Body A) : safe (handleTelemetry ctx j b).
Proof. unfold handleTelemetry, sql_job_node. safe_handler. Qed.

Lemma safe_handleRegisterNodePubkey ctx b : safe (handleRegisterNodePubkey ctx b).
Proof. unfold handleRegisterNodePubkey. cbv zeta. safe_handler. Qed.

End Guarantee.

#[export] Hint Resolve safe_handleRegisterNode safe_handleClaimNode safe_handleHeartbeat
  safe_handleReportPrinters safe_handleGetJobs safe_handleCompleteJob safe_handleStartedJob
  safe_handleTelemetry safe_handleRegisterNodePubkey : safe.

(** ** Identity *)

(** The calls a node makes with its own SPIFFE identity. *)
Inductive NodeCall :=
| CallHeartbeat (b : Body heartbeatRequest)
| CallReportPrinters (b : Body reportPrintersRequest)
| CallGetJobs (nodeID : string)
| CallComplete (jobID : string) (b : Body completeJobRequest)
| CallStarted (jobID : string)
| CallTelemetry (jobID : string) (b : Body unit)
| CallPubkey (b : Body nodePubkeyRequest).

(** The response of a call, without its body. *)
Definition code_of {A} (m : H A) : H unit := _ ← m; mret tt.

Definition node_call `{MapOrder} (collate : string -> string -> bool) (ctx : Ctx) (c : NodeCall) :
    H unit :=
  match c with
  | CallHeartbeat b => code_of (handleHeartbeat collate ctx b)
  | CallReportPrinters b => handleReportPrinters ctx b
  | CallGetJobs n => code_of (handleGetJobs ctx n)
  | CallComplete j b => code_of (handleCompleteJob ctx j b)
  | CallStarted j => handleStartedJob ctx j
  | CallTelemetry j b => handleTelemetry ctx j b
  | CallPubkey b => handleRegisterNodePubkey ctx b
  end.

(** The node a call acts for: the one it names, or the one its job is bound to. *)
Definition acts_for (d : DB) (c : NodeCall) : option string :=
  match c with
  | CallHeartbeat (Decoded r) => Some (hb_NodeID r)
  | CallReportPrinters (Decoded r) => Some (rp_NodeID r)
  | CallPubkey (Decoded r) => Some (pk_NodeID r)
  | CallGetJobs n => Some n
  | CallComplete j _ | CallStarted j | CallTelemetry j _ => x ← jobs d !! j; j_node_id x
  | _ => None
  end.

Definition client_errors : list Z :=
  [StatusBadRequest; StatusUnauthorized; StatusForbidden; StatusNotFound].

(** [m] answers a client error having done nothing but, perhaps, one read. *)
Definition refused {A} (m : H A) (w : World) : Prop :=
  exists code w', m w = (Ok (Err code), w') /\ code ∈ client_errors /\
    (w' = w \/ w' = (next_event w).2).

Lemma refused_reject {A} c w : c ∈ client_errors -> refused (reject c : H A) w.
Proof. intros Hc. by exists c, w; auto. Qed.

Lemma refused_bind {A B} (m : H A) (f : A -> H B) w : refused m w -> refused (m ≫= f : H B) w.
Proof. intros (c & w' & Hm & ?). exists c, w'. split; [by apply hbind_err|done]. Qed.

Lemma refused_reject_if {A} b c (k : unit -> H A) w :
  c ∈ client_errors -> refused (k tt) w -> refused (reject_if b c ≫= k : H A) w.
Proof. intros Hc Hk. destruct b; [by apply refused_bind, refused_reject|exact Hk]. Qed.

Lemma refused_decode {A B} (a : A) (k : A -> H B) w :
  refused (k a) w -> refused (decode (Decoded a) ≫= k : H B) w.
Proof. done. Qed.

Lemma refused_require {A} ctx n (k : unit -> H A) w :
  is_node ctx n = false -> refused (require_node ctx n ≫= k : H A) w.
Proof.
  intros Hn. apply refused_bind. destruct (require_node_no ctx n w Hn) as (c & Hc & ->).
  eexists _, w. split; [exact Hc|]. split; [|by left].
  destruct (ctx_spiffe ctx); unfold client_errors; rewrite !elem_of_cons; auto 6.
Qed.

(** A handler that first looks up the node of the job. *)
Lemma refused_job {A} ctx jobID (k : string -> unit -> H A) w :
  (forall n, (x ← jobs (w_db (next_event w).2) !! jobID; j_node_id x) = Some n ->
     is_node ctx n = false) ->
  refused (or_reject (fun _ => StatusNotFound) (sql_job_node jobID) ≫=
           (fun nodeID => require_node ctx nodeID ≫= k nodeID) : H A) w.
Proof.
  intros Hn. unfold sql_job_node. set (f := fun _ d => _).
  assert (Hnf : StatusNotFound ∈ client_errors) by (unfold client_errors; rewrite !elem_of_cons; auto 6).
  assert (Herr : forall e, query_row f w = (Err e, (next_event w).2) -> refused
    (or_reject (fun _ => StatusNotFound) (query_row f) ≫=
     (fun nodeID => require_node ctx nodeID ≫= k nodeID) : H A) w).
  { intros e He. apply refused_bind. eexists _, _. split; [by apply or_reject_err|auto]. }
  pose proof (query_row_run f w) as Hq. destruct (next_event w).1 as [[]|]; eauto.
  destruct (f (sql_now (next_event w).2) (w_db (next_event w).2)) as [n|] eqn:Hf; [|eauto].
  apply Hn in Hf. destruct (require_node_no ctx n (next_event w).2 Hf) as (c & Hc & Hcode).
  exists c, (next_event w).2. split; [|split; [|by right]].
  - erewrite hbind_ok; [|by apply or_reject_ok]. by apply hbind_err.
  - rewrite Hcode. destruct (ctx_spiffe ctx); unfold client_errors; rewrite !elem_of_cons; auto 6.
Qed.

(** A call for another node is refused. *)
Lemma node_call_refused `{MapOrder} collate ctx c w :
  (forall n, acts_for (w_db (next_event w).2) c = Some n -> is_node ctx n = false) ->
  (forall b, c = CallPubkey b -> ctx_operator ctx = None) ->
  refused (node_call collate ctx c) w.
Proof.
  intros Hn Hop.
  assert (Hbad : StatusBadRequest ∈ client_errors) by (unfold client_errors; rewrite !elem_of_cons; auto).
  destruct c as [[| |r]|[| |r]|n|j b|j|j b|[| |r]]; simpl in *;
    try (by apply refused_reject); try (by apply refused_bind, refused_bind, refused_reject);
    try (by apply refused_bind, refused_reject).
  - apply refused_bind. unfold handleHeartbeat. apply refused_decode, refused_reject_if; [done|].
    by apply refused_require, Hn.
  - unfold handleReportPrinters. apply refused_decode, refused_reject_if; [done|].
    by apply refused_require, Hn.
  - apply refused_bind. unfold handleGetJobs. apply refused_reject_if; [done|].
    by apply refused_require, Hn.
  - apply refused_bind. unfold handleCompleteJob. apply refused_reject_if; [done|].
    by apply refused_job.
  - unfold handleStartedJob. apply refused_reject_if; [done|]. by apply refused_job.
  - unfold handleTelemetry. apply refused_reject_if; [done|]. by apply refused_job.
  - unfold handleRegisterNodePubkey. apply refused_decode. rewrite (Hop (Decoded r) eq_refl).
    apply refused_reject_if; [done|]. by apply refused_require, Hn.
Qed.

(** Every node call is bound to the caller's identity: unless the SPIFFE path
    is exactly "/node/" followed by the node the call acts for (named in the
    request, or owner of the job it reports on at the moment the handler looks),
    the answer is 400, 401, 403 or 404 and the handler has written nothing, in
    any environment; the one exception is key enrolment through an operator. *)
Theorem node_identity_enforced `{MapOrder} collate ctx c w :
  (forall n, acts_for (w_db (next_event w).2) c = Some n -> is_node ctx n = false) ->
  (forall b, c = CallPubkey b -> ctx_operator ctx = None) ->
  refused (node_call collate ctx c) w.
Proof. apply node_call_refused. Qed.

Definition sample_collate (a b : string) : bool := String.ltb a b.

Definition anonymous : Ctx := mkCtx None None.
Definition as_node (n : string) : Ctx := mkCtx (Some (node_path n)) None.

Lemma node_identity_enforced_witness :
  let w := sample_world_with (sample_db_with (sample_job MarketplaceBatchCompute running)) [] in
  acts_for (w_db w) (CallComplete "job" EmptyBody) = Some "n1" /\
  refused (node_call (H0 := default_order) sample_collate (as_node "n2")
    (CallComplete "job" EmptyBody)) w.
Proof.
  split; [by vm_compute|].
  apply (@node_identity_enforced default_order sample_collate (as_node "n2")
    (CallComplete "job" EmptyBody)).
  - vm_compute. by intros n [= <-].
  - done.
Defined.

(** ** Handlers in a calm world *)

Lemma reg_update_calm f w :
  calm w ->
  reg_update f w = match f (w_now w) (w_reg w) with
    | Ok r => (Ok tt, w <| w_reg := r |>) | Err e => (Err (ErrGo e), w) end.
Proof. intros He. unfold reg_update, mbind, M_bind. by rewrite next_event_calm. Qed.

(** One statement of a handler. *)
Lemma or_reject_stmt {A B} code (f : Z -> DB -> result Error (A * DB)) (k : A -> H B) w :
  calm w ->
  (or_reject code (stmt f) ≫= k : H B) w = match f (w_now w) (w_db w) with
    | Ok (a, d) => k a (w <| w_db := d |>) | Err e => (Ok (Err (code e)), w) end.
Proof.
  intros He. unfold mbind at 1, H_bind, or_reject. rewrite stmt_calm by done. unfold run_stmt.
  destruct He as [_ ->]. by destruct (f _ _) as [[a d]|e].
Qed.

(** What a report makes of the table of printers. *)
Definition upsert_row (now : Z) (p : nodePrinterInfo) (r : option PrinterRow) : PrinterRow :=
  match r with
  | Some r => r <| pr_name := pi_Name p |> <| pr_detected_at := now |>
  | None => mkPrinter (pi_Name p) false now
  end.
Definition upsert_rows (now : Z) (node : string) (ps : list nodePrinterInfo)
    (prs : gmap (string * string) PrinterRow) : gmap (string * string) PrinterRow :=
  foldl (fun prs p => <[(node, pi_ID p) := upsert_row now p (prs !! (node, pi_ID p))]> prs) prs ps.

(** Has the contributor enabled the printer? *)
Definition enabled_at (prs : gmap (string * string) PrinterRow) (k : string * string) : bool :=
  default false (pr_enabled <$> prs !! k).

Lemma upsert_rows_enabled now node ps prs k :
  enabled_at (upsert_rows now node ps prs) k = enabled_at prs k.
Proof.
  revert prs. induction ps as [|p ps IH]; intros prs; simpl; [done|]. rewrite IH. unfold enabled_at.
  rewrite lookup_insert. case_decide; subst; [|done].
  by destruct (prs !! (node, pi_ID p)).
Qed.

Lemma upsert_rows_dom now node ps prs k :
  is_Some (upsert_rows now node ps prs !! k) <->
  is_Some (prs !! k) \/ exists p, p ∈ ps /\ k = (node, pi_ID p).
Proof.
  revert prs. induction ps as [|p ps IH]; intros prs; simpl.
  - split; [auto|]. intros [?|(p & Hp & _)]; [done|]. by apply elem_of_nil in Hp.
  - rewrite IH. rewrite lookup_insert. setoid_rewrite elem_of_cons.
    case_decide as Hk; [|naive_solver]. subst. split; [|eauto].
    intros _. right. exists p. auto.
Qed.

Lemma upsert_printers_run node ps w :
  calm w -> is_Some (nodes (w_db w) !! node) ->
  forM ps (sql_upsert_printer node) w =
    (Ok tt, w <| w_db := (w_db w) <| node_printers :=
       upsert_rows (w_now w) node ps (node_printers (w_db w)) |> |>).
Proof.
  intros He. revert w He. induction ps as [|p ps IH]; intros w He Hn; simpl; [by destruct w as [[]]|].
  erewrite bind_eq; [|by apply stmt_calm_ok; [done|]; simpl; rewrite bool_decide_eq_true_2].
  rewrite IH by done. done.
Qed.

Lemma upsert_printers_calm node ps w :
  calm w -> is_Some (nodes (w_db w) !! node) ->
  exists prs, forM ps (sql_upsert_printer node) w =
    (Ok tt, w <| w_db := (w_db w) <| node_printers := prs |> |>) /\
    (forall k r, prs !! k = Some r -> pr_enabled r = true ->
       exists r0, node_printers (w_db w) !! k = Some r0 /\ pr_enabled r0 = true).
Proof.
  intros He Hn. eexists. split; [by apply upsert_printers_run|]. intros k r Hk Hr.
  pose proof (upsert_rows_enabled (w_now w) node ps (node_printers (w_db w)) k) as Hen.
  unfold enabled_at in Hen. rewrite Hk in Hen. simpl in Hen. rewrite Hr in Hen.
  destruct (node_printers (w_db w) !! k) as [r0|]; [|done]. by exists r0.
Qed.

(** ** Registration *)

Lemma RegisterNode_runs secret req w :
  calm w -> secret <> "" -> rn_NodeID req <> "" -> rn_ProviderID req <> "" ->
  exists e, NodeID e = rn_NodeID req /\ ParticipantID e = rn_ProviderID req /\ Status e = "online" /\
    OptOutCompute e = false /\ OptOutStorage e = false /\ OptOutPrinting e = false /\
    InFlight e = 0 /\
  let w1 := w <| w_reg := Register e (w_reg w) |> in
  handleRegisterNode secret secret (Decoded req) w =
    ((_ ← or_reject (fun e => match e with ErrNoRows => StatusConflict
                          | _ => StatusInternalServerError end)
        (sql_upsert_node (rn_NodeID req) (rn_ProviderID req) (rn_NodeClass req) (rn_NodeID req)
           (rn_CountryCode req) (nullable (rn_Region req))
           (<["printers" := JPrinters ((fun p => (pi_ID p, pi_Name p)) <$> rn_Printers req)]>
             (hw_json (rn_Hardware req))));
      or_500 (forM (rn_Printers req) (sql_upsert_printer (rn_NodeID req)))) : H unit) w1.
Proof.
  intros He Hs Hn Hp. eexists (mkNodeEntry (rn_NodeID req) (rn_ProviderID req)
        (rn_NodeClass req) (rn_CountryCode req) (rn_Region req) (rn_Hardware req) (w_now w) "online"
        false false false false false f64_zero time_zero 0).
  do 7 (split; [done|]). unfold handleRegisterNode.
  rewrite (bool_decide_eq_false_2 (secret = "")) by done.
  rewrite (bool_decide_eq_true_2 (secret = secret)) by done.
  do 3 (erewrite hbind_ok by done).
  rewrite (bool_decide_eq_false_2 (rn_NodeID req = "")) by done.
  rewrite (bool_decide_eq_false_2 (rn_ProviderID req = "")) by done.
  do 2 (erewrite hbind_ok by done).
  erewrite hbind_ok by (apply or_reject_ok, reg_write_calm; done). done.
Qed.

(** Registration never reassigns a node: with the right secret and a valid
    class, registering an id owned by another member answers 409 and leaves the
    database as it was, re-registering one's own node updates its row and keeps
    the owner's opt-out choices, a fresh id gets a row owned by the named member,
    and an unknown member or an id another node of the member has for a hostname is
    refused.  No printer gets enabled.  The in-memory
    registry, however, is overwritten with the caller's entry before the database
    is asked, also in the case that ends in 409: from then on the node is matched
    under the caller's participant id, with the owner's opt-outs cleared. *)
Theorem RegisterNode_ownership secret req w :
  calm w -> secret <> "" -> rn_NodeID req <> "" -> rn_ProviderID req <> "" ->
  rn_NodeClass req ∈ node_classes ->
  exists r w' e, handleRegisterNode secret secret (Decoded req) w = (Ok r, w') /\
    w_reg w' = <[rn_NodeID req := e]> (w_reg w) /\ ParticipantID e = rn_ProviderID req /\
    OptOutCompute e = false /\ OptOutStorage e = false /\ OptOutPrinting e = false /\
    (forall k p, node_printers (w_db w') !! k = Some p -> pr_enabled p = true ->
       exists p0, node_printers (w_db w) !! k = Some p0 /\ pr_enabled p0 = true) /\
    match nodes (w_db w) !! rn_NodeID req with
    | Some n =>
        if bool_decide (n_participant_id n = rn_ProviderID req) then
          r = Ok tt /\ exists n', nodes (w_db w') = <[rn_NodeID req := n']> (nodes (w_db w)) /\
            n_participant_id n' = n_participant_id n /\ n_opt_out_compute n' = n_opt_out_compute n /\
            n_opt_out_storage n' = n_opt_out_storage n /\
            n_opt_out_printing n' = n_opt_out_printing n
        else r = Err StatusConflict /\ w_db w' = w_db w
    | None =>
        if negb (hostname_taken (w_db w) (rn_ProviderID req) (rn_NodeID req)) &&
           bool_decide (is_Some (participants (w_db w) !! rn_ProviderID req)) then
          r = Ok tt /\ exists n', nodes (w_db w') = <[rn_NodeID req := n']> (nodes (w_db w)) /\
            n_participant_id n' = rn_ProviderID req
        else r = Err StatusInternalServerError /\ w_db w' = w_db w
    end.
Proof.
  intros He Hs Hn Hp Hc.
  destruct (RegisterNode_runs secret req w He Hs Hn Hp) as (e & HeN & HeP & _ & Ho1 & Ho2 & Ho3 & _ & Hrun).
  rewrite Hrun. unfold sql_upsert_node. rewrite or_reject_stmt by done. simpl.
  rewrite (bool_decide_eq_true_2 (_ ∈ _)) by done. simpl.
  unfold Register, or_500. rewrite HeN.
  destruct (nodes (w_db w) !! rn_NodeID req) as [n|] eqn:Hnode;
    [|destruct (hostname_taken (w_db w) _ _); cbn [negb andb];
      [eexists _, _, e; do 6 (split; [done|]); split; [eauto|done]|]];
    case_bool_decide as Hown.
  - edestruct (upsert_printers_calm (rn_NodeID req) (rn_Printers req)) as (prs & Hpr & Hen);
      [| |erewrite or_reject_ok by apply Hpr]; [done|by simpl; rewrite lookup_insert_eq|].
    eexists _, _, e. do 6 (split; [done|]). split; [exact Hen|]. split; [done|].
    eexists. split; [done|]. done.
  - eexists _, _, e. do 6 (split; [done|]). split; [eauto|done].
  - edestruct (upsert_printers_calm (rn_NodeID req) (rn_Printers req)) as (prs & Hpr & Hen);
      [| |erewrite or_reject_ok by apply Hpr]; [done|by simpl; rewrite lookup_insert_eq|].
    eexists _, _, e. do 6 (split; [done|]). split; [exact Hen|]. split; [done|].
    eexists. split; [done|]. done.
  - eexists _, _, e. do 6 (split; [done|]). split; [eauto|done].
Qed.

Lemma RegisterNode_ownership_witness :
  let req := mkRegisterNode "n1" "mallory" "A" "US" "" zero_hw [] in
  n_participant_id <$> nodes sample_db !! "n1" = Some "owner" /\
  exists w' e, handleRegisterNode "s" "s" (Decoded req) sample_world = (Ok (Err StatusConflict), w') /\
    w_db w' = sample_db /\ w_reg w' !! "n1" = Some e /\ ParticipantID e = "mallory".
Proof.
  split; [by vm_compute|].
  destruct (RegisterNode_ownership "s" (mkRegisterNode "n1" "mallory" "A" "US" "" zero_hw [])
    sample_world) as (r & w' & e & Hrun & Hreg & Hp & _ & _ & _ & _ & Hout).
  - done.
  - done.
  - done.
  - done.
  - by apply list_elem_of_here.
  - vm_compute in Hout. destruct Hout as [-> Hdb]. exists w', e. split; [exact Hrun|].
    split; [exact Hdb|]. split; [|exact Hp]. rewrite Hreg. apply lookup_insert_eq.
Defined.

(** ** Protocol keys *)

(** Enrolment is first-write-wins: for a caller entitled to the node, a key
    of 32 bytes is stored when the node has none, with both sequence counters at
    zero; when it has one, nothing changes and the answer is 200 exactly when
    the presented key is the enrolled one, and 409 otherwise; an unknown node is
    404.  A key that is not 32 bytes of standard base64, or another algorithm, is
    400 and changes nothing. *)
Theorem Pubkey_first_write_wins ctx req w :
  calm w -> pk_NodeID req <> "" ->
  is_Some (ctx_operator ctx) \/ is_node ctx (pk_NodeID req) = true ->
  exists r w', handleRegisterNodePubkey ctx (Decoded req) w = (Ok r, w') /\ w_reg w' = w_reg w /\
    match StdDecode (pk_PublicKey req) with
    | Some key =>
        if bool_decide (pk_Algo req ∈ [""; "ed25519"]) && (Z.of_nat (String.length key) =? 32) then
          match node_protocol_keys (w_db w) !! pk_NodeID req with
          | Some row => w_db w' = w_db w /\
              r = if bool_decide (k_public_key row = key /\ k_algo row = "ed25519") then Ok tt
                  else Err StatusConflict
          | None =>
              if bool_decide (is_Some (nodes (w_db w) !! pk_NodeID req)) then
                r = Ok tt /\ w_db w' = (w_db w) <| node_protocol_keys :=
                  <[pk_NodeID req := mkProtocolKey key "ed25519" 0 0]> (node_protocol_keys (w_db w)) |>
              else r = Err StatusNotFound /\ w_db w' = w_db w
          end
        else r = Err StatusBadRequest /\ w_db w' = w_db w
    | None => r = Err StatusBadRequest /\ w_db w' = w_db w
    end.
Proof.
  intros He Hid Hauth. unfold handleRegisterNodePubkey. cbv zeta.
  erewrite hbind_ok by done. rewrite (bool_decide_eq_false_2 (pk_NodeID req = "")) by done.
  erewrite hbind_ok by done.
  erewrite hbind_ok; last first.
  { destruct Hauth as [[op Hop]|Hn]; [by rewrite Hop|].
    destruct (ctx_operator ctx); [done|]. by apply require_node_ok. }
  set (algo := if bool_decide (pk_Algo req = "") then "ed25519" else pk_Algo req).
  assert (Halgo : bool_decide (pk_Algo req ∈ [""; "ed25519"]) = bool_decide (algo = "ed25519")).
  { apply bool_decide_ext. unfold algo. rewrite !elem_of_cons, elem_of_nil.
    case_bool_decide; naive_solver. }
  rewrite Halgo. clear Halgo. clearbody algo. destruct (decide (algo = "ed25519")) as [->|Hne].
  2:{ rewrite (bool_decide_eq_false_2 _ Hne). simpl. eexists _, w. split; [by apply hbind_err|].
      split; [done|]. by destruct (StdDecode _). }
  rewrite (bool_decide_eq_true_2 ("ed25519" = "ed25519")) by done. erewrite hbind_ok by done.
  destruct (StdDecode (pk_PublicKey req)) as [key|]; [|by eexists _, w].
  unfold PublicKeySize. destruct (Z.of_nat (String.length key) =? 32); simpl.
  2:{ eexists _, w. split; [by apply hbind_err|done]. }
  erewrite hbind_ok by done. unfold sql_insert_key. rewrite or_reject_stmt by done. simpl.
  destruct (node_protocol_keys (w_db w) !! pk_NodeID req) as [row|] eqn:Hk.
  - simpl. unfold or_500, query_row. rewrite or_reject_stmt by done. simpl. rewrite Hk.
    assert (Hb : negb (bool_decide (k_public_key row = key)) || negb (bool_decide (k_algo row = "ed25519"))
      = negb (bool_decide (k_public_key row = key /\ k_algo row = "ed25519"))).
    { by repeat case_bool_decide; simpl; try tauto; destruct_and?. }
    rewrite Hb. clear Hb. destruct (bool_decide _); by eexists _, _.
  - case_bool_decide; by eexists _, _.
Qed.

Definition sample_key : string := "AAAAAAAAAAAAAAAAAAAAAAAAAAAAAAAAAAAAAAAAAAA=".

Lemma Pubkey_first_write_wins_witness :
  let req := mkPubkey "n1" sample_key "" in
  exists key w', StdDecode sample_key = Some key /\
    handleRegisterNodePubkey (as_node "n1") (Decoded req) sample_world = (Ok (Ok tt), w') /\
    w_db w' = sample_db <| node_protocol_keys := <["n1" := mkProtocolKey key "ed25519" 0 0]> ∅ |>.
Proof.
  eexists. destruct (Pubkey_first_write_wins (as_node "n1") (mkPubkey "n1" sample_key "") sample_world)
    as (r & w' & Hrun & _ & Hout).
  - done.
  - done.
  - right. by vm_compute.
  - exists w'. split; [vm_compute; reflexivity|].
    assert (Hout' : r = Ok tt /\ w_db w' = sample_db <| node_protocol_keys :=
      <["n1" := mkProtocolKey (default "" (StdDecode sample_key)) "ed25519" 0 0]> ∅ |>) by exact Hout.
    destruct Hout' as [-> Hdb]. split; [exact Hrun|]. rewrite Hdb. vm_compute. reflexivity.
Defined.

(** ** Claims *)

Lemma fresh_uuid_run w : fresh_uuid w = (Ok (w_uuids w 0%nat), w <| w_uuids := fun n => w_uuids w (S n) |>).
Proof. done. Qed.

(** Job updates leave the other tables alone. *)
Lemma update_jobs_rest ids guard f d :
  nodes (update_jobs ids guard f d) = nodes d /\
  node_registration_tokens (update_jobs ids guard f d) = node_registration_tokens d.
Proof.
  unfold update_jobs. revert d. induction ids as [|i l IH]; intros d; [done|]. simpl.
  destruct (IH (update_job i guard f d).2) as [-> ->].
  unfold update_job. by repeat case_match.
Qed.

Lemma delete_node_undo id n d :
  nodes d !! id = None -> (forall k x, disputes d !! k = Some x -> d_node_id x <> id) ->
  exists d', delete_node id (d <| nodes := <[id := n]> (nodes d) |>) = Ok d' /\
    nodes d' = nodes d /\
    node_registration_tokens d' = (fun t => if bool_decide (t_node_id t = Some id)
      then t <| t_node_id := None |> else t) <$> node_registration_tokens d.
Proof.
  intros Hn Hd. unfold delete_node. rewrite bool_decide_eq_false_2.
  2:{ intros (k & x & Hk & Hx). by apply (Hd k x). }
  eexists. split; [done|]. simpl.
  match goal with |- context [update_jobs ?l ?g ?f ?d0] =>
    destruct (update_jobs_rest l g f d0) as [H1 H2] end.
  simpl in H1, H2. rewrite H1, H2. split; [|done]. by rewrite delete_insert_id.
Qed.

(** A claim spends its token on one node of the token's owner: a token that is
    unknown, expired or used answers 401 and changes nothing; a claimable one
    creates a class C node under a fresh id owned by the member the token was
    issued to, marks the token used by that node and registers the node; when the
    member already has a node of that hostname the answer is 500 and nothing changes;
    when SPIRE refuses the identity the answer is 500, the node row is gone again and
    the token is still claimable. *)
Theorem ClaimNode_outcome spire rand selector req w t sr secret :
  calm w -> cn_Token req <> "" ->
  node_registration_tokens (w_db w) !! cn_Token req = Some t ->
  is_Some (participants (w_db w) !! t_participant_id t) ->
  nodes (w_db w) !! w_uuids w 0%nat = None ->
  (forall k x, disputes (w_db w) !! k = Some x -> d_node_id x <> w_uuids w 0%nat) ->
  (forall p i s w1, spire p i s w1 = (sr, w1)) -> (forall w1, rand 32 w1 = (Ok secret, w1)) ->
  let id := w_uuids w 0%nat in
  let join_token := default "" (t_spire_join_token t) in
  exists r w', handleClaimNode spire rand selector (Decoded req) w = (Ok r, w') /\
    if claimable (w_now w) t then
      if hostname_taken (w_db w) (t_participant_id t) (claimed_hostname req) then
        r = Err StatusInternalServerError /\ w_db w' = w_db w /\ w_reg w' = w_reg w
      else if bool_decide (join_token = "") || is_ok sr then
        r = Ok (mkClaimResponse id (hex_encode secret) join_token) /\
        (exists n, nodes (w_db w') = <[id := n]> (nodes (w_db w)) /\
           n_participant_id n = t_participant_id t /\ n_node_class n = "C") /\
        node_registration_tokens (w_db w') = <[cn_Token req := t <| t_used_at := Some (w_now w) |>
           <| t_node_id := Some id |>]> (node_registration_tokens (w_db w)) /\
        (exists e, w_reg w' = <[id := e]> (w_reg w) /\ ParticipantID e = t_participant_id t)
      else
        r = Err StatusInternalServerError /\ nodes (w_db w') = nodes (w_db w) /\
        w_reg w' = w_reg w /\
        exists t', node_registration_tokens (w_db w') !! cn_Token req = Some t' /\
          claimable (w_now w) t' = true
    else r = Err StatusUnauthorized /\ w' = w.
Proof.
  intros He Htok Ht Hpart Hid Hdis Hspire Hrand id join_token. unfold handleClaimNode.
  erewrite hbind_ok by done. rewrite (bool_decide_eq_false_2 (cn_Token req = "")) by done.
  erewrite hbind_ok by done. unfold query_row. rewrite or_reject_stmt by done. simpl. rewrite Ht. simpl.
  destruct (claimable (w_now w) t) eqn:Hcl; [|by eexists _, w].
  erewrite hbind_ok by (by apply or_reject_ok). fold id.
  unfold or_500, sql_insert_node at 1. rewrite or_reject_stmt by done. simpl.
  change (w_uuids w 0%nat) with id in Hid |- *. rewrite Hid. rewrite (bool_decide_eq_false_2 (is_Some None)) by (by intros []).
  cbn [orb]. fold (claimed_hostname req).
  destruct (hostname_taken (w_db w) (t_participant_id t) (claimed_hostname req)) eqn:Hhost; [by eexists _, _|].
  rewrite (bool_decide_eq_true_2 _ Hpart). simpl.
  erewrite hbind_ok; last first.
  { unfold attempt. rewrite stmt_calm by done. unfold run_stmt. simpl. rewrite Ht. simpl. reflexivity. }
  fold join_token. set (n := new_node_row _ _ _ _ _ _ _).
  set (w1 := mkWorld _ _ _ _ _ _ _). unfold registerNodeSpireEntry.
  set (sr' := if bool_decide (join_token = "") then Ok tt else sr).
  erewrite hbind_ok with (a := sr') (w1 := w1); last first.
  { unfold attempt, sr'. case_bool_decide; [done|]. by rewrite Hspire. }
  assert (Hok : (bool_decide (join_token = "") || is_ok sr) = is_ok sr').
  { unfold sr'. by destruct (bool_decide (join_token = "")). }
  rewrite Hok. clearbody sr'. destruct sr' as [[]|e]; simpl.
  - unfold sql_mark_token_used. rewrite or_reject_stmt by done. simpl. rewrite Ht, lookup_insert_eq.
    rewrite bool_decide_eq_true_2 by done. erewrite hbind_ok by (by apply or_reject_ok).
    erewrite hbind_ok by (by apply or_reject_ok, reg_write_calm).
    erewrite hbind_ok by (by apply or_reject_ok, Hrand).
    eexists _, _. split; [done|]. split; [done|]. split; [by exists n|]. split; [done|].
    by eexists.
  - destruct (delete_node_undo id n (w_db w) Hid Hdis) as (d' & Hdel & Hn' & Htk').
    erewrite hbind_ok; last first.
    { unfold ignoring, sql_delete_node. rewrite stmt_calm by done. unfold run_stmt.
      simpl in Hdel |- *. rewrite Hdel. reflexivity. }
    eexists _, _. split; [done|]. split; [done|]. split; [done|]. split; [done|].
    simpl. rewrite Htk', lookup_fmap, Ht. simpl. eexists. split; [done|].
    by destruct (bool_decide (t_node_id t = Some id)).
Qed.

Definition spire_ok (parent id selector : string) : M unit := mret tt.
Definition rand_zeros (n : Z) : M string := mret (string_of (replicate (Z.to_nat n) 0)).

Definition sample_claim : claimNodeRequest := mkClaimNode "tok" "pc" "US" "" zero_hw.
Definition sample_token_db : DB := sample_db <| node_registration_tokens :=
  {[ "tok" := mkRegToken "owner" (sample_now + Hour) None None None ]} |>.

Lemma ClaimNode_outcome_witness :
  exists r w', handleClaimNode spire_ok rand_zeros "" (Decoded sample_claim)
      (sample_world_with sample_token_db []) = (Ok r, w') /\
    r = Ok (mkClaimResponse "job-0" (hex_encode (string_of (replicate 32 0))) "") /\
    exists n, nodes (w_db w') !! "job-0" = Some n /\ n_participant_id n = "owner".
Proof.
  destruct (ClaimNode_outcome spire_ok rand_zeros "" sample_claim
    (sample_world_with sample_token_db [])
    (mkRegToken "owner" (sample_now + Hour) None None None) (Ok tt)
    (string_of (replicate 32 0))) as (r & w' & Hrun & Hout).
  - done.
  - done.
  - vm_compute. reflexivity.
  - by eexists.
  - vm_compute. reflexivity.
  - intros k x Hk. by vm_compute in Hk.
  - done.
  - intros w1. unfold rand_zeros. reflexivity.
  - exists r, w'. split; [exact Hrun|]. cbv zeta in Hout.
    destruct (claimable _ _) eqn:Hc; [|by vm_compute in Hc]. simpl orb in Hout.
    destruct Hout as (Hr & (n & Hn & Ho & _) & _). split; [exact Hr|].
    exists n. rewrite Hn. split; [apply lookup_insert_eq|exact Ho].
Defined.

(** The token presented by an installer on another host, on the database it finds. *)
Definition other_claim (now : Z) (d : DB) : result Error (result Z claimNodeResponse) * World :=
  handleClaimNode spire_ok rand_zeros "" (Decoded (mkClaimNode "tok" "laptop" "US" "" zero_hw))
    (mkWorld d sample_registry None now [] (fun _ => "node-b") None).

(** The single use of a token is checked, not enforced: the SELECT that
    validates it and the UPDATE that marks it used are separate statements and
    the UPDATE does not ask again.  Two installers on hosts of different names that
    present the same token at the same time both get 200 and two nodes exist
    afterwards. *)
Theorem claim_token_twice :
  exists resp1 resp2 w1,
    (other_claim sample_now sample_token_db).1 = Ok (Ok resp2) /\
    handleClaimNode spire_ok rand_zeros "" (Decoded sample_claim)
      (sample_world_with sample_token_db
         [quiet; mkEvent (fun now d => w_db (other_claim now d).2) (fun r => r) (fun s => s) 0 Succeeds])
      = (Ok (Ok resp1), w1) /\
    cr_NodeID resp1 <> cr_NodeID resp2 /\
    is_Some (nodes (w_db w1) !! cr_NodeID resp1) /\ is_Some (nodes (w_db w1) !! cr_NodeID resp2).
Proof.
  eexists _, _, _. split; [vm_compute; reflexivity|]. split; [vm_compute; reflexivity|].
  split; [done|]. by split; eexists; vm_compute.
Qed.

(** ** Heartbeats *)

Lemma RecordNodeHeartbeat_calm id n w :
  calm w -> nodes (w_db w) !! id = Some n ->
  RecordNodeHeartbeat id w = (Ok tt, w <| w_db := (w_db w)
    <| nodes := <[id := n <| n_last_heartbeat_at := Some (w_now w) |>
                         <| n_updated_at := w_now w |>]> (nodes (w_db w)) |>
    <| node_heartbeat_events := (id, w_now w) :: node_heartbeat_events (w_db w) |> |>).
Proof.
  intros He Hn. unfold RecordNodeHeartbeat. erewrite bind_eq by (by apply exec_calm).
  simpl. rewrite Hn, stmt_calm by done. unfold run_stmt. simpl. rewrite lookup_insert_eq.
  rewrite bool_decide_eq_true_2 by done. destruct He as [_ He]. unfold sql_now in *. simpl.
  by rewrite He.
Qed.

Definition node_printer_ids (collate : string -> string -> bool) (d : DB) (node : string) : list string :=
  isort _ collate (printers_of d node).*1.

(** The printers of a node the contributor enabled, as a heartbeat pushes them. *)
Definition enabled_printers (d : DB) (node : string) : gmap string bool :=
  list_to_map ((fun '(pid, _) => (pid, true)) <$>
    filter (fun '(_, r) => pr_enabled r = true) (printers_of d node)).

(** A heartbeat refreshes everything the scheduler reads: for the node itself,
    registered and known to the database, it stamps the registry entry and the
    row with the current time, appends one uptime event, copies the row's opt-out
    columns and the reported load into the registry, pushes the opt-out state to
    an agent with an older version and asks for a printer report exactly when the
    hashes differ.  A node missing from the registry gets 404 and nothing changes.
    The same column is the registry's opt-OUT flag and the agent's ENABLED flag:
    an agent that is told that compute is enabled runs on a node the registry
    excludes from compute placement, and the other way round. *)
Theorem Heartbeat_effects collate ctx req n w :
  calm w -> hb_NodeID req <> "" -> is_node ctx (hb_NodeID req) = true ->
  nodes (w_db w) !! hb_NodeID req = Some n ->
  match w_reg w !! hb_NodeID req with
  | None => handleHeartbeat collate ctx (Decoded req) w = (Ok (Err StatusNotFound), w)
  | Some e => exists resp w' e',
      handleHeartbeat collate ctx (Decoded req) w = (Ok (Ok resp), w') /\
      w_reg w' = <[hb_NodeID req := e']> (w_reg w) /\
      LastHeartbeat e' = w_now w /\ Status e' = Status e /\ InFlight e' = InFlight e /\
      OptOutCompute e' = n_opt_out_compute n /\ OptOutStorage e' = n_opt_out_storage n /\
      OptOutPrinting e' = n_opt_out_printing n /\
      HasEnabledPrinter e' = existsb (fun '(_, r) => pr_enabled r) (printers_of (w_db w) (hb_NodeID req)) /\
      OwnerActive e' = hb_OwnerActive req /\ CPUUtilPct e' = hb_CPUPct req /\
      LoadSampledAt e' = w_now w /\
      jobs (w_db w') = jobs (w_db w) /\
      node_heartbeat_events (w_db w') = (hb_NodeID req, w_now w) :: node_heartbeat_events (w_db w) /\
      nodes (w_db w') !! hb_NodeID req = Some (n <| n_last_heartbeat_at := Some (w_now w) |>
        <| n_updated_at := w_now w |>) /\
      node_printers (w_db w') = node_printers (w_db w) /\ w_now w' = w_now w /\ calm w' /\
      (hr_OptOut resp = if hb_OptOutVersion req <? n_opt_out_version n
         then Some (mkHeartbeatOptOut (n_opt_out_version n) (n_opt_out_compute n) (n_opt_out_storage n)
                (n_opt_out_printing n) (enabled_printers (w_db w) (hb_NodeID req))) else None) /\
      hr_RequestPrinterReport resp = negb (bool_decide
        (hb_PrinterHash req = hash_ids (node_printer_ids collate (w_db w) (hb_NodeID req))))
  end.
Proof.
  intros He Hid Hnode Hn. unfold handleHeartbeat. cbv zeta.
  erewrite hbind_ok by done. rewrite (bool_decide_eq_false_2 (hb_NodeID req = "")) by done.
  erewrite hbind_ok by done. erewrite hbind_ok by (by apply require_node_ok).
  destruct (w_reg w !! hb_NodeID req) as [e|] eqn:Hreg.
  2:{ apply hbind_err, or_reject_err with (code := fun _ => StatusNotFound)
        (e := ErrGo "heartbeat: node not found"). rewrite reg_update_calm by done.
      unfold Heartbeat. by rewrite Hreg. }
  erewrite hbind_ok; last first.
  { apply or_reject_ok. rewrite reg_update_calm by done. unfold Heartbeat. rewrite Hreg. reflexivity. }
  erewrite hbind_ok by (by apply or_reject_ok, RecordNodeHeartbeat_calm). simpl.
  unfold query_row, or_500. rewrite or_reject_stmt by done.
  unfold opt_out_columns. simpl. rewrite lookup_insert_eq. simpl.
  erewrite hbind_ok; last first.
  { unfold ignoring. rewrite reg_update_calm by done. unfold UpdateOptOut. simpl.
    rewrite lookup_insert_eq. reflexivity. }
  erewrite hbind_ok by (by apply or_reject_ok). 
  erewrite hbind_ok; last first.
  { unfold ignoring. rewrite reg_update_calm by done. unfold UpdateLoad. simpl.
    rewrite lookup_insert_eq. reflexivity. }
  rewrite !insert_insert_eq. set (w2 := mkWorld _ _ _ _ _ _ _).
  match goal with |- context [(?m ≫= _) w2] => set (push := m) end.
  assert (Hpush : exists oo, push w2 = (Ok (Ok oo), w2) /\ oo =
    if hb_OptOutVersion req <? n_opt_out_version n
    then Some (mkHeartbeatOptOut (n_opt_out_version n) (n_opt_out_compute n) (n_opt_out_storage n)
                (n_opt_out_printing n) (enabled_printers (w_db w) (hb_NodeID req))) else None).
  { unfold push. destruct (_ <? _); [|by exists None].
    eexists. split; [by erewrite hbind_ok by (by apply or_reject_ok, query_calm)|done]. }
  clearbody push. destruct Hpush as (oo & Hpush & Hoo). erewrite hbind_ok by exact Hpush.
  erewrite hbind_ok; last first.
  { apply or_reject_ok. unfold serverPrinterHash. erewrite bind_eq by (by apply query_calm).
    reflexivity. }
  eexists _, w2. eexists. split; [reflexivity|]. split; [reflexivity|].
  do 12 (split; [done|]). split; [simpl; by rewrite lookup_insert_eq|].
  do 3 (split; [done|]). split; [exact Hoo|].
  done.
Qed.

Lemma Heartbeat_effects_witness :
  exists resp w' e', handleHeartbeat sample_collate (as_node "n1")
      (Decoded (mkHeartbeatRequest "n1" 0 "" false f64_zero)) sample_world = (Ok (Ok resp), w') /\
    w_reg w' = <["n1" := e']> sample_registry /\ LastHeartbeat e' = sample_now.
Proof.
  destruct (Heartbeat_effects sample_collate (as_node "n1")
    (mkHeartbeatRequest "n1" 0 "" false f64_zero) sample_node_row sample_world)
    as (resp & w' & e' & Hrun & Hreg & Hlast & _).
  - done.
  - done.
  - by vm_compute.
  - by vm_compute.
  - exists resp, w', e'. split; [exact Hrun|]. split; [exact Hreg|exact Hlast].
Defined.
