(* ===== verification/Adapter.v ===== *)
(** The sohocloud-protocol coordinator: internal/protocoladapter.

    The protocol's own package is not part of the repository.  What the adapter
    uses of it is a parameter: the identity binding [BindsTo], the signature
    checks [Verify] of the four signed messages, the signing of assignments, the
    printer kinds and the fee declaration with its terms.  The message records
    list the fields the adapter reads. *)
From Stdlib Require Import Ascii String.
From S2P Require Import Prelude Float64 Workload Sounding Registry Database Lifecycle.
From S2P Require Import Effects Encoding Dispatch Http NodesApi.
Local Open Scope string_scope.
Local Open Scope list_scope.
Local Open Scope Z_scope.

(** ** Messages *)

(** The protocol's compute classes; a Go switch on constants needs them distinct. *)
Inductive ComputeClass := ClassServer | ClassStandard | ClassMicro | OtherClass (s : string).

Record Capacity := mkCapacity { cap_VCPUs : Z; cap_MemMB : Z; cap_DiskMB : Z }.
Record ListedPrinter := mkListedPrinter { lp_Kind : string; lp_Model : string }.

Record CapabilityListing := mkListing {
  l_NodeID : string; l_Seq : Z; l_Class : ComputeClass; l_Capacity : Capacity;
  l_Printers : list ListedPrinter; l_OptInCompute : bool; l_OptInPrint : bool }.

Record HeartbeatMsg := mkHeartbeatMsg { h_NodeID : string; h_Seq : Z }.
Record DeclineMsg := mkDecline { dc_NodeID : string; dc_JobID : string }.
Record JobReport := mkReport {
  r_NodeID : string; r_JobID : string; r_StartedAt : Z; r_ExitCode : Z;
  r_FailureCause : string; r_TmpfsExhausted : bool }.

Record JobSpecMsg := mkSpecMsg { s_Image : string; s_Workload : string; s_PrinterKind : string }.

Definition ErrNoIdentity : Error := ErrGo "protocoladapter: no SPIFFE identity in context".
Definition ErrIdentityMismatch : Error :=
  ErrGo "protocoladapter: SPIFFE identity does not match node".
Definition ErrBadSignature : Error := ErrGo "protocoladapter: message signature verification failed".
Definition ErrSeqNotMonotonic : Error :=
  ErrGo "protocoladapter: Seq does not strictly exceed the last seen for this node".
Definition ErrNoProtocolKey : Error := ErrGo "protocoladapter: no protocol key enrolled for node".

(** class.go *)
Definition nodeClassForComputeClass (c : ComputeClass) : result Error string :=
  match c with
  | ClassServer => Ok "A"
  | ClassStandard => Ok "B"
  | ClassMicro => Ok "C"
  | OtherClass _ => Err (ErrGo "protocoladapter: unknown compute class")
  end.

Inductive seqColumn := seqListing | seqHeartbeat.

Definition get_seq (col : seqColumn) (k : ProtocolKeyRow) : Z :=
  match col with seqListing => k_last_listing_seq k | seqHeartbeat => k_last_heartbeat_seq k end.
Definition set_seq (col : seqColumn) (seq : Z) (k : ProtocolKeyRow) : ProtocolKeyRow :=
  match col with
  | seqListing => k <| k_last_listing_seq := seq |>
  | seqHeartbeat => k <| k_last_heartbeat_seq := seq |>
  end.

(** The protocol package. *)
Record Protocol := mkProtocol {
  BindsTo : string -> string -> bool;
  listing_Verify : string -> CapabilityListing -> bool;
  heartbeat_Verify : string -> HeartbeatMsg -> bool;
  decline_Verify : string -> DeclineMsg -> bool;
  report_Verify : string -> JobReport -> bool;
  PrinterTraditional : string;
  Printer3D : string }.

Section Adapter.
Context `{MapOrder} (P : Protocol).
(** Fee declarations with their terms, and the source the adapter reads them
    from ([FeeSource]). *)
Context (FeeDeclaration Terms : Type) (decl_Terms : FeeDeclaration -> Terms).
Context (CurrentFeeDeclaration : string -> M FeeDeclaration) (coordinatorID : string).

Record Assignment := mkAssignment {
  a_JobID : string; a_NodeID : string; a_Spec : JobSpecMsg; a_Fee : Terms; a_OfferedAt : Z }.

(** [asg.Sign(coordKey)] *)
Context (Sign : Assignment -> string).

Definition bind (ctx : Ctx) (nodeID : string) : M unit :=
  match ctx_spiffe ctx with
  | None => fail ErrNoIdentity
  | Some path => if BindsTo P path nodeID then mret tt else fail ErrIdentityMismatch
  end.

Definition nodeKey (nodeID : string) : M string :=
  r ← try (query_row (fun _ d => node_protocol_keys d !! nodeID));
  match r with
  | Err ErrNoRows => fail ErrNoProtocolKey
  | Err e => fail e
  | Ok row =>
      if Z.of_nat (String.length (k_public_key row)) =? PublicKeySize then mret (k_public_key row)
      else fail (ErrGo "stored protocol key has invalid length")
  end.

Definition sql_bump_seq (nodeID : string) (col : seqColumn) (seq : Z) : M Z := exec (fun _ d =>
  match node_protocol_keys d !! nodeID with
  | Some k =>
      if get_seq col k <? seq then
        (1, d <| node_protocol_keys := <[nodeID := set_seq col seq k]> (node_protocol_keys d) |>)
      else (0, d)
  | None => (0, d)
  end).

Definition bumpSeq (nodeID : string) (col : seqColumn) (seq : Z) : M unit :=
  if int64_max <? seq then fail ErrSeqNotMonotonic
  else
    n ← sql_bump_seq nodeID col (to_int64 seq);
    if n =? 0 then fail ErrSeqNotMonotonic else mret tt.

(** The prologue of every signed message: identity, key, signature. *)
Definition check_signed (ctx : Ctx) (nodeID : string) (verify : string -> bool) : M unit :=
  _ ← bind ctx nodeID;
  pub ← nodeKey nodeID;
  if verify pub then mret tt else fail ErrBadSignature.

Definition lift_err {A} (r : result Error A) : M A :=
  match r with Ok a => mret a | Err e => fail e end.

Definition SubmitListing (ctx : Ctx) (l : CapabilityListing) : M unit :=
  let nodeID := l_NodeID l in
  _ ← check_signed ctx nodeID (fun pub => listing_Verify P pub l);
  _ ← bumpSeq nodeID seqListing (l_Seq l);
  class ← lift_err (nodeClassForComputeClass (l_Class l));
  let storageGB := Z.quot (cap_DiskMB (l_Capacity l)) 1024 in
  row ← UpdateNodeCapabilities nodeID class (cap_VCPUs (l_Capacity l)) (cap_MemMB (l_Capacity l))
          storageGB;
  _ ← forM (l_Printers l) (fun p =>
        sql_upsert_printer nodeID (mkPrinterInfo (lp_Kind p +:+ ":" +:+ lp_Model p) (lp_Model p)));
  found ← reg_read (Get nodeID);
  let entry := match found with
    | Some e => e
    | None => zero_entry <| NodeID := nodeID |> <| ParticipantID := np_ParticipantID row |>
                <| CountryCode := np_CountryCode row |> <| Region := np_Region row |>
    end in
  now ← time_Now;
  let hw := (Hardware entry) <| CPUCores := cap_VCPUs (l_Capacity l) |>
              <| RAMMB := cap_MemMB (l_Capacity l) |> <| StorageGB := storageGB |> in
  _ ← reg_write (Register (entry <| NodeClass := class |> <| Status := "online" |>
        <| LastHeartbeat := now |> <| Hardware := hw |>));
  hasEnabledPrinter ← query (fun _ d => existsb (fun '(_, r) => pr_enabled r) (printers_of d nodeID));
  _ ← try (reg_update (fun _ => UpdateOptOut nodeID (mkOptOut (negb (l_OptInCompute l))
        (negb (l_OptInCompute l)) (negb (l_OptInPrint l)) hasEnabledPrinter)));
  mret tt.

Definition AdapterHeartbeat (ctx : Ctx) (h : HeartbeatMsg) : M unit :=
  let nodeID := h_NodeID h in
  _ ← check_signed ctx nodeID (fun pub => heartbeat_Verify P pub h);
  _ ← bumpSeq nodeID seqHeartbeat (h_Seq h);
  _ ← reg_update (fun now => Heartbeat now nodeID);
  RecordNodeHeartbeat nodeID.

Definition assignmentForJob (j : DispatchedJob) (id : string) (terms : Terms) (offeredAt : Z) :
    Assignment :=
  let spec :=
    if bool_decide (dj_WorkloadType j = "print_traditional")
    then mkSpecMsg (dj_Image j) "print" (PrinterTraditional P)
    else if bool_decide (dj_WorkloadType j = "print_3d")
    then mkSpecMsg (dj_Image j) "print" (Printer3D P)
    else mkSpecMsg (dj_Image j) "compute" "" in
  mkAssignment (dj_JobID j) id spec terms offeredAt.

(** The signed assignments, each with its signature. *)
Definition PollJobs (ctx : Ctx) (id : string) : M (list (Assignment * string)) :=
  _ ← bind ctx id;
  decl ← CurrentFeeDeclaration coordinatorID;
  jobs ← PollScheduledJobs id;
  offeredAt ← time_Now;
  mret ((fun j => let asg := assignmentForJob j id (decl_Terms decl) offeredAt in (asg, Sign asg))
          <$> jobs).

Definition sql_insert_decline (jobID nodeID : string) : M unit := stmt (fun _ d =>
  if bool_decide (is_Some (jobs d !! jobID)) && bool_decide (is_Some (nodes d !! nodeID))
  then Ok (tt, d <| job_node_declines := {[ (jobID, nodeID) ]} ∪ job_node_declines d |>)
  else Err ErrForeignKey).

Definition Decline (ctx : Ctx) (dm : DeclineMsg) : M unit :=
  let nodeID := dc_NodeID dm in
  _ ← check_signed ctx nodeID (fun pub => decline_Verify P pub dm);
  n ← exec (fun now d => update_job (dc_JobID dm)
        (fun j => bound_to nodeID j && (has_status scheduled j || has_status dispatched j))
        (set_adapter_declined now) d);
  if n =? 0 then mret tt
  else
    _ ← sql_insert_decline (dc_JobID dm) nodeID;
    reg_write (AddInFlight nodeID (-1)).

Definition ReportJob (ctx : Ctx) (r : JobReport) : M unit :=
  let nodeID := r_NodeID r in
  _ ← check_signed ctx nodeID (fun pub => report_Verify P pub r);
  assigned ← query_row (fun _ d => j ← jobs d !! r_JobID r; Some (default "" (j_node_id j)));
  if negb (bool_decide (assigned = nodeID)) then fail (ErrGo "job is not assigned to this node")
  else
    _ ← exec (fun now d => update_job (r_JobID r)
          (fun j => bound_to nodeID j && has_status dispatched j)
          (set_adapter_running now (timestamptz (r_StartedAt r))) d);
    _ ← CompleteJob (r_JobID r) (Some (r_ExitCode r)) (r_FailureCause r) (r_TmpfsExhausted r);
    reg_write (AddInFlight nodeID (-1)).

Definition Fees : M FeeDeclaration := CurrentFeeDeclaration coordinatorID.

End Adapter.

(** middleware.go: the binding checked again at the HTTP layer.  A request is a
    method and path with a decoded [NodeID] probe or a query parameter. *)
Definition authorize (P : Protocol) (ctx : Ctx) (nodeID : string) : H unit :=
  match ctx_spiffe ctx with
  | None => reject StatusUnauthorized
  | Some path => reject_if (negb (BindsTo P path nodeID)) StatusForbidden
  end.

Definition maxBindBody : Z := Z.shiftl 1 20.
Definition StatusRequestEntityTooLarge : Z := 413.

Inductive V0Request :=
| SignedPost (path : string) (size : Z) (probe : option string)
| GetJobsRequest (node_id : string)
| OtherRequest.

Definition signed_paths : list string := ["/v0/listing"; "/v0/heartbeat"; "/v0/decline"; "/v0/report"].

Definition bindNodeID {A} (P : Protocol) (ctx : Ctx) (r : V0Request) (next : H A) : H A :=
  match r with
  | SignedPost path size probe =>
      if bool_decide (path ∈ signed_paths) then
        _ ← reject_if (maxBindBody <? size) StatusRequestEntityTooLarge;
        match probe with
        | None => reject StatusBadRequest
        | Some nodeID =>
            _ ← reject_if (bool_decide (nodeID = "")) StatusBadRequest;
            _ ← authorize P ctx nodeID;
            next
        end
      else next
  | GetJobsRequest nodeID =>
      _ ← reject_if (bool_decide (nodeID = "")) StatusBadRequest;
      _ ← authorize P ctx nodeID;
      next
  | OtherRequest => next
  end.
