(* ===== verification/AdapterProofs.v ===== *)
(** The protocol adapter: the guarantee it keeps, authentication, replay
    protection, and the effects of polling, declining and reporting. *)
From Stdlib Require Import Ascii String.
From S2P Require Import Prelude Float64 Workload Sounding Registry Scheduler Database Lifecycle.
From S2P Require Import Effects Encoding Sha256 Token Allowlist Orchestrator Samples OrchestratorProofs Submission Reroute Dispatch DispatchProofs Http NodesApi NodesApiProofs Adapter.
Import Types.
Local Open Scope string_scope.
Local Open Scope list_scope.
Local Open Scope Z_scope.

(** ** The guarantee *)

Section Guarantee.
Context `{MapOrder} (P : Protocol).

Lemma safe_bind_id ctx n : safe (bind P ctx n).
Proof. unfold bind. safe_code. Qed.

Lemma safe_nodeKey n : safe (nodeKey n).
Proof. unfold nodeKey. safe_code. Qed.

Lemma safe_bumpSeq n col seq : safe (bumpSeq n col seq).
Proof.
  unfold bumpSeq. destruct (_ <? seq); [apply safe_fail|].
  apply safe_bind; [|intros ?; safe_code]. apply safe_exec. intros now d.
  repeat case_match; simpl; try apply rtc_refl. by apply rtc_once, step_others.
Qed.

#[local] Hint Resolve safe_bind_id safe_nodeKey safe_bumpSeq : safe.

Lemma safe_check_signed ctx n v : safe (check_signed P ctx n v).
Proof. unfold check_signed. safe_code. Qed.

#[local] Hint Resolve safe_check_signed : safe.

Lemma safe_SubmitListing ctx l : safe (SubmitListing P ctx l).
Proof. unfold SubmitListing, lift_err. cbv zeta. safe_code. Qed.

Lemma safe_AdapterHeartbeat ctx h : safe (AdapterHeartbeat P ctx h).
Proof. unfold AdapterHeartbeat. cbv zeta. safe_code. Qed.

Lemma safe_Decline ctx dm : safe (Decline P ctx dm).
Proof.
  unfold Decline. cbv zeta. apply safe_bind; [apply safe_check_signed|intros _].
  apply (safe_guarded_update _ (fun _ j => bound_to (dc_NodeID dm) j &&
    (has_status scheduled j || has_status dispatched j)) set_adapter_declined).
  - intros now d j Hg. apply andb_prop in Hg as [_ Hg]. unfold has_status in Hg.
    apply orb_prop in Hg. apply js_adapter_declined.
    destruct Hg as [Hg|Hg]; apply bool_decide_eq_true in Hg; auto.
  - intros n. destruct (n =? 0); [apply safe_ret|]. apply safe_bind; [|intros ?; apply safe_reg_write].
    apply safe_stmt. intros now d a d'. case_bool_decide as Hj; simpl; [|done].
    case_bool_decide; [|done]. intros [= <- <-]. by apply rtc_once, step_decline_row.
Qed.

Lemma safe_ReportJob ctx r : safe (ReportJob P ctx r).
Proof.
  unfold ReportJob. cbv zeta. apply safe_bind; [apply safe_check_signed|intros _].
  apply safe_bind; [apply safe_query_row|intros assigned]. case_match; [apply safe_fail|].
  apply (safe_guarded_update _ (fun _ j => bound_to (r_NodeID r) j && has_status dispatched j)
    (fun now => set_adapter_running now (timestamptz (r_StartedAt r)))).
  - intros now d j Hg. apply andb_prop in Hg as [_ Hg]. apply bool_decide_eq_true in Hg.
    by apply js_adapter_running.
  - intros n. safe_code.
Qed.

Lemma safe_PollJobs ctx id F T (terms : F -> T) fees cid sign :
  (forall c, safe (fees c)) -> safe (PollJobs P F T terms fees cid sign ctx id).
Proof.
  intros Hf. unfold PollJobs. apply safe_bind; [apply safe_bind_id|intros _].
  apply safe_bind; [apply Hf|intros decl]. safe_code.
Qed.

End Guarantee.

#[export] Hint Resolve safe_SubmitListing safe_AdapterHeartbeat safe_Decline safe_ReportJob : safe.

(** ** Authentication *)

(** The signed calls, with the node they name and the check of their signature. *)
Inductive SignedCall :=
| CallListing (l : CapabilityListing)
| CallBeat (h : HeartbeatMsg)
| CallDecline (dm : DeclineMsg)
| CallReport (r : JobReport).

Definition signer (c : SignedCall) : string :=
  match c with
  | CallListing l => l_NodeID l | CallBeat h => h_NodeID h
  | CallDecline dm => dc_NodeID dm | CallReport r => r_NodeID r
  end.

Definition verifies (P : Protocol) (key : string) (c : SignedCall) : bool :=
  match c with
  | CallListing l => listing_Verify P key l | CallBeat h => heartbeat_Verify P key h
  | CallDecline dm => decline_Verify P key dm | CallReport r => report_Verify P key r
  end.

Definition signed_call (P : Protocol) (ctx : Ctx) (c : SignedCall) : M unit :=
  match c with
  | CallListing l => SubmitListing P ctx l | CallBeat h => AdapterHeartbeat P ctx h
  | CallDecline dm => Decline P ctx dm | CallReport r => ReportJob P ctx r
  end.

(** Is the call bound to the caller and signed with the key enrolled in [d]? *)
Definition authentic (P : Protocol) (ctx : Ctx) (d : DB) (c : SignedCall) : bool :=
  match ctx_spiffe ctx, node_protocol_keys d !! signer c with
  | Some path, Some k =>
      BindsTo P path (signer c) && (Z.of_nat (String.length (k_public_key k)) =? PublicKeySize) &&
      verifies P (k_public_key k) c
  | _, _ => false
  end.

Lemma check_signed_run P ctx n v w :
  check_signed P ctx n v w = (Ok tt, (next_event w).2) /\
    (exists path k, ctx_spiffe ctx = Some path /\ BindsTo P path n = true /\
       node_protocol_keys (w_db (next_event w).2) !! n = Some k /\
       (Z.of_nat (String.length (k_public_key k)) =? PublicKeySize) = true /\
       v (k_public_key k) = true) \/
  exists e w', check_signed P ctx n v w = (Err e, w') /\ (w' = w \/ w' = (next_event w).2).
Proof.
  unfold check_signed, bind. destruct (ctx_spiffe ctx) as [path|]; [|right; eexists _, w; split; [reflexivity|by left]].
  destruct (BindsTo P path n) eqn:Hb; [|right; eexists _, w; split; [reflexivity|by left]].
  erewrite bind_eq by done.
  assert (Hkey : nodeKey n w = (match (next_event w).1 with
    | Ok Succeeds => match node_protocol_keys (w_db (next_event w).2) !! n with
        | Some k => if Z.of_nat (String.length (k_public_key k)) =? PublicKeySize
            then Ok (k_public_key k) else Err (ErrGo "stored protocol key has invalid length")
        | None => Err ErrNoProtocolKey end
    | _ => Err ErrConn end, (next_event w).2)).
  { unfold nodeKey. erewrite bind_eq; last (unfold try; rewrite query_row_run; reflexivity).
    destruct (next_event w).1 as [[]|]; try done.
    destruct (_ !! n) as [k|]; [|done]. by destruct (_ =? _). }
  unfold mbind, M_bind. rewrite Hkey.
  destruct (next_event w).1 as [[]|]; try (right; eexists _, _; split; [reflexivity|by right]).
  destruct (node_protocol_keys (w_db (next_event w).2) !! n) as [k|] eqn:Hk;
    [|right; eexists _, _; split; [reflexivity|by right]].
  destruct (Z.of_nat _ =? PublicKeySize) eqn:Hl; [|right; eexists _, _; split; [reflexivity|by right]].
  destruct (v (k_public_key k)) eqn:Hv; [|right; eexists _, _; split; [reflexivity|by right]].
  left. split; [done|]. by exists path, k.
Qed.

(** A call that starts with the check. *)
Lemma checked_call {A} P ctx n v (k : unit -> M A) w :
  (forall path row, ctx_spiffe ctx = Some path -> BindsTo P path n = true ->
    node_protocol_keys (w_db (next_event w).2) !! n = Some row ->
    (Z.of_nat (String.length (k_public_key row)) =? PublicKeySize) = true ->
    v (k_public_key row) = true -> False) ->
  exists e w', (check_signed P ctx n v ≫= k) w = (Err e, w') /\ (w' = w \/ w' = (next_event w).2).
Proof.
  intros Hno.
  destruct (check_signed_run P ctx n v w) as [[_ (p & r & ? & ? & ? & ? & ?)]|(e & w' & Hrun & Hw')].
  { exfalso. by eapply Hno. }
  exists e, w'. split; [|done]. unfold mbind, M_bind. by rewrite Hrun.
Qed.

(** Is the call made under the identity of another node, or is its signature not
    one of the 32-byte key enrolled in [d] for the node it names? *)
Definition forged (P : Protocol) (ctx : Ctx) (d : DB) (c : SignedCall) : bool :=
  match ctx_spiffe ctx with Some path => negb (BindsTo P path (signer c)) | None => false end ||
  match node_protocol_keys d !! signer c with
  | Some k => negb ((Z.of_nat (String.length (k_public_key k)) =? PublicKeySize) &&
                    verifies P (k_public_key k) c)
  | None => true
  end.

(** C23 A forged message does not act: a listing, heartbeat, decline or report made
    under the SPIFFE identity of another node, or whose signature does not verify
    under the 32-byte key enrolled for the node it names (there is none, it has
    another length, or the check fails), is refused with an error having read at
    most one row and written nothing, in any environment, however it reached the
    coordinator. *)
Theorem forged_call_refused P ctx c w :
  forged P ctx (w_db (next_event w).2) c = true ->
  exists e w', signed_call P ctx c w = (Err e, w') /\ (w' = w \/ w' = (next_event w).2).
Proof.
  intros Ha.
  assert (Hno : forall path row, ctx_spiffe ctx = Some path -> BindsTo P path (signer c) = true ->
    node_protocol_keys (w_db (next_event w).2) !! signer c = Some row ->
    (Z.of_nat (String.length (k_public_key row)) =? PublicKeySize) = true ->
    verifies P (k_public_key row) c = true -> False).
  { intros path row Hp Hb Hk Hl Hv. unfold forged in Ha. rewrite Hp, Hk, Hb, Hl, Hv in Ha. done. }
  destruct c as [l|h|dm|r]; simpl in *; by apply checked_call.
Qed.

Definition sample_protocol : Protocol :=
  mkProtocol (fun path n => bool_decide (path = node_path n))
    (fun _ _ => true) (fun _ _ => true) (fun _ _ => true) (fun _ _ => true) "traditional" "3d".

(** A protocol in which a heartbeat verifies only with an even number. *)
Definition even_protocol : Protocol :=
  mkProtocol (fun path n => bool_decide (path = node_path n))
    (fun _ _ => true) (fun _ h => Z.even (h_Seq h)) (fun _ _ => true) (fun _ _ => true) "traditional" "3d".

Definition sample_keyed_db : DB := (sample_db_with ((sample_job MarketplaceBatchCompute dispatched)
    <| j_updated_at := sample_now - Minute |>))
  <| node_protocol_keys := {[ "n1" := mkProtocolKey (string_of (replicate 32 7)) "ed25519" 0 4 ]} |>.

Definition sample_keyed_world : World := sample_world_with sample_keyed_db [].

(** The right identity with a bad signature, and a good signature under the identity
    of another node; with both right the same message is accepted. *)
Lemma forged_call_refused_witness :
  let refused ctx seq := exists e w', signed_call even_protocol ctx (CallBeat (mkHeartbeatMsg "n1" seq))
    sample_keyed_world = (Err e, w') /\ (w' = sample_keyed_world \/ w' = (next_event sample_keyed_world).2) in
  refused (as_node "n1") 7 /\ refused (as_node "n2") 8 /\
  (signed_call even_protocol (as_node "n1") (CallBeat (mkHeartbeatMsg "n1" 8)) sample_keyed_world).1 = Ok tt.
Proof.
  cbv zeta. split_and!.
  - apply (forged_call_refused even_protocol (as_node "n1") (CallBeat (mkHeartbeatMsg "n1" 7))
      sample_keyed_world). vm_compute. reflexivity.
  - apply (forged_call_refused even_protocol (as_node "n2") (CallBeat (mkHeartbeatMsg "n1" 8))
      sample_keyed_world). vm_compute. reflexivity.
  - vm_compute. reflexivity.
Defined.

(** A call relayed by an operator carries no SPIFFE identity and is refused at the
    first check, however well it is signed. *)
Theorem relayed_call_refused P ctx c w :
  ctx_spiffe ctx = None -> signed_call P ctx c w = (Err ErrNoIdentity, w).
Proof.
  intros Hc. destruct c; simpl;
    unfold SubmitListing, AdapterHeartbeat, Decline, ReportJob, check_signed, bind; by rewrite Hc.
Qed.

(** ** Replay protection *)

(** The counters of [d'] are at least those of [d], and no key disappeared. *)
Definition seq_le (col : seqColumn) (d d' : DB) : Prop :=
  forall id k, node_protocol_keys d !! id = Some k ->
    exists k', node_protocol_keys d' !! id = Some k' /\ get_seq col k <= get_seq col k'.

#[export] Instance seq_le_preorder col : PreOrder (seq_le col).
Proof.
  split; [intros d id k Hk; exists k; split; [done|lia]|].
  intros d1 d2 d3 H12 H23 id k Hk. destruct (H12 id k Hk) as (k2 & Hk2 & ?).
  destruct (H23 id k2 Hk2) as (k3 & Hk3 & ?). exists k3. split; [done|lia].
Qed.

Lemma seq_le_same col d d' : node_protocol_keys d' = node_protocol_keys d -> seq_le col d d'.
Proof. intros He id k Hk. rewrite He. exists k. split; [done|lia]. Qed.

(** Code whose database effect stays within [seq_le] when the others' does. *)
Section Preserves.
Context (col : seqColumn).
#[local] Notation preserves := (preserves (seq_le col)).

Lemma preserves_reg_update f : preserves (reg_update f).
Proof.
  unfold reg_update. preserves_step; [preserves_step|]. intros w r w' Hw.
  destruct (f _ _); by intros [= <- <-].
Qed.

Lemma preserves_RecordNodeHeartbeat n : preserves (RecordNodeHeartbeat n).
Proof.
  unfold RecordNodeHeartbeat. repeat preserves_step; intros now d a' d'.
  - intros [= <- <-]. apply seq_le_same. by case_match.
  - case_match; [|done]. intros [= <- <-]. by apply seq_le_same.
Qed.

Lemma preserves_check_signed P ctx n v : preserves (check_signed P ctx n v).
Proof. unfold check_signed, bind, nodeKey. repeat preserves_step. Qed.

Lemma preserves_bumpSeq n seq : preserves (bumpSeq n col seq).
Proof.
  unfold bumpSeq, sql_bump_seq. repeat preserves_step. intros now d a d' [= Hx]. revert Hx.
  case_match eqn:Hk; [|by intros [= <- <-]]. case_match eqn:Hlt; intros [= <- <-]; [|done].
  apply Z.ltb_lt in Hlt. intros id k0 Hk0. simpl. rewrite lookup_insert. case_decide.
  - simplify_eq. eexists. split; [done|]. destruct col; simpl in *; lia.
  - exists k0. split; [done|lia].
Qed.

End Preserves.

(** What an accepted sequence number proves about the counter. *)
Lemma bumpSeq_ok col n seq w w' :
  respects (seq_le col) (w_events w) -> is_uint64 seq -> bumpSeq n col seq w = (Ok tt, w') ->
  respects (seq_le col) (w_events w') /\ seq_le col (w_db w) (w_db w') /\
  (forall k, node_protocol_keys (w_db w) !! n = Some k -> get_seq col k < seq) /\
  exists k', node_protocol_keys (w_db w') !! n = Some k' /\ get_seq col k' = seq.
Proof.
  intros Hw Hs. unfold bumpSeq. destruct (_ <? seq) eqn:Hmax; [done|].
  apply Z.ltb_ge in Hmax. rewrite to_int64_id
    by (unfold is_int64, int64_min; unfold is_uint64 in Hs; lia).
  intros Hr. apply bind_ok in Hr as (cnt & w1 & Hx & Hr).
  destruct (cnt =? 0) eqn:Hc; [done|]. injection Hr as <-.
  unfold sql_bump_seq, exec, stmt in Hx. apply bind_ok in Hx as (f & w2 & Hne & Hx).
  destruct (preserves_next (seq_le col) w _ w2 Hw Hne) as [Hw2 Hle]. destruct f; [|done|].
  2:{ by apply bind_ok in Hx as (? & ? & _ & ?). }
  unfold run_stmt in Hx. destruct (node_protocol_keys (w_db w2) !! n) as [k|] eqn:Hk;
    [|by injection Hx as <- <-].
  destruct (get_seq col k <? seq) eqn:Hlt; [|by injection Hx as <- <-].
  injection Hx as <- <-. apply Z.ltb_lt in Hlt. simpl.
  assert (Hget : get_seq col (set_seq col seq k) = seq) by (by destruct col).
  split; [done|]. split.
  { etrans; [exact Hle|]. intros id k0 Hk0. simpl. rewrite lookup_insert. case_decide; [subst id|].
    - simplify_eq. eexists. split; [done|]. rewrite Hget. lia.
    - exists k0. split; [done|lia]. }
  split.
  - intros k0 Hk0. destruct (Hle n k0 Hk0) as (k1 & Hk1 & ?). simplify_eq. lia.
  - eexists. split; [apply lookup_insert_eq|done].
Qed.

(** Heartbeats presented one after the other; the accepted ones. *)
Fixpoint beats (P : Protocol) (hs : list (Ctx * HeartbeatMsg)) : M (list HeartbeatMsg) :=
  match hs with
  | [] => mret []
  | (ctx, h) :: hs' =>
      r ← try (AdapterHeartbeat P ctx h);
      rest ← beats P hs';
      mret (if is_ok r then h :: rest else rest)
  end.

Lemma preserves_beat n : preserves (seq_le seqHeartbeat)
  (_ ← reg_update (fun now => Heartbeat now n); RecordNodeHeartbeat n).
Proof. preserves_step; [apply preserves_reg_update|apply preserves_RecordNodeHeartbeat]. Qed.

Lemma preserves_AdapterHeartbeat P ctx h : preserves (seq_le seqHeartbeat) (AdapterHeartbeat P ctx h).
Proof.
  unfold AdapterHeartbeat. preserves_step; [apply preserves_check_signed|].
  preserves_step; [apply preserves_bumpSeq|]. apply preserves_beat.
Qed.

Lemma AdapterHeartbeat_ok P ctx h w u w' :
  respects (seq_le seqHeartbeat) (w_events w) -> is_uint64 (h_Seq h) -> AdapterHeartbeat P ctx h w = (Ok u, w') ->
  (forall k, node_protocol_keys (w_db w) !! h_NodeID h = Some k -> k_last_heartbeat_seq k < h_Seq h) /\
  exists k', node_protocol_keys (w_db w') !! h_NodeID h = Some k' /\ h_Seq h <= k_last_heartbeat_seq k'.
Proof.
  intros Hw Hs Hr. unfold AdapterHeartbeat in Hr. cbv zeta in Hr.
  apply bind_ok in Hr as ([] & w1 & Hc & Hr). apply bind_ok in Hr as ([] & w2 & Hb & Hr).
  pose proof (preserves_check_signed seqHeartbeat P ctx (h_NodeID h)
    (fun pub => heartbeat_Verify P pub h)) as Hpc.
  destruct (Hpc _ _ _ Hw Hc) as [Hw1 Hle1].
  destruct (bumpSeq_ok _ _ _ _ _ Hw1 Hs Hb) as (Hw2 & Hle2 & Hlt & k' & Hk' & Hget).
  simpl in Hget. split.
  - intros k Hk. destruct (Hle1 _ _ Hk) as (k1 & Hk1 & ?). specialize (Hlt _ Hk1). simpl in *. lia.
  - destruct (preserves_beat _ _ _ _ Hw2 Hr) as [_ Hle3]. destruct (Hle3 _ _ Hk') as (k3 & Hk3 & ?).
    exists k3. split; [done|]. simpl in *. lia.
Qed.

(** C24 Accepted sequence numbers strictly increase: however heartbeats are
    presented (replayed, reordered, by whom and with whatever statements failing
    or taking effect without an answer, other requests running in between), the
    accepted heartbeats of a node carry strictly increasing sequence numbers, all
    above the counter stored at the start.  The environment is asked not to
    lower a counter or drop a key. *)
Theorem heartbeats_strictly_increasing P hs w acc w' n :
  respects (seq_le seqHeartbeat) (w_events w) -> Forall (fun '(_, h) => is_uint64 (h_Seq h)) hs ->
  beats P hs w = (Ok acc, w') ->
  StronglySorted Z.lt (h_Seq <$> filter (fun h => h_NodeID h = n) acc) /\
  (forall h k, h ∈ acc -> h_NodeID h = n -> node_protocol_keys (w_db w) !! n = Some k ->
     k_last_heartbeat_seq k < h_Seq h).
Proof.
  revert w acc. induction hs as [|[ctx h] hs IH]; intros w acc Hw Hs; simpl.
  { intros [= <- <-]. split; [constructor|]. intros h k Hh. by apply not_elem_of_nil in Hh. }
  apply Forall_cons in Hs as [Hsh Hs]. intros Hr.
  apply bind_ok in Hr as (r & w1 & Ht & Hr). apply bind_ok in Hr as (rest & w2 & Hb & Hr).
  injection Hr as <- <-. unfold try in Ht.
  destruct (AdapterHeartbeat P ctx h w) as [r1 w1'] eqn:Hh. injection Ht as <- <-.
  destruct (preserves_AdapterHeartbeat P ctx h _ _ _ Hw Hh) as [Hw1 Hle].
  destruct (IH _ _ Hw1 Hs Hb) as [Hsort Hrest].
  assert (Hrest' : forall h0 k, h0 ∈ rest -> h_NodeID h0 = n ->
    node_protocol_keys (w_db w) !! n = Some k -> k_last_heartbeat_seq k < h_Seq h0).
  { intros h0 k Hin Hn Hk. destruct (Hle n k Hk) as (k1 & Hk1 & Hlek). simpl in Hlek.
    specialize (Hrest h0 k1 Hin Hn Hk1). lia. }
  destruct r1 as [u|e]; simpl; [|done].
  destruct (AdapterHeartbeat_ok _ _ _ _ _ _ Hw Hsh Hh) as (Hlt & k' & Hk' & Hge).
  split.
  - rewrite filter_cons. case_decide as Hn; [|done]. simpl. constructor; [done|].
    apply Forall_fmap, Forall_forall. intros h0 Hin0.
    apply list_elem_of_filter in Hin0 as [Hn0 Hin0]. rewrite Hn in Hk'. simpl.
    specialize (Hrest h0 k' Hin0 Hn0 Hk'). lia.
  - intros h0 k Hin Hn Hk. apply elem_of_cons in Hin as [->|Hin]; [|by eapply Hrest'].
    subst n. by apply Hlt.
Qed.

Lemma heartbeats_strictly_increasing_witness :
  let hs := (fun seq => (as_node "n1", mkHeartbeatMsg "n1" seq)) <$> [5; 5; 3; 9; 7] in
  let run := beats sample_protocol hs sample_keyed_world in
  run.1 = Ok [mkHeartbeatMsg "n1" 5; mkHeartbeatMsg "n1" 9] /\
  StronglySorted Z.lt (h_Seq <$> filter (fun h => h_NodeID h = "n1")
    [mkHeartbeatMsg "n1" 5; mkHeartbeatMsg "n1" 9]).
Proof.
  cbv zeta. set (hs := _ <$> _).
  assert (Hrun : (beats sample_protocol hs sample_keyed_world).1 =
    Ok [mkHeartbeatMsg "n1" 5; mkHeartbeatMsg "n1" 9]) by (vm_compute; reflexivity).
  split; [exact Hrun|].
  apply (heartbeats_strictly_increasing sample_protocol hs sample_keyed_world
    [mkHeartbeatMsg "n1" 5; mkHeartbeatMsg "n1" 9]
    (beats sample_protocol hs sample_keyed_world).2 "n1").
  - apply Forall_nil_2.
  - repeat constructor; unfold uint64_max; simpl; lia.
  - rewrite <- Hrun. apply surjective_pairing.
Defined.

(** ** Effects of authentic calls *)

Lemma check_signed_calm P ctx c w :
  calm w -> authentic P ctx (w_db w) c = true ->
  check_signed P ctx (signer c) (fun pub => verifies P pub c) w = (Ok tt, w).
Proof.
  intros He Ha. unfold authentic in Ha. unfold check_signed, bind.
  destruct (ctx_spiffe ctx) as [path|]; [|done].
  destruct (node_protocol_keys (w_db w) !! signer c) as [k|] eqn:Hk; [|done].
  apply andb_prop in Ha as [Ha Hv]. apply andb_prop in Ha as [Hb Hl]. rewrite Hb.
  erewrite bind_eq by done. erewrite bind_eq; last first.
  { unfold nodeKey. erewrite bind_eq; last first.
    { unfold try. rewrite (query_row_calm _ w k) by done. reflexivity. }
    cbv beta iota. rewrite Hl. reflexivity. }
  cbv beta. by rewrite Hv.
Qed.

(** A node can only decline what it holds: an authentic decline of a job that
    is scheduled on or dispatched to the node makes it declined, records the
    refusal so that rerouting excludes the node and releases its slot; for any
    other job (another node's, running, finished or unknown) it is answered
    without an error and changes nothing. *)
Theorem Decline_own_job P ctx dm w :
  calm w -> authentic P ctx (w_db w) (CallDecline dm) = true ->
  is_Some (nodes (w_db w) !! dc_NodeID dm) ->
  match jobs (w_db w) !! dc_JobID dm with
  | Some j =>
      if bound_to (dc_NodeID dm) j && (has_status scheduled j || has_status dispatched j) then
        exists w', Decline P ctx dm w = (Ok tt, w') /\
          jobs (w_db w') = <[dc_JobID dm := set_adapter_declined (w_now w) j]> (jobs (w_db w)) /\
          dc_NodeID dm ∈ declined_by (w_db w') (dc_JobID dm) /\
          w_reg w' = AddInFlight (dc_NodeID dm) (-1) (w_reg w)
      else Decline P ctx dm w = (Ok tt, w)
  | None => Decline P ctx dm w = (Ok tt, w)
  end.
Proof.
  intros He Ha Hn. unfold Decline. cbv zeta.
  pose proof (check_signed_calm P ctx (CallDecline dm) w He Ha) as Hc. simpl in Hc.
  assert (Hno : update_job (dc_JobID dm) (fun j => bound_to (dc_NodeID dm) j &&
      (has_status scheduled j || has_status dispatched j)) (set_adapter_declined (w_now w)) (w_db w)
      = (0, w_db w) -> Decline P ctx dm w = (Ok tt, w)).
  { intros Hu. unfold Decline. cbv zeta. erewrite bind_eq by exact Hc.
    erewrite bind_eq by (by apply exec_calm). by destruct w. }
  destruct (jobs (w_db w) !! dc_JobID dm) as [j|] eqn:Hj; [|by apply Hno; unfold update_job; rewrite Hj].
  destruct (bound_to _ j && _) eqn:Hg; [|by apply Hno; unfold update_job; rewrite Hj, Hg].
  erewrite bind_eq by exact Hc. erewrite bind_eq; last first.
  { apply exec_calm; [done|]. unfold update_job. rewrite Hj, Hg. reflexivity. }
  change (1 =? 0) with false. cbv beta iota. erewrite bind_eq; last first.
  { apply stmt_calm_ok; [done|]. simpl. rewrite lookup_insert_eq, !bool_decide_eq_true_2 by done.
    reflexivity. }
  eexists. split; [by apply reg_write_calm|]. split; [done|]. split; [|done].
  apply declined_by_elem. simpl. set_solver.
Qed.

Lemma Decline_own_job_witness :
  exists w', Decline sample_protocol (as_node "n1") (mkDecline "n1" "job") sample_keyed_world = (Ok tt, w') /\
    "n1" ∈ declined_by (w_db w') "job".
Proof.
  pose proof (Decline_own_job sample_protocol (as_node "n1") (mkDecline "n1" "job")
    sample_keyed_world) as Ht.
  destruct Ht as (w' & Hrun & _ & Hd & _).
  - split; reflexivity.
  - vm_compute. reflexivity.
  - vm_compute. by eexists.
  - exists w'. split; [exact Hrun|exact Hd].
Defined.

(** A report cannot stretch the metered time: for an authentic report (whose exit
    code and cause the columns of the job can hold) on a job
    dispatched to the node and not started, whatever start time the node claims,
    the stored start lies between the dispatch and now, the job ends in the
    status its exit code calls for and the slot is released; a report on a job of
    another node, or on one that is neither dispatched nor running, fails. *)
Theorem ReportJob_clamped P ctx r j w :
  calm w -> authentic P ctx (w_db w) (CallReport r) = true ->
  r_NodeID r <> "" -> jobs (w_db w) !! r_JobID r = Some j -> j_updated_at j <= w_now w ->
  report_fits (Some (r_ExitCode r)) (r_FailureCause r) = true ->
  if bound_to (r_NodeID r) j then
    (j_status j = dispatched -> j_started_at j = None ->
      exists w' j' t, ReportJob P ctx r w = (Ok tt, w') /\
        jobs (w_db w') = <[r_JobID r := j']> (jobs (w_db w)) /\
        j_status j' = outcome (Some (r_ExitCode r)) (j_workload_type j) /\
        j_started_at j' = Some t /\ j_updated_at j <= t <= w_now w /\
        w_reg w' = AddInFlight (r_NodeID r) (-1) (w_reg w)) /\
    (j_status j <> dispatched -> j_status j <> running ->
      ReportJob P ctx r w = (Err ErrJobNotRunning, w))
  else exists e, ReportJob P ctx r w = (Err e, w).
Proof.
  intros He Ha Hne Hj Hu Hfit. unfold ReportJob. cbv zeta.
  pose proof (check_signed_calm P ctx (CallReport r) w He Ha) as Hc. simpl in Hc.
  erewrite bind_eq by exact Hc. erewrite bind_eq; last first.
  { apply query_row_calm; [done|]. rewrite Hj. reflexivity. }
  assert (Hb : bool_decide (default "" (j_node_id j) = r_NodeID r) = bound_to (r_NodeID r) j).
  { unfold bound_to. destruct (j_node_id j) as [n|]; simpl; repeat case_bool_decide; naive_solver. }
  rewrite Hb. destruct (bound_to (r_NodeID r) j) eqn:Hbound; simpl; [|by eexists].
  split.
  - intros Hs Hst. set (t := Z.min (Z.max (timestamptz (r_StartedAt r)) (j_updated_at j)) (w_now w)).
    set (j1 := set_adapter_running (w_now w) (timestamptz (r_StartedAt r)) j).
    erewrite bind_eq; last first.
    { apply exec_calm; [done|]. unfold update_job, has_status. rewrite Hj, Hbound.
      rewrite bool_decide_eq_true_2 by done. simpl. fold j1. reflexivity. }
    set (w1 := w <| w_db := _ |>).
    destruct (CompleteJob_running (r_JobID r) j1 (Some (r_ExitCode r)) (r_FailureCause r)
      (r_TmpfsExhausted r) w1) as (w2 & Hrun & Hjobs & He2 & Hr2);
      [done|apply lookup_insert_eq|done|done|].
    erewrite bind_eq by exact Hrun. eexists _, _, t. split; [by apply reg_write_calm|].
    split; [simpl; rewrite Hjobs; simpl; by rewrite insert_insert_eq|]. split; [done|].
    split; [unfold completed_row, j1; simpl; by rewrite Hst|]. split; [unfold t; lia|].
    by rewrite Hr2.
  - intros Hd Hr. erewrite bind_eq; last first.
    { apply exec_calm; [done|]. unfold update_job, has_status. rewrite Hj, Hbound.
      rewrite bool_decide_eq_false_2 by done. reflexivity. }
    assert (Hcw : CompleteJob (r_JobID r) (Some (r_ExitCode r)) (r_FailureCause r)
      (r_TmpfsExhausted r) w = (Err ErrJobNotRunning, w)) by (by eapply CompleteJob_refused).
    destruct w. unfold mbind, M_bind. simpl in *. by rewrite Hcw.
Qed.

Lemma ReportJob_clamped_witness :
  let r := mkReport "n1" "job" (sample_now - Day) 0 "" false in
  exists w' j' t, ReportJob sample_protocol (as_node "n1") r sample_keyed_world = (Ok tt, w') /\
    jobs (w_db w') = <["job" := j']> (jobs sample_keyed_db) /\
    j_started_at j' = Some t /\ sample_now - Minute <= t <= sample_now.
Proof.
  pose proof (ReportJob_clamped sample_protocol (as_node "n1")
    (mkReport "n1" "job" (sample_now - Day) 0 "" false)
    ((sample_job MarketplaceBatchCompute dispatched) <| j_updated_at := sample_now - Minute |>)
    sample_keyed_world) as Ht.
  destruct Ht as [Ht _].
  - split; reflexivity.
  - vm_compute. reflexivity.
  - done.
  - vm_compute. reflexivity.
  - vm_compute. done.
  - reflexivity.
  - destruct Ht as (w' & j' & t & Hrun & Hjobs & _ & Hst & Hle & _); [reflexivity|reflexivity|].
    exists w', j', t. split; [exact Hrun|]. split; [exact Hjobs|]. split; [exact Hst|exact Hle].
Defined.

(** No terms, no offers: in any environment, every assignment a poll returns
    names the polling node, carries the terms of the fee declaration that was
    read before any job was dispatched and is signed as it stands; when no
    declaration can be read, the poll fails and has dispatched nothing. *)
Theorem PollJobs_fail_closed `{MapOrder} P F T (terms : F -> T) fees cid sign ctx id w r w' :
  PollJobs P F T terms fees cid sign ctx id w = (r, w') ->
  (forall asgs, r = Ok asgs -> exists path decl w1, ctx_spiffe ctx = Some path /\
     BindsTo P path id = true /\ fees cid w = (Ok decl, w1) /\
     forall a s, (a, s) ∈ asgs -> a_NodeID T a = id /\ a_Fee T a = terms decl /\ s = sign a) /\
  ((forall decl w1, fees cid w <> (Ok decl, w1)) ->
     is_ok r = false /\ (w' = w \/ exists e, fees cid w = (Err e, w'))).
Proof.
  unfold PollJobs, bind. destruct (ctx_spiffe ctx) as [path|]; [|intros [= <- <-]; split; [done|by auto]].
  destruct (BindsTo P path id) eqn:Hb; [|intros [= <- <-]; split; [done|by auto]].
  erewrite bind_eq by done. unfold mbind at 1, M_bind at 1.
  destruct (fees cid w) as [[decl|e] w1] eqn:Hf.
  2:{ intros [= <- <-]. split; [done|]. eauto. }
  intros Hr. split; [|intros Hno; by destruct (Hno decl w1)].
  intros asgs ->. exists path, decl, w1. do 3 (split; [done|]).
  apply bind_ok in Hr as (js & w2 & _ & Hr). apply bind_ok in Hr as (t & w3 & _ & Hr).
  injection Hr as <- _. intros a s Has. apply list_elem_of_fmap in Has as (j & [= -> ->] & _).
  unfold assignmentForJob. by repeat case_bool_decide.
Qed.

Lemma PollJobs_fail_closed_witness :
  let fees (_ : string) := mret 7 : M Z in
  exists asgs w', PollJobs (H0 := default_order) sample_protocol Z Z (fun x => x) fees "c" (fun _ => "sig")
      (as_node "n1") "n1" (sample_world_with (sample_db_with (sample_job MarketplaceBatchCompute scheduled)) [])
      = (Ok asgs, w') /\ length asgs = 1%nat /\ forall a s, (a, s) ∈ asgs -> a_Fee Z a = 7.
Proof.
  eexists _, _. split; [vm_compute; reflexivity|]. split; [reflexivity|].
  edestruct (@PollJobs_fail_closed default_order sample_protocol Z Z (fun x => x)
    (fun _ => mret 7) "c" (fun _ => "sig") (as_node "n1") "n1"
    (sample_world_with (sample_db_with (sample_job MarketplaceBatchCompute scheduled)) []))
    as [Hok _]; [vm_compute; reflexivity|].
  destruct (Hok _ eq_refl) as (path & decl & w1 & _ & _ & Hf & Hall).
  intros a s Has. destruct (Hall a s Has) as (_ & -> & _). by injection Hf as <- _.
Defined.
