(* ===== verification/Portal.v ===== *)
(** The member portal's handlers that change state: internal/portal/server.go.

    Job submission, confirmation of print jobs, the pickup and delivery of
    prints, no-shows and their contestation, the dispute terminal, opt-out
    settings, resource profiles and node tokens.  A handler's argument [user] is
    the member of the session; numbers arrive as [strconv] parsed them ([None]
    is a parse error).  A redirect or a rendered page is a normal response;
    the pages themselves are not modelled. *)
From Stdlib Require Import Ascii String.
From S2P Require Import Prelude Float64 Workload Sounding Registry Scheduler Database Lifecycle.
From S2P Require Import Effects Encoding Sha256 Token Allowlist Orchestrator Dispatch Http NodesApi Adapter.
Import Types.
Local Open Scope string_scope.
Local Open Scope list_scope.
Local Open Scope Z_scope.

(** ** Reads *)

(** [FROM jobs j JOIN nodes n ON n.id = j.node_id WHERE ... n.participant_id = $2] *)
Definition job_of_provider (d : DB) (jobID user : string) : option JobRow :=
  j ← jobs d !! jobID;
  nid ← j_node_id j;
  n ← nodes d !! nid;
  if bool_decide (n_participant_id n = user) then Some j else None.

Definition job_of_consumer (d : DB) (jobID user : string) : option JobRow :=
  j ← jobs d !! jobID;
  if bool_decide (j_participant_id j = Some user) then Some j else None.

Definition not_found (_ : Error) : Z := StatusNotFound.

(** [SELECT is_staff ...], whose error leaves [false]. *)
Definition require_staff (user : string) : H unit :=
  r ← attempt (query_row (fun _ d => participants d !! user));
  reject_if (negb (match r with Ok p => p_is_staff p | Err _ => false end)) StatusForbidden.

(** ** Submission *)

Record SubmitForm := mkSubmitForm {
  sf_node_id : string; sf_workload_type : string; sf_container_image : string;
  sf_cpu_cores : option Z; sf_ram_mb : option Z }.

Definition positive_or (dflt : Z) (v : option Z) : Z :=
  match v with Some n => if 0 <? n then n else dflt | None => dflt end.

Section Portal.
Context `{MapOrder}.
(** [ps.orch.SubmitJob] (the [jobSubmitter] interface), the payment client's
    [CreateRefund], [spire-server token generate] and [rand.Read]. *)
Context (submit : SubmitJobRequest -> M SubmitJobResponse).
Context (CreateRefund : string -> Z -> M unit).
Context (spire_token_generate : M string) (rand_Read : Z -> M string).

Definition handleSubmitJob (user : string) (f : SubmitForm) : H string :=
  _ ← reject_if (bool_decide (sf_node_id f = "")) StatusBadRequest;
  n ← or_reject not_found (query_row (fun _ d => nodes d !! sf_node_id f));
  _ ← reject_if (negb (bool_decide (n_status n = "online"))) StatusConflict;
  let wt0 := if bool_decide (sf_workload_type f = "") then MarketplaceAppHosting
             else sf_workload_type f in
  match ParseMarketplaceWorkloadType wt0 with
  | Err _ => reject StatusBadRequest
  | Ok wt =>
      _ ← reject_if (bool_decide (sf_container_image f = "")) StatusBadRequest;
      resp ← or_500 (submit (mkSubmit user wt (sf_container_image f) ""
               (positive_or 2 (sf_cpu_cores f)) (positive_or 4096 (sf_ram_mb f)) false 0));
      mret (sr_JobID resp)
  end.

(** ** Confirmation of print jobs *)

Definition sql_confirm (jobID : string) : M Z := exec (fun now d =>
  update_job jobID (has_status awaiting_confirmation) (set_confirmed now) d).

(** [UPDATE ... RETURNING node_id]: no row is ErrNoRows, a NULL does not scan. *)
Definition sql_decline_returning (jobID : string) : M string := stmt (fun now d =>
  match jobs d !! jobID with
  | Some j =>
      if has_status awaiting_confirmation j then
        match j_node_id j with
        | Some n => Ok (n, (update_job jobID (has_status awaiting_confirmation)
                              (set_portal_declined now) d).2)
        | None => Err (ErrGo "cannot scan NULL")
        end
      else Err ErrNoRows
  | None => Err ErrNoRows
  end).

(** The plain INSERT: a second decline of the same pair violates the key. *)
Definition sql_insert_decline_row (jobID nodeID : string) : M unit := stmt (fun _ d =>
  if bool_decide ((jobID, nodeID) ∈ job_node_declines d) then Err ErrUnique
  else if bool_decide (is_Some (jobs d !! jobID)) && bool_decide (is_Some (nodes d !! nodeID))
  then Ok (tt, d <| job_node_declines := {[ (jobID, nodeID) ]} ∪ job_node_declines d |>)
  else Err ErrForeignKey).

Definition decline_tx (jobID : string) : M unit :=
  nodeID ← sql_decline_returning jobID;
  sql_insert_decline_row jobID nodeID.

Definition handleJobConfirmAction (user jobID action : string) : H unit :=
  j ← or_reject not_found (query_row (fun _ d => job_of_provider d jobID user));
  if negb (has_status awaiting_confirmation j) then mret tt
  else if bool_decide (action = "confirm") then
    _ ← or_500 (sql_confirm jobID); mret tt
  else if bool_decide (action = "decline") then
    r ← attempt (transaction (decline_tx jobID));
    match r with
    | Ok _ | Err ErrNoRows => mret tt
    | Err _ => reject StatusInternalServerError
    end
  else reject StatusBadRequest.

(** ** Pickup, delivery, no-shows *)

Definition handleConsumerPickedUp (user jobID : string) : H unit :=
  j ← or_reject not_found (query_row (fun _ d => job_of_consumer d jobID user));
  _ ← reject_if (negb (has_status awaiting_pickup j)) StatusConflict;
  n ← or_500 (exec (fun now d => update_job jobID (has_status awaiting_pickup) (set_picked_up now) d));
  reject_if (n =? 0) StatusConflict.

Definition handleConsumerDelivered (user jobID : string) : H unit :=
  j ← or_reject not_found (query_row (fun _ d => job_of_consumer d jobID user));
  _ ← reject_if (negb (has_status picked_up j)) StatusConflict;
  n ← or_500 (exec (fun now d => update_job jobID (has_status picked_up) (set_delivered now) d));
  reject_if (n =? 0) StatusConflict.

Definition handleProviderNoShow (user jobID : string) : H unit :=
  j ← or_reject not_found (query_row (fun _ d => job_of_provider d jobID user));
  _ ← reject_if (negb (has_status awaiting_pickup j)) StatusConflict;
  now ← or_500 time_Now;
  _ ← reject_if (match j_awaiting_pickup_at j with
        | None => true | Some t => time_sub now t <? 7 * Day end) StatusConflict;
  n ← or_500 (exec (fun now d => update_job jobID
        (fun j => has_status awaiting_pickup j && before (j_awaiting_pickup_at j) (now - 7 * Day))
        (set_no_show now) d));
  reject_if (n =? 0) StatusConflict.

(** ** Disputes *)

Definition active (s : dispute_status) : bool :=
  bool_decide (s = d_open) || bool_decide (s = d_under_review).

(** The job as the guards of the contest see it; [col > t] is false of NULL. *)
Definition contestable (now : Z) (user : string) (j : JobRow) : bool :=
  bool_decide (j_participant_id j = Some user) && has_status failed j &&
  bool_decide (j_failure_cause j = Some "no_show_after_7d") &&
  bool_decide (is_Some (j_node_id j)) &&
  match j_completed_at j with Some t => now - 7 * Day <? t | None => false end.

Definition dispute_of (j : JobRow) (jobID : string) : DisputeRow :=
  mkDispute jobID (default "" (j_node_id j)) (j_participant_id j)
    (default "" (j_payment_intent_id j)) d_open "contested no-show" 50 None None.

(** INSERT ... SELECT ... RETURNING id, under the partial unique index. *)
Definition sql_open_dispute (id jobID user : string) : M string := stmt (fun now d =>
  match jobs d !! jobID with
  | Some j =>
      if contestable now user j then
        if has_active_dispute d jobID || bool_decide (is_Some (disputes d !! id)) then Err ErrUnique
        else Ok (id, d <| disputes := <[id := dispute_of j jobID]> (disputes d) |>)
      else Err ErrNoRows
  | None => Err ErrNoRows
  end).

Definition handleConsumerContestNoShow (user jobID : string) : H string :=
  j ← or_reject not_found (query_row (fun _ d => job_of_consumer d jobID user));
  _ ← reject_if (negb (has_status failed j) ||
        negb (bool_decide (default "" (j_failure_cause j) = "no_show_after_7d"))) StatusConflict;
  _ ← reject_if (bool_decide (default "" (j_node_id j) = "")) StatusConflict;
  now ← or_500 time_Now;
  _ ← reject_if (match j_completed_at j with
        | None => true | Some t => 7 * Day <=? time_sub now t end) StatusConflict;
  id ← or_500 fresh_uuid;
  or_reject (fun e => match e with ErrUnique | ErrNoRows => StatusConflict
                      | _ => StatusInternalServerError end)
    (sql_open_dispute id jobID user).

Definition handleDisputeResolve (user disputeID : string) (pct : option Z) : H unit :=
  _ ← require_staff user;
  match pct with
  | None => reject StatusBadRequest
  | Some p =>
      _ ← reject_if ((p <? 0) || (100 <? p)) StatusBadRequest;
      '(paymentIntentID, jobID) ← or_reject not_found (query_row (fun _ d =>
        x ← disputes d !! disputeID;
        if active (d_status x) && bool_decide (is_Some (jobs d !! d_job_id x))
        then Some (d_payment_intent_id x, d_job_id x) else None));
      _ ← (if 0 <? p then
             j ← or_500 (query_row (fun _ d => jobs d !! jobID));
             let refundAmount := Z.quot (to_int64 (j_amount_cents j * p)) 100 in
             (if 0 <? refundAmount then or_500 (CreateRefund paymentIntentID refundAmount)
              else mret tt : H unit)
           else mret tt : H unit);
      or_500 (exec (fun now d => (tt, match disputes d !! disputeID with
        | Some x => d <| disputes := <[disputeID := x <| d_status := d_resolved |>
            <| d_consumer_refund_pct := p |> <| d_arbiter := Some user |>
            <| d_resolved_at := Some now |>]> (disputes d) |>
        | None => d end)))
  end.

Definition handleDisputeReview (user disputeID : string) : H unit :=
  _ ← require_staff user;
  or_500 (exec (fun now d => (tt, match disputes d !! disputeID with
    | Some x => if bool_decide (d_status x = d_open) then
        d <| disputes := <[disputeID := x <| d_status := d_under_review |>
            <| d_arbiter := Some user |>]> (disputes d) |> else d
    | None => d end))).

(** ** Settings *)

Record optOutPostRequest := mkOptOutPost {
  op_NodeID : string; op_Compute : bool; op_Storage : bool; op_Printing : bool;
  op_Printers : list (string * bool) }.

Definition ErrNotOwner : Error := ErrGo "not found".

Definition opt_out_tx (user : string) (body : optOutPostRequest) : M Z :=
  r ← try (query_row (fun _ d => nodes d !! op_NodeID body));
  match r with
  | Err _ => fail ErrNotOwner
  | Ok n =>
      if negb (bool_decide (n_participant_id n = user)) then fail ErrNotOwner
      else
        version ← stmt (fun now d => match nodes d !! op_NodeID body with
          | None => Err ErrNoRows
          | Some n =>
              let v := n_opt_out_version n + 1 in
              if negb (int4 v) then Err ErrConn
              else Ok (v, d <| nodes := <[op_NodeID body := n <| n_opt_out_compute := op_Compute body |>
                    <| n_opt_out_storage := op_Storage body |>
                    <| n_opt_out_printing := op_Printing body |>
                    <| n_opt_out_version := v |> <| n_opt_out_updated_at := now |>]> (nodes d) |>)
          end);
        _ ← forM (op_Printers body) (fun '(p, enabled) => stmt (fun _ d =>
              if negb (pg_text p) then Err ErrConn
              else Ok (tt, match node_printers d !! (op_NodeID body, p) with
                   | Some r => d <| node_printers := <[(op_NodeID body, p) :=
                                 r <| pr_enabled := enabled |>]> (node_printers d) |>
                   | None => d end)));
        mret version
  end.

Definition handlePostOptOut (user : string) (body0 : Body optOutPostRequest) : H Z :=
  b ← decode body0;
  let body := mkOptOutPost (TrimSpace (op_NodeID b)) (op_Compute b) (op_Storage b) (op_Printing b)
                (op_Printers b) in
  _ ← reject_if (bool_decide (op_NodeID body = "")) StatusBadRequest;
  or_reject (fun e => if bool_decide (e = ErrNotOwner) then StatusNotFound
                      else StatusInternalServerError)
    (transaction (opt_out_tx user body)).

Record ProfileForm := mkProfileForm {
  fm_node_id : string; fm_name : string; fm_is_default : bool; fm_cpu_enabled : bool;
  fm_ram_pct : option Z; fm_storage_gb : option Z; fm_bandwidth_mbps : option Z;
  fm_price_multiplier : option float64 }.

Definition f64_half : float64 := f64_div f64_one (f64_of_Z 2).

(** CHECK (price_multiplier BETWEEN 0.500 AND 2.000), which NaN fails. *)
Definition price_in_range (x : float64) : bool :=
  f64_le f64_half x && f64_le x (f64_of_Z 2).

(** INSERT under the unique index on a node's default profile. *)
Definition sql_insert_profile (id : string) (p : ProfileRow) : M unit := stmt (fun _ d =>
  if bool_decide (is_Some (resource_profiles d !! id)) ||
     (pf_is_default p && bool_decide (map_Exists (fun _ q => pf_node_id q = pf_node_id p /\
        pf_is_default q = true) (resource_profiles d))) then Err ErrUnique
  else if negb (price_in_range (pf_price_multiplier p)) then Err ErrConn
  else if bool_decide (is_Some (nodes d !! pf_node_id p))
  then Ok (tt, d <| resource_profiles := <[id := p]> (resource_profiles d) |>)
  else Err ErrForeignKey).

Definition clear_defaults (nodeID : string) (ps : gmap string ProfileRow) : gmap string ProfileRow :=
  (fun p => if bool_decide (pf_node_id p = nodeID) then p <| pf_is_default := false |> else p) <$> ps.

Definition handleAddProfile (user : string) (f : ProfileForm) : H unit :=
  let nodeID := fm_node_id f in
  let name := TrimSpace (fm_name f) in
  _ ← reject_if (bool_decide (nodeID = "")) StatusBadRequest;
  _ ← reject_if (bool_decide (name = "")) StatusBadRequest;
  match fm_ram_pct f, fm_storage_gb f, fm_bandwidth_mbps f, fm_price_multiplier f with
  | Some ramPct, Some storageGB, Some bandwidth, Some price =>
      _ ← reject_if ((ramPct <? 1) || (100 <? ramPct)) StatusBadRequest;
      _ ← reject_if (storageGB <? 0) StatusBadRequest;
      _ ← reject_if (bandwidth <? 0) StatusBadRequest;
      _ ← reject_if (f64_lt price f64_half || f64_lt (f64_of_Z 2) price) StatusBadRequest;
      n ← or_reject not_found (query_row (fun _ d => nodes d !! nodeID));
      _ ← reject_if (negb (bool_decide (n_participant_id n = user))) StatusForbidden;
      _ ← (if fm_is_default f then or_500 (exec (fun _ d =>
             (tt, d <| resource_profiles := clear_defaults nodeID (resource_profiles d) |>)))
           else mret tt : H unit);
      id ← or_500 fresh_uuid;
      or_500 (sql_insert_profile id (mkProfile nodeID name (fm_is_default f) (fm_cpu_enabled f) ramPct
        storageGB bandwidth price))
  | _, _, _, _ => reject StatusBadRequest
  end.

(** The member's tokens that can still be claimed. *)
Definition unused_tokens (now : Z) (user : string) (d : DB) : list string :=
  (filter (fun '(_, t) => t_participant_id t = user /\ claimable now t = true)
    (map_to_list (node_registration_tokens d))).*1.

Definition sql_insert_token (token user : string) : M unit := stmt (fun now d =>
  if bool_decide (is_Some (node_registration_tokens d !! token)) then Err ErrUnique
  else if bool_decide (is_Some (participants d !! user)) then
    Ok (tt, d <| node_registration_tokens :=
         <[token := mkRegToken user (now + 7 * Day) None None None]> (node_registration_tokens d) |>)
  else Err ErrForeignKey).

(** [strings.CutPrefix(line, "Token: ")] *)
Definition cut_prefix (p s : string) : option string :=
  if String.prefix p s then Some (String.substring (String.length p) (String.length s) s) else None.

(** The dashboard that is rendered again, with the new token; [None] when an
    unused one exists already.  [dashboard] is [buildDashboardData] (PortalPages.v). *)
Definition handleGenerateNodeToken {D} (dashboard : M D) (user : string) : H (D * option string) :=
  unused ← or_500 (query (fun now d => length (unused_tokens now user d)));
  if (1 <=? Z.of_nat unused) then data ← or_500 dashboard; mret (data, None)
  else
    raw ← or_500 (rand_Read 32);
    let token := hex_encode raw in
    _ ← or_500 (sql_insert_token token user);
    out ← attempt spire_token_generate;
    _ ← (match out with
         | Err _ => mret tt
         | Ok s =>
             match cut_prefix "Token: " (TrimSpace s) with
             | None => mret tt
             | Some joinToken => ignoring (exec (fun _ d =>
                 (tt, match node_registration_tokens d !! token with
                      | Some t => d <| node_registration_tokens := <[token :=
                          t <| t_spire_join_token := Some joinToken |>]> (node_registration_tokens d) |>
                      | None => d end)))
             end
         end : H unit);
    data ← or_500 dashboard;
    mret (data, Some token).

End Portal.
