(* ===== verification/PortalProofs.v ===== *)
(** The portal: the guarantee it keeps, who may act on a job, disputes and
    opt-out settings. *)
From Stdlib Require Import Ascii String.
From S2P Require Import Prelude Float64 Workload Sounding Registry Scheduler Database Lifecycle.
From S2P Require Import Effects Encoding Sha256 Token Allowlist Orchestrator Samples OrchestratorProofs Submission Reroute Dispatch DispatchProofs Http NodesApi NodesApiProofs Adapter AdapterProofs Portal.
Import Types.
Local Open Scope string_scope.
Local Open Scope list_scope.
Local Open Scope Z_scope.

(** ** The guarantee *)

Lemma safe_update_job id (guard : Z -> JobRow -> bool) (f : Z -> JobRow -> JobRow) :
  (forall now d j, guard now j = true -> job_step now d j (f now j)) ->
  safe (exec (fun now d => update_job id (guard now) (f now) d)).
Proof. intros Hg. apply safe_exec. intros now d. apply update_job_step. auto. Qed.

Lemma has_status_true s j : has_status s j = true -> j_status j = s.
Proof. apply bool_decide_eq_true. Qed.

Lemma safe_require_staff user : safe (require_staff user).
Proof. unfold require_staff. safe_handler. Qed.
#[local] Hint Resolve safe_require_staff : safe.

Section Guarantee.
Context `{MapOrder}.
Context (submit : SubmitJobRequest -> M SubmitJobResponse) (CreateRefund : string -> Z -> M unit).
Context (spire_token_generate : M string) (rand_Read : Z -> M string).
Hypothesis safe_submit : forall r, safe (submit r).
Hypothesis safe_refund : forall p a, safe (CreateRefund p a).
Hypothesis safe_spire : safe spire_token_generate.
Hypothesis safe_rand : forall n, safe (rand_Read n).
#[local] Hint Resolve safe_submit safe_refund safe_spire safe_rand : safe.

Lemma safe_handleSubmitJob user f : safe (handleSubmitJob submit user f).
Proof. unfold handleSubmitJob. cbv zeta. safe_handler. Qed.

(** The decline transaction. *)
Lemma safe_decline jobID : safe (transaction (decline_tx jobID)).
Proof.
  apply safe_transaction. intros d0 t0. unfold decline_tx.
  eapply tx_bind with (R := fun _ d => rtc step (d0, t0) (d, t0)); [|intros n]; apply tx_stmt;
    intros d a d' Hd.
  - destruct (jobs d !! jobID) as [j|] eqn:Hj; [|done].
    destruct (has_status awaiting_confirmation j) eqn:Hs; [|done].
    destruct (j_node_id j); [|done]. intros [= <- <-]. etrans; [exact Hd|].
    apply update_job_step. intros j1 _ Hg. by apply js_portal_declined, has_status_true.
  - case_bool_decide; [done|]. case_bool_decide; simpl; [|done]. case_bool_decide; [|done].
    intros [= <- <-]. etrans; [exact Hd|]. by apply rtc_once, step_decline_row.
Qed.
#[local] Hint Resolve safe_decline : safe.

Lemma safe_handleJobConfirmAction user jobID action :
  safe (handleJobConfirmAction user jobID action).
Proof.
  unfold handleJobConfirmAction, sql_confirm. safe_handler.
  apply (safe_update_job _ (fun _ => has_status awaiting_confirmation) set_confirmed).
  intros now d j Hg. by apply js_confirmed, has_status_true.
Qed.

Lemma safe_handleConsumerPickedUp user jobID : safe (handleConsumerPickedUp user jobID).
Proof.
  unfold handleConsumerPickedUp. safe_handler.
  apply (safe_update_job _ (fun _ => has_status awaiting_pickup) set_picked_up).
  intros now d j Hg. by apply js_picked_up, has_status_true.
Qed.

Lemma safe_handleConsumerDelivered user jobID : safe (handleConsumerDelivered user jobID).
Proof.
  unfold handleConsumerDelivered. safe_handler.
  apply (safe_update_job _ (fun _ => has_status picked_up) set_delivered).
  intros now d j Hg. by apply js_delivered, has_status_true.
Qed.

Lemma safe_handleProviderNoShow user jobID : safe (handleProviderNoShow user jobID).
Proof.
  unfold handleProviderNoShow. safe_handler.
  apply (safe_update_job _ (fun now j => has_status awaiting_pickup j &&
    before (j_awaiting_pickup_at j) (now - 7 * Day)) set_no_show).
  intros now d j Hg. apply andb_prop in Hg as [Hg ?]. by apply js_no_show; [apply has_status_true|].
Qed.

Lemma active_dispute_none d jobID id x :
  has_active_dispute d jobID = false -> disputes d !! id = Some x -> d_job_id x = jobID ->
  d_status x <> d_open /\ d_status x <> d_under_review.
Proof.
  intros Ha Hx Hj.
  assert (Hb : active (d_status x) = false).
  { destruct (active (d_status x)) eqn:Hb; [|done]. rewrite <- Ha. symmetry.
    apply existsb_exists. exists (id, x).
    rewrite <- list_elem_of_In, elem_of_map_to_list. split; [done|].
    rewrite bool_decide_eq_true_2 by done. exact Hb. }
  by destruct (d_status x).
Qed.

Lemma safe_sql_open_dispute id jobID user : safe (sql_open_dispute id jobID user).
Proof.
  apply safe_stmt. intros now d a d'. destruct (jobs d !! jobID) as [j|] eqn:Hj; [|done].
  destruct (contestable now user j) eqn:Hc; [|done]. case_match eqn:Hn; [done|]. intros [= <- <-].
  apply orb_false_elim in Hn as [Ha Hid]. apply bool_decide_eq_false in Hid.
  unfold contestable in Hc. repeat apply andb_prop in Hc as [Hc ?].
  apply rtc_once, step_dispute with j; simpl; auto.
  - by apply eq_None_not_Some.
  - by apply has_status_true.
  - intros id' x Hx Hjob. by eapply active_dispute_none.
Qed.

Lemma safe_handleConsumerContestNoShow user jobID : safe (handleConsumerContestNoShow user jobID).
Proof. unfold handleConsumerContestNoShow. safe_handler. apply safe_sql_open_dispute. Qed.

Lemma step_dispute_to d now id x s pct arb res :
  disputes d !! id = Some x -> s = d_resolved \/ (s = d_under_review /\ d_status x = d_open) ->
  step (d, now) (d <| disputes := <[id := x <| d_status := s |> <| d_consumer_refund_pct := pct |>
    <| d_arbiter := arb |> <| d_resolved_at := res |>]> (disputes d) |>, now).
Proof. intros. by apply step_dispute_status. Qed.

Lemma safe_handleDisputeResolve user id pct : safe (handleDisputeResolve CreateRefund user id pct).
Proof.
  unfold handleDisputeResolve. cbv zeta. safe_handler. apply safe_exec. intros now d. simpl.
  destruct (disputes d !! id) as [x|] eqn:Hx; [|apply rtc_refl]. apply rtc_once.
  apply (step_dispute_to d now id x d_resolved); auto.
Qed.

Lemma safe_handleDisputeReview user id : safe (handleDisputeReview user id).
Proof.
  unfold handleDisputeReview. safe_handler. apply safe_exec. intros now d. simpl.
  destruct (disputes d !! id) as [x|] eqn:Hx; [|apply rtc_refl].
  case_bool_decide; [|apply rtc_refl]. apply rtc_once.
  apply (step_dispute_to d now id x d_under_review (d_consumer_refund_pct x) (Some user)
    (d_resolved_at x)); auto.
Qed.

Lemma safe_opt_out user body : safe (transaction (opt_out_tx user body)).
Proof.
  apply safe_transaction. intros d0 t0. set (R := fun d => rtc step (d0, t0) (d, t0)).
  unfold opt_out_tx. eapply tx_bind with (R := fun _ => R); [apply (tx_try_read t0 R)|].
  intros [n|e]; [|apply tx_fail]. case_match; [apply tx_fail|].
  eapply tx_bind with (R := fun _ => R); [apply tx_stmt|intros v].
  { intros d a d' Hd. destruct (nodes d !! op_NodeID body) as [n0|] eqn:Hn; [|done].
    cbv zeta. destruct (int4 _); [|done]. cbn [negb].
    intros [= <- <-]. unfold R. etrans; [exact Hd|]. by apply rtc_once, (step_nodes_insert _ _ _ n0). }
  eapply tx_bind with (R := fun _ => R); [apply (tx_forM t0 R)|intros []; apply (tx_ret t0 v (fun _ => R))].
  intros [p en]. apply tx_stmt. intros d a d' Hd. destruct (pg_text p); [|done]. cbn [negb]. intros [= <- <-]. unfold R. etrans; [exact Hd|].
  apply rtc_once, step_others; by case_match.
Qed.
#[local] Hint Resolve safe_opt_out : safe.

Lemma safe_handlePostOptOut user body : safe (handlePostOptOut user body).
Proof. unfold handlePostOptOut. cbv zeta. safe_handler. Qed.

Lemma safe_handleAddProfile user f : safe (handleAddProfile user f).
Proof.
  unfold handleAddProfile. cbv zeta. safe_handler.
  1: apply safe_exec; intros now d; by apply rtc_once, step_others.
  all: apply safe_stmt; intros now d ? d'; repeat case_match; intros [= <- <-];
    by apply rtc_once, step_others.
Qed.

Lemma safe_sql_insert_token t user : safe (sql_insert_token t user).
Proof.
  apply safe_stmt. intros now d a d'. repeat case_match; intros [= <- <-].
  by apply rtc_once, step_others.
Qed.
#[local] Hint Resolve safe_sql_insert_token : safe.

Lemma safe_handleGenerateNodeToken {D} (dashboard : M D) user :
  safe dashboard -> safe (handleGenerateNodeToken spire_token_generate rand_Read dashboard user).
Proof.
  intros Hd. unfold handleGenerateNodeToken. cbv zeta. safe_handler. apply safe_exec. intros now d. simpl.
  case_match; [|apply rtc_refl]. by apply rtc_once, step_others.
Qed.

End Guarantee.

#[export] Hint Resolve safe_handleSubmitJob safe_handleJobConfirmAction safe_handleConsumerPickedUp
  safe_handleConsumerDelivered safe_handleProviderNoShow safe_handleConsumerContestNoShow
  safe_handleDisputeResolve safe_handleDisputeReview safe_handlePostOptOut safe_handleAddProfile
  safe_handleGenerateNodeToken : safe.

(** ** Who may act on a job *)

Inductive PortalCall :=
| CallPickedUp (jobID : string) | CallDelivered (jobID : string) | CallContest (jobID : string)
| CallNoShow (jobID : string) | CallConfirm (jobID action : string).

Definition portal_call (user : string) (c : PortalCall) : H unit :=
  match c with
  | CallPickedUp j => handleConsumerPickedUp user j
  | CallDelivered j => handleConsumerDelivered user j
  | CallContest j => code_of (handleConsumerContestNoShow user j)
  | CallNoShow j => handleProviderNoShow user j
  | CallConfirm j a => handleJobConfirmAction user j a
  end.

(** The consumer acts on jobs it submitted, the provider on jobs of its nodes. *)
Definition owns (d : DB) (user : string) (c : PortalCall) : bool :=
  match c with
  | CallPickedUp j | CallDelivered j | CallContest j =>
      bool_decide (is_Some (job_of_consumer d j user))
  | CallNoShow j | CallConfirm j _ => bool_decide (is_Some (job_of_provider d j user))
  end.

Lemma not_owner_404 {A B} (f : Z -> DB -> option A) (k : A -> H B) w :
  f (sql_now (next_event w).2) (w_db (next_event w).2) = None ->
  (or_reject not_found (query_row f) ≫= k : H B) w = (Ok (Err StatusNotFound), (next_event w).2).
Proof.
  intros Hf. apply hbind_err.
  assert (He : exists e, query_row f w = (Err e, (next_event w).2)).
  { rewrite query_row_run. destruct (next_event w).1 as [[]|]; [|by eexists..].
    rewrite Hf. by eexists. }
  destruct He as [e He]. exact (or_reject_err not_found _ _ _ _ He).
Qed.

(** C38 Nobody acts on another member's job: picking up, delivering and contesting
    are the submitting consumer's, flagging a no-show and confirming or declining
    the provider's whose node holds the job.  For anyone else the answer is 404
    (also when the job does not exist), after a single read and without a write,
    in any environment. *)
Theorem portal_owner_only user c w :
  owns (w_db (next_event w).2) user c = false ->
  portal_call user c w = (Ok (Err StatusNotFound), (next_event w).2).
Proof.
  assert (Hnone : forall (o : option JobRow), bool_decide (is_Some o) = false -> o = None).
  { intros o Ho. apply bool_decide_eq_false in Ho. by apply eq_None_not_Some. }
  intros Ho. destruct c as [j|j|j|j|j a]; simpl in Ho; apply Hnone in Ho; simpl portal_call.
  - by apply (not_owner_404 (fun _ d => job_of_consumer d j user)).
  - by apply (not_owner_404 (fun _ d => job_of_consumer d j user)).
  - apply hbind_err. by apply (not_owner_404 (fun _ d => job_of_consumer d j user)).
  - by apply (not_owner_404 (fun _ d => job_of_provider d j user)).
  - by apply (not_owner_404 (fun _ d => job_of_provider d j user)).
Qed.

Lemma portal_owner_only_witness :
  let w := sample_world_with (sample_db_with (sample_job MarketplacePrintTraditional awaiting_pickup)) [] in
  owns (w_db w) "mallory" (CallPickedUp "job") = false /\
  portal_call "mallory" (CallPickedUp "job") w = (Ok (Err StatusNotFound), (next_event w).2).
Proof.
  split; [vm_compute; reflexivity|].
  apply (portal_owner_only "mallory" (CallPickedUp "job")). vm_compute. reflexivity.
Defined.

(** ** Disputes *)

(** A no-show can be contested once and in time: for the consumer's own job
    (bound to a node), the contest opens a dispute carrying the job's node and
    payment exactly when the job failed as a no-show less than seven days ago and
    has no active dispute; otherwise the answer is 409 and nothing changes. *)
Theorem Contest_outcome user jobID j w :
  calm w -> jobs (w_db w) !! jobID = Some j -> j_participant_id j = Some user ->
  j_node_id j <> Some "" -> disputes (w_db w) !! w_uuids w 0%nat = None ->
  exists r w', handleConsumerContestNoShow user jobID w = (Ok r, w') /\
    if contestable (w_now w) user j && negb (has_active_dispute (w_db w) jobID) then
      r = Ok (w_uuids w 0%nat) /\
      w_db w' = (w_db w) <| disputes := <[w_uuids w 0%nat := dispute_of j jobID]> (disputes (w_db w)) |>
    else r = Err StatusConflict /\ w_db w' = w_db w.
Proof.
  intros He Hj Hp Hn Hid. unfold handleConsumerContestNoShow.
  erewrite hbind_ok; last first.
  { apply or_reject_ok, query_row_calm; [done|]. unfold job_of_consumer. rewrite Hj. simpl.
    by rewrite bool_decide_eq_true_2. }
  unfold contestable. rewrite (bool_decide_eq_true_2 (j_participant_id j = Some user)) by done. simpl.
  assert (Hcause : bool_decide (default "" (j_failure_cause j) = "no_show_after_7d") =
    bool_decide (j_failure_cause j = Some "no_show_after_7d")).
  { apply bool_decide_ext. destruct (j_failure_cause j); simpl; naive_solver. }
  rewrite Hcause. clear Hcause.
  destruct (has_status failed j) eqn:Hf; simpl;
    [|eexists _, w; split; [by apply hbind_err|done]].
  destruct (bool_decide (j_failure_cause j = _)) eqn:Hc; simpl;
    [|eexists _, w; split; [by apply hbind_err|done]].
  erewrite hbind_ok by done.
  assert (Hnode : bool_decide (default "" (j_node_id j) = "") =
    negb (bool_decide (is_Some (j_node_id j)))).
  { destruct (j_node_id j) as [n|]; [|done]. rewrite (bool_decide_eq_true_2 (is_Some (Some n))) by done.
    apply bool_decide_eq_false_2. simpl. congruence. }
  rewrite Hnode. clear Hnode. destruct (bool_decide (is_Some (j_node_id j))) eqn:Hnb; simpl;
    [|eexists _, w; split; [by apply hbind_err|done]].
  erewrite hbind_ok by done. erewrite hbind_ok by done.
  assert (Htime : (match j_completed_at j with
      | None => true | Some t => 7 * Day <=? time_sub (w_now w) t end) =
    negb (match j_completed_at j with Some t => w_now w - 7 * Day <? t | None => false end)).
  { destruct (j_completed_at j) as [t|]; [|done]. rewrite Z.leb_antisym. f_equal.
    rewrite time_sub_ltb by (unfold Day, Hour, Minute, Second, int64_min, int64_max; lia).
    destruct (Z.ltb_spec (w_now w - t) (7 * Day)), (Z.ltb_spec (w_now w - 7 * Day) t); lia. }
  rewrite Htime. clear Htime.
  destruct (match j_completed_at j with Some t => _ | None => false end) eqn:Ht; simpl;
    [|eexists _, w; split; [by apply hbind_err|done]].
  erewrite hbind_ok by done. erewrite hbind_ok by (by apply or_reject_ok).
  unfold or_reject, sql_open_dispute. rewrite stmt_calm by done. unfold run_stmt.
  assert (Hnow : sql_now (w <| w_uuids := fun n => w_uuids w (S n) |>) = w_now w) by apply He.
  rewrite Hnow. simpl. rewrite Hj. unfold contestable.
  rewrite (bool_decide_eq_true_2 (j_participant_id j = Some user)), Hf, Hc, Hnb, Ht by done. simpl.
  rewrite (bool_decide_eq_false_2 (is_Some (disputes _ !! _))), orb_false_r
    by (rewrite Hid; by intros []).
  destruct (has_active_dispute (w_db w) jobID); simpl; by eexists _, _.
Qed.

Definition sample_no_show : JobRow :=
  (sample_job MarketplacePrintTraditional failed) <| j_failure_cause := Some "no_show_after_7d" |>
    <| j_completed_at := Some (sample_now - Day) |>.

Lemma Contest_outcome_witness :
  let w := sample_world_with (sample_db_with sample_no_show) [] in
  exists w', handleConsumerContestNoShow "consumer" "job" w = (Ok (Ok "job-0"), w') /\
    w_db w' = (w_db w) <| disputes := <["job-0" := dispute_of sample_no_show "job"]> ∅ |>.
Proof.
  destruct (Contest_outcome "consumer" "job" sample_no_show
    (sample_world_with (sample_db_with sample_no_show) [])) as (r & w' & Hrun & Hout).
  - split; reflexivity.
  - vm_compute. reflexivity.
  - reflexivity.
  - done.
  - vm_compute. reflexivity.
  - exists w'.
    destruct (contestable _ _ _ && _) eqn:Hc; [|vm_compute in Hc; discriminate Hc].
    destruct Hout as [-> Hdb]. split; [exact Hrun|exact Hdb].
Defined.

(** ** Confirmation *)

(** A recorded refusal: when the decline of a print job commits, in any
    environment, the job is declined and the node it was bound to is recorded as
    having refused it, so that rerouting excludes that node; the two are one
    transaction, of which an error leaves nothing but steps of the lifecycle. *)
Theorem decline_recorded jobID w r w' :
  env_ok (w_events w) -> w_tx w = None -> transaction (decline_tx jobID) w = (r, w') ->
  rtc step (st w) (st w') /\
  (r = Ok tt -> exists j n, jobs (w_db w') !! jobID = Some j /\ j_status j = declined /\
     j_node_id j = Some n /\ n ∈ declined_by (w_db w') jobID).
Proof.
  intros He Ht Hr. split; [by apply (safe_decline jobID w r w')|].
  set (Q := fun (_ : unit) d => exists j n, jobs d !! jobID = Some j /\ j_status j = declined /\
     j_node_id j = Some n /\ n ∈ declined_by d jobID).
  assert (Htr : triple (fun _ => True) (transaction (decline_tx jobID))
    (fun r s => forall a, r = Ok a -> Q a s.1)).
  { apply triple_transaction; [done|]. intros d0 t0 _. unfold decline_tx.
    eapply tx_bind with (R := fun n d => exists j, jobs d0 !! jobID = Some j /\
      has_status awaiting_confirmation j = true /\ j_node_id j = Some n /\
      d = d0 <| jobs := <[jobID := set_portal_declined t0 j]> (jobs d0) |>).
    - apply tx_stmt. intros d n d' ->. destruct (jobs d0 !! jobID) as [j|] eqn:Hj; [|done].
      destruct (has_status awaiting_confirmation j) eqn:Hs; [|done].
      destruct (j_node_id j) eqn:Hn; [|done]. intros [= <- <-]. exists j. split_and!; try done.
      unfold update_job. by rewrite Hj, Hs.
    - intros n. apply tx_stmt. intros d [] d' (j & Hj & Hs & Hn & Hd).
      assert (Hj1 : jobs d !! jobID = Some (set_portal_declined t0 j))
        by (rewrite Hd; simpl; apply lookup_insert_eq).
      case_match; [done|]. case_match; [|done]. intros [= <-]. split.
      + eapply rtc_l; [|apply rtc_once, (step_decline_row d t0 jobID n); by eexists].
        rewrite Hd. apply (step_job d0 t0 jobID j (set_portal_declined t0 j)); [done|].
        by apply js_portal_declined, has_status_true.
      + exists (set_portal_declined t0 j), n. split; [exact Hj1|].
        split_and!; try done. apply declined_by_elem. simpl. set_solver. }
  intros ->. destruct (Htr w (Ok tt) w' He Ht I Hr) as (_ & _ & _ & Hq). by apply (Hq tt).
Qed.

Lemma decline_recorded_witness :
  let w := sample_world_with (sample_db_with
    (sample_job MarketplacePrintTraditional awaiting_confirmation)) [] in
  exists w' j n, transaction (decline_tx "job") w = (Ok tt, w') /\
    jobs (w_db w') !! "job" = Some j /\ j_status j = declined /\ n ∈ declined_by (w_db w') "job".
Proof.
  cbv zeta. set (w := sample_world_with _ []).
  assert (Hrun : transaction (decline_tx "job") w = (Ok tt, (transaction (decline_tx "job") w).2)).
  { rewrite (run_ok tt (transaction (decline_tx "job") w)) at 1 by (vm_compute; reflexivity).
    by destruct (result_of tt _). }
  destruct (decline_recorded "job" w (Ok tt) _ (Forall_nil_2 _) eq_refl Hrun) as [_ Hd].
  destruct (Hd eq_refl) as (j & n & Hj & Hs & _ & Hn).
  exists (transaction (decline_tx "job") w).2, j, n. split; [exact Hrun|]. auto.
Defined.

(** The rest of the system expires an unanswered confirmation and reroutes the
    job to a node of another member. *)
Definition reroute_event : Event := mkEvent (fun now d =>
  let d1 := (update_job "job" (fun j => has_status awaiting_confirmation j &&
      before (j_confirmation_deadline j) now) (set_expire_confirmation now) d).2 in
  (update_job "job" (fun j => has_status declined j && is_print (j_workload_type j))
      (set_reroute_print now "n2" "token" "p2" (now + 4 * Hour)) d1).2)
  (fun r => r) (fun s => s) 0 Succeeds.

Lemma reroute_event_ok : env_ok [quiet; reroute_event].
Proof.
  apply Forall_cons; split; [intros; apply rtc_refl|]. apply Forall_cons; split; [|constructor].
  intros now d. simpl. etrans; apply update_job_step; intros j _ Hg; apply andb_prop in Hg as [Hs ?];
    apply has_status_true in Hs; [by apply js_expire_confirmation|by apply js_reroute_print].
Qed.

Definition sample_two_owners : DB := (sample_db_with
    ((sample_job MarketplacePrintTraditional awaiting_confirmation)
       <| j_confirmation_deadline := Some (sample_now - 1) |>))
  <| nodes := {[ "n1" := sample_node_row; "n2" := sample_node_row <| n_participant_id := "other" |> ]} |>.

(** The UPDATE that confirms a print job checks its status but not whose node
    holds it: when the job is rerouted between the handler's ownership check and
    that UPDATE, the first owner's confirmation schedules the print on the other
    member's node, whose owner never confirmed it. *)
Theorem confirm_wrong_owner :
  exists w w' j n, env_ok (w_events w) /\
    handleJobConfirmAction "owner" "job" "confirm" w = (Ok (Ok tt), w') /\
    jobs (w_db w') !! "job" = Some j /\ j_status j = scheduled /\ j_node_id j = Some "n2" /\
    nodes (w_db w') !! "n2" = Some n /\ n_participant_id n <> "owner".
Proof.
  exists (sample_world_with sample_two_owners [quiet; reroute_event]). eexists _, _, _.
  split; [apply reroute_event_ok|]. split; [vm_compute; reflexivity|].
  split; [vm_compute; reflexivity|]. split; [reflexivity|]. split; [reflexivity|].
  split; [vm_compute; reflexivity|]. done.
Qed.

(** ** Opt-out settings *)

(** The UPDATEs of the posted printers, one after the other; a printer the node
    does not have is passed over. *)
Fixpoint set_flags (node : string) (ps : list (string * bool)) (prs : gmap (string * string) PrinterRow) :
    gmap (string * string) PrinterRow :=
  match ps with
  | [] => prs
  | (p, enabled) :: ps' => set_flags node ps' (match prs !! (node, p) with
      | Some r => <[(node, p) := r <| pr_enabled := enabled |>]> prs
      | None => prs end)
  end.

Lemma set_printers_calm node ps w :
  calm w -> Forall (fun '(p, _) => pg_text p = true) ps ->
  forM ps (fun '(p, enabled) => stmt (fun _ d =>
      if negb (pg_text p) then Err ErrConn
      else Ok (tt, match node_printers d !! (node, p) with
           | Some r => d <| node_printers := <[(node, p) := r <| pr_enabled := enabled |>]>
                              (node_printers d) |>
           | None => d end))) w =
    (Ok tt, w <| w_db := (w_db w) <| node_printers := set_flags node ps (node_printers (w_db w)) |> |>).
Proof.
  intros He Hps. revert w He. induction Hps as [|[p en] ps Hp Hps IH]; intros w He; simpl.
  { by destruct w as [[]]. }
  erewrite bind_eq by (apply stmt_calm_ok; [done|]; by rewrite Hp). simpl.
  destruct (node_printers (w_db w) !! (node, p)) as [r|]; by rewrite IH.
Qed.

(** The last flag posted for a printer. *)
Definition posted_flag (ps : list (string * bool)) (p : string) : option bool :=
  last (snd <$> filter (fun '(q, _) => q = p) ps).

(** What a post leaves a printer of the node at: the last flag posted for it, the
    stored one if there is none; a printer the node does not have is disabled. *)
Definition posted_printer (ps : list (string * bool)) (prs : gmap (string * string) PrinterRow)
    (node p : string) : bool :=
  match prs !! (node, p) with
  | Some r => default (pr_enabled r) (posted_flag ps p)
  | None => false
  end.

Lemma set_flags_enabled node ps prs p :
  enabled_at (set_flags node ps prs) (node, p) = posted_printer ps prs node p.
Proof.
  revert prs. induction ps as [|[q en] ps IH]; intros prs; simpl.
  { unfold enabled_at, posted_printer. by destruct (prs !! (node, p)). }
  rewrite IH. unfold posted_printer, posted_flag. rewrite filter_cons.
  destruct (decide (q = p)) as [->|Hne].
  - cbn [fmap list_fmap snd]. rewrite last_cons.
    destruct (prs !! (node, p)) as [r|] eqn:Hr; [|by rewrite Hr].
    rewrite lookup_insert_eq. simpl. by destruct (last _).
  - destruct (prs !! (node, q)) as [r|]; [|done].
    rewrite lookup_insert_ne by congruence. done.
Qed.

(** Opt-out settings belong to the owner and are versioned: a change by the
    owner of the node stores the three flags and the printers' as given, raises the version by one
    (so that the next heartbeat pushes them to the agent) and touches no job and
    no other node; for anyone else, and for an unknown node, the answer is 404 and
    the database is as before.  (Asked for: printer ids that are TEXT and a version
    that can be raised within an INTEGER.) *)
Theorem PostOptOut_outcome user b w :
  calm w -> w_tx w = None -> TrimSpace (op_NodeID b) <> "" ->
  let id := TrimSpace (op_NodeID b) in
  Forall (fun '(p, _) => pg_text p = true) (op_Printers b) ->
  (forall n, nodes (w_db w) !! id = Some n -> int4 (n_opt_out_version n + 1) = true) ->
  exists r w', handlePostOptOut user (Decoded b) w = (Ok r, w') /\ jobs (w_db w') = jobs (w_db w) /\
    w_reg w' = w_reg w /\ calm w' /\
    match nodes (w_db w) !! id with
    | Some n =>
        if bool_decide (n_participant_id n = user) then
          r = Ok (n_opt_out_version n + 1) /\
          nodes (w_db w') = <[id := n <| n_opt_out_compute := op_Compute b |>
            <| n_opt_out_storage := op_Storage b |> <| n_opt_out_printing := op_Printing b |>
            <| n_opt_out_version := n_opt_out_version n + 1 |>
            <| n_opt_out_updated_at := w_now w |>]> (nodes (w_db w)) /\
          node_printers (w_db w') = set_flags id (op_Printers b) (node_printers (w_db w))
        else r = Err StatusNotFound /\ w_db w' = w_db w
    | None => r = Err StatusNotFound /\ w_db w' = w_db w
    end.
Proof.
  intros He Htx Hid id Hps Hv. unfold handlePostOptOut. cbv zeta. erewrite hbind_ok by done.
  cbn [op_NodeID]. rewrite (bool_decide_eq_false_2 (TrimSpace _ = "")) by done.
  erewrite hbind_ok by done. fold id. set (body := mkOptOutPost _ _ _ _ _).
  set (wt := w <| w_tx := Some (w_now w) |>).
  assert (Hcalm : calm wt) by (split; [apply He|done]).
  assert (Htry : forall r, (match nodes (w_db w) !! id with Some n => Ok n | None => Err ErrNoRows end) = r ->
    try (query_row (fun _ d => nodes d !! id)) wt = (Ok r, wt)).
  { intros r <-. unfold try. rewrite query_row_run, next_event_calm by done. done. }
  assert (Htxrun : transaction (opt_out_tx user body) w = in_tx (opt_out_tx user body) w).
  { unfold transaction. by rewrite (bind_eq _ _ _ _ _ (next_event_calm w He)). }
  assert (Hfail : opt_out_tx user body wt = (Err ErrNotOwner, wt) ->
    or_reject (fun e => if bool_decide (e = ErrNotOwner) then StatusNotFound
      else StatusInternalServerError) (transaction (opt_out_tx user body)) w =
    (Ok (Err StatusNotFound), wt <| w_tx := None |>)).
  { intros Hf. unfold or_reject. rewrite Htxrun. unfold in_tx. fold wt. rewrite Hf. done. }
  destruct (nodes (w_db w) !! id) as [n|] eqn:Hn; [case_bool_decide as Hown|].
  - set (v := n_opt_out_version n + 1). set (n' := n <| n_opt_out_compute := op_Compute b |>
      <| n_opt_out_storage := op_Storage b |> <| n_opt_out_printing := op_Printing b |>
      <| n_opt_out_version := v |> <| n_opt_out_updated_at := w_now w |>).
    set (w1 := wt <| w_db := (w_db w) <| nodes := <[id := n']> (nodes (w_db w)) |> |>).
    pose proof (set_printers_calm id (op_Printers b) w1 Hcalm Hps) as Hprs.
    set (prs := set_flags id (op_Printers b) (node_printers (w_db w1))) in Hprs.
    assert (Hrun : opt_out_tx user body wt =
      (Ok v, w1 <| w_db := (w_db w1) <| node_printers := prs |> |>)).
    { unfold opt_out_tx. erewrite bind_eq by (apply (Htry (Ok n)); by rewrite ?Hn).
      cbv beta iota. rewrite bool_decide_eq_true_2 by done. cbn [negb].
      erewrite bind_eq by (apply stmt_calm_ok; [done|]; simpl; rewrite Hn; simpl; rewrite (Hv n eq_refl); reflexivity).
      erewrite bind_eq by exact Hprs. done. }
    eexists _, _. split.
    { unfold or_reject. rewrite Htxrun. unfold in_tx. fold wt. rewrite Hrun.
      rewrite next_event_calm by done. reflexivity. }
    split; [done|]. split; [done|]. split; [|done]. split; [apply He|done].
  - eexists _, _. split; [apply Hfail|do 2 (split; [done|]); split; [split; [apply He|done]|done]]. unfold opt_out_tx.
    erewrite bind_eq by (apply (Htry (Ok n)); by rewrite ?Hn).
    cbv beta iota. by rewrite bool_decide_eq_false_2.
  - eexists _, _. split; [apply Hfail|do 2 (split; [done|]); split; [split; [apply He|done]|done]]. unfold opt_out_tx.
    erewrite bind_eq by (apply (Htry (Err ErrNoRows)); by rewrite ?Hn). done.
Qed.

Lemma PostOptOut_outcome_witness :
  exists w', handlePostOptOut "owner" (Decoded (mkOptOutPost " n1" true false false [])) sample_world
      = (Ok (Ok 1), w') /\ n_opt_out_compute <$> nodes (w_db w') !! "n1" = Some true.
Proof.
  destruct (PostOptOut_outcome "owner" (mkOptOutPost " n1" true false false []) sample_world)
    as (r & w' & Hrun & _ & _ & _ & Hout).
  - split; reflexivity.
  - reflexivity.
  - done.
  - constructor.
  - intros n Hn. vm_compute in Hn. by injection Hn as <-.
  - exists w'. destruct Hout as (-> & Hn & _). split; [exact Hrun|]. rewrite Hn. reflexivity.
Defined.
