(* ===== verification/NodeAgent.v ===== *)
(** The node agent (internal/agent and cmd/agent): the contributor's side of the
    system.  Consent (optout.go), local printers and hardware (printers.go,
    hardware.go), the heartbeat client (heartbeat.go), the container executor
    (executor.go, executor_devices_unix.go) and the run of one job (runJob of
    cmd/agent/main.go).

    The agent talks to Docker, to the file system, to hardware probes and to the
    control plane.  Each such exchange is a call of [AgentE]; a program is a tree
    of calls whose continuations receive the answers, so that a theorem about all
    handlers holds whatever the other side answers.  The consent store is shared
    with the heartbeat goroutine: reading and setting it are calls as well. *)
From Stdlib Require Import Ascii.
From S2P Require Import Prelude Float64 Workload Sounding Registry Scheduler Database Lifecycle Effects.
From S2P Require Import Encoding Sha256 Token Allowlist Orchestrator Http NodesApi Operator.
Import Agent.
Local Open Scope string_scope.
Local Open Scope list_scope.
Local Open Scope Z_scope.

(** ** Consent *)

Record ResourceOptOut := mkResourceOptOut {
  ro_Version : Z; ro_ComputeEnabled : bool; ro_StorageEnabled : bool; ro_PrintingEnabled : bool;
  ro_EnabledPrinters : gmap string bool }.

Definition DefaultOptOut : ResourceOptOut := mkResourceOptOut 0 false false false ∅.

(** A missing key of a Go map reads as [false]. *)
Definition IsResourceEnabled (oo : ResourceOptOut) (workload : WorkloadType) (printerID : string)
    : bool :=
  if bool_decide (workload = WorkloadCompute) then ro_ComputeEnabled oo
  else if bool_decide (workload = WorkloadStorage) then ro_StorageEnabled oo
  else if bool_decide (workload = WorkloadPrintTraditional) || bool_decide (workload = WorkloadPrint3D)
  then if negb (ro_PrintingEnabled oo) then false
       else default false (ro_EnabledPrinters oo !! printerID)
  else false.

(** ** Printers and hardware *)

Inductive PrinterKind := PrinterKindTraditional | PrinterKind3D.
#[export] Instance PrinterKind_eq : EqDecision PrinterKind.
Proof. solve_decision. Defined.

Record PrinterInfo := mkLocalPrinter {
  lp_ID : string; lp_Kind : PrinterKind; lp_Name : string; lp_Model : string;
  lp_ConnectionPath : string }.
#[export] Instance PrinterInfo_eq : EqDecision PrinterInfo.
Proof. solve_decision. Defined.

Record AgentHardware := mkAgentHardware {
  ah_CPUCores : Z; ah_RAMMB : Z; ah_GPUPresent : bool; ah_GPUModel : string; ah_StorageGB : Z;
  ah_BandwidthMbps : Z; ah_Platform : string; ah_Arch : string; ah_Printers : list PrinterInfo }.

Fixpoint printer_path (printerID : string) (printers : list PrinterInfo) : option string :=
  match printers with
  | [] => None
  | p :: rest =>
      if bool_decide (lp_ID p = printerID) then Some (lp_ConnectionPath p)
      else printer_path printerID rest
  end.
Definition ResolveConnectionPath (printerID : string) (printers : list PrinterInfo) : option string :=
  if bool_decide (printerID = "") then Some "" else printer_path printerID printers.

Definition string_less (a b : string) : bool := stringsCompareBytes a b <? 0.
Definition id_less (p q : PrinterInfo) : bool := string_less (lp_ID p) (lp_ID q).

(** Equal strings cannot be told apart, so [sort.Strings] is insertion sort. *)
Definition PrinterHash (printers : list PrinterInfo) : string :=
  match printers with
  | [] => ""
  | _ => hex_encode (Sum256 (join "010" (isort _ string_less (lp_ID <$> printers))))
  end.

Section Changes.
Context (srt : forall A, (A -> A -> bool) -> list A -> list A).

Fixpoint same_elements (a b : list PrinterInfo) : bool :=
  match a, b with
  | p :: a', q :: b' => if negb (bool_decide (p = q)) then false else same_elements a' b'
  | _, _ => true
  end.

Definition printersEqual (a b : list PrinterInfo) : bool :=
  if negb (length a =? length b)%nat then false
  else if (length a =? 0)%nat then true
  else same_elements (srt _ id_less a) (srt _ id_less b).

Definition HasChanged (old new : AgentHardware) : bool :=
  if negb (ah_CPUCores old =? ah_CPUCores new) || negb (ah_RAMMB old =? ah_RAMMB new)
     || negb (eqb (ah_GPUPresent old) (ah_GPUPresent new))
     || negb (bool_decide (ah_GPUModel old = ah_GPUModel new))
     || negb (ah_StorageGB old =? ah_StorageGB new)
     || negb (ah_BandwidthMbps old =? ah_BandwidthMbps new)
     || negb (bool_decide (ah_Platform old = ah_Platform new))
     || negb (bool_decide (ah_Arch old = ah_Arch new)) then true
  else negb (printersEqual (ah_Printers old) (ah_Printers new)).

End Changes.

(** ** The calls *)

(** A Docker call is made under the context of the job, which ends with the
    process, or under the background context. *)
Inductive Cx := JobCtx | Background.

Inductive Mount :=
| TmpfsMount (target : string) (sizeBytes mode : Z)
| BindMount (source target : string).
#[export] Instance Mount_eq : EqDecision Mount.
Proof. solve_decision. Defined.

Record DeviceMapping := mkDevice {
  dm_PathOnHost : string; dm_PathInContainer : string; dm_CgroupPermissions : string }.

Record HostConfig := mkHostConfig {
  hc_Memory : Z; hc_NanoCPUs : Z; hc_Devices : list DeviceMapping;
  hc_StorageOpt : gmap string string; hc_ReadonlyRootfs : bool; hc_CapDrop : list string;
  hc_SecurityOpt : list string; hc_Mounts : list Mount }.

(** The image, the environment and the networks of the [ContainerCreate] call. *)
Record ContainerConfig := mkContainerConfig {
  cc_Image : string; cc_Env : list string; cc_Host : HostConfig; cc_Networks : list string }.

Inductive InspectError := ImageNotFound | InspectFailed.

Inductive WaitAnswer :=
| WaitError (err : option string)
| WaitExit (statusCode : Z) (error : option string).

(** The body of a report on a job. *)
Inductive Report := NoBody | CompleteBody (exit_code : Z) (tmpfs_exhausted : bool).

Inductive ReadAnswer := FileMissing | ReadFailed | FileData (data : string).

Inductive AgentE : Type -> Type :=
| ReadOptOut : AgentE ResourceOptOut
| SetOptOut (oo : ResourceOptOut) : AgentE unit
| ImageInspect (cx : Cx) (ref : string) : AgentE (result InspectError (option string))
| ImagePull (cx : Cx) (ref : string) : AgentE bool
| NetworkCreate (cx : Cx) (name : string) (internal : bool) : AgentE (option string)
| NetworkRemove (cx : Cx) (id : string) : AgentE bool
| ContainerCreate (cx : Cx) (cfg : ContainerConfig) : AgentE (option string)
| ContainerStart (cx : Cx) (id : string) : AgentE bool
| ContainerRemove (cx : Cx) (id : string) : AgentE bool
| ContainerStop (cx : Cx) (id : string) (timeout : Z) : AgentE bool
| ContainerWait (cx : Cx) (id : string) : AgentE WaitAnswer
| ContainerLogs (cx : Cx) (id : string) : AgentE (option (list string))
| PostJob (path : string) (body : Report) : AgentE (option Z)
| PostHeartbeat (req : heartbeatRequest) : AgentE (option heartbeatResponse)
| PostRegister (req : registerNodeRequest) : AgentE bool
| PostPrinters (req : reportPrintersRequest) : AgentE bool
| SampleCPU : AgentE (option (list float64))
| CPUInfo : AgentE (option (list Z))
| CPUCounts : AgentE (option Z)
| MemoryTotal : AgentE (option Z)
| DiskTotal : AgentE (option Z)
| DetectTraditional : AgentE (list PrinterInfo * bool)
| Detect3D : AgentE (list PrinterInfo * bool)
| PostClaim (req : claimNodeRequest) : AgentE (option claimNodeResponse)
| ReadFile (path : string) : AgentE ReadAnswer
| MkdirAll (dir : string) : AgentE bool
| WriteFile (path data : string) : AgentE bool
| Rename (old new : string) : AgentE bool.

Inductive prog (A : Type) : Type :=
| Return (a : A)
| Call {X : Type} (e : AgentE X) (k : X -> prog A).
Arguments Return {A} a.
Arguments Call {A X} e k.

Fixpoint prog_bind {A B} (p : prog A) (f : A -> prog B) : prog B :=
  match p with
  | Return a => f a
  | Call e k => Call e (fun x => prog_bind (k x) f)
  end.
#[export] Instance prog_ret : MRet prog := fun A => Return.
#[export] Instance prog_mbind : MBind prog := fun A B f p => prog_bind p f.

Definition call {X} (e : AgentE X) : prog X := Call e Return.

(** A call with its answer. *)
Inductive Exchange : Type :=
| Exch (X : Type) (e : AgentE X) (x : X).
Arguments Exch {X} e x.

(** Running a program against a handler: the answers may depend on everything
    that happened before, through the handler's state. *)
Fixpoint run {S A} (h : forall X, AgentE X -> S -> X * S) (p : prog A) (s : S) :
    A * list Exchange * S :=
  match p with
  | Return a => (a, [], s)
  | Call e k =>
      let '(x, s1) := h _ e s in
      let '(a, tr, s2) := run h (k x) s1 in (a, Exch e x :: tr, s2)
  end.

(** ** The executor *)

Definition tmpfsScratchSize : Z := 256 * 1024 * 1024.
Definition jobNetworkPrefix : string := "soholink-job-".

Record CapProfile := mkCapProfile {
  cp_CPUEnabled : bool; cp_CPUCores : Z; cp_RAMBytes : Z; cp_StorageBytes : Z; cp_BandwidthMbps : Z }.

Record ContainerSpec := mkContainerSpec {
  cs_Image : string; cs_JobID : string; cs_JobToken : string; cs_Caps : CapProfile;
  cs_EnvVars : gmap string string; cs_ConnectionPath : string }.

Record ExecutionResult := mkExecutionResult {
  er_JobID : string; er_ExitCode : Z; er_Error : string; er_TmpfsExhausted : bool }.

Record ExecutionContext := mkExecutionContext {
  ec_JobID : string; ec_ContainerID : string; ec_NetworkID : string }.

Inductive StartError :=
| StartNotAllowed (msg : string)
| ErrWorkloadOptedOut (workload : WorkloadType)
| ErrRootContainerNotAllowed
| ErrUnknownEgressTier (tier : string)
| StartDocker (msg : string).

(** The part of the USER directive before the first colon. *)
Definition isRootUser (user : string) : bool :=
  if bool_decide (user = "") then true
  else
    let u := match cut ":" user with Some (x, _) => x | None => user end in
    bool_decide (u = "0") || bool_decide (u = "root").

Definition cupsSocketHostPath : string := "/var/run/cups/cups.sock".

(** The build for Unix. *)
Fixpoint deviceMountsFor (access : list DeviceAccess) (connectionPath : string) :
    list Mount * list DeviceMapping :=
  match access with
  | [] => ([], [])
  | da :: rest =>
      let '(mounts, devices) := deviceMountsFor rest connectionPath in
      match da with
      | DeviceCUPSSocket => (BindMount cupsSocketHostPath cupsSocketHostPath :: mounts, devices)
      | DeviceUSBPrinter =>
          if bool_decide (connectionPath = "") then (mounts, devices)
          else (mounts, mkDevice connectionPath connectionPath "rwm" :: devices)
      | DeviceOther _ => (mounts, devices)
      end
  end.

Definition buildHostConfig (spec : ContainerSpec) (entry : AllowlistEntry) : HostConfig :=
  let caps := cs_Caps spec in
  let nanoCPUs := if cp_CPUEnabled caps then to_int64 (cp_CPUCores caps * 1000000000) else 0 in
  let storageOpt : gmap string string :=
    if 0 <? cp_StorageBytes caps then {[ "size" := FormatInt (cp_StorageBytes caps) ]} else ∅ in
  let '(mounts, devices) := deviceMountsFor (ae_DeviceAccess entry) (cs_ConnectionPath spec) in
  mkHostConfig (cp_RAMBytes caps) nanoCPUs devices storageOpt true ["ALL"]
    ["no-new-privileges:true"] (TmpfsMount "/tmp" tmpfsScratchSize 1023 :: mounts).

(** Results with early returns. *)
Definition returning {A B} (p : prog (result StartError A)) (k : A -> prog (result StartError B))
    : prog (result StartError B) :=
  r ← p; match r with Ok a => k a | Err e => mret (Err e) end.

Definition createJobNetwork (jobID : string) (tier : EgressTier) : prog (result StartError string) :=
  let create (internal : bool) :=
    r ← call (NetworkCreate JobCtx (jobNetworkPrefix +:+ jobID) internal);
    mret (match r with Some id => Ok id | None => Err (StartDocker "network create") end) in
  match tier with
  | EgressNone => create true
  | EgressOutbound => create false
  | EgressOther t => mret (Err (ErrUnknownEgressTier t))
  end.

(** Inspect the image; pull it if it is missing and inspect again. *)
Definition inspect_image (ref : string) : prog (result StartError (option string)) :=
  r ← call (ImageInspect JobCtx ref);
  match r with
  | Ok user => mret (Ok user)
  | Err InspectFailed => mret (Err (StartDocker "image inspect"))
  | Err ImageNotFound =>
      pulled ← call (ImagePull JobCtx ref);
      if negb pulled then mret (Err (StartDocker "image pull"))
      else
        r ← call (ImageInspect JobCtx ref);
        mret (match r with Ok user => Ok user | Err _ => Err (StartDocker "image inspect after pull") end)
  end.

Section Executor.
Context `{MapOrder}.
Context (al : Allowlist).

Definition job_env (spec : ContainerSpec) : list string :=
  ((fun '(k, v) => k +:+ "=" +:+ v) <$> map_range (cs_EnvVars spec)) ++
  ["SOHOLINK_JOB_ID=" +:+ cs_JobID spec; "SOHOLINK_JOB_TOKEN=" +:+ cs_JobToken spec].

Definition Start (spec : ContainerSpec) : prog (result StartError ExecutionContext) :=
  match Lookup al (cs_Image spec) with
  | Err e => mret (Err (StartNotAllowed e))
  | Ok entry =>
      oo ← call ReadOptOut;
      if negb (IsResourceEnabled oo (ae_Type entry) "") then mret (Err (ErrWorkloadOptedOut (ae_Type entry)))
      else returning (inspect_image (cs_Image spec)) (fun config =>
        let user := default "" config in
        if isRootUser user then mret (Err ErrRootContainerNotAllowed)
        else returning (createJobNetwork (cs_JobID spec) (ae_Egress entry)) (fun networkID =>
          created ← call (ContainerCreate JobCtx (mkContainerConfig (cs_Image spec) (job_env spec)
                      (buildHostConfig spec entry) [jobNetworkPrefix +:+ cs_JobID spec]));
          match created with
          | None =>
              _ ← call (NetworkRemove Background networkID);
              mret (Err (StartDocker "container create"))
          | Some containerID =>
              started ← call (ContainerStart JobCtx containerID);
              if (started : bool) then mret (Ok (mkExecutionContext (cs_JobID spec) containerID networkID))
              else
                _ ← call (ContainerRemove Background containerID);
                _ ← call (NetworkRemove Background networkID);
                mret (Err (StartDocker "container start"))
          end))
  end.

Definition cleanup (cx : Cx) (ec : ExecutionContext) : prog unit :=
  _ ← call (ContainerRemove cx (ec_ContainerID ec));
  _ ← call (NetworkRemove cx (ec_NetworkID ec));
  mret tt.

(** [strings.ToLower] on the letters that matter here, and [strings.Contains]. *)
Definition contains (sub s : string) : bool := bool_decide (is_Some (String.index 0 sub s)).

Definition enospc_line (line : string) : bool :=
  let line := ToLower line in
  contains "no space left on device" line || contains "enospc" line.

Definition scanStderrForENOSPC (containerID : string) : prog bool :=
  logs ← call (ContainerLogs JobCtx containerID);
  mret (match logs with None => false | Some lines => existsb enospc_line lines end).

(** The deferred cleanup runs before the result is returned. *)
Definition Wait (ec : ExecutionContext) : prog ExecutionResult :=
  w ← call (ContainerWait JobCtx (ec_ContainerID ec));
  result ← (match w with
    | WaitError (Some err) => mret (mkExecutionResult (ec_JobID ec) 0 err false)
    | WaitError None => mret (mkExecutionResult (ec_JobID ec) 0 "" false)
    | WaitExit code err =>
        exhausted ← (if negb (code =? 0) then scanStderrForENOSPC (ec_ContainerID ec) else mret false);
        mret (mkExecutionResult (ec_JobID ec) code (default "" err) exhausted)
    end);
  _ ← cleanup Background ec;
  mret result.

Definition Stop (cx : Cx) (ec : ExecutionContext) : prog unit :=
  _ ← call (ContainerStop cx (ec_ContainerID ec) 10);
  cleanup cx ec.

Definition Run (spec : ContainerSpec) : prog (result StartError ExecutionResult) :=
  r ← Start spec;
  match r with
  | Err e => mret (Err e)
  | Ok ec => result ← Wait ec; mret (Ok result)
  end.

(** ** One job *)

(** [runJob] without the telemetry goroutine, which shares nothing with it but
    the signal to stop.  The answer to a report is the status, or [None] when the
    request cannot be built or sent. *)
Definition container_spec (hw : AgentHardware) (job : jobEntry) (connectionPath : string) : ContainerSpec :=
  mkContainerSpec (je_Image job) (je_JobID job) (je_JobToken job)
    (mkCapProfile true (ah_CPUCores hw) (to_int64 (ah_RAMMB hw * 1024 * 1024)) 0 0) ∅ connectionPath.

Definition runJob (hw : AgentHardware) (job : jobEntry) : prog unit :=
  if bool_decide (je_Image job = "") then mret tt
  else match ResolveConnectionPath (je_PrinterID job) (ah_Printers hw) with
  | None => mret tt
  | Some connectionPath =>
      r ← Start (container_spec hw job connectionPath);
      match r with
      | Err _ => mret tt
      | Ok ec =>
          started ← call (PostJob ("/jobs/" +:+ je_JobID job +:+ "/started") NoBody);
          if match started with None => true | Some code => 300 <=? code end then Stop JobCtx ec
          else
            result ← Wait ec;
            _ ← call (PostJob ("/jobs/" +:+ je_JobID job +:+ "/complete")
                  (CompleteBody (er_ExitCode result) (er_TmpfsExhausted result)));
            mret tt
      end
  end.

End Executor.

(** ** Detection *)

(** The failure of one category does not suppress the other; the flag is the
    wrapped error. *)
Definition DetectPrinters : prog (list PrinterInfo * bool) :=
  '(tr, trErr) ← call DetectTraditional;
  '(td, tdErr) ← call Detect3D;
  mret (tr ++ td, trErr || tdErr).

Section Agent.
Context (srt : forall A, (A -> A -> bool) -> list A -> list A).
(** [runtime.GOOS] and [runtime.GOARCH]; [json.Marshal] of the consent file and
    its path. *)
Context (platform arch : string).
Context (marshalOptOut : ResourceOptOut -> string) (optOutDir optOutPath : string).

Definition to_int32 (z : Z) : Z := (z + 2 ^ 31) mod 2 ^ 32 - 2 ^ 31.

(** Cores are [int32]; totals are [uint64] bytes. *)
Definition Detect : prog (option AgentHardware) :=
  infos ← call CPUInfo;
  match infos with
  | None => mret None
  | Some cores =>
      let total := foldl (fun acc c => to_int32 (acc + c)) 0 cores in
      count ← (if total =? 0 then n ← call CPUCounts; mret (to_int32 <$> n) else mret (Some total));
      match count with
      | None => mret None
      | Some total =>
          ram ← call MemoryTotal;
          match ram with
          | None => mret None
          | Some ram =>
              disk ← call DiskTotal;
              match disk with
              | None => mret None
              | Some disk =>
                  '(printers, _) ← DetectPrinters;
                  mret (Some (mkAgentHardware total (to_int64 (ram / (1024 * 1024))) false ""
                    (to_int64 (disk / (1024 * 1024 * 1024))) 0 platform arch printers))
              end
          end
      end
  end.

(** ** The heartbeat client *)

Record AgentConfig := mkAgentConfig {
  ac_NodeID : string; ac_ProviderID : string; ac_NodeClass : string; ac_CountryCode : string;
  ac_Region : string }.

Definition printer_payload (p : PrinterInfo) : nodePrinterInfo := mkPrinterInfo (lp_ID p) (lp_Name p).

Definition AgentRegister (cfg : AgentConfig) (hw : AgentHardware) : prog bool :=
  call (PostRegister (mkRegisterNode (ac_NodeID cfg) (ac_ProviderID cfg) (ac_NodeClass cfg)
    (ac_CountryCode cfg) (ac_Region cfg)
    (mkHardwareProfile (ah_CPUCores hw) (ah_RAMMB hw) (ah_GPUPresent hw) (ah_StorageGB hw)
       (ah_BandwidthMbps hw))
    (printer_payload <$> ah_Printers hw))).

Definition ReportPrinters (cfg : AgentConfig) (hw : AgentHardware) : prog bool :=
  call (PostPrinters (mkReportPrinters (ac_NodeID cfg) (printer_payload <$> ah_Printers hw))).

Definition SaveOptOutToFile (oo : ResourceOptOut) : prog bool :=
  made ← call (MkdirAll optOutDir);
  if negb made then mret false
  else
    written ← call (WriteFile (optOutPath +:+ ".tmp") (marshalOptOut oo));
    if negb written then mret false else call (Rename (optOutPath +:+ ".tmp") optOutPath).

Definition DetectOwnerActive : bool := false.

(** An empty sample is a failure, too. *)
Definition sampleCPUPct : prog (option float64) :=
  pcts ← call SampleCPU; mret (pcts ≫= head).

(** The consent the server pushed. *)
Definition pushed (o : heartbeatOptOut) : ResourceOptOut :=
  mkResourceOptOut (ho_Version o) (ho_ComputeEnabled o) (ho_StorageEnabled o) (ho_PrintingEnabled o)
    (ho_EnabledPrinters o).

Definition AgentHeartbeat (cfg : AgentConfig) (hw : AgentHardware) : prog bool :=
  oo ← call ReadOptOut;
  cpu ← sampleCPUPct;
  resp ← call (PostHeartbeat (mkHeartbeatRequest (ac_NodeID cfg) (ro_Version oo)
           (PrinterHash (ah_Printers hw)) DetectOwnerActive (default (f64_of_Z 100) cpu)));
  match resp with
  | None => mret false
  | Some resp =>
      _ ← (match hr_OptOut resp with
           | None => mret tt
           | Some o => _ ← call (SetOptOut (pushed o)); _ ← SaveOptOutToFile (pushed o); mret tt
           end);
      _ ← (if hr_RequestPrinterReport resp then _ ← ReportPrinters cfg hw; mret tt else mret tt);
      mret true
  end.

(** One tick of [StartHeartbeatLoop]: register again when the hardware changed,
    then beat; errors are swallowed. *)
Definition heartbeat_tick (cfg : AgentConfig) (hw : AgentHardware) : prog AgentHardware :=
  fresh ← Detect;
  hw' ← (match fresh with
         | Some fresh =>
             if HasChanged srt hw fresh then _ ← AgentRegister cfg fresh; mret fresh else mret hw
         | None => mret hw
         end);
  _ ← AgentHeartbeat cfg hw';
  mret hw'.

(** The loop until the process is told to stop, after some number of ticks. *)
Fixpoint heartbeat_ticks (n : nat) (cfg : AgentConfig) (hw : AgentHardware) : prog AgentHardware :=
  match n with O => mret hw | S n => hw' ← heartbeat_tick cfg hw; heartbeat_ticks n cfg hw' end.

Definition StartHeartbeatLoop (n : nat) (cfg : AgentConfig) (hw : AgentHardware) :
    prog (option AgentHardware) :=
  ok ← AgentRegister cfg hw;
  if negb ok then mret None else hw' ← heartbeat_ticks n cfg hw; mret (Some hw').

End Agent.
