(* ===== verification/NodeAgentProofs.v ===== *)
(** The node agent: what it lets into a container, that it cleans up after itself,
    what it reports, and how the contributor's consent reaches it. *)
From Stdlib Require Import Ascii.
From S2P Require Import Prelude Float64 Workload Sounding Registry Scheduler Database Lifecycle Effects.
From S2P Require Import Encoding Sha256 Token Allowlist Orchestrator Samples Http NodesApi Operator NodeAgent.
Import Agent.
Local Open Scope string_scope.
Local Open Scope list_scope.
Local Open Scope Z_scope.

(** ** Reasoning about programs *)

(** Whatever is answered, the program ends with a result and a trace that satisfy
    the postcondition; [tr] is the trace so far. *)
Fixpoint always {A} (p : prog A) (tr : list Exchange) (Q : A -> list Exchange -> Prop) : Prop :=
  match p with
  | Return a => Q a tr
  | Call e k => forall x, always (k x) (tr ++ [Exch e x]) Q
  end.

Lemma always_bind {A B} (p : prog A) (f : A -> prog B) tr Q :
  always p tr (fun a tr' => always (f a) tr' Q) -> always (p ≫= f) tr Q.
Proof.
  unfold mbind, prog_mbind. revert tr. induction p as [a|X e k IH]; intros tr; simpl; [done|].
  intros Hp x. apply IH, Hp.
Qed.

Lemma always_call {X A} (e : AgentE X) (f : X -> prog A) tr Q :
  (forall x, always (f x) (tr ++ [Exch e x]) Q) -> always (call e ≫= f) tr Q.
Proof. done. Qed.

Lemma always_last {X} (e : AgentE X) tr (Q : X -> list Exchange -> Prop) :
  (forall x, Q x (tr ++ [Exch e x])) -> always (call e) tr Q.
Proof. done. Qed.

Lemma always_ret {A} (a : A) tr (Q : A -> list Exchange -> Prop) : Q a tr -> always (mret a) tr Q.
Proof. done. Qed.

Lemma always_mono {A} (p : prog A) tr (Q Q' : A -> list Exchange -> Prop) :
  always p tr Q -> (forall a tr', Q a tr' -> Q' a tr') -> always p tr Q'.
Proof. intros Hp HQ. revert tr Hp. induction p as [a|X e k IH]; intros tr Hp; simpl in *; auto. Qed.

Lemma always_run {S A} (h : forall X, AgentE X -> S -> X * S) (p : prog A) s tr Q :
  always p tr Q -> Q (run h p s).1.1 (tr ++ (run h p s).1.2).
Proof.
  revert s tr. induction p as [a|X e k IH]; intros s tr; simpl; [by rewrite app_nil_r|].
  intros Hp. destruct (h X e s) as [x s1]. specialize (IH x s1 _ (Hp x)).
  destruct (run h (k x) s1) as [[a tr'] s2]. simpl in *. by rewrite <- app_assoc in IH.
Qed.

#[global] Arguments always {A} p tr Q : simpl never.

(** Take the next call of the program, whatever it is answered. *)
Ltac next :=
  lazymatch goal with
  | |- always (mret _) _ _ => apply always_ret
  | |- always (call _) _ _ => apply always_last
  | |- always (call _ ≫= _) _ _ => apply always_call
  end.

(** An exchange is in a trace that shows it. *)
Ltac in_trace := rewrite ?elem_of_app, ?elem_of_cons; tauto.

(** Runs compose. *)
Lemma run_bind {S A B} (h : forall X, AgentE X -> S -> X * S) (p : prog A) (f : A -> prog B) s :
  run h (p ≫= f) s =
    let '(a, tr, s1) := run h p s in let '(b, tr', s2) := run h (f a) s1 in (b, tr ++ tr', s2).
Proof.
  unfold mbind, prog_mbind. revert s. induction p as [a|X e k IH]; intros s; simpl.
  - by destruct (run h (f a) s) as [[??]?].
  - destruct (h X e s) as [x s1]. rewrite IH. destruct (run h (k x) s1) as [[a tr] s2].
    by destruct (run h (f a) s2) as [[??]?].
Qed.

(** The result and the final state of a run. *)
Definition finish {S A} (h : forall X, AgentE X -> S -> X * S) (p : prog A) (s : S) : A * S :=
  ((run h p s).1.1, (run h p s).2).

Lemma finish_bind {S A B} (h : forall X, AgentE X -> S -> X * S) (p : prog A) (f : A -> prog B) s a s1 :
  finish h p s = (a, s1) -> finish h (p ≫= f) s = finish h (f a) s1.
Proof.
  unfold finish. rewrite run_bind. destruct (run h p s) as [[a' tr] s']. simpl. intros [= <- <-].
  by destruct (run h (f a') s') as [[??]?].
Qed.

Lemma finish_call {S X} (h : forall X, AgentE X -> S -> X * S) (e : AgentE X) s :
  finish h (call e) s = h X e s.
Proof. unfold finish. simpl. by destruct (h X e s). Qed.

Lemma finish_bind_call {S X B} (h : forall X, AgentE X -> S -> X * S) (e : AgentE X) (f : X -> prog B)
    s x s1 :
  h X e s = (x, s1) -> finish h (call e ≫= f) s = finish h (f x) s1.
Proof. intros Hh. apply finish_bind. by rewrite finish_call. Qed.

Lemma finish_ret {S A} (h : forall X, AgentE X -> S -> X * S) (a : A) s : finish h (mret a) s = (a, s).
Proof. done. Qed.

(** Every exchange of a trace is acceptable after the ones before it. *)
Fixpoint all_along (ok : list Exchange -> Exchange -> Prop) (before tr : list Exchange) : Prop :=
  match tr with
  | [] => True
  | x :: tr' => ok before x /\ all_along ok (before ++ [x]) tr'
  end.

Lemma all_along_app ok before tr tr' :
  all_along ok before (tr ++ tr') <-> all_along ok before tr /\ all_along ok (before ++ tr) tr'.
Proof.
  revert before. induction tr as [|x tr IH]; intros before; simpl.
  - rewrite app_nil_r. tauto.
  - rewrite IH, <- app_assoc. simpl. tauto.
Qed.

(** ** What gets into a container *)

Definition permitted_mount (entry : AllowlistEntry) (m : Mount) : Prop :=
  m = TmpfsMount "/tmp" tmpfsScratchSize 1023 \/
  (DeviceCUPSSocket ∈ ae_DeviceAccess entry /\ m = BindMount cupsSocketHostPath cupsSocketHostPath).

Definition permitted_device (entry : AllowlistEntry) (path : string) (m : DeviceMapping) : Prop :=
  DeviceUSBPrinter ∈ ae_DeviceAccess entry /\ path <> "" /\ m = mkDevice path path "rwm".

(** The baseline of every container, and no device the entry does not declare. *)
Definition confined (entry : AllowlistEntry) (path : string) (c : HostConfig) : Prop :=
  hc_ReadonlyRootfs c = true /\ hc_CapDrop c = ["ALL"] /\
  hc_SecurityOpt c = ["no-new-privileges:true"] /\
  Forall (permitted_mount entry) (hc_Mounts c) /\
  Forall (permitted_device entry path) (hc_Devices c).

Lemma deviceMountsFor_permitted entry path access :
  (forall x, x ∈ access -> x ∈ ae_DeviceAccess entry) ->
  Forall (permitted_mount entry) (deviceMountsFor access path).1 /\
  Forall (permitted_device entry path) (deviceMountsFor access path).2.
Proof.
  induction access as [|da access IH]; intros Hsub; simpl; [done|].
  destruct IH as [IHm IHd]; [intros x Hx; apply Hsub; by constructor|].
  destruct (deviceMountsFor access path) as [mounts devices]. simpl in *.
  assert (Hda : da ∈ ae_DeviceAccess entry) by (apply Hsub; constructor).
  destruct da; simpl; [|case_bool_decide; simpl|]; split; try done; constructor; try done.
  by right.
Qed.

Lemma buildHostConfig_confined spec entry :
  confined entry (cs_ConnectionPath spec) (buildHostConfig spec entry).
Proof.
  unfold buildHostConfig, confined.
  destruct (deviceMountsFor_permitted entry (cs_ConnectionPath spec) (ae_DeviceAccess entry))
    as [Hm Hd]; [done|].
  destruct (deviceMountsFor _ _) as [mounts devices]. simpl in *. repeat split; try done.
  constructor; [by left|done].
Qed.

(** The USER directive of an image is none of the spellings of root the source
    lists: empty, [0], [root], or one of these with a group. *)
Definition not_spelled_root (user : string) : Prop :=
  user <> "" /\ user <> "0" /\ user <> "root" /\
  forall group, user <> "0:" +:+ group /\ user <> "root:" +:+ group.

Lemma isRootUser_spelling user : isRootUser user = false <-> not_spelled_root user.
Proof.
  unfold isRootUser, not_spelled_root. split.
  - case_bool_decide as He; [done|]. intros Hr. apply orb_false_elim in Hr as [H0 Hroot].
    apply bool_decide_eq_false in H0, Hroot. split_and!; [done| | |].
    + intros ->. by apply H0.
    + intros ->. by apply Hroot.
    + intros group. split; intros ->.
      * apply H0. change ("0:" +:+ group) with ("0" +:+ String.String ":" group). by rewrite cut_app.
      * apply Hroot. change ("root:" +:+ group) with ("root" +:+ String.String ":" group). by rewrite cut_app.
  - intros (He & H0 & Hroot & Hg). rewrite bool_decide_eq_false_2 by done.
    destruct (cut ":" user) as [[x group]|] eqn:Hc; apply orb_false_intro; apply bool_decide_eq_false_2; try done;
      apply cut_Some in Hc as [-> _]; intros ->; [by apply (proj1 (Hg group))|by apply (proj2 (Hg group))].
Qed.

(** A container is created only for an image on the allowlist whose category the
    contributor had enabled when the agent asked, whose USER directive does not
    spell root, on a network of its own that is internal when the entry asks for no
    egress. *)
Definition vetted (al : Allowlist) (before : list Exchange) (cfg : ContainerConfig) : Prop :=
  exists entry oo user net id path,
    Lookup al (cc_Image cfg) = Ok entry /\
    Exch ReadOptOut oo ∈ before /\ IsResourceEnabled oo (ae_Type entry) "" = true /\
    Exch (ImageInspect JobCtx (cc_Image cfg)) (Ok (Some user)) ∈ before /\ not_spelled_root user /\
    Exch (NetworkCreate JobCtx net (match ae_Egress entry with EgressNone => true | _ => false end))
      (Some id) ∈ before /\
    (ae_Egress entry = EgressNone \/ ae_Egress entry = EgressOutbound) /\
    cc_Networks cfg = [net] /\ confined entry path (cc_Host cfg).

Definition vetted_exchange (al : Allowlist) (before : list Exchange) (x : Exchange) : Prop :=
  match x with
  | Exch (ContainerCreate cx cfg) _ => vetted al before cfg
  | Exch (ContainerStart cx id) _ =>
      exists cx cfg, Exch (ContainerCreate cx cfg) (Some id) ∈ before
  | _ => True
  end.

(** ** What is left behind *)

Inductive Resource := NetworkR (id : string) | ContainerR (id : string).
#[export] Instance Resource_eq : EqDecision Resource.
Proof. solve_decision. Defined.

(** The resources created and not yet asked to be removed. *)
Definition holding (held : list Resource) (x : Exchange) : list Resource :=
  match x with
  | Exch e a =>
      match e in AgentE X return X -> list Resource with
      | NetworkCreate _ _ _ => fun a => match a with Some id => NetworkR id :: held | None => held end
      | ContainerCreate _ _ => fun a => match a with Some id => ContainerR id :: held | None => held end
      | NetworkRemove _ id => fun _ => filter (fun r => r <> NetworkR id) held
      | ContainerRemove _ id => fun _ => filter (fun r => r <> ContainerR id) held
      | _ => fun _ => held
      end a
  end.
Definition outstanding (tr : list Exchange) : list Resource := foldl holding [] tr.

Lemma outstanding_snoc tr x : outstanding (tr ++ [x]) = holding (outstanding tr) x.
Proof. unfold outstanding. by rewrite foldl_app. Qed.

(** ** What is reported *)

(** The reports on the job with the answers they got. *)
Definition report_of (x : Exchange) : list (string * Report * option Z) :=
  match x with
  | Exch e a =>
      match e in AgentE X return X -> list (string * Report * option Z) with
      | PostJob path body => fun a => [(path, body, a)]
      | _ => fun _ => []
      end a
  end.
Definition reports (tr : list Exchange) : list (string * Report * option Z) := tr ≫= report_of.

Lemma reports_snoc tr x : reports (tr ++ [x]) = reports tr ++ report_of x.
Proof. unfold reports. rewrite bind_app. simpl. by rewrite app_nil_r. Qed.

(** ** Starting a container *)

Section Vetting.
Context `{MapOrder} (al : Allowlist).

(** The trace of a start: every container vetted, nothing reported, and nothing
    held unless the start succeeded. *)
Definition start_post (r : result StartError ExecutionContext) (tr : list Exchange) : Prop :=
  all_along (vetted_exchange al) [] tr /\ reports tr = [] /\
  outstanding tr = match r with
    | Ok ec => [ContainerR (ec_ContainerID ec); NetworkR (ec_NetworkID ec)]
    | Err _ => []
    end /\
  match r with Ok ec => Exch (ContainerStart JobCtx (ec_ContainerID ec)) true ∈ tr | Err _ => True end.

(** The trace of a vetting: the consent read and the image inspected. *)
Definition inspected (ref : string) (oo : ResourceOptOut) (r : result StartError (option string))
    (tr : list Exchange) : Prop :=
  all_along (vetted_exchange al) [] tr /\ reports tr = [] /\ outstanding tr = [] /\
  Exch ReadOptOut oo ∈ tr /\
  match r with Ok user => Exch (ImageInspect JobCtx ref) (Ok user) ∈ tr | Err _ => True end.

Lemma inspect_image_trace ref oo :
  always (inspect_image ref) [Exch ReadOptOut oo] (inspected ref oo).
Proof.
  unfold inspect_image. next. intros [user|[|]]; [|next; intros [|]; cbn [negb]; [next; intros [?|?]|]|];
    next; unfold inspected; split_and!; try done; in_trace.
Qed.

Definition launch_config (spec : ContainerSpec) (entry : AllowlistEntry) : ContainerConfig :=
  mkContainerConfig (cs_Image spec) (job_env spec) (buildHostConfig spec entry)
    [jobNetworkPrefix +:+ cs_JobID spec].

Definition networked (spec : ContainerSpec) (entry : AllowlistEntry) (r : result StartError string)
    (tr : list Exchange) : Prop :=
  match r with
  | Err e => start_post (Err e) tr
  | Ok id => all_along (vetted_exchange al) [] tr /\ reports tr = [] /\
      outstanding tr = [NetworkR id] /\ vetted al tr (launch_config spec entry)
  end.

Lemma createJobNetwork_trace spec entry oo user tr :
  Lookup al (cs_Image spec) = Ok entry -> IsResourceEnabled oo (ae_Type entry) "" = true ->
  inspected (cs_Image spec) oo (Ok (Some user)) tr -> not_spelled_root user ->
  always (createJobNetwork (cs_JobID spec) (ae_Egress entry)) tr (networked spec entry).
Proof.
  intros Hl Hoo (Hv & Hr & Ho & Hread & Hi) Hroot. unfold createJobNetwork.
  destruct (ae_Egress entry) eqn:Heg; [| |by next]; next; intros [id|]; next;
    unfold networked, start_post; rewrite all_along_app, reports_snoc, outstanding_snoc, Hr, Ho;
    try done; (split; [done|]; split; [done|]; split; [done|]);
    exists entry, oo, user, (jobNetworkPrefix +:+ cs_JobID spec), id, (cs_ConnectionPath spec);
    rewrite Heg; (split_and!; try done; [in_trace..|auto|apply buildHostConfig_confined]).
Qed.

Lemma Start_trace spec : always (Start al spec) [] start_post.
Proof.
  unfold Start. destruct (Lookup al (cs_Image spec)) as [entry|e] eqn:Hl; [|by next].
  next. intros oo. destruct (IsResourceEnabled _ _ _) eqn:Hoo; cbn [negb]; [|by next].
  apply always_bind. eapply always_mono; [apply inspect_image_trace|]. intros [user|e] tr Hi.
  2:{ next. unfold start_post. split_and!; [apply Hi..|done]. }
  destruct (isRootUser (default "" user)) eqn:Hroot; [next; unfold start_post; split_and!; [apply Hi..|done]|].
  destruct user as [user|]; [|done]. apply isRootUser_spelling in Hroot. apply always_bind.
  eapply always_mono; [by eapply createJobNetwork_trace|]. clear. intros [id|e] tr; [|done].
  intros (Hv & Hr & Ho & Hvet). next. intros [c|].
  - next. intros [|]; [|next; intros ?; next; intros ?]; next; unfold start_post;
      rewrite !all_along_app, !reports_snoc, !outstanding_snoc, Hr, Ho; simpl;
      (split; [split_and!; try done; exists JobCtx, (launch_config spec entry); in_trace|]);
      (split; [done|]); [split; [done|in_trace]|].
    rewrite filter_cons_False by naive_solver. rewrite filter_cons_True by done. simpl.
    by rewrite filter_cons_False by naive_solver.
  - next. intros ?. next. unfold start_post. 
    rewrite !all_along_app, !reports_snoc, !outstanding_snoc, Hr, Ho; simpl.
    split; [done|]. split; [done|]. by rewrite filter_cons_False by naive_solver.
Qed.

(** ** The run of one job *)

Definition started_path (id : string) : string := "/jobs/" +:+ id +:+ "/started".
Definition complete_path (id : string) : string := "/jobs/" +:+ id +:+ "/complete".

(** Either nothing is reported, or a start that was refused, or a start that was
    accepted followed by one completion.  Its code is the exit code when the wait
    was answered with one; of a wait that failed nothing is said here. *)
Definition reports_ok (id : string) (tr : list Exchange) : Prop :=
  reports tr = [] \/
  (exists a, match a with None => True | Some code => 300 <= code end /\
     reports tr = [(started_path id, NoBody, a)]) \/
  (exists code c w reported full a, code < 300 /\
     Exch (ContainerStart JobCtx c) true ∈ tr /\ Exch (ContainerWait JobCtx c) w ∈ tr /\
     (forall exit err, w = WaitExit exit err -> reported = exit) /\
     (full = true -> exists exit err lines, w = WaitExit exit err /\ exit <> 0 /\
        Exch (ContainerLogs JobCtx c) (Some lines) ∈ tr /\ existsb enospc_line lines = true) /\
     reports tr = [(started_path id, NoBody, Some code);
                   (complete_path id, CompleteBody reported full, a)]).

Definition job_post (id : string) (tr : list Exchange) : Prop :=
  all_along (vetted_exchange al) [] tr /\ outstanding tr = [] /\ reports_ok id tr.

(** Removing what the context holds leaves nothing. *)
Lemma cleanup_trace cx ec tr (Q : unit -> list Exchange -> Prop) :
  outstanding tr = [ContainerR (ec_ContainerID ec); NetworkR (ec_NetworkID ec)] ->
  (forall a b, let tr' := (tr ++ [Exch (ContainerRemove cx (ec_ContainerID ec)) a]) ++
                 [Exch (NetworkRemove cx (ec_NetworkID ec)) b] in
     outstanding tr' = [] -> Q tt tr') ->
  always (cleanup cx ec) tr Q.
Proof.
  intros Ho HQ. unfold cleanup. next. intros a. next. intros b. next. apply HQ.
  rewrite !outstanding_snoc, Ho. simpl.
  rewrite filter_cons_False by naive_solver. rewrite filter_cons_True by done. simpl.
  by rewrite filter_cons_False by naive_solver.
Qed.

Definition wait_post (ec : ExecutionContext) (tr : list Exchange) (r : ExecutionResult)
    (tr' : list Exchange) : Prop :=
  all_along (vetted_exchange al) [] tr' /\ outstanding tr' = [] /\ reports tr' = reports tr /\
  tr ⊆ tr' /\ exists w, Exch (ContainerWait JobCtx (ec_ContainerID ec)) w ∈ tr' /\
    (forall exit err, w = WaitExit exit err -> er_ExitCode r = exit) /\
    (er_TmpfsExhausted r = true -> exists exit err lines, w = WaitExit exit err /\ exit <> 0 /\
       Exch (ContainerLogs JobCtx (ec_ContainerID ec)) (Some lines) ∈ tr' /\
       existsb enospc_line lines = true).

Lemma Wait_trace ec tr :
  all_along (vetted_exchange al) [] tr ->
  outstanding tr = [ContainerR (ec_ContainerID ec); NetworkR (ec_NetworkID ec)] ->
  always (Wait ec) tr (wait_post ec tr).
Proof.
  intros Hv Ho. unfold Wait. next. intros w.
  assert (Hfin : forall r tr1, all_along (vetted_exchange al) [] tr1 -> outstanding tr1 = outstanding tr ->
    reports tr1 = reports tr -> tr ⊆ tr1 -> Exch (ContainerWait JobCtx (ec_ContainerID ec)) w ∈ tr1 ->
    (forall exit err, w = WaitExit exit err -> er_ExitCode r = exit) ->
    (er_TmpfsExhausted r = true -> exists exit err lines, w = WaitExit exit err /\ exit <> 0 /\
       Exch (ContainerLogs JobCtx (ec_ContainerID ec)) (Some lines) ∈ tr1 /\
       existsb enospc_line lines = true) ->
    always (_ ← cleanup Background ec; mret r) tr1 (wait_post ec tr)).
  { intros r tr1 Hv1 Ho1 Hr1 Hsub Hw He Hx. apply always_bind. apply cleanup_trace; [by rewrite Ho1|].
    intros a b tr' Ho'. next. unfold wait_post, tr' in *. rewrite !all_along_app, !reports_snoc, Hr1.
    simpl. rewrite !app_nil_r. split_and!; try done.
    - intros x Hx'. apply Hsub in Hx'. in_trace.
    - exists w. split; [in_trace|]. split; [done|]. intros Hf. destruct (Hx Hf) as (x & err & l & ? & ? & ? & ?).
      exists x, err, l. split_and!; [done|done|in_trace|done]. }
  assert (Hsub : tr ⊆ tr ++ [Exch (ContainerWait JobCtx (ec_ContainerID ec)) w]) by set_solver.
  assert (Hw : Exch (ContainerWait JobCtx (ec_ContainerID ec)) w ∈
    tr ++ [Exch (ContainerWait JobCtx (ec_ContainerID ec)) w]) by in_trace.
  destruct w as [[err|]|code err].
  1,2: apply always_bind; next; apply Hfin; try done;
    rewrite ?all_along_app, ?outstanding_snoc, ?reports_snoc; simpl; rewrite ?app_nil_r; done.
  destruct (code =? 0) eqn:Hcode; cbn [negb].
  - do 2 apply always_bind. next. next. apply Hfin; try done; try (by intros ?? [= <- _]);
    rewrite ?all_along_app, ?outstanding_snoc, ?reports_snoc; simpl; rewrite ?app_nil_r; done.
  - do 2 apply always_bind. unfold scanStderrForENOSPC. next. intros logs. next. next. apply Hfin; try done; try (by intros ?? [= <- _]);
    rewrite ?all_along_app, ?outstanding_snoc, ?reports_snoc; simpl; rewrite ?app_nil_r; try done; [set_solver|in_trace|].
    apply Z.eqb_neq in Hcode. destruct logs as [l|]; [|done]. intros Hx. exists code, err, l.
    split_and!; [done|done|in_trace|done].
Qed.

Lemma runJob_trace hw job : always (runJob al hw job) [] (fun _ => job_post (je_JobID job)).
Proof.
  assert (Hnil : forall tr, all_along (vetted_exchange al) [] tr -> outstanding tr = [] -> reports tr = [] ->
    job_post (je_JobID job) tr) by (intros; split_and!; try done; by left).
  unfold runJob. case_bool_decide; [next; by apply Hnil|].
  destruct (ResolveConnectionPath _ _) as [path|]; [|next; by apply Hnil].
  apply always_bind. eapply always_mono; [apply Start_trace|]. intros [ec|e] tr (Hv & Hr & Ho & Hs);
    [|next; by apply Hnil].
  next. intros started. fold (started_path (je_JobID job)) (complete_path (je_JobID job)).
  set (tr1 := tr ++ _).
  assert (Hv1 : all_along (vetted_exchange al) [] tr1) by (by apply all_along_app).
  assert (Ho1 : outstanding tr1 = outstanding tr) by (unfold tr1; by rewrite outstanding_snoc).
  assert (Hr1 : reports tr1 = [(started_path (je_JobID job), NoBody, started)]).
  { unfold tr1. by rewrite reports_snoc, Hr. }
  assert (Hs1 : Exch (ContainerStart JobCtx (ec_ContainerID ec)) true ∈ tr1) by (unfold tr1; in_trace).
  clearbody tr1. destruct (match started with None => true | Some code => 300 <=? code end) eqn:Hrej.
  - unfold Stop. next. intros s. apply cleanup_trace; [by rewrite outstanding_snoc, Ho1|].
    intros a b tr' Ho'. unfold job_post, tr' in *. split_and!; [|done|].
    + by rewrite !all_along_app.
    + right. left. exists started. rewrite !reports_snoc, Hr1. split; [|done].
      destruct started; [by apply Z.leb_le|done].
  - apply always_bind. eapply always_mono; [apply Wait_trace; [done|by rewrite Ho1]|].
    intros r tr2 (Hv2 & Ho2 & Hr2 & Hsub & w & Hw & He & Hx). next. intros a. next.
    split_and!; [by apply all_along_app|by rewrite outstanding_snoc|]. right. right.
    destruct started as [code|]; [|done]. apply Z.leb_gt in Hrej.
    exists code, (ec_ContainerID ec), w, (er_ExitCode r), (er_TmpfsExhausted r), a. split; [done|].
    split; [apply Hsub in Hs1; in_trace|]. split; [in_trace|]. split; [done|]. split.
    + intros Hf. destruct (Hx Hf) as (x & err & l & ? & ? & ? & ?). exists x, err, l.
      split_and!; [done|done|in_trace|done].
    + by rewrite reports_snoc, Hr2, Hr1.
Qed.

End Vetting.

(** ** The agent's guarantees *)

(** C9 Whatever Docker, the image and the control plane answer, and however the
    consent changes meanwhile, an assigned job gets a container only after
    vetting: the image is on the signed allowlist by its digest, the contributor
    had enabled its category, its USER directive is none of the spellings of root
    the source lists (empty, 0, root, or 0 or root with a group; uid 0 spelled in
    another way is not caught), it runs with a read-only root file system, without capabilities and privilege escalation, on a network of
    its own that has no route out unless the entry asks for one, and with no
    device the entry does not declare.  Nothing is started that was not created so. *)
Theorem containers_are_vetted `{MapOrder} al hw job S (h : forall X, AgentE X -> S -> X * S) s :
  all_along (vetted_exchange al) [] (run h (runJob al hw job) s).1.2.
Proof. apply (always_run h _ s [] _ (runJob_trace al hw job)). Qed.

(** C11 An agent leaves nothing behind: on every path through a job, however calls
    fail, each network and container that was created is asked to be removed
    before the job ends. *)
Theorem runJob_cleans_up `{MapOrder} al hw job S (h : forall X, AgentE X -> S -> X * S) s :
  outstanding (run h (runJob al hw job) s).1.2 = [].
Proof. apply (always_run h _ s [] _ (runJob_trace al hw job)). Qed.

(** C12 The reports on a job follow the protocol of the control plane: a start is
    reported at most once, a completion only after an accepted start, for a
    container that was started and waited for; the code reported is the exit code
    whenever the wait was answered with one (what is reported of a failed wait is
    left open); exhausted scratch space is claimed only for a container that exited
    with a code other than 0 and whose log shows it. *)
Theorem runJob_reports `{MapOrder} al hw job S (h : forall X, AgentE X -> S -> X * S) s :
  reports_ok (je_JobID job) (run h (runJob al hw job) s).1.2.
Proof. apply (always_run h _ s [] _ (runJob_trace al hw job)). Qed.

(** ** Where it falls short *)

(** The executor asks for the consent to printing on the printer with the empty
    id: however many printers the contributor enabled, a print job is refused
    unless one of them has no id. *)
Theorem print_jobs_never_start `{MapOrder} al spec entry S (h : forall X, AgentE X -> S -> X * S) s :
  Lookup al (cs_Image spec) = Ok entry ->
  ae_Type entry = WorkloadPrintTraditional \/ ae_Type entry = WorkloadPrint3D ->
  ro_EnabledPrinters (h _ ReadOptOut s).1 !! "" = None ->
  (run h (Start al spec) s).1 = (Err (ErrWorkloadOptedOut (ae_Type entry)),
                                 [Exch ReadOptOut (h _ ReadOptOut s).1]).
Proof.
  intros Hl Ht Hp. unfold Start. rewrite Hl. simpl. destruct (h _ ReadOptOut s) as [oo s1]. simpl in *.
  assert (IsResourceEnabled oo (ae_Type entry) "" = false) as ->; [|done].
  unfold IsResourceEnabled. rewrite Hp. by destruct Ht as [-> | ->]; destruct (ro_PrintingEnabled oo).
Qed.

Definition sample_hardware : AgentHardware :=
  mkAgentHardware 4 8192 false "" 100 0 "linux" "amd64"
    [mkLocalPrinter "cups:hp" PrinterKindTraditional "hp" "" ""].
Definition sample_assignment : jobEntry := mkJobEntry "j1" "token" sample_image "".
Definition sample_print_assignment : jobEntry := mkJobEntry "j2" "token" sample_print_image "cups:hp".

(** A host that answers well, waits with [wait] and is shut down while the start
    report is under way if [shutdown]; from then on calls under the job's context
    fail.  The state tells whether it was shut down. *)
Definition sample_host (oo : ResourceOptOut) (wait : WaitAnswer) (shutdown : bool) :
    forall X, AgentE X -> bool -> X * bool := fun X e down =>
  let alive (cx : Cx) := match cx with JobCtx => negb down | Background => true end in
  match e in AgentE X return X * bool with
  | ReadOptOut => (oo, down)
  | SetOptOut _ => (tt, down)
  | ImageInspect cx _ => (if alive cx then Ok (Some "worker") else Err InspectFailed, down)
  | ImagePull cx _ => (alive cx, down)
  | NetworkCreate cx _ _ => (if alive cx then Some "net1" else None, down)
  | NetworkRemove cx _ => (alive cx, down)
  | ContainerCreate cx _ => (if alive cx then Some "ctr1" else None, down)
  | ContainerStart cx _ => (alive cx, down)
  | ContainerRemove cx _ => (alive cx, down)
  | ContainerStop cx _ _ => (alive cx, down)
  | ContainerWait cx _ => (if alive cx then wait else WaitError (Some "context canceled"), down)
  | ContainerLogs cx _ => (if alive cx then Some ["write: No space left on device"] else None, down)
  | PostJob _ _ => if shutdown then (None, true) else (Some 200, down)
  | PostHeartbeat _ => (None, down)
  | PostRegister _ | PostPrinters _ => (true, down)
  | SampleCPU | CPUInfo => (None, down)
  | CPUCounts | MemoryTotal | DiskTotal => (None, down)
  | DetectTraditional | Detect3D => (([], false), down)
  | PostClaim _ => (None, down)
  | ReadFile _ => (FileMissing, down)
  | MkdirAll _ | WriteFile _ _ | Rename _ _ => (true, down)
  end.

Definition all_enabled : ResourceOptOut := mkResourceOptOut 1 true true true {[ "cups:hp" := true ]}.

Lemma print_jobs_never_start_witness :
  (run (sample_host all_enabled (WaitExit 0 None) false)
     (Start (H0 := default_order) sample_allowlist
        (container_spec sample_hardware sample_print_assignment "")) false).1.1 =
  Err (ErrWorkloadOptedOut WorkloadPrintTraditional).
Proof.
  rewrite (print_jobs_never_start (H0 := default_order) sample_allowlist _
    (mkEntry "printer" "sha256:cd" WorkloadPrintTraditional EgressNone [] [DeviceCUPSSocket]));
    [done|done|by left|done].
Defined.

(** A job that fails with a full scratch space is reported as such. *)
Example sample_job_reported :
  reports (run (sample_host all_enabled (WaitExit 28 None) false)
    (runJob (H0 := default_order) sample_allowlist sample_hardware sample_assignment) false).1.2 =
  [("/jobs/j1/started", NoBody, Some 200); ("/jobs/j1/complete", CompleteBody 28 true, Some 200)].
Proof. vm_compute. reflexivity. Qed.

(** A wait that fails, say because the connection to Docker is lost, is reported
    as a completion with exit code 0, which the control plane takes for success. *)
Example lost_wait_reported_as_success :
  reports (run (sample_host all_enabled (WaitError (Some "connection reset")) false)
    (runJob (H0 := default_order) sample_allowlist sample_hardware sample_assignment) false).1.2 =
  [("/jobs/j1/started", NoBody, Some 200); ("/jobs/j1/complete", CompleteBody 0 false, Some 200)].
Proof. vm_compute. reflexivity. Qed.

(** An agent that is shut down while it reports a start stops the container under
    the context that was just cancelled: nothing is removed and the container
    keeps running. *)
Example shutdown_leaves_container :
  drop 5 (run (sample_host all_enabled (WaitExit 0 None) true)
    (runJob (H0 := default_order) sample_allowlist sample_hardware sample_assignment) false).1.2 =
  [Exch (PostJob "/jobs/j1/started" NoBody) None; Exch (ContainerStop JobCtx "ctr1" 10) false;
   Exch (ContainerRemove JobCtx "ctr1") false; Exch (NetworkRemove JobCtx "net1") false].
Proof. vm_compute. reflexivity. Qed.

(** A USER directive with an empty name or a padded zero passes the root check. *)
Example root_by_another_name : isRootUser ":0" = false /\ isRootUser "00" = false.
Proof. done. Qed.
