(* ===== verification/AgentSync.v ===== *)
(** The agent against the control plane: the settings a contributor posts in the
    portal reach the matcher and the agent with the next heartbeat (which read the
    same flags with opposite meanings), and the printers the agent has reach the
    control plane. *)
From Stdlib Require Import Ascii.
From S2P Require Import Prelude Float64 Workload Sounding Registry Scheduler Database Lifecycle Effects.
From S2P Require Import Encoding Sha256 Token Allowlist Orchestrator Samples OrchestratorProofs Submission Reroute Dispatch.
From S2P Require Import DispatchProofs Http Operator OperatorProofs OperatorSafety OperatorRuns NodesApi NodesApiProofs Portal PortalProofs.
From S2P Require Import NodeAgent NodeAgentProofs.
Import Types Agent Mapping.
Local Open Scope string_scope.
Local Open Scope list_scope.
Local Open Scope Z_scope.

(** ** Byte order *)

Lemma compare_bytes_flip a b : compare_bytes a b < 0 <-> 0 < compare_bytes b a.
Proof.
  revert b. induction a as [|x a IH]; intros [|y b]; simpl; try lia.
  destruct (Z.ltb_spec x y), (Z.ltb_spec y x); try lia. apply IH.
Qed.

Lemma compare_bytes_trans a b c : compare_bytes a b <= 0 -> compare_bytes b c <= 0 -> compare_bytes a c <= 0.
Proof.
  revert b c. induction a as [|x a IH]; intros [|y b] [|z c]; simpl; try lia.
  destruct (Z.ltb_spec x y), (Z.ltb_spec y x), (Z.ltb_spec y z), (Z.ltb_spec z y),
    (Z.ltb_spec x z), (Z.ltb_spec z x); try lia. apply IH.
Qed.

(** [string_less] is a strict total order. *)
Lemma string_less_false a b : string_less a b = false <-> compare_bytes (bytes_of b) (bytes_of a) <= 0.
Proof.
  unfold string_less, stringsCompareBytes. rewrite Z.ltb_ge.
  pose proof (compare_bytes_flip (bytes_of a) (bytes_of b)).
  pose proof (compare_bytes_flip (bytes_of b) (bytes_of a)). lia.
Qed.

Lemma string_less_weak l : weak_order_on string_less l.
Proof.
  split.
  - intros a b _ _ Hab. apply string_less_false. unfold string_less, stringsCompareBytes in Hab.
    apply Z.ltb_lt in Hab. lia.
  - intros a b c _ _ _. rewrite !string_less_false. intros ??. by eapply compare_bytes_trans.
Qed.

Lemma string_less_total a b : string_less a b = false -> string_less b a = false -> a = b.
Proof.
  rewrite !string_less_false. intros ??. apply stringsCompareBytes_eq. unfold stringsCompareBytes.
  pose proof (compare_bytes_flip (bytes_of a) (bytes_of b)). lia.
Qed.

(** Sorting the ids forgets their order. *)
Lemma isort_ids_perm l l' : l ≡ₚ l' -> isort _ string_less l = isort _ string_less l'.
Proof.
  intros Hp. eapply (StronglySorted_unique_strong (fun a b => string_less b a = false)).
  - intros a b _ _ ??. by apply string_less_total.
  - apply isort_sorted, string_less_weak.
  - apply isort_sorted, string_less_weak.
  - by rewrite <- !isort_perm.
Qed.

(** ** Local printers *)

Lemma same_elements_eq a b : length a = length b -> same_elements a b = true <-> a = b.
Proof.
  revert b. induction a as [|p a IH]; intros [|q b] Hlen; simpl in *; try done.
  case_bool_decide as Hpq; simpl; [|naive_solver]. rewrite IH by lia. subst. naive_solver.
Qed.

(** The agent registers its hardware again exactly when the set of printers
    changed: for printers with distinct ids, the comparison after sorting by id is
    equality up to order, whatever order [sort.Slice] gives to equal elements. *)
Theorem printersEqual_perm srt `{SortSlice srt} a b :
  NoDup (lp_ID <$> a) -> printersEqual srt a b = true <-> a ≡ₚ b.
Proof.
  intros Hnd. unfold printersEqual. destruct (Nat.eqb_spec (length a) (length b)) as [Hlen|Hlen]; simpl.
  2:{ split; [done|]. intros Hp%Permutation_length. done. }
  destruct (Nat.eqb_spec (length a) 0) as [Hz|Hz].
  { destruct a, b; simpl in *; try lia. done. }
  rewrite same_elements_eq by (by rewrite <- !(Permutation_length (sort_perm _ _ _))). split.
  - intros Heq. by rewrite (sort_perm _ id_less a), Heq, <- (sort_perm _ id_less b).
  - intros Hp. eapply (StronglySorted_unique_strong (fun p q => id_less q p = false)).
    + intros p q Hpa Hqb Hpq Hqp. rewrite <- sort_perm in Hpa. rewrite <- sort_perm, <- Hp in Hqb.
      pose proof (string_less_total _ _ Hqp Hpq) as Hid.
      apply list_elem_of_lookup in Hpa as [i Hi], Hqb as [j Hj].
      assert (i = j) as ->.
      { eapply (NoDup_lookup _ i j (lp_ID p) Hnd); rewrite list_lookup_fmap.
        - by rewrite Hi.
        - rewrite Hj. simpl. by rewrite Hid. }
      congruence.
    + apply sort_sorted. destruct (string_less_weak (lp_ID <$> a)) as [Hw1 Hw2]. split.
      * intros p q ??. by apply Hw1; apply list_elem_of_fmap_2.
      * intros p q r ???. by apply Hw2; apply list_elem_of_fmap_2.
    + apply sort_sorted. destruct (string_less_weak (lp_ID <$> b)) as [Hw1 Hw2]. split.
      * intros p q ??. by apply Hw1; apply list_elem_of_fmap_2.
      * intros p q r ???. by apply Hw2; apply list_elem_of_fmap_2.
    + by rewrite <- !sort_perm.
Qed.

Lemma printersEqual_perm_witness :
  let p := mkLocalPrinter "usb:1" PrinterKind3D "a" "" "" in
  let q := mkLocalPrinter "cups:2" PrinterKindTraditional "b" "" "" in
  printersEqual isort [p; q] [q; p] = true <-> [p; q] ≡ₚ [q; p].
Proof.
  intros p q. apply (printersEqual_perm isort). apply (bool_decide_unpack _). vm_compute. exact I.
Defined.

(** Two printers with one id, as two boards of one vendor without serial numbers
    have: a change of their order counts as a change of hardware. *)
Example shared_ids_look_changed :
  let p := mkLocalPrinter "usb:2C99" PrinterKind3D "left" "" "" in
  let q := mkLocalPrinter "usb:2C99" PrinterKind3D "right" "" "" in
  printersEqual isort [p; q] [q; p] = false.
Proof. done. Qed.

Lemma PrinterHash_ids ps : PrinterHash ps = hash_ids (isort _ string_less (lp_ID <$> ps)).
Proof.
  destruct ps as [|p ps]; [done|]. unfold PrinterHash, hash_ids.
  destruct (isort string string_less (lp_ID <$> p :: ps)) eqn:Hs; [|done].
  pose proof (isort_perm string_less (lp_ID <$> p :: ps)) as Hp. rewrite Hs in Hp.
  by apply Permutation_length in Hp.
Qed.

Lemma printers_of_elem d node p r :
  (p, r) ∈ printers_of d node <-> node_printers d !! (node, p) = Some r.
Proof.
  unfold printers_of. rewrite list_elem_of_fmap. setoid_rewrite list_elem_of_filter. split.
  - intros ([[n q] r'] & [= -> ->] & -> & Hin). by apply elem_of_map_to_list in Hin.
  - intros Hl. exists ((node, p), r). split; [done|]. split; [done|]. by apply elem_of_map_to_list.
Qed.

Lemma printers_of_NoDup d node : NoDup (printers_of d node).*1.
Proof.
  unfold printers_of. rewrite <- list_fmap_compose.
  pose proof (NoDup_fst_map_to_list (node_printers d)) as Hnd.
  induction (map_to_list (node_printers d)) as [|[[n p] r] l IH]; [constructor|].
  simpl in Hnd. apply NoDup_cons in Hnd as [Hnin Hnd]. specialize (IH Hnd).
  rewrite filter_cons. case_decide as Hn; [|done]. simpl. subst n. constructor; [|done].
  intros Hin. apply Hnin. apply list_elem_of_fmap in Hin as ([[n' p'] r'] & -> & Hin).
  apply list_elem_of_filter in Hin as [-> Hin]. simpl.
  apply list_elem_of_fmap. by exists ((node, p'), r').
Qed.

(** The control plane knows exactly the printers the agent has. *)
Definition printers_known (d : DB) (node : string) (ps : list PrinterInfo) : Prop :=
  forall id, is_Some (node_printers d !! (node, id)) <-> id ∈ lp_ID <$> ps.

Lemma printer_hashes_agree d node ps :
  NoDup (lp_ID <$> ps) -> printers_known d node ps ->
  PrinterHash ps = hash_ids (node_printer_ids string_less d node).
Proof.
  intros Hnd Hk. rewrite PrinterHash_ids. unfold node_printer_ids. f_equal. apply isort_ids_perm.
  apply NoDup_Permutation; [done|apply printers_of_NoDup|]. intros id. rewrite <- (Hk id).
  rewrite list_elem_of_fmap. split.
  - intros [r Hr]. exists (id, r). split; [done|]. by apply printers_of_elem.
  - intros ([p r] & -> & Hin). apply printers_of_elem in Hin. by exists r.
Qed.

(** ** The agent and the control plane *)

Section Sync.
Context (collate : string -> string -> bool) (ctx : Ctx).
(** The answers of the host to everything else. *)
Context (other : forall X, AgentE X -> X).

(** The handlers of the node API answer the agent; the state is the world of the
    control plane and the agent's consent store. *)
Definition control_plane : forall X, AgentE X -> World * ResourceOptOut -> X * (World * ResourceOptOut) :=
  fun X e '(w, oo) =>
  match e in AgentE X return X * (World * ResourceOptOut) with
  | ReadOptOut => (oo, (w, oo))
  | SetOptOut oo' => (tt, (w, oo'))
  | PostHeartbeat req =>
      match handleHeartbeat collate ctx (Decoded req) w with
      | (Ok (Ok resp), w') => (Some resp, (w', oo))
      | (_, w') => (None, (w', oo))
      end
  | PostPrinters req =>
      match handleReportPrinters ctx (Decoded req) w with
      | (Ok (Ok _), w') => (true, (w', oo))
      | (_, w') => (false, (w', oo))
      end
  | e => (other _ e, (w, oo))
  end.

(** The agent holds the consent the control plane stores. *)
Definition in_sync (d : DB) (node : string) (oo : ResourceOptOut) : Prop :=
  exists n, nodes d !! node = Some n /\ ro_Version oo = n_opt_out_version n /\
    ro_ComputeEnabled oo = n_opt_out_compute n /\ ro_StorageEnabled oo = n_opt_out_storage n /\
    ro_PrintingEnabled oo = n_opt_out_printing n /\
    forall p, default false (ro_EnabledPrinters oo !! p) = enabled_at (node_printers d) (node, p).

(** It holds that consent or an older version. *)
Definition lagging (d : DB) (node : string) (oo : ResourceOptOut) : Prop :=
  in_sync d node oo \/ exists n, nodes d !! node = Some n /\ ro_Version oo < n_opt_out_version n.

Lemma enabled_printers_lookup d node p :
  default false (enabled_printers d node !! p) = enabled_at (node_printers d) (node, p).
Proof.
  unfold enabled_printers, enabled_at.
  destruct (node_printers d !! (node, p)) as [r|] eqn:Hr; simpl.
  - destruct (pr_enabled r) eqn:Hen.
    + rewrite (elem_of_list_to_map_1' _ p true); [done| |].
      * intros y. rewrite list_elem_of_fmap. intros ([p' r'] & [= -> ->] & _). done.
      * apply list_elem_of_fmap. exists (p, r). split; [done|]. apply list_elem_of_filter.
        split; [done|]. by apply printers_of_elem.
    + rewrite not_elem_of_list_to_map_1; [done|]. rewrite <- list_fmap_compose, list_elem_of_fmap.
      intros ([p' r'] & -> & Hin). apply list_elem_of_filter in Hin as [He Hin].
      apply printers_of_elem in Hin. simpl in *. congruence.
  - rewrite not_elem_of_list_to_map_1; [done|]. rewrite <- list_fmap_compose, list_elem_of_fmap.
    intros ([p' r'] & -> & Hin). apply list_elem_of_filter in Hin as [He Hin].
    apply printers_of_elem in Hin. simpl in *. congruence.
Qed.
Lemma handleReportPrinters_calm req w :
  calm w -> rp_NodeID req <> "" -> is_node ctx (rp_NodeID req) = true ->
  is_Some (nodes (w_db w) !! rp_NodeID req) ->
  handleReportPrinters ctx (Decoded req) w = (Ok (Ok tt), w <| w_db := (w_db w) <| node_printers :=
    upsert_rows (w_now w) (rp_NodeID req) (rp_Printers req) (node_printers (w_db w)) |> |>).
Proof.
  intros Hc Hid Hn Hk. unfold handleReportPrinters. erewrite hbind_ok by done.
  rewrite (bool_decide_eq_false_2 (rp_NodeID req = "")) by done. erewrite hbind_ok by done.
  erewrite hbind_ok by (by apply require_node_ok). by apply or_reject_ok, upsert_printers_run.
Qed.

(** The consent of an answered heartbeat: what was pushed, or what was there. *)
Definition received (resp : heartbeatResponse) (oo : ResourceOptOut) : ResourceOptOut :=
  match hr_OptOut resp with Some o => pushed o | None => oo end.

Context (marshalOptOut : ResourceOptOut -> string) (optOutDir optOutPath : string).

Local Notation agent_heartbeat := (AgentHeartbeat marshalOptOut optOutDir optOutPath).

Lemma SaveOptOutToFile_state oo s :
  exists b, finish control_plane (SaveOptOutToFile marshalOptOut optOutDir optOutPath oo) s = (b, s).
Proof.
  unfold SaveOptOutToFile. destruct s as [w o].
  erewrite finish_bind_call by reflexivity. destruct (other _ _); cbn [negb]; [|by eexists].
  erewrite finish_bind_call by reflexivity. destruct (other _ _); cbn [negb]; [|by eexists].
  rewrite finish_call. by eexists.
Qed.

Lemma receive_state resp w oo :
  finish control_plane (match hr_OptOut resp with
    | None => mret tt
    | Some o => _ ← call (SetOptOut (pushed o));
                _ ← SaveOptOutToFile marshalOptOut optOutDir optOutPath (pushed o); mret tt
    end) (w, oo) = (tt, (w, received resp oo)).
Proof.
  unfold received. destruct (hr_OptOut resp) as [o|]; [|done].
  erewrite finish_bind_call by reflexivity. cbn [control_plane].
  destruct (SaveOptOutToFile_state (pushed o) (w, pushed o)) as [b Hb].
  by erewrite finish_bind by exact Hb.
Qed.

(** The registry entry holds the settings of the node's row and printers. *)
Definition told (d : DB) (node : string) (n : NodeRow) (e : NodeEntry) : Prop :=
  OptOutCompute e = n_opt_out_compute n /\ OptOutStorage e = n_opt_out_storage n /\
  OptOutPrinting e = n_opt_out_printing n /\
  (HasEnabledPrinter e = true <-> exists p, enabled_at (node_printers d) (node, p) = true).

Lemma has_enabled_printer d node :
  existsb (fun '(_, r) => pr_enabled r) (printers_of d node) = true <->
  exists p, enabled_at (node_printers d) (node, p) = true.
Proof.
  rewrite existsb_exists. unfold enabled_at. split.
  - intros ([p r] & Hin & Hr). apply list_elem_of_In, printers_of_elem in Hin. exists p. by rewrite Hin.
  - intros [p Hp]. destruct (node_printers d !! (node, p)) as [r|] eqn:Hr; [|done].
    exists (p, r). split; [|done]. by apply list_elem_of_In, printers_of_elem.
Qed.

(** The heartbeat of a node that is known and calm: the agent ends with what the
    control plane stores, if it had that or less; the control plane ends with the
    printers of the agent added when their hashes differ. *)
Lemma AgentHeartbeat_run cfg hw w oo n e :
  calm w -> ac_NodeID cfg <> "" -> is_node ctx (ac_NodeID cfg) = true ->
  nodes (w_db w) !! ac_NodeID cfg = Some n -> w_reg w !! ac_NodeID cfg = Some e ->
  lagging (w_db w) (ac_NodeID cfg) oo ->
  exists w' oo', finish control_plane (agent_heartbeat cfg hw) (w, oo) = (true, (w', oo')) /\
    calm w' /\ in_sync (w_db w') (ac_NodeID cfg) oo' /\
    (exists e', w_reg w' !! ac_NodeID cfg = Some e' /\ told (w_db w) (ac_NodeID cfg) n e') /\
    nodes (w_db w') !! ac_NodeID cfg =
      Some (n <| n_last_heartbeat_at := Some (w_now w) |> <| n_updated_at := w_now w |>) /\
    node_printers (w_db w') =
      if bool_decide (PrinterHash (ah_Printers hw) = hash_ids (node_printer_ids collate (w_db w) (ac_NodeID cfg)))
      then node_printers (w_db w)
      else upsert_rows (w_now w) (ac_NodeID cfg) (printer_payload <$> ah_Printers hw) (node_printers (w_db w)).
Proof.
  intros Hc Hid Hn Hrow Hreg Hlag. unfold AgentHeartbeat.
  erewrite finish_bind_call by reflexivity. cbn [control_plane].
  set (cpu := other _ SampleCPU ≫= head).
  rewrite (finish_bind _ sampleCPUPct _ _ cpu (w, oo)) by (unfold sampleCPUPct; by erewrite finish_bind_call by reflexivity).
  set (req := mkHeartbeatRequest _ _ _ _ _).
  pose proof (Heartbeat_effects collate ctx req n w Hc Hid Hn Hrow) as He. simpl in He. rewrite Hreg in He.
  destruct He as (resp & w1 & e1 & Hrun & Hreg1 & _ & _ & _ & Hoc & Hos & Hop & Hhp & _ & _ & _ & _ & _ & Hrow1 &
    Hprs & Hnow & Hc1 & Hpush & Hreq).
  assert (Htold : told (w_db w) (ac_NodeID cfg) n e1).
  { split_and!; [done..|]. rewrite Hhp. apply has_enabled_printer. }
  erewrite finish_bind_call; last first.
  { cbn [control_plane]. rewrite Hrun. reflexivity. }
  cbv beta iota. erewrite finish_bind by apply receive_state.
  assert (Hsync : in_sync (w_db w1) (ac_NodeID cfg) (received resp oo)).
  { unfold in_sync, received. eexists. split; [exact Hrow1|]. rewrite Hpush, Hprs.
    destruct (Z.ltb_spec (ro_Version oo) (n_opt_out_version n)) as [Hv|Hv]; simpl.
    - do 4 (split; [done|]). intros p. apply enabled_printers_lookup.
    - destruct Hlag as [(n' & Hn' & Hs)|(n' & Hn' & Hs)]; simplify_eq; [|lia]. done. }
  rewrite Hreq. destruct (bool_decide _) eqn:Hhash; cbn [negb].
  - erewrite finish_bind by apply finish_ret. eexists _, _. split; [reflexivity|].
    split; [done|]. split; [done|]. split; [exists e1; by rewrite Hreg1, lookup_insert_eq|].
    split; [exact Hrow1|done].
  - erewrite finish_bind; last first.
    { erewrite finish_bind; [apply finish_ret|]. unfold ReportPrinters. rewrite finish_call.
      cbn [control_plane]. rewrite handleReportPrinters_calm; [reflexivity|done..|].
      simpl. rewrite Hrow1. by eexists. }
    eexists _, _. split; [reflexivity|]. split; [done|]. split; [|split; [|split]].
    + destruct Hsync as (n' & ? & ? & ? & ? & ? & Hp). exists n'. do 5 (split; [done|]). intros p.
      simpl. by rewrite upsert_rows_enabled.
    + exists e1. simpl. by rewrite Hreg1, lookup_insert_eq.
    + exact Hrow1.
    + simpl. by rewrite Hprs, Hnow.
Qed.

(** The owner's post followed by the agent's heartbeat. *)
Lemma post_then_heartbeat user b cfg hw w oo n e :
  calm w -> w_tx w = None -> ac_NodeID cfg <> "" -> TrimSpace (op_NodeID b) = ac_NodeID cfg ->
  is_node ctx (ac_NodeID cfg) = true ->
  nodes (w_db w) !! ac_NodeID cfg = Some n -> n_participant_id n = user ->
  w_reg w !! ac_NodeID cfg = Some e -> ro_Version oo <= n_opt_out_version n ->
  0 <= n_opt_out_version n < 2 ^ 31 - 1 -> Forall (fun '(p, _) => pg_text p = true) (op_Printers b) ->
  exists v w1 w' oo' e', handlePostOptOut user (Decoded b) w = (Ok (Ok v), w1) /\
    finish control_plane (agent_heartbeat cfg hw) (w1, oo) = (true, (w', oo')) /\
    w_reg w' !! ac_NodeID cfg = Some e' /\
    (OptOutCompute e' = op_Compute b /\ OptOutStorage e' = op_Storage b /\ OptOutPrinting e' = op_Printing b) /\
    (HasEnabledPrinter e' = true <->
       exists p, posted_printer (op_Printers b) (node_printers (w_db w)) (ac_NodeID cfg) p = true) /\
    (ro_ComputeEnabled oo' = op_Compute b /\ ro_StorageEnabled oo' = op_Storage b /\
       ro_PrintingEnabled oo' = op_Printing b /\ ro_Version oo' = v) /\
    (forall p, default false (ro_EnabledPrinters oo' !! p) =
       posted_printer (op_Printers b) (node_printers (w_db w)) (ac_NodeID cfg) p).
Proof.
  intros Hc Htx Hid Htrim Hnode Hn Hown Hreg Hv Hmax Hps.
  destruct (PostOptOut_outcome user b w Hc Htx) as (r & w1 & Hpost & _ & Hreg1 & Hc1 & Hout);
    [by rewrite Htrim|done| |].
  { rewrite Htrim, Hn. intros ? [= <-]. unfold int4. rewrite (proj2 (Z.leb_le _ _)), (proj2 (Z.ltb_lt _ _)) by lia. done. }
  rewrite Htrim, Hn, (bool_decide_eq_true_2 _ Hown) in Hout. destruct Hout as (-> & Hnodes & Hprs).
  set (n1 := n <| n_opt_out_compute := op_Compute b |> <| n_opt_out_storage := op_Storage b |>
    <| n_opt_out_printing := op_Printing b |> <| n_opt_out_version := n_opt_out_version n + 1 |>
    <| n_opt_out_updated_at := w_now w |>) in *.
  assert (Hn1 : nodes (w_db w1) !! ac_NodeID cfg = Some n1) by (by rewrite Hnodes, lookup_insert_eq).
  destruct (AgentHeartbeat_run cfg hw w1 oo n1 e) as (w' & oo' & Hrun & _ & Hsync & (e' & He' & Htold) & Hrow & Hprs');
    try done.
  { by rewrite Hreg1. }
  { right. exists n1. split; [done|]. unfold n1. simpl. lia. }
  destruct Hsync as (n' & Hn' & Hsv & Hsc & Hss & Hsp & Hpr). rewrite Hrow in Hn'. injection Hn' as <-.
  destruct Htold as (Htc & Hts & Htp & Hth).
  exists (n_opt_out_version n + 1), w1, w', oo', e'. split_and!; try done.
  - rewrite Hth, Hprs. by setoid_rewrite set_flags_enabled.
  - intros p. rewrite Hpr, Hprs'.
    destruct (bool_decide _); rewrite ?upsert_rows_enabled, Hprs; apply set_flags_enabled.
Qed.

(** C10 An opt-out posted in the portal takes effect with the node's next heartbeat.
    In a run in which no statement fails and nobody else acts, when the owner posts
    the settings of a node (the wire values are opt-outs: true takes the node out;
    printer ids are TEXT, the version can still be raised within its INTEGER) and
    the agent then sends a heartbeat, starting from any earlier version: no
    request for compute is matched with the node if compute was opted out, none for
    storage if storage was, and none for printing if printing was or if no printer
    of the node is left enabled; and the agent holds the new version and exactly
    the printers the post leaves enabled (for each printer of the node the last
    flag posted for it, or the stored one if none was; no other printer). *)
Theorem posted_opt_out_takes_effect `{MapOrder} user b cfg hw w oo n e :
  calm w -> w_tx w = None -> ac_NodeID cfg <> "" -> TrimSpace (op_NodeID b) = ac_NodeID cfg ->
  is_node ctx (ac_NodeID cfg) = true ->
  nodes (w_db w) !! ac_NodeID cfg = Some n -> n_participant_id n = user ->
  w_reg w !! ac_NodeID cfg = Some e -> ro_Version oo <= n_opt_out_version n ->
  0 <= n_opt_out_version n < 2 ^ 31 - 1 -> Forall (fun '(p, _) => pg_text p = true) (op_Printers b) ->
  let enabled := posted_printer (op_Printers b) (node_printers (w_db w)) (ac_NodeID cfg) in
  exists v w1 w' oo' e', handlePostOptOut user (Decoded b) w = (Ok (Ok v), w1) /\
    finish control_plane (agent_heartbeat cfg hw) (w1, oo) = (true, (w', oo')) /\
    w_reg w' !! ac_NodeID cfg = Some e' /\
    (forall req l, FindMatch req (w_reg w') = Ok l -> e' ∈ l ->
       (MarketplaceToAgent (mr_WorkloadType req) = Ok WorkloadCompute -> op_Compute b = false) /\
       (MarketplaceToAgent (mr_WorkloadType req) = Ok WorkloadStorage -> op_Storage b = false) /\
       (is_print (mr_WorkloadType req) = true -> op_Printing b = false /\ exists p, enabled p = true)) /\
    ro_Version oo' = v /\ (forall p, default false (ro_EnabledPrinters oo' !! p) = enabled p).
Proof.
  intros Hc Htx Hid Htrim Hnode Hn Hown Hreg Hv Hmax Hps enabled.
  destruct (post_then_heartbeat user b cfg hw w oo n e Hc Htx Hid Htrim Hnode Hn Hown Hreg Hv Hmax Hps)
    as (v & w1 & w' & oo' & e' & Hpost & Hrun & He' & (Hoc & Hos & Hop) & Hhp & (_ & _ & _ & Hver) & Hpr).
  exists v, w1, w', oo', e'. split_and!; try done. intros req l Hf Hin.
  apply (FindMatch_elem _ _ _ _ Hf) in Hin as [Hm _]. apply node_matches_eligible in Hm.
  destruct Hm as (_ & _ & _ & _ & _ & _ & _ & _ & Hno). rewrite <- opted_out_refuses in Hno.
  apply not_true_iff_false in Hno. split_and!.
  - intros Ht. rewrite (opted_out_compute _ _ Ht) in Hno. congruence.
  - intros Ht. rewrite (opted_out_storage _ _ Ht) in Hno. congruence.
  - intros Ht. rewrite (opted_out_print _ _ Ht), Hop in Hno. apply orb_false_elim in Hno as [Hno Hn0].
    split; [done|]. apply Hhp. by apply negb_false_iff.
Qed.

(** The agent reads the same wire values the other way round: after the post and the
    heartbeat of [posted_opt_out_takes_effect] it runs a category exactly when the
    owner opted out of it. *)
Theorem posted_opt_out_inverted_at_agent user b cfg hw w oo n e :
  calm w -> w_tx w = None -> ac_NodeID cfg <> "" -> TrimSpace (op_NodeID b) = ac_NodeID cfg ->
  is_node ctx (ac_NodeID cfg) = true ->
  nodes (w_db w) !! ac_NodeID cfg = Some n -> n_participant_id n = user ->
  w_reg w !! ac_NodeID cfg = Some e -> ro_Version oo <= n_opt_out_version n ->
  0 <= n_opt_out_version n < 2 ^ 31 - 1 -> Forall (fun '(p, _) => pg_text p = true) (op_Printers b) ->
  exists v w1 w' oo', handlePostOptOut user (Decoded b) w = (Ok (Ok v), w1) /\
    finish control_plane (agent_heartbeat cfg hw) (w1, oo) = (true, (w', oo')) /\
    IsResourceEnabled oo' WorkloadCompute "" = op_Compute b /\
    IsResourceEnabled oo' WorkloadStorage "" = op_Storage b /\
    ro_PrintingEnabled oo' = op_Printing b.
Proof.
  intros Hc Htx Hid Htrim Hnode Hn Hown Hreg Hv Hmax Hps.
  destruct (post_then_heartbeat user b cfg hw w oo n e Hc Htx Hid Htrim Hnode Hn Hown Hreg Hv Hmax Hps)
    as (v & w1 & w' & oo' & e' & Hpost & Hrun & _ & _ & _ & (? & ? & ? & _) & _).
  by exists v, w1, w', oo'.
Qed.

(** The printers settle: an agent whose printers have distinct ids and include
    every printer the control plane remembers needs one heartbeat; after it the
    control plane knows exactly those printers, and both sides compute the same
    hash, so that no further report is asked for.  The collation of the printer
    column must be the byte order. *)
Theorem printers_settle cfg hw w oo n e :
  collate = string_less ->
  calm w -> ac_NodeID cfg <> "" -> is_node ctx (ac_NodeID cfg) = true ->
  nodes (w_db w) !! ac_NodeID cfg = Some n -> w_reg w !! ac_NodeID cfg = Some e ->
  lagging (w_db w) (ac_NodeID cfg) oo ->
  NoDup (lp_ID <$> ah_Printers hw) ->
  (forall id, is_Some (node_printers (w_db w) !! (ac_NodeID cfg, id)) -> id ∈ lp_ID <$> ah_Printers hw) ->
  exists w' oo', finish control_plane (agent_heartbeat cfg hw) (w, oo) = (true, (w', oo')) /\
    (PrinterHash (ah_Printers hw) <> hash_ids (node_printer_ids collate (w_db w) (ac_NodeID cfg)) ->
       printers_known (w_db w') (ac_NodeID cfg) (ah_Printers hw)) /\
    PrinterHash (ah_Printers hw) = hash_ids (node_printer_ids collate (w_db w') (ac_NodeID cfg)).
Proof.
  intros Hcol Hc Hid Hnode Hn Hreg Hlag Hnd Hsub.
  destruct (AgentHeartbeat_run cfg hw w oo n e) as (w' & oo' & Hrun & _ & _ & _ & _ & Hprs); try done.
  exists w', oo'. split; [done|]. case_bool_decide as Hh.
  - split; [done|]. unfold node_printer_ids, printers_of in *. by rewrite Hprs.
  - assert (Hk : printers_known (w_db w') (ac_NodeID cfg) (ah_Printers hw)).
    { intros id. rewrite Hprs, upsert_rows_dom. split.
      - intros [Hs|(p & Hp & [= ->])]; [by apply Hsub|].
        apply list_elem_of_fmap in Hp as (q & -> & Hq). apply list_elem_of_fmap. by exists q.
      - intros Hin. right. apply list_elem_of_fmap in Hin as (q & -> & Hq).
        exists (printer_payload q). split; [by apply list_elem_of_fmap_2|done]. }
    split; [done|]. rewrite Hcol. by apply printer_hashes_agree.
Qed.
End Sync.

(** ** On the sample system *)

Definition sample_agent : AgentConfig := mkAgentConfig "n1" "owner" "A" "US" "r".
Definition idle_host : forall X, AgentE X -> X := fun X e => (sample_host all_enabled (WaitExit 0 None) false X e false).1.

(** The owner opts out of compute and storage and enables the printer. *)
Lemma posted_opt_out_takes_effect_witness :
  exists v w1 w' oo' e', handlePostOptOut "owner" (Decoded (mkOptOutPost "n1" true true false [("p1", true)])) sample_world
      = (Ok (Ok v), w1) /\
    finish (control_plane sample_collate (as_node "n1") idle_host)
      (AgentHeartbeat (fun _ => "{}") "." "opt-out.json" sample_agent sample_hardware) (w1, DefaultOptOut)
      = (true, (w', oo')) /\
    w_reg w' !! "n1" = Some e' /\
    (forall l, FindMatch (H := default_order) (match_request sample_request) (w_reg w') = Ok l -> e' ∉ l) /\
    default false (ro_EnabledPrinters oo' !! "p1") = true.
Proof.
  destruct (posted_opt_out_takes_effect (H0 := default_order) sample_collate (as_node "n1") idle_host (fun _ => "{}") "."
    "opt-out.json" "owner" (mkOptOutPost "n1" true true false [("p1", true)]) sample_agent sample_hardware
    sample_world DefaultOptOut sample_node_row sample_entry)
    as (v & w1 & w' & oo' & e' & Hpost & Hrun & He & Hmatch & _ & Hprs).
  - split; reflexivity.
  - reflexivity.
  - done.
  - reflexivity.
  - reflexivity.
  - reflexivity.
  - reflexivity.
  - reflexivity.
  - vm_compute. discriminate.
  - by vm_compute.
  - by repeat constructor.
  - exists v, w1, w', oo', e'. split; [exact Hpost|]. split; [exact Hrun|]. split; [exact He|]. split.
    + intros l Hl Hin. destruct (Hmatch _ _ Hl Hin) as [Hcompute _]. discriminate Hcompute. reflexivity.
    + rewrite Hprs. reflexivity.
Defined.

Definition two_printers : AgentHardware :=
  mkAgentHardware 4 8192 false "" 100 0 "linux" "amd64"
    [mkLocalPrinter "p1" PrinterKindTraditional "Laser" "" ""; mkLocalPrinter "cups:hp" PrinterKindTraditional "hp" "" ""].
Definition printer_consent : ResourceOptOut := mkResourceOptOut 0 false false false {[ "p1" := true ]}.

Lemma printers_settle_witness :
  exists w' oo',
    finish (control_plane string_less (as_node "n1") idle_host)
      (AgentHeartbeat (fun _ => "{}") "." "opt-out.json" sample_agent two_printers)
      (sample_world, printer_consent) = (true, (w', oo')) /\
    PrinterHash (ah_Printers two_printers) = hash_ids (node_printer_ids string_less (w_db w') "n1").
Proof.
  destruct (printers_settle string_less (as_node "n1") idle_host (fun _ => "{}") "." "opt-out.json"
    sample_agent two_printers sample_world printer_consent sample_node_row sample_entry)
    as (w' & oo' & Hrun & _ & Hhash).
  - reflexivity.
  - split; reflexivity.
  - done.
  - reflexivity.
  - reflexivity.
  - reflexivity.
  - left. exists sample_node_row. split; [reflexivity|]. do 4 (split; [reflexivity|]). intros p.
    unfold enabled_at. destruct (decide (p = "p1")) as [->|Hp]; [reflexivity|].
    simpl. by rewrite !lookup_singleton_ne by congruence.
  - apply (bool_decide_unpack _). vm_compute. exact I.
  - intros id [r Hr]. simpl in Hr. apply lookup_singleton_Some in Hr as [[= <-] _]. constructor.
  - exists w', oo'. split; [exact Hrun|exact Hhash].
Defined.

(** Under a collation that ignores case, as the locales of PostgreSQL do, the two
    sides sort the same printers differently and the hashes never meet. *)
Definition ignoring_case (a b : string) : bool := String.ltb (ToLower a) (ToLower b).

Example collation_breaks_the_hash :
  let ps := [mkLocalPrinter "cups:B" PrinterKindTraditional "" "" "";
             mkLocalPrinter "cups:a" PrinterKindTraditional "" "" ""] in
  let d := sample_db <| node_printers := {[ ("n1", "cups:B") := mkPrinter "" false 0;
                                            ("n1", "cups:a") := mkPrinter "" false 0 ]} |> in
  bool_decide (PrinterHash ps = hash_ids (node_printer_ids ignoring_case d "n1")) = false.
Proof. vm_compute. reflexivity. Qed.

(** A printer that is gone stays in the table: the agent's list differs from the
    one the control plane remembers before and after the report, so a report is
    asked for with every heartbeat. *)
Example lost_printer_never_settles :
  let hw := sample_hardware in
  let '(_, (w', _)) := finish (control_plane string_less (as_node "n1") idle_host)
    (AgentHeartbeat (fun _ => "{}") "." "opt-out.json" sample_agent hw) (sample_world, printer_consent) in
  bool_decide (PrinterHash (ah_Printers hw) = hash_ids (node_printer_ids string_less (w_db w') "n1")) = false.
Proof. vm_compute. reflexivity. Qed.
