(* ===== verification/Profile.v ===== *)
(** Resource profiles of a node (internal/agent/profile.go): which profile applies
    at a moment, and the limits it stands for.

    A [time.Time] is what the source reads of it: the day in its location, counted
    from 1970-01-01, and the seconds since midnight. *)
From Stdlib Require Import Ascii.
From S2P Require Import Prelude Float64 Workload Sounding Registry Scheduler Database Lifecycle Effects.
From S2P Require Import Encoding Sha256 Token Allowlist Orchestrator Http NodesApi Operator NodeAgent.
Local Open Scope string_scope.
Local Open Scope list_scope.
Local Open Scope Z_scope.

Record Time := mkTime { t_day : Z; t_seconds : Z }.

(** ** The calendar *)

(** [t.Date()]: the proleptic Gregorian date of a day.  Eras of 400 years start on
    March 1; within one, [yoe] is the year and [doy] the day of the year. *)
Definition date_in_year (yoe doy : Z) : Z * Z * Z :=
  let mp := (5 * doy + 2) / 153 in
  let m := if mp <? 10 then mp + 3 else mp - 9 in
  (if m <=? 2 then yoe + 1 else yoe, m, doy - (153 * mp + 2) / 5 + 1).
Definition year_start (y : Z) : Z := 365 * y + y / 4 - y / 100.
Definition year_of_era (doe : Z) : Z := (doe - doe / 1460 + doe / 36524 - doe / 146096) / 365.
Definition date_of_era (doe : Z) : Z * Z * Z :=
  date_in_year (year_of_era doe) (doe - year_start (year_of_era doe)).
Definition date_of (day : Z) : Z * Z * Z :=
  let '(y, m, d) := date_of_era ((day + 719468) mod 146097) in
  (y + 400 * ((day + 719468) / 146097), m, d).

(** [t.Weekday().String()[:3]] in lower case; day 0 is a Thursday. *)
Definition weekday (day : Z) : string :=
  default "" (["sun"; "mon"; "tue"; "wed"; "thu"; "fri"; "sat"] !! Z.to_nat ((day + 4) mod 7)).

(** [t.Clock()] *)
Definition clock_of (s : Z) : Z * Z * Z := (s / 3600, s mod 3600 / 60, s mod 60).

(** ** Profiles *)

Record ResourceProfile := mkResourceProfile {
  rp_IsDefault : bool; rp_CPUEnabled : bool; rp_GPUPct : Z; rp_RAMPct : Z; rp_StorageGB : Z;
  rp_BandwidthMbps : Z; rp_ScheduleStart : option Time; rp_ScheduleEnd : option Time;
  rp_ScheduleDays : list string; rp_OverrideStartDate : option Time;
  rp_OverrideEndDate : option Time }.

Definition zero_profile : ResourceProfile :=
  mkResourceProfile false false 0 0 0 0 None None [] None None.

Definition dateLess (a b : Z * Z * Z) : bool :=
  let '(y1, m1, d1) := a in let '(y2, m2, d2) := b in
  if negb (y1 =? y2) then y1 <? y2 else if negb (m1 =? m2) then m1 <? m2 else d1 <? d2.

Definition dateGreater (a b : Z * Z * Z) : bool :=
  let '(y1, m1, d1) := a in let '(y2, m2, d2) := b in
  if negb (y1 =? y2) then y2 <? y1 else if negb (m1 =? m2) then m2 <? m1 else d2 <? d1.

Definition inDateWindow (now : Time) (start end_ : option Time) : bool :=
  let today := date_of (t_day now) in
  if match start with Some s => dateLess today (date_of (t_day s)) | None => false end then false
  else if match end_ with Some e => dateGreater today (date_of (t_day e)) | None => false end then false
  else true.

Fixpoint day_listed (today : string) (days : list string) : bool :=
  match days with
  | [] => false
  | d :: rest => if bool_decide (ToLower d = today) then true else day_listed today rest
  end.

Definition inDayWindow (now : Time) (days : list string) : bool :=
  if (length days =? 0)%nat then true else day_listed (weekday (t_day now)) days.

Definition todSeconds (t : Time) : Z :=
  let '(h, m, s) := clock_of (t_seconds t) in h * 3600 + m * 60 + s.

Definition inTimeWindow (now : Time) (start end_ : option Time) : bool :=
  match start, end_ with
  | Some start, Some end_ =>
      let nowD := todSeconds now in
      let startD := todSeconds start in
      let endD := todSeconds end_ in
      if startD <=? endD then (startD <=? nowD) && (nowD <=? endD)
      else (startD <=? nowD) || (nowD <=? endD)
  | _, _ => true
  end.

Definition applies (now : Time) (p : ResourceProfile) : bool :=
  inDateWindow now (rp_OverrideStartDate p) (rp_OverrideEndDate p) &&
  inDayWindow now (rp_ScheduleDays p) && inTimeWindow now (rp_ScheduleStart p) (rp_ScheduleEnd p).

(** The loop of [ActiveProfile]; [def] is the default found so far. *)
Fixpoint active_loop (now : Time) (def : option ResourceProfile) (profiles : list ResourceProfile)
    : ResourceProfile :=
  match profiles with
  | [] => default zero_profile def
  | p :: rest =>
      if rp_IsDefault p then active_loop now (Some p) rest
      else if applies now p then p else active_loop now def rest
  end.
Definition ActiveProfile (profiles : list ResourceProfile) (now : Time) : ResourceProfile :=
  active_loop now None profiles.

(** Division of Go integers truncates; [int] and [int64] have 64 bits. *)
Definition ApplyCaps (profile : ResourceProfile) (hw : AgentHardware) : CapProfile :=
  let ram := to_int64 (to_int64 (to_int64 (ah_RAMMB hw * rp_RAMPct profile) ÷ 100 * 1024) * 1024) in
  mkCapProfile (rp_CPUEnabled profile) (if rp_CPUEnabled profile then ah_CPUCores hw else 0) ram
    (if 0 <? rp_StorageGB profile
     then to_int64 (to_int64 (to_int64 (rp_StorageGB profile * 1024) * 1024) * 1024) else 0)
    (rp_BandwidthMbps profile).

(** ** Dates are ordered as days *)

Definition shift_years (k : Z) (a : Z * Z * Z) : Z * Z * Z := let '(y, m, d) := a in (y + 400 * k, m, d).

Lemma date_of_era_eq day :
  date_of day = shift_years ((day + 719468) / 146097) (date_of_era ((day + 719468) mod 146097)).
Proof. unfold date_of, shift_years. by destruct (date_of_era _) as [[??]?]. Qed.

Lemma dateLess_shift k a b : dateLess (shift_years k a) (shift_years k b) = dateLess a b.
Proof.
  destruct a as [[y1 m1] d1], b as [[y2 m2] d2]. simpl.
  assert ((y1 + 400 * k =? y2 + 400 * k) = (y1 =? y2)) as -> by lia.
  assert ((y1 + 400 * k <? y2 + 400 * k) = (y1 <? y2)) as -> by lia. done.
Qed.

Lemma dateLess_trans a b c : dateLess a b = true -> dateLess b c = true -> dateLess a c = true.
Proof.
  destruct a as [[y1 m1] d1], b as [[y2 m2] d2], c as [[y3 m3] d3]. simpl.
  repeat match goal with |- context [?x =? ?y] => destruct (Z.eqb_spec x y); simpl end; lia.
Qed.

Lemma dateGreater_flip a b : dateGreater a b = dateLess b a.
Proof.
  destruct a as [[y1 m1] d1], b as [[y2 m2] d2]. simpl. rewrite (Z.eqb_sym y2), (Z.eqb_sym m2). done.
Qed.

Lemma date_in_year_ascends y doy :
  0 <= doy < 365 -> dateLess (date_in_year y doy) (date_in_year y (doy + 1)) = true.
Proof.
  intros Hd. unfold date_in_year.
  assert (Hmp : (5 * (doy + 1) + 2) / 153 = (5 * doy + 2) / 153 \/
    ((5 * (doy + 1) + 2) / 153 = (5 * doy + 2) / 153 + 1 /\ (5 * doy + 2) / 153 <= 10)) by (Z.to_euclidean_division_equations; lia).
  set (mp := (5 * doy + 2) / 153) in *.
  assert (0 <= mp <= 11) by (unfold mp; Z.to_euclidean_division_equations; lia).
  destruct Hmp as [-> | [-> ?]]; simpl;
    destruct (Z.ltb_spec mp 10), (Z.ltb_spec (mp + 1) 10); try lia; simpl;
    repeat match goal with |- context [?x <=? 2] => destruct (Z.leb_spec x 2) end; try lia;
    repeat match goal with |- context [?x =? ?y] => destruct (Z.eqb_spec x y); simpl end; lia.
Qed.

Lemma year_of_era_spec doe :
  0 <= doe < 146097 -> 0 <= year_of_era doe <= 399 /\ year_start (year_of_era doe) <= doe /\
    (doe < year_start (year_of_era doe + 1) \/ year_of_era doe = 399).
Proof. intros Hd. unfold year_start, year_of_era. Z.to_euclidean_division_equations. lia. Qed.

(** The days of an era follow each other in the calendar. *)
Lemma era_ascends doe : 0 <= doe < 146096 -> dateLess (date_of_era doe) (date_of_era (doe + 1)) = true.
Proof.
  intros Hd. change (dateLess (date_in_year (year_of_era doe) (doe - year_start (year_of_era doe)))
    (date_in_year (year_of_era (doe + 1)) (doe + 1 - year_start (year_of_era (doe + 1)))) = true).
  destruct (year_of_era_spec doe ltac:(lia)) as (Hy & Hlo & Hhi).
  destruct (year_of_era_spec (doe + 1) ltac:(lia)) as (Hy' & Hlo' & Hhi').
  set (y := year_of_era doe) in *. set (y' := year_of_era (doe + 1)) in *. clearbody y y'.
  assert (Hcase : y' = y \/ (y' = y + 1 /\ doe + 1 = year_start y')).
  { unfold year_start in *. Z.to_euclidean_division_equations. lia. }
  assert (Hlen : year_start (y + 1) - year_start y <= 366) by (unfold year_start; Z.to_euclidean_division_equations; lia).
  assert (H365 : 365 <= year_start (y + 1) - year_start y) by (unfold year_start; Z.to_euclidean_division_equations; lia).
  destruct Hcase as [-> | [-> He]].
  - replace (doe + 1 - year_start y) with (doe - year_start y + 1) by lia.
    apply date_in_year_ascends. assert (year_start 399 = 145731) by done.
    destruct Hhi' as [|Hl]; [lia|]. subst y. lia.
  - rewrite He, Z.sub_diag. change (date_in_year (y + 1) 0) with (y + 1, 3, 1).
    assert (Hdoy : doe - year_start y = 364 \/ doe - year_start y = 365) by lia.
    destruct Hdoy as [-> | ->].
    + change (date_in_year y 364) with (y + 1, 2, 28). simpl. rewrite Z.eqb_refl. done.
    + change (date_in_year y 365) with (y + 1, 2, 29). simpl. rewrite Z.eqb_refl. done.
Qed.

Lemma next_day_later day : dateLess (date_of day) (date_of (day + 1)) = true.
Proof.
  rewrite !date_of_era_eq. set (z := day + 719468). replace (day + 1 + 719468) with (z + 1) by lia.
  pose proof (Z.mod_pos_bound z 146097 ltac:(lia)) as Hb.
  pose proof (Z.div_mod z 146097 ltac:(lia)) as Hz.
  destruct (Z.eq_dec (z mod 146097) 146096) as [Hlast|Hlast].
  - assert (Hq : (z + 1) / 146097 = z / 146097 + 1)
      by (symmetry; apply (Z.div_unique _ _ _ 0); lia).
    assert (Hr : (z + 1) mod 146097 = 0)
      by (symmetry; apply (Z.mod_unique _ _ (z / 146097 + 1)); lia).
    rewrite Hq, Hr, Hlast. set (k := z / 146097).
    change (date_of_era 146096) with (400, 2, 29). change (date_of_era 0) with (0, 3, 1).
    simpl. destruct (Z.eqb_spec (400 + 400 * k) (0 + 400 * (k + 1))); simpl; lia.
  - assert (Hq : (z + 1) / 146097 = z / 146097)
      by (symmetry; apply (Z.div_unique _ _ _ (z mod 146097 + 1)); lia).
    assert (Hr : (z + 1) mod 146097 = z mod 146097 + 1)
      by (symmetry; apply (Z.mod_unique _ _ (z / 146097)); lia).
    rewrite Hq, Hr, dateLess_shift. apply era_ascends. lia.
Qed.

Lemma dateLess_irrefl a : dateLess a a = false.
Proof. destruct a as [[y m] d]. simpl. rewrite !Z.eqb_refl. simpl. lia. Qed.

Lemma dateLess_days a b : dateLess (date_of a) (date_of b) = (a <? b).
Proof.
  assert (Hlt : forall a b, a < b -> dateLess (date_of a) (date_of b) = true).
  { clear. intros a b. apply (Z.lt_ind (fun b => dateLess (date_of a) (date_of b) = true)).
    - solve_proper.
    - rewrite <- Z.add_1_r. apply next_day_later.
    - intros c _ Hc. rewrite <- Z.add_1_r. eapply dateLess_trans; [exact Hc|]. apply next_day_later. }
  destruct (Z.ltb_spec a b) as [H|H]; [by apply Hlt|].
  destruct (Z.eq_dec a b) as [->|]; [apply dateLess_irrefl|].
  destruct (dateLess (date_of a) (date_of b)) eqn:Hab; [|done].
  specialize (Hlt b a ltac:(lia)). pose proof (dateLess_trans _ _ _ Hab Hlt) as Haa.
  by rewrite dateLess_irrefl in Haa.
Qed.

(** ** Which profile applies *)

Lemma inDateWindow_days now start end_ :
  inDateWindow now start end_ =
    match start with Some s => t_day s <=? t_day now | None => true end &&
    match end_ with Some e => t_day now <=? t_day e | None => true end.
Proof.
  unfold inDateWindow. destruct start as [s|], end_ as [e|];
    rewrite ?dateGreater_flip, ?dateLess_days, ?Z.ltb_antisym;
    by repeat match goal with |- context [?x <=? ?y] => destruct (x <=? y) end.
Qed.

Lemma day_listed_elem today days : day_listed today days = bool_decide (today ∈ ToLower <$> days).
Proof.
  induction days as [|d days IH]; simpl; [done|].
  rewrite IH. apply eq_true_iff_eq. rewrite bool_decide_eq_true, elem_of_cons.
  destruct (bool_decide_reflect (ToLower d = today)) as [<-|Hd]; [split; [intros _; by left|done]|].
  rewrite bool_decide_eq_true. split; [by right|]. by intros [->|?].
Qed.

Definition in_day (t : Time) : Prop := 0 <= t_seconds t < 86400.

Lemma todSeconds_id t : in_day t -> todSeconds t = t_seconds t.
Proof. unfold in_day, todSeconds, clock_of. intros ?. Z.to_euclidean_division_equations. lia. Qed.

(** The time-of-day window is the arc of the clock from its start to its end, also
    across midnight. *)
Lemma inTimeWindow_arc now s e :
  in_day now -> in_day s -> in_day e ->
  inTimeWindow now (Some s) (Some e) =
    ((t_seconds now - t_seconds s) mod 86400 <=? (t_seconds e - t_seconds s) mod 86400).
Proof.
  intros Hn Hs He. unfold inTimeWindow. rewrite !todSeconds_id by done. unfold in_day in *.
  set (n := t_seconds now) in *. set (a := t_seconds s) in *. set (b := t_seconds e) in *.
  assert (Hmod : forall x, -86400 < x < 86400 -> x mod 86400 = if x <? 0 then x + 86400 else x).
  { intros x Hx. destruct (Z.ltb_spec x 0).
    - symmetry. apply (Z.mod_unique _ _ (-1)); lia.
    - apply Z.mod_small. lia. }
  rewrite !Hmod by lia. clearbody n a b. clear -Hn Hs He.
  destruct (Z.leb_spec a b), (Z.ltb_spec (n - a) 0), (Z.ltb_spec (b - a) 0); simpl;
    repeat match goal with |- context [?x <=? ?y] => destruct (Z.leb_spec x y) end; simpl; lia.
Qed.

(** When an override is in force, in terms of days and of the clock. *)
Definition in_force (now : Time) (p : ResourceProfile) : bool :=
  match rp_OverrideStartDate p with Some s => t_day s <=? t_day now | None => true end &&
  match rp_OverrideEndDate p with Some e => t_day now <=? t_day e | None => true end &&
  (bool_decide (rp_ScheduleDays p = []) ||
   bool_decide (weekday (t_day now) ∈ ToLower <$> rp_ScheduleDays p)) &&
  match rp_ScheduleStart p, rp_ScheduleEnd p with
  | Some s, Some e => (t_seconds now - t_seconds s) mod 86400 <=? (t_seconds e - t_seconds s) mod 86400
  | _, _ => true
  end.

Definition clocked (p : ResourceProfile) : Prop :=
  (forall s, rp_ScheduleStart p = Some s -> in_day s) /\ (forall e, rp_ScheduleEnd p = Some e -> in_day e).

Lemma applies_in_force now p : in_day now -> clocked p -> applies now p = in_force now p.
Proof.
  intros Hn [Hs He]. unfold applies, in_force. rewrite inDateWindow_days.
  f_equal; [f_equal|].
  - unfold inDayWindow. rewrite day_listed_elem.
    by destruct (rp_ScheduleDays p).
  - destruct (rp_ScheduleStart p) as [s|], (rp_ScheduleEnd p) as [e|]; try done.
    apply inTimeWindow_arc; auto.
Qed.

(** The first override in force, else the last default, else the zero profile. *)
Definition override_in_force (now : Time) (p : ResourceProfile) : bool :=
  negb (rp_IsDefault p) && in_force now p.
Definition chosen (now : Time) (profiles : list ResourceProfile) : ResourceProfile :=
  match List.find (override_in_force now) profiles with
  | Some p => p
  | None => default zero_profile (last (filter (fun p => rp_IsDefault p = true) profiles))
  end.

Lemma active_loop_chosen now def profiles :
  in_day now -> Forall clocked profiles ->
  active_loop now def profiles =
    match List.find (override_in_force now) profiles with
    | Some p => p
    | None => default zero_profile (last (filter (fun p => rp_IsDefault p = true) profiles) ∪ def)
    end.
Proof.
  intros Hn Hc. revert def. induction Hc as [|p ps Hp Hps IH]; intros def; simpl; [by destruct def|].
  unfold override_in_force at 1. rewrite filter_cons.
  destruct (rp_IsDefault p) eqn:Hd; simpl.
  - rewrite IH. case_match; [done|].
    destruct (filter _ ps) as [|q qs] eqn:Hf; [by destruct def|].
    change (last (p :: q :: qs)) with (last (q :: qs)).
    destruct (last (q :: qs)) eqn:Hl; [by destruct def|]. by apply last_None in Hl.
  - rewrite (applies_in_force now p Hn Hp). destruct (in_force now p); [done|].
    apply IH.
Qed.

(** The profile of a moment: the loop with its comparisons of years, months and
    days, of weekday names and of clock readings picks the first override whose
    days include today and whose hours, possibly across midnight, include now;
    without one, the last default profile. *)
Theorem ActiveProfile_exact profiles now :
  in_day now -> Forall clocked profiles -> ActiveProfile profiles now = chosen now profiles.
Proof.
  intros Hn Hc. unfold ActiveProfile, chosen. rewrite active_loop_chosen by done.
  case_match; [done|]. by destruct (last _).
Qed.

(** A night shift from 22:00 to 06:00, on Thursdays, beside a default. *)
Definition night_shift : ResourceProfile :=
  mkResourceProfile false true 0 80 0 0 (Some (mkTime 0 79200)) (Some (mkTime 0 21600)) ["Thu"] None None.
Definition by_day : ResourceProfile := mkResourceProfile true false 0 20 0 0 None None [] None None.

Lemma ActiveProfile_exact_witness :
  ActiveProfile [by_day; night_shift] (mkTime 0 3600) = night_shift /\
  chosen (mkTime 0 3600) [by_day; night_shift] = night_shift.
Proof.
  rewrite (ActiveProfile_exact [by_day; night_shift] (mkTime 0 3600)).
  - split; vm_compute; reflexivity.
  - unfold in_day. simpl. lia.
  - constructor; [split; intros ? [=]|]. constructor; [|constructor].
    split; intros ? [= <-]; unfold in_day; simpl; lia.
Defined.

(** The limits are shares of the hardware: for a share between 0 and 100 percent and
    less than 2^43 MB of memory, the memory limit does not overflow, is at most the
    share, and leaves at most a megabyte of it unused. *)
Theorem ApplyCaps_bounds profile hw :
  0 <= rp_RAMPct profile <= 100 -> 0 <= ah_RAMMB hw < 2 ^ 43 ->
  let cap := cp_RAMBytes (ApplyCaps profile hw) in
  0 <= cap /\ cap * 100 <= ah_RAMMB hw * rp_RAMPct profile * 2 ^ 20 < (cap + 2 ^ 20) * 100 /\
  cp_CPUCores (ApplyCaps profile hw) = (if rp_CPUEnabled profile then ah_CPUCores hw else 0).
Proof.
  intros Hp Hr. simpl. assert (0 <= ah_RAMMB hw * rp_RAMPct profile <= (2 ^ 43 - 1) * 100) by nia.
  set (x := ah_RAMMB hw * rp_RAMPct profile) in *. clearbody x.
  rewrite (to_int64_id x) by (unfold is_int64, int64_min, int64_max; lia).
  rewrite Z.quot_div_nonneg by lia.
  pose proof (Z.div_mod x 100 ltac:(lia)). pose proof (Z.mod_pos_bound x 100 ltac:(lia)).
  set (q := x / 100) in *. clearbody q.
  rewrite (to_int64_id (q * 1024)) by (unfold is_int64, int64_min, int64_max; lia).
  rewrite to_int64_id by (unfold is_int64, int64_min, int64_max; lia). lia.
Qed.

Lemma ApplyCaps_bounds_witness :
  let hw := mkAgentHardware 4 8192 false "" 100 0 "linux" "amd64" [] in
  let cap := cp_RAMBytes (ApplyCaps by_day hw) in
  0 <= cap /\ cap * 100 <= 8192 * 20 * 2 ^ 20 < (cap + 2 ^ 20) * 100 /\ cp_CPUCores (ApplyCaps by_day hw) = 0.
Proof. intros hw. apply (ApplyCaps_bounds by_day hw); simpl; lia. Defined.
