(* ===== verification/AgentFiles.v ===== *)
(** The files of the node agent: the consent file (optout.go), which survives a
    crash, and the identity file (config.go) with the claim that fills it.

    [json.Marshal] and [json.Unmarshal] of the two documents are arguments. *)
From Stdlib Require Import Ascii.
From S2P Require Import Prelude Float64 Workload Sounding Registry Scheduler Database Lifecycle Effects.
From S2P Require Import Encoding Sha256 Token Allowlist Orchestrator Samples Http NodesApi Operator NodeAgent NodeAgentProofs.
Local Open Scope string_scope.
Local Open Scope list_scope.
Local Open Scope Z_scope.

(** ** Reading and writing *)

Record NodeConfig := mkNodeConfig {
  nc_NodeID : string; nc_TokenSecret : string; nc_SpireJoinToken : string }.

Section Files.
Context (marshalOptOut : ResourceOptOut -> string) (unmarshalOptOut : string -> option ResourceOptOut).
Context (marshalConfig : NodeConfig -> string) (unmarshalConfig : string -> option NodeConfig).
Context (optOutDir optOutPath confDir confPath : string).

(** The consent and whether there was an error; a missing file is none. *)
Definition LoadOptOutFromFile : prog (ResourceOptOut * bool) :=
  r ← call (ReadFile optOutPath);
  mret (match r with
    | FileMissing => (DefaultOptOut, false)
    | ReadFailed => (DefaultOptOut, true)
    | FileData data => match unmarshalOptOut data with
        | Some oo => (oo, false)
        | None => (DefaultOptOut, true)
        end
    end).

(** The start-up of the agent: an error means the default. *)
Definition initial_consent : prog ResourceOptOut :=
  '(oo, bad) ← LoadOptOutFromFile; mret (if (bad : bool) then DefaultOptOut else oo).

Definition complete_config (c : NodeConfig) : bool :=
  negb (bool_decide (nc_NodeID c = "")) && negb (bool_decide (nc_TokenSecret c = "")).

Definition LoadConfig : prog (option NodeConfig) :=
  r ← call (ReadFile confPath);
  mret (match r with
    | FileData data => c ← unmarshalConfig data; if complete_config c then Some c else None
    | _ => None
    end).

Definition SaveConfig (cfg : NodeConfig) : prog bool :=
  made ← call (MkdirAll confDir);
  if negb made then mret false else call (WriteFile confPath (marshalConfig cfg)).

Definition ClaimNode (hw : AgentHardware) (regToken hostname countryCode region : string) :
    prog (option NodeConfig) :=
  r ← call (PostClaim (mkClaimNode regToken hostname countryCode region
        (mkHardwareProfile (ah_CPUCores hw) (ah_RAMMB hw) (ah_GPUPresent hw) (ah_StorageGB hw)
           (ah_BandwidthMbps hw))));
  mret (match r with
    | None => None
    | Some cr =>
        let c := mkNodeConfig (cr_NodeID cr) (cr_TokenSecret cr) (cr_SpireJoinToken cr) in
        if complete_config c then Some c else None
    end).

(** The start of [runMain]: the stored identity, or a new one that is claimed and
    stored; [None] is [log.Fatalf]. *)
Definition obtain_config (hw : AgentHardware) (regToken hostname countryCode region : string) :
    prog (option NodeConfig) :=
  stored ← LoadConfig;
  match stored with
  | Some cfg => mret (Some cfg)
  | None =>
      claimed ← ClaimNode hw regToken hostname countryCode region;
      match claimed with
      | None => mret None
      | Some cfg =>
          saved ← SaveConfig cfg;
          mret (if (saved : bool) then Some cfg else None)
      end
  end.

(** ** Crashes *)

Local Notation Files := (gmap string string).

(** What a crash during a trace can leave on disk: it may happen before any call,
    or in the middle of a write, which truncates the file first; a write that
    fails has done some part of its work. *)
Fixpoint may_leave (f : Files) (tr : list Exchange) (f' : Files) : Prop :=
  f' = f \/
  match tr with
  | [] => False
  | Exch e a :: tr' =>
      match e in AgentE X return X -> Prop with
      | WriteFile path data => fun done =>
          exists part, String.prefix part data = true /\
            (f' = <[path := part]> f \/
             may_leave (<[path := if (done : bool) then data else part]> f) tr' f')
      | Rename old new => fun done =>
          may_leave (match (done : bool), f !! old with
            | true, Some data => <[new := data]> (delete old f) | _, _ => f end) tr' f'
      | _ => fun _ => may_leave f tr' f'
      end a
  end.

(** A host with these files on disk. *)
Definition disk (f : Files) : forall X, AgentE X -> unit -> X * unit := fun X e _ =>
  match e in AgentE X return X * unit with
  | ReadFile path => (match f !! path with Some data => FileData data | None => FileMissing end, tt)
  | e => ((sample_host DefaultOptOut (WaitExit 0 None) false _ e false).1, tt)
  end.

(** The consent an agent starts with on that host. *)
Definition consent_on (f : Files) : ResourceOptOut := (finish (disk f) initial_consent tt).1.

Lemma consent_on_eq f :
  consent_on f = match f !! optOutPath with
    | None => DefaultOptOut | Some data => default DefaultOptOut (unmarshalOptOut data) end.
Proof.
  unfold consent_on, finish. simpl. destruct (f !! optOutPath) as [data|]; [|done].
  by destruct (unmarshalOptOut data).
Qed.

Lemma tmp_path_other (p : string) : p +:+ ".tmp" <> p.
Proof.
  induction p as [|a p IH]; [done|]. intros Hp.
  change (String.String a (p +:+ ".tmp") = String.String a p) in Hp. injection Hp as Hp. by apply IH.
Qed.

(** C13 The consent file is replaced in one step: whatever fails while it is saved and
    wherever the machine crashes, the agent that starts afterwards reads the old
    consent or the new one; a half-written file is never read. *)
Theorem consent_survives_crash oo S (h : forall X, AgentE X -> S -> X * S) s f f' :
  (forall o, unmarshalOptOut (marshalOptOut o) = Some o) ->
  may_leave f (run h (SaveOptOutToFile marshalOptOut optOutDir optOutPath oo) s).1.2 f' ->
  consent_on f' = consent_on f \/ consent_on f' = oo.
Proof.
  intros Hjson. assert (Hkeep : forall part, consent_on (<[optOutPath +:+ ".tmp" := part]> f) = consent_on f).
  { intros part. rewrite !consent_on_eq. by rewrite lookup_insert_ne by apply tmp_path_other. }
  unfold SaveOptOutToFile. simpl. destruct (h _ (MkdirAll _) s) as [[|] s1]; simpl.
  2:{ intros [-> | [-> | []]]; by left. }
  destruct (h _ (WriteFile _ _) s1) as [[|] s2]; simpl.
  2:{ intros [-> | [-> | (part & _ & [-> | [-> | []]])]]; auto. }
  destruct (h _ (Rename _ _) s2) as [renamed s3]; simpl.
  intros [-> | [-> | (part & _ & [-> | [-> | Hren]])]]; auto.
  destruct renamed; simpl in Hren; rewrite ?lookup_insert_eq in Hren; destruct Hren as [-> | []]; auto.
  right. rewrite consent_on_eq. by rewrite lookup_insert_eq, Hjson.
Qed.

End Files.

(** ** A document format, for concrete runs *)

Fixpoint posbits (p : positive) : string :=
  match p with
  | xH => ""
  | xO p => String.String "0" (posbits p)
  | xI p => String.String "1" (posbits p)
  end.
Fixpoint of_posbits (s : string) : option positive :=
  match s with
  | "" => Some xH
  | String.String c s => p ← of_posbits s; Some (if Ascii.eqb c "1" then xI p else xO p)
  end.

Lemma of_pos_bits p : of_posbits (posbits p) = Some p.
Proof. induction p as [p IH|p IH|]; simpl; [by rewrite IH..|done]. Qed.

Definition sample_encode (o : ResourceOptOut) : string :=
  posbits (countable.encode (ro_Version o, ro_ComputeEnabled o, ro_StorageEnabled o, ro_PrintingEnabled o,
                ro_EnabledPrinters o)).
Definition sample_decode (s : string) : option ResourceOptOut :=
  p ← of_posbits s;
  '(v, c, st, pr, ps) ← countable.decode (A := Z * bool * bool * bool * gmap string bool) p;
  Some (mkResourceOptOut v c st pr ps).

Lemma sample_decode_encode o : sample_decode (sample_encode o) = Some o.
Proof. unfold sample_decode, sample_encode. rewrite of_pos_bits. simpl. rewrite decode_encode. by destruct o. Qed.

(** Cut off in the middle of the write of the temporary file. *)
Lemma consent_survives_crash_witness :
  consent_on sample_decode "opt-out.json" {[ "opt-out.json.tmp" := "" ]} =
    consent_on sample_decode "opt-out.json" ∅ \/
  consent_on sample_decode "opt-out.json" {[ "opt-out.json.tmp" := "" ]} = all_enabled.
Proof.
  apply (consent_survives_crash sample_encode sample_decode "." "opt-out.json" all_enabled bool
    (sample_host all_enabled (WaitExit 0 None) false) false ∅).
  - apply sample_decode_encode.
  - simpl. right. right. exists "". split; [by destruct (sample_encode all_enabled)|]. by left.
Defined.

(** The identity file is written in place: a crash in the middle of the write
    leaves a file that is not an identity, so that the next start claims again,
    with a registration token that is already spent. *)
Example identity_can_tear :
  let cfg := mkNodeConfig "n1" "5ec2e7" "" in
  let marshal := fun c => nc_NodeID c +:+ "," +:+ nc_TokenSecret c in
  may_leave ∅ (run (sample_host all_enabled (WaitExit 0 None) false)
    (SaveConfig marshal "." "agent.conf" cfg) false).1.2 {[ "agent.conf" := "n1,5e" ]}.
Proof. simpl. right. right. exists "n1,5e". split; [done|]. by left. Qed.
