(* ===== verification/SoundingStore.v ===== *)
(** Where the demand soundings are kept and how they are read back:
    internal/sounding (writer_pgx.go, readmodel.go and [LoadLadder] of
    classify.go), over the tables of migration 025.

    A table is the list of its rows, each with the time of its transaction.  The
    rows a query returns without ORDER BY come in an unspecified order
    ([MapOrder]).  What belongs to the database is a parameter: which texts it
    stores, which it casts to a UUID, how it collates and how it averages. *)
From Stdlib Require Import Ascii.
From S2P Require Import Prelude Float64 Sounding Encoding.
Import Rungs.
Local Open Scope string_scope.
Local Open Scope list_scope.
Local Open Scope Z_scope.

(** ** Sums and groups *)

Fixpoint sumZ (l : list Z) : Z := match l with [] => 0 | x :: l' => x + sumZ l' end.

Lemma sumZ_app l k : sumZ (l ++ k) = sumZ l + sumZ k.
Proof. induction l as [|x l IH]; simpl; [done|]. rewrite IH. lia. Qed.

#[export] Instance sumZ_perm : Proper (Permutation ==> eq) sumZ.
Proof. intros l k Hp. induction Hp; simpl; lia. Qed.

Lemma sumZ_zero {A} (f : A -> Z) l : (forall a, a ∈ l -> f a = 0) -> sumZ (f <$> l) = 0.
Proof.
  induction l as [|a l IH]; intros Hz; csimpl; [done|]. rewrite Hz by constructor.
  rewrite IH; [done|]. intros b Hb. apply Hz. by constructor.
Qed.

Lemma sumZ_add {A} (f g : A -> Z) l :
  sumZ ((fun a => f a + g a) <$> l) = sumZ (f <$> l) + sumZ (g <$> l).
Proof. induction l as [|a l IH]; csimpl; [done|]. rewrite IH. lia. Qed.

Lemma sumZ_ext {A} (f g : A -> Z) l :
  (forall a, a ∈ l -> f a = g a) -> sumZ (f <$> l) = sumZ (g <$> l).
Proof.
  intros Hfg. f_equal. apply list_fmap_ext. intros i a Hi. apply Hfg.
  by apply list_elem_of_lookup_2 with i.
Qed.

(** COUNT( * ) FILTER (WHERE p) *)
Definition count_if {A} (p : A -> bool) (l : list A) : Z :=
  sumZ ((fun a => if p a then 1 else 0) <$> l).

#[export] Instance count_if_perm {A} (p : A -> bool) : Proper (Permutation ==> eq) (count_if p).
Proof. intros l k Hp. unfold count_if. by rewrite Hp. Qed.

Lemma count_if_app {A} (p : A -> bool) l k : count_if p (l ++ k) = count_if p l + count_if p k.
Proof. unfold count_if. by rewrite fmap_app, sumZ_app. Qed.

Lemma count_if_concat {A} (p : A -> bool) ls :
  sumZ (count_if p <$> ls) = count_if p (concat ls).
Proof. induction ls as [|l ls IH]; csimpl; [done|]. by rewrite count_if_app, IH. Qed.

Lemma count_if_ext {A} (p q : A -> bool) l :
  (forall a, a ∈ l -> p a = q a) -> count_if p l = count_if q l.
Proof. intros Hpq. apply sumZ_ext. intros a Ha. by rewrite Hpq. Qed.

Lemma count_if_nonneg {A} (p : A -> bool) l : 0 <= count_if p l.
Proof. unfold count_if. induction l as [|a l IH]; csimpl; [done|]. case_match; lia. Qed.

Lemma count_if_split {A} (p q : A -> bool) l :
  count_if p l = count_if (fun a => p a && q a) l + count_if (fun a => p a && negb (q a)) l.
Proof.
  unfold count_if. rewrite <- sumZ_add. apply sumZ_ext. intros a _.
  destruct (p a), (q a); done.
Qed.

Lemma count_if_filter {A} (p q : A -> bool) l :
  count_if p (filter (fun a => q a = true) l) = count_if (fun a => q a && p a) l.
Proof.
  unfold count_if. induction l as [|a l IH]; [done|]. rewrite filter_cons.
  case_decide as Hq; csimpl; rewrite IH; [by rewrite Hq|]. by destruct (q a).
Qed.

Lemma count_if_true {A} (l : list A) : count_if (fun _ => true) l = Z.of_nat (length l).
Proof. unfold count_if. induction l as [|a l IH]; csimpl; [done|]. rewrite IH. lia. Qed.

(** GROUP BY: the rows under each key. *)
Section GroupBy.
Context `{Countable K} {A : Type} (key : A -> K).

Definition groups (l : list A) : gmap K (list A) :=
  foldr (fun a m => <[key a := a :: default [] (m !! key a)]> m) ∅ l.

Lemma groups_lookup l k :
  groups l !! k = match filter (fun a => key a = k) l with [] => None | g => Some g end.
Proof.
  induction l as [|a l IH]; csimpl; [apply lookup_empty|]. rewrite filter_cons.
  case_decide as Hk.
  - subst k. rewrite lookup_insert_eq, IH. by destruct (filter _ l).
  - by rewrite lookup_insert_ne.
Qed.

(** Every row is in the group of its key, and in no other. *)
Lemma groups_concat l : concat (map_to_list (groups l)).*2 ≡ₚ l.
Proof.
  induction l as [|a l IH]; csimpl; [by rewrite map_to_list_empty|].
  destruct (groups l !! key a) as [g|] eqn:Hg; simpl.
  - rewrite <- insert_delete_eq, map_to_list_insert by apply lookup_delete_eq. simpl.
    constructor. etrans; [|exact IH]. by rewrite <- (map_to_list_delete (groups l) (key a) g).
  - rewrite map_to_list_insert by done. simpl. by constructor.
Qed.

Lemma groups_count `{MapOrder} (p : A -> bool) l :
  sumZ ((fun kg : K * list A => count_if p kg.2) <$> map_range (groups l)) = count_if p l.
Proof.
  rewrite map_range_perm. etrans; [|by apply (count_if_perm p), (groups_concat l)].
  by rewrite <- count_if_concat, <- list_fmap_compose.
Qed.

Lemma groups_elem `{MapOrder} l k g :
  (k, g) ∈ map_range (groups l) <-> g = filter (fun a => key a = k) l /\ g <> [].
Proof.
  rewrite map_range_perm, elem_of_map_to_list, groups_lookup.
  destruct (filter (fun a => key a = k) l) eqn:Hf; naive_solver.
Qed.

Lemma groups_NoDup `{MapOrder} l : NoDup (map_range (groups l)).*1.
Proof. rewrite map_range_perm. apply NoDup_fst_map_to_list. Qed.

End GroupBy.

(** ** The tables *)

Record ShapeRow := mkShapeRow {
  sr_time : Z; sr_operator_id : string; sr_job_id : string; sr_workload_type : string;
  sr_intensity : float64; sr_duration_est : Z; sr_cpu : float64; sr_mem_mb : Z; sr_disk_mb : Z;
  sr_footprint : float64; sr_placed : bool; sr_rung : option string }.

Record RejectionRow := mkRejectionRow {
  rr_time : Z; rr_operator_id : string; rr_job_id : string; rr_workload_type : string;
  rr_reason : string; rr_footprint : float64; rr_wanted_rung : option string }.

Record CapacityRow := mkCapacityRow {
  cr_time : Z; cr_operator_id : string; cr_node_class : string; cr_workload_type : string;
  cr_nodes_available : Z; cr_vcpus : Z; cr_mem_mb : Z; cr_disk_mb : Z; cr_print_qps : float64 }.

(** The three event tables and [rung_tiers]. *)
Record Soundings := mkSoundings {
  sd_shapes : list ShapeRow; sd_rejections : list RejectionRow; sd_capacity : list CapacityRow;
  sd_tiers : list Tier }.
#[export] Instance eta_Soundings : Eta Soundings := fun s =>
  mkSoundings (sd_shapes s) (sd_rejections s) (sd_capacity s) (sd_tiers s).

Definition ReasonHadToSplit : string := "had_to_split".
Definition ReasonOptedOut : string := "opted_out".

(** The CHECK on [reason]. *)
Definition known_reason (reason : string) : bool :=
  bool_decide (reason ∈ [ReasonTooBig; ReasonNoMatchingTier; ReasonHadToSplit; ReasonOptedOut;
    ReasonNoCapacity]).

(** What the database stores in a TEXT column (valid UTF-8 without NUL) and what
    it casts to a UUID. *)
Class PgTypes := { text_ok : string -> bool; uuid_ok : string -> bool }.

Definition is_int32 (z : Z) : bool := (- 2 ^ 31 <=? z) && (z <? 2 ^ 31).

(** ** writer_pgx.go *)

Definition nullStr (s : string) : option string := if bool_decide (s = "") then None else Some s.

Section Writer.
Context `{PgTypes}.

(** The row an INSERT makes, unless a value does not fit its column. *)
Definition insert_shape (now : Z) (r : JobShape) : option ShapeRow :=
  if text_ok (js_OperatorID r) && uuid_ok (js_JobID r) && text_ok (js_WorkloadType r) &&
     is_int32 (js_DurationEst r) && text_ok (js_Rung r)
  then Some (mkShapeRow now (js_OperatorID r) (js_JobID r) (js_WorkloadType r) (js_Intensity r)
    (js_DurationEst r) (js_CPU r) (js_MemMB r) (js_DiskMB r) (js_Footprint r) (js_Placed r)
    (nullStr (js_Rung r)))
  else None.

Definition insert_rejection (now : Z) (r : Rejection) : option RejectionRow :=
  if text_ok (rj_OperatorID r) && uuid_ok (rj_JobID r) && text_ok (rj_WorkloadType r) &&
     known_reason (rj_Reason r) && text_ok (rj_WantedRung r)
  then Some (mkRejectionRow now (rj_OperatorID r) (rj_JobID r) (rj_WorkloadType r) (rj_Reason r)
    (rj_Footprint r) (nullStr (rj_WantedRung r)))
  else None.

Definition insert_capacity (now : Z) (r : CapacitySnapshot) : option CapacityRow :=
  if text_ok (cp_OperatorID r) && text_ok (cp_NodeClass r) && text_ok (cp_WorkloadType r) &&
     is_int32 (cp_NodesAvailable r) && is_int32 (cp_VCPUs r)
  then Some (mkCapacityRow now (cp_OperatorID r) (cp_NodeClass r) (cp_WorkloadType r)
    (cp_NodesAvailable r) (cp_VCPUs r) (cp_MemMB r) (cp_DiskMB r) (cp_PrintQPS r))
  else None.

(** A batch runs in one implicit transaction: the first statement that fails
    undoes the others.  [up] says whether the batch gets through at all. *)
Definition sendBatch {A} (up : bool) (stmts : list (option A)) : result string (list A) :=
  if negb up then Err "connection"
  else match mapM id stmts with Some rows => Ok rows | None => Err "insert" end.

Definition WriteJobShapes (up : bool) (now : Z) (rows : list JobShape) (d : Soundings) :
    result string Soundings :=
  ins ← sendBatch up (insert_shape now <$> rows); Ok (d <| sd_shapes := sd_shapes d ++ ins |>).
Definition WriteRejections (up : bool) (now : Z) (rows : list Rejection) (d : Soundings) :
    result string Soundings :=
  ins ← sendBatch up (insert_rejection now <$> rows);
  Ok (d <| sd_rejections := sd_rejections d ++ ins |>).
Definition WriteCapacity (up : bool) (now : Z) (rows : list CapacitySnapshot) (d : Soundings) :
    result string Soundings :=
  ins ← sendBatch up (insert_capacity now <$> rows);
  Ok (d <| sd_capacity := sd_capacity d ++ ins |>).

(** Fail open: an error is logged and the rows of that table are dropped. *)
Definition fail_open (d : Soundings) (r : result string Soundings) : Soundings :=
  match r with Ok d' => d' | Err _ => d end.

(** When each of the three writes of a batch happens, and whether it gets through. *)
Record Attempts := mkAttempts { wa_shapes : bool * Z; wa_rejs : bool * Z; wa_caps : bool * Z }.

Definition store_batch (w : Attempts) (b : list envelope) (d : Soundings) : Soundings :=
  let '(shapes, rejs, caps) := writeBatch b in
  let d := match shapes with
           | [] => d
           | _ => fail_open d (WriteJobShapes (wa_shapes w).1 (wa_shapes w).2 shapes d)
           end in
  let d := match rejs with
           | [] => d
           | _ => fail_open d (WriteRejections (wa_rejs w).1 (wa_rejs w).2 rejs d)
           end in
  match caps with
  | [] => d
  | _ => fail_open d (WriteCapacity (wa_caps w).1 (wa_caps w).2 caps d)
  end.

(** The batches a worker hands to the writer, one after the other. *)
Definition store_batches (ws : list Attempts) (bs : list (list envelope)) (d : Soundings) : Soundings :=
  foldl (fun d wb => store_batch wb.1 wb.2 d) d (zip ws bs).

End Writer.

(** ** readmodel.go *)

(** The arguments a query binds to its placeholders. *)
Inductive Arg := ArgText (s : string) | ArgInterval (d : Z).

(** The operator predicate: a fragment of SQL and the arguments it refers to. *)
Definition op_clause : string := " AND operator_id = $".
Definition opArgs (operatorID : string) (base : list Arg) : string * list Arg :=
  if bool_decide (operatorID = "") then ("", base)
  else (op_clause +:+ FormatInt (Z.of_nat (length base) + 1), base ++ [ArgText operatorID]).

(** How the database reads the fragment: no condition, or a comparison with the
    argument of that number; a statement with any other does not run. *)
Definition frag_pred (frag : string) (args : list Arg) : option (string -> bool) :=
  if bool_decide (frag = "") then Some (fun _ => true)
  else
    let n := String.length op_clause in
    if bool_decide (String.substring 0 n frag = op_clause)
    then
      i ← ParseInt (String.substring n (String.length frag - n) frag);
      if i <=? 0 then None
      else match args !! Z.to_nat (i - 1) with
           | Some (ArgText s) => Some (fun operator_id => bool_decide (operator_id = s))
           | _ => None
           end
    else None.

(** WHERE time > NOW() - $1::interval, and the fragment. *)
Definition select {A} (time : A -> Z) (operator_id : A -> string) (fa : string * list Arg) (now : Z)
    (l : list A) : result string (list A) :=
  match frag_pred fa.1 fa.2, fa.2 !! 0%nat with
  | Some p, Some (ArgInterval w) =>
      Ok (filter (fun r => (now - w <? time r) && p (operator_id r) = true) l)
  | _, _ => Err "statement"
  end.

(** [time_bucket] counts buckets from Monday 2000-01-03, UTC. *)
Definition bucket_origin : Z := 946857600 * Second.
Definition time_bucket (w t : Z) : Z := t - (t - bucket_origin) mod w.

(** [footprint >= 1.0]; the database puts NaN above every number. *)
Definition against_ceiling (r : ShapeRow) : bool :=
  is_nan (sr_footprint r) || f64_le f64_one (sr_footprint r).

(** AVG of a DOUBLE PRECISION and of an INTEGER column, NULL on no rows. *)
Class PgAvg := {
  avg_f64 : list float64 -> option float64;
  avg_int : list Z -> option float64;
  avg_f64_null : forall l, avg_f64 l = None <-> l = [];
  avg_int_null : forall l, avg_int l = None <-> l = [] }.

(** The statements of the read model; each sees the time and the tables of its
    own snapshot, or fails. *)
Inductive Query :=
| QOperators | QJobTotals | QRejectionTotal | QDistribution | QCongestus | QRejections | QDemand
| QCapacity | QLadder.
Definition Reader : Type := Query -> result string (Z * Soundings).

Definition wrap {A} (what : string) (r : result string A) : result string A :=
  match r with Ok a => Ok a | Err e => Err ("sounding: " +:+ what +:+ ": " +:+ e) end.

Record Totals := mkTotals {
  tl_Jobs : Z; tl_Placed : Z; tl_AgainstCeiling : Z; tl_Rejections : Z }.
Record RungCount := mkRungCount { rc_Rung : string; rc_Count : Z }.
Record CongestusBucket := mkCongestus { cb_Bucket : Z; cb_Total : Z; cb_AgainstCeiling : Z }.
Record RejectionCell := mkCell { rc_Bucket : Z; rc_Reason : string; rc_Cell : Z }.
Record LevelBucket := mkLevel {
  lb_Bucket : Z; lb_DemandVCPU : float64; lb_HasDemand : bool; lb_CapacityVCPU : float64;
  lb_HasCapacity : bool }.
#[export] Instance eta_LevelBucket : Eta LevelBucket := fun l =>
  mkLevel (lb_Bucket l) (lb_DemandVCPU l) (lb_HasDemand l) (lb_CapacityVCPU l) (lb_HasCapacity l).

Section ReadModel.
Context `{MapOrder} `{PgAvg} (collate : string -> string -> bool) (db : Reader).

(** UNION drops the duplicates. *)
Definition operator_ids (d : Soundings) : list string :=
  remove_dups ((sr_operator_id <$> sd_shapes d) ++ (rr_operator_id <$> sd_rejections d) ++
    (cr_operator_id <$> sd_capacity d)).

Definition Operators : result string (list string) :=
  '(_, d) ← wrap "list operators" (db QOperators); Ok (isort _ collate (operator_ids d)).

Definition shapes_of (fa : string * list Arg) (now : Z) (d : Soundings) : result string (list ShapeRow) :=
  select sr_time sr_operator_id fa now (sd_shapes d).
Definition rejections_of (fa : string * list Arg) (now : Z) (d : Soundings) :
    result string (list RejectionRow) :=
  select rr_time rr_operator_id fa now (sd_rejections d).
Definition capacity_of (fa : string * list Arg) (now : Z) (d : Soundings) :
    result string (list CapacityRow) :=
  select cr_time cr_operator_id fa now
    (filter (fun c => cr_workload_type c = WorkloadCompute) (sd_capacity d)).

Definition total_jobs (rows : list ShapeRow) : Z * Z * Z :=
  (count_if (fun _ => true) rows, count_if sr_placed rows, count_if against_ceiling rows).

Definition ReadTotals (operatorID : string) (window : Z) : result string Totals :=
  '(jobs, placed, against) ← wrap "job totals"
    ('(now, d) ← db QJobTotals;
     rows ← shapes_of (opArgs operatorID [ArgInterval window]) now d; Ok (total_jobs rows));
  rejections ← wrap "rejection total"
    ('(now, d) ← db QRejectionTotal;
     rows ← rejections_of (opArgs operatorID [ArgInterval window]) now d;
     Ok (count_if (fun _ => true) rows));
  Ok (mkTotals jobs placed against rejections).

(** COALESCE(rung, '') *)
Definition rung_or_empty (s : ShapeRow) : string := default "" (sr_rung s).

Definition JobShapeDistribution (operatorID : string) (window : Z) : result string (list RungCount) :=
  wrap "job-shape distribution"
    ('(now, d) ← db QDistribution;
     rows ← shapes_of (opArgs operatorID [ArgInterval window]) now d;
     Ok ((fun kg => mkRungCount kg.1 (count_if (fun _ => true) kg.2)) <$>
           map_range (groups rung_or_empty rows))).

(** ORDER BY b, over groups that come in any order. *)
Definition by_bucket {K B : Type} (bucket : K -> Z) (l : list (K * B)) : list (K * B) :=
  isort _ (fun a b => bucket a.1 <? bucket b.1) l.

Definition CongestusSeries (operatorID : string) (window bucket : Z) :
    result string (list CongestusBucket) :=
  wrap "congestus series"
    ('(now, d) ← db QCongestus;
     rows ← shapes_of (opArgs operatorID [ArgInterval window; ArgInterval bucket]) now d;
     Ok ((fun kg => mkCongestus kg.1 (count_if (fun _ => true) kg.2) (count_if against_ceiling kg.2)) <$>
           by_bucket id (map_range (groups (fun s => time_bucket bucket (sr_time s)) rows)))).

Definition RejectionsByReason (operatorID : string) (window bucket : Z) :
    result string (list RejectionCell) :=
  wrap "rejections by reason"
    ('(now, d) ← db QRejections;
     rows ← rejections_of (opArgs operatorID [ArgInterval window; ArgInterval bucket]) now d;
     Ok ((fun kg => mkCell kg.1.1 kg.1.2 (count_if (fun _ => true) kg.2)) <$>
           by_bucket fst
             (map_range (groups (fun s => (time_bucket bucket (rr_time s), rr_reason s)) rows)))).

(** The buckets touched so far and the order in which they were. *)
Definition touch (b : Z) (st : gmap Z LevelBucket * list Z) : gmap Z LevelBucket * list Z :=
  match st.1 !! b with
  | Some _ => st
  | None => (<[b := mkLevel b f64_zero false f64_zero false]> st.1, st.2 ++ [b])
  end.
Definition set_level (f : LevelBucket -> LevelBucket) (b : Z) (st : gmap Z LevelBucket * list Z) :
    gmap Z LevelBucket * list Z := (alter f b st.1, st.2).

Definition add_demand (st : gmap Z LevelBucket * list Z) (row : Z * option float64) :
    gmap Z LevelBucket * list Z :=
  let st := touch row.1 st in
  match row.2 with
  | Some avg => set_level (fun lb => lb <| lb_DemandVCPU := avg |> <| lb_HasDemand := true |>) row.1 st
  | None => st
  end.
Definition add_supply (st : gmap Z LevelBucket * list Z) (row : Z * option float64) :
    gmap Z LevelBucket * list Z :=
  let st := touch row.1 st in
  match row.2 with
  | Some avg => set_level (fun lb => lb <| lb_CapacityVCPU := avg |> <| lb_HasCapacity := true |>) row.1 st
  | None => st
  end.

Definition demand_rows (bucket : Z) (rows : list ShapeRow) : list (Z * option float64) :=
  (fun kg => (kg.1, avg_f64 (sr_cpu <$> kg.2))) <$>
    by_bucket id (map_range (groups (fun s => time_bucket bucket (sr_time s)) rows)).
Definition supply_rows (bucket : Z) (rows : list CapacityRow) : list (Z * option float64) :=
  (fun kg => (kg.1, avg_int (cr_vcpus <$> kg.2))) <$>
    by_bucket id (map_range (groups (fun s => time_bucket bucket (cr_time s)) rows)).

Definition CapacityVsDemand (operatorID : string) (window bucket : Z) :
    result string (list LevelBucket) :=
  dRows ← wrap "demand series"
    ('(now, d) ← db QDemand;
     rows ← shapes_of (opArgs operatorID [ArgInterval window; ArgInterval bucket]) now d;
     Ok (demand_rows bucket rows));
  cRows ← wrap "capacity series"
    ('(now, d) ← db QCapacity;
     rows ← capacity_of (opArgs operatorID [ArgInterval window; ArgInterval bucket]) now d;
     Ok (supply_rows bucket rows));
  let '(byBucket, order) := foldl add_supply (foldl add_demand (∅, []) dRows) cRows in
  Ok (omap (fun b => byBucket !! b) order).

(** The rows of [rung_tiers] in table order, sorted by [NewLadder]. *)
Definition LoadLadder : result string Ladder :=
  '(_, d) ← db QLadder; Ok (NewLadder (sd_tiers d)).
Definition Tiers (l : Ladder) : list Tier := l.

End ReadModel.

(** ** The operator predicate *)

(** What the dashboard's selector asks for: everything, or one operator. *)
Definition selects (operatorID o : string) : bool :=
  bool_decide (operatorID = "") || bool_decide (o = operatorID).

Lemma op_clause_split s :
  let frag := op_clause +:+ s in
  let n := String.length op_clause in
  frag <> "" /\ String.substring 0 n frag = op_clause /\
  String.substring n (String.length frag - n) frag = s.
Proof.
  cbn zeta. unfold op_clause. split; [done|]. simpl. split; [by destruct s|].
  rewrite ?Nat.sub_0_r. induction s as [|c s IH]; simpl; [done|]. by f_equal.
Qed.

(** The placeholder of the fragment is the number of the operator's argument, so
    a query restricted to one operator returns that operator's rows in the window
    and one that is not returns them all. *)
Lemma select_opArgs {A} (time : A -> Z) (op : A -> string) id w base now l :
  (length base < 100)%nat ->
  select time op (opArgs id (ArgInterval w :: base)) now l =
    Ok (filter (fun r => (now - w <? time r) && selects id (op r) = true) l).
Proof.
  intros Hlen. unfold select, opArgs, selects. case_bool_decide as Hid; [done|].
  cbn [fst snd]. destruct (op_clause_split (FormatInt (Z.of_nat (length (ArgInterval w :: base)) + 1)))
    as (Hne & Hpre & Hsuf).
  unfold frag_pred. rewrite bool_decide_eq_false_2, bool_decide_eq_true_2, Hsuf by done.
  rewrite ParseInt_FormatInt by (unfold is_int64, int64_min, int64_max; simpl length; lia).
  cbn [mbind option_bind]. destruct (Z.leb_spec (Z.of_nat (length (ArgInterval w :: base)) + 1) 0); [lia|].
  replace (Z.to_nat (Z.of_nat (length (ArgInterval w :: base)) + 1 - 1))
    with (length (ArgInterval w :: base)) by lia.
  rewrite list_lookup_middle by done. done.
Qed.

(** ** What the queries return on one snapshot *)

(** Every statement sees the same time and the same tables. *)
Definition at_once (now : Z) (d : Soundings) : Reader := fun _ => Ok (now, d).

Definition shape_in (id : string) (now w : Z) (s : ShapeRow) : bool :=
  (now - w <? sr_time s) && selects id (sr_operator_id s).
Definition rejection_in (id : string) (now w : Z) (s : RejectionRow) : bool :=
  (now - w <? rr_time s) && selects id (rr_operator_id s).
Definition capacity_in (id : string) (now w : Z) (s : CapacityRow) : bool :=
  (now - w <? cr_time s) && selects id (cr_operator_id s).

Lemma shapes_of_opArgs id w base now d : (length base < 100)%nat ->
  shapes_of (opArgs id (ArgInterval w :: base)) now d =
    Ok (filter (fun s => shape_in id now w s = true) (sd_shapes d)).
Proof. apply select_opArgs. Qed.
Lemma rejections_of_opArgs id w base now d : (length base < 100)%nat ->
  rejections_of (opArgs id (ArgInterval w :: base)) now d =
    Ok (filter (fun s => rejection_in id now w s = true) (sd_rejections d)).
Proof. apply select_opArgs. Qed.
Lemma capacity_of_opArgs id w base now d : (length base < 100)%nat ->
  capacity_of (opArgs id (ArgInterval w :: base)) now d =
    Ok (filter (fun s => capacity_in id now w s = true)
         (filter (fun c => cr_workload_type c = WorkloadCompute) (sd_capacity d))).
Proof. apply select_opArgs. Qed.

Lemma ReadTotals_at_once id w now d :
  ReadTotals (at_once now d) id w = Ok (mkTotals
    (count_if (shape_in id now w) (sd_shapes d))
    (count_if (fun s => shape_in id now w s && sr_placed s) (sd_shapes d))
    (count_if (fun s => shape_in id now w s && against_ceiling s) (sd_shapes d))
    (count_if (rejection_in id now w) (sd_rejections d))).
Proof.
  unfold ReadTotals, at_once. cbn [mbind result_bind wrap].
  rewrite shapes_of_opArgs, rejections_of_opArgs by (simpl; lia).
  cbn [mbind result_bind wrap]. unfold total_jobs. rewrite !count_if_filter.
  f_equal. f_equal; apply count_if_ext; intros; by rewrite andb_true_r.
Qed.

(** An operator id in the list is counted in one slice of it, its own. *)
Lemma one_slice b o ids : NoDup ids -> "" ∉ ids -> o ∈ ids ->
  sumZ ((fun id => if b && selects id o then 1 else 0) <$> ids) = if b : bool then 1 else 0.
Proof.
  induction ids as [|i ids IH]; intros Hnd Hne Ho; [by apply not_elem_of_nil in Ho|]. csimpl.
  apply NoDup_cons in Hnd as [Hi Hnd]. apply not_elem_of_cons in Hne as [Hi0 Hne].
  unfold selects at 1. rewrite (bool_decide_eq_false_2 (i = "")) by done. simpl.
  case_bool_decide as Hoi.
  - rewrite andb_true_r, sumZ_zero; [lia|]. intros j Hj. unfold selects.
    rewrite !bool_decide_eq_false_2; [by rewrite andb_false_r| |]; intros ->; [by subst|done].
  - rewrite andb_false_r. apply elem_of_cons in Ho as [?|Ho]; [done|]. by rewrite IH.
Qed.

(** The rows of the operators, slice by slice, are the rows of the aggregate. *)
Lemma count_if_slices {A} (q : string -> A -> bool) (p : A -> bool) (op : A -> string) ids l :
  (forall id a, q id a = p a && selects id (op a)) ->
  NoDup ids -> "" ∉ ids -> (forall a, a ∈ l -> op a ∈ ids) ->
  count_if (q "") l = sumZ ((fun id => count_if (q id) l) <$> ids).
Proof.
  intros Hq Hnd Hne. induction l as [|a l IH]; intros Hall; [by rewrite sumZ_zero|].
  unfold count_if in IH |- *; csimpl.
  rewrite sumZ_add, <- IH by (intros b Hb; apply Hall; by constructor). f_equal.
  rewrite Hq. unfold selects. simpl. rewrite andb_true_r.
  rewrite (sumZ_ext _ (fun id => if p a && selects id (op a) then 1 else 0))
    by (intros; by rewrite Hq).
  rewrite one_slice; [done..|apply Hall; constructor].
Qed.

Lemma andb_swap_r a b c : a && b && c = a && c && b.
Proof. by destruct a, b, c. Qed.

Definition add_totals (a b : Totals) : Totals :=
  mkTotals (tl_Jobs a + tl_Jobs b) (tl_Placed a + tl_Placed b)
    (tl_AgainstCeiling a + tl_AgainstCeiling b) (tl_Rejections a + tl_Rejections b).
Definition zero_totals : Totals := mkTotals 0 0 0 0.

(** No event carries an empty operator id; the writers of events put
    [OperatorUnknown] in its place. *)
Definition tagged (d : Soundings) : Prop := "" ∉ operator_ids d.

Lemma fold_totals (f : string -> Totals) ids :
  foldr (fun id t => add_totals (f id) t) zero_totals ids =
    mkTotals (sumZ ((fun id => tl_Jobs (f id)) <$> ids)) (sumZ ((fun id => tl_Placed (f id)) <$> ids))
      (sumZ ((fun id => tl_AgainstCeiling (f id)) <$> ids))
      (sumZ ((fun id => tl_Rejections (f id)) <$> ids)).
Proof. induction ids as [|i ids IH]; [done|]. cbn [foldr]. by rewrite IH. Qed.

(** Slicing by operator loses nothing: on one snapshot, the headline totals of
    the operators in the dropdown add up to the totals of the aggregate, and every
    operator with an event of any kind is in the dropdown exactly once. *)
Theorem operator_slices_add_up (collate : string -> string -> bool) now d w :
  tagged d ->
  exists ops, Operators collate (at_once now d) = Ok ops /\ NoDup ops /\
    (forall o, o ∈ ops <-> o ∈ operator_ids d) /\
    exists f, (forall o, o ∈ ops -> ReadTotals (at_once now d) o w = Ok (f o)) /\
      ReadTotals (at_once now d) "" w =
        Ok (foldr (fun o t => add_totals (f o) t) zero_totals ops).
Proof.
  intros Ht. exists (isort _ collate (operator_ids d)). split; [done|].
  assert (Hin : forall o, o ∈ isort _ collate (operator_ids d) <-> o ∈ operator_ids d)
    by (intros o; by rewrite <- isort_perm).
  assert (Hnd : NoDup (isort _ collate (operator_ids d)))
    by (rewrite <- isort_perm; apply NoDup_remove_dups).
  assert (Hne : "" ∉ isort _ collate (operator_ids d)) by (by rewrite Hin).
  assert (Hs : forall s, s ∈ sd_shapes d -> sr_operator_id s ∈ isort _ collate (operator_ids d)).
  { intros s Hs. apply Hin, elem_of_remove_dups, elem_of_app. left.
    apply list_elem_of_fmap. eauto. }
  assert (Hr : forall s, s ∈ sd_rejections d -> rr_operator_id s ∈ isort _ collate (operator_ids d)).
  { intros s Hr. apply Hin, elem_of_remove_dups, elem_of_app. right. apply elem_of_app. left.
    apply list_elem_of_fmap. eauto. }
  split_and!; [done..|]. eexists. split; [intros o _; apply ReadTotals_at_once|].
  rewrite ReadTotals_at_once, fold_totals. cbn [tl_Jobs tl_Placed tl_AgainstCeiling tl_Rejections].
  f_equal. f_equal.
  - by apply (count_if_slices (fun o => shape_in o now w) (fun s => now - w <? sr_time s) sr_operator_id).
  - apply (count_if_slices (fun o s => shape_in o now w s && sr_placed s)
      (fun s => (now - w <? sr_time s) && sr_placed s) sr_operator_id); [|done..].
    intros. apply andb_swap_r.
  - apply (count_if_slices (fun o s => shape_in o now w s && against_ceiling s)
      (fun s => (now - w <? sr_time s) && against_ceiling s) sr_operator_id); [|done..].
    intros. apply andb_swap_r.
  - by apply (count_if_slices (fun o => rejection_in o now w) (fun s => now - w <? rr_time s)
      rr_operator_id).
Qed.

(** ** From the sink to the tables *)

Definition shape_of_row (s : ShapeRow) : JobShape :=
  mkJobShape (sr_operator_id s) (sr_job_id s) (sr_workload_type s) (sr_intensity s)
    (sr_duration_est s) (sr_cpu s) (sr_mem_mb s) (sr_disk_mb s) (sr_footprint s) (sr_placed s)
    (default "" (sr_rung s)).
Definition rejection_of_row (r : RejectionRow) : Rejection :=
  mkRejection (rr_operator_id r) (rr_job_id r) (rr_workload_type r) (rr_reason r) (rr_footprint r)
    (default "" (rr_wanted_rung r)).
Definition snapshot_of_row (c : CapacityRow) : CapacitySnapshot :=
  mkCapacity (cr_operator_id c) (cr_node_class c) (cr_workload_type c) (cr_nodes_available c)
    (cr_vcpus c) (cr_mem_mb c) (cr_disk_mb c) (cr_print_qps c).

Lemma nullStr_default s : default "" (nullStr s) = s.
Proof. unfold nullStr. by case_bool_decide. Qed.

(** What a batch leaves in a table. *)
Definition stored {A B} (up : bool) (ins : A -> option B) (rows : list A) : list B :=
  match sendBatch up (ins <$> rows) with Ok r => r | Err _ => [] end.

Lemma mapM_id_fmap {A B} (f : A -> option B) l : mapM id (f <$> l) = mapM f l.
Proof. induction l as [|a l IH]; [done|]. rewrite fmap_cons. simpl. by rewrite IH. Qed.

(** All of it or nothing. *)
Lemma stored_all {A B} (back : B -> A) (ins : A -> option B) up rows :
  (forall a b, ins a = Some b -> back b = a) ->
  (back <$> stored up ins rows = rows \/ stored up ins rows = []) /\
  (up = true -> (forall a, a ∈ rows -> is_Some (ins a)) -> back <$> stored up ins rows = rows).
Proof.
  intros Hb. unfold stored, sendBatch. destruct up; simpl; [|split; [by right|done]].
  rewrite mapM_id_fmap. destruct (mapM ins rows) as [r|] eqn:Hm; simpl.
  - assert (Heq : back <$> r = rows); [|auto]. apply mapM_Some_1 in Hm.
    induction Hm as [|a b l k Hab _ IH]; [done|]. csimpl. f_equal; auto.
  - split; [by right|]. intros _ Hall. apply eq_None_not_Some in Hm. destruct Hm.
    apply mapM_is_Some. rewrite Forall_forall. auto.
Qed.

Section SinkToStore.
Context `{PgTypes}.

Definition storable (e : envelope) : bool :=
  match e with
  | kindJobShape r => bool_decide (is_Some (insert_shape 0 r))
  | kindRejection r => bool_decide (is_Some (insert_rejection 0 r))
  | kindCapacity r => bool_decide (is_Some (insert_capacity 0 r))
  end.

Lemma insert_shape_back now r s : insert_shape now r = Some s -> shape_of_row s = r.
Proof.
  unfold insert_shape. case_match; intros; simplify_eq. unfold shape_of_row. simpl.
  rewrite nullStr_default. by destruct r.
Qed.
Lemma insert_rejection_back now r s : insert_rejection now r = Some s -> rejection_of_row s = r.
Proof.
  unfold insert_rejection. case_match; intros; simplify_eq. unfold rejection_of_row. simpl.
  rewrite nullStr_default. by destruct r.
Qed.
Lemma insert_capacity_back now r s : insert_capacity now r = Some s -> snapshot_of_row s = r.
Proof. unfold insert_capacity. case_match; intros; simplify_eq. by destruct r. Qed.

Lemma insert_shape_any now r : is_Some (insert_shape 0 r) -> is_Some (insert_shape now r).
Proof. unfold insert_shape. case_match; [by eexists|by intros [??]]. Qed.
Lemma insert_rejection_any now r : is_Some (insert_rejection 0 r) -> is_Some (insert_rejection now r).
Proof. unfold insert_rejection. case_match; [by eexists|by intros [??]]. Qed.
Lemma insert_capacity_any now r : is_Some (insert_capacity 0 r) -> is_Some (insert_capacity now r).
Proof. unfold insert_capacity. case_match; [by eexists|by intros [??]]. Qed.

Definition shapes_in (b : list envelope) : list JobShape := (writeBatch b).1.1.
Definition rejs_in (b : list envelope) : list Rejection := (writeBatch b).1.2.
Definition caps_in (b : list envelope) : list CapacitySnapshot := (writeBatch b).2.

(** A table after its write, skipped when there is nothing to write. *)
Lemma fail_open_stored {A B} (up : bool) (ins : A -> option B) (rows : list A)
    (put : list B -> Soundings) (d : Soundings) :
  put [] = d ->
  match rows with
  | [] => d
  | _ => fail_open d (r ← sendBatch up (ins <$> rows); Ok (put r))
  end = put (stored up ins rows).
Proof.
  intros Hput. unfold stored, sendBatch. destruct rows as [|a rows], up; simpl; try done.
  by destruct (ins a ≫= _).
Qed.

Lemma store_batch_tables w b d :
  store_batch w b d = mkSoundings
    (sd_shapes d ++ stored (wa_shapes w).1 (insert_shape (wa_shapes w).2) (shapes_in b))
    (sd_rejections d ++ stored (wa_rejs w).1 (insert_rejection (wa_rejs w).2) (rejs_in b))
    (sd_capacity d ++ stored (wa_caps w).1 (insert_capacity (wa_caps w).2) (caps_in b))
    (sd_tiers d).
Proof.
  unfold store_batch, shapes_in, rejs_in, caps_in. destruct (writeBatch b) as [[shapes rejs] caps].
  cbn [fst snd]. unfold WriteJobShapes, WriteRejections, WriteCapacity. destruct d as [ds dr dc dt].
  cbv zeta.
  rewrite (fail_open_stored _ (insert_shape _) shapes
    (fun r => mkSoundings (ds ++ r) dr dc dt)) by (by rewrite app_nil_r). simpl.
  rewrite (fail_open_stored _ (insert_rejection _) rejs
    (fun r => mkSoundings _ (dr ++ r) dc dt)) by (by rewrite app_nil_r). simpl.
  rewrite (fail_open_stored _ (insert_capacity _) caps
    (fun r => mkSoundings _ _ (dc ++ r) dt)) by (by rewrite app_nil_r).
  done.
Qed.

Lemma writeBatch_app b b' :
  shapes_in (b ++ b') = shapes_in b ++ shapes_in b' /\
  rejs_in (b ++ b') = rejs_in b ++ rejs_in b' /\ caps_in (b ++ b') = caps_in b ++ caps_in b'.
Proof. unfold shapes_in, rejs_in, caps_in, writeBatch. simpl. by rewrite !omap_app. Qed.

(** Whether all the writes of a batch get through. *)
Definition all_up (w : Attempts) : bool := (wa_shapes w).1 && (wa_rejs w).1 && (wa_caps w).1.

(** The three tables, as the events they record. *)
Definition recorded (d : Soundings) : list JobShape * list Rejection * list CapacitySnapshot :=
  (shape_of_row <$> sd_shapes d, rejection_of_row <$> sd_rejections d,
   snapshot_of_row <$> sd_capacity d).

Lemma storable_batch b : forallb storable b = true ->
  (forall r, r ∈ shapes_in b -> is_Some (insert_shape 0 r)) /\
  (forall r, r ∈ rejs_in b -> is_Some (insert_rejection 0 r)) /\
  (forall r, r ∈ caps_in b -> is_Some (insert_capacity 0 r)).
Proof.
  rewrite forallb_forall. intros Hall. unfold shapes_in, rejs_in, caps_in, writeBatch. simpl.
  split_and!; intros r (e & He & Hr)%list_elem_of_omap; apply list_elem_of_In, Hall in He;
    destruct e; simplify_eq; by apply bool_decide_eq_true in He.
Qed.

(** Appending all or nothing keeps a table within what it should hold. *)
Lemma stored_sublist {A B} (back : B -> A) (ins : A -> option B) up rows t l :
  (forall a b, ins a = Some b -> back b = a) ->
  sublist (back <$> t) l -> sublist (back <$> (t ++ stored up ins rows)) (l ++ rows).
Proof.
  intros Hb Hs. rewrite fmap_app. destruct (proj1 (stored_all back ins up rows Hb)) as [->| ->].
  - by apply sublist_app.
  - rewrite app_nil_r. by apply sublist_inserts_r.
Qed.

Lemma store_batches_recorded ws bs d l :
  let d' := store_batches ws bs d in
  sublist (recorded d).1.1 (shapes_in l) /\ sublist (recorded d).1.2 (rejs_in l) /\
  sublist (recorded d).2 (caps_in l) ->
  sublist (recorded d').1.1 (shapes_in (l ++ concat bs)) /\
  sublist (recorded d').1.2 (rejs_in (l ++ concat bs)) /\
  sublist (recorded d').2 (caps_in (l ++ concat bs)).
Proof.
  cbn zeta. revert ws d l. induction bs as [|b bs IH]; intros ws d l Hd.
  - unfold store_batches. rewrite zip_with_nil_r. simpl. by rewrite app_nil_r.
  - destruct ws as [|w ws].
    + unfold store_batches; simpl. destruct (writeBatch_app l (b ++ concat bs)) as (-> & -> & ->).
      split_and!; apply sublist_inserts_r, Hd.
    + change (store_batches (w :: ws) (b :: bs) d) with (store_batches ws bs (store_batch w b d)).
      simpl concat. rewrite app_assoc. apply IH. rewrite store_batch_tables.
      destruct (writeBatch_app l b) as (-> & -> & ->). destruct Hd as (H1 & H2 & H3).
      split_and!; apply stored_sublist; [apply insert_shape_back|done|apply insert_rejection_back
        |done|apply insert_capacity_back|done].
Qed.

Lemma store_batches_all ws bs d :
  length ws = length bs -> forallb all_up ws = true -> forallb storable (concat bs) = true ->
  recorded (store_batches ws bs d) =
    ((recorded d).1.1 ++ shapes_in (concat bs), (recorded d).1.2 ++ rejs_in (concat bs),
     (recorded d).2 ++ caps_in (concat bs)).
Proof.
  revert ws d. induction bs as [|b bs IH]; intros [|w ws] d Hlen Hup Hst; try done.
  - unfold store_batches, shapes_in, rejs_in, caps_in; simpl. by rewrite !app_nil_r.
  - simpl in Hlen, Hup, Hst. rewrite forallb_app in Hst. reflect_bools.
    change (store_batches (w :: ws) (b :: bs) d) with (store_batches ws bs (store_batch w b d)).
    rewrite IH by (done || lia). simpl concat.
    destruct (writeBatch_app b (concat bs)) as (-> & -> & ->). rewrite store_batch_tables.
    unfold recorded; cbn [fst snd sd_shapes sd_rejections sd_capacity]. rewrite !fmap_app, <- !app_assoc.
    destruct (storable_batch b) as (Hs & Hr & Hc); [done|].
    destruct w as [[us ns] [ur nr] [uc nc]]. unfold all_up in *. simpl in * |-. reflect_bools. subst.
    cbn [fst snd wa_shapes wa_rejs wa_caps].
    rewrite (proj2 (stored_all shape_of_row _ _ _ (insert_shape_back ns)) eq_refl
      (fun r Hi => insert_shape_any _ _ (Hs r Hi))).
    rewrite (proj2 (stored_all rejection_of_row _ _ _ (insert_rejection_back nr)) eq_refl
      (fun r Hi => insert_rejection_any _ _ (Hr r Hi))).
    rewrite (proj2 (stored_all snapshot_of_row _ _ _ (insert_capacity_back nc)) eq_refl
      (fun r Hi => insert_capacity_any _ _ (Hc r Hi))).
    done.
Qed.

End SinkToStore.

(** C33 What the sink accepts is what the tables hold.  Whatever the senders and the
    worker do and whichever writes fail, the tables never hold an event that was
    not accepted, nor one twice, nor in another order.  When the writes get
    through, every accepted event has values the columns take, and the worker has
    been stopped, they hold every accepted event. *)
Theorem tables_hold_accepted `{PgTypes} ops bufferSize batchSize ws tiers :
  let s := foldl (fun s op => sink_step op s) (newSink bufferSize batchSize) ops in
  let acc := accepted ops (newSink bufferSize batchSize) in
  let d := store_batches ws (sk_written s) (mkSoundings [] [] [] tiers) in
  (sublist (recorded d).1.1 (shapes_in acc) /\ sublist (recorded d).1.2 (rejs_in acc) /\
   sublist (recorded d).2 (caps_in acc)) /\
  (length ws = length (sk_written s) -> forallb all_up ws = true -> forallb storable acc = true ->
   sk_batch s = [] -> sk_ch s = [] -> recorded d = writeBatch acc).
Proof.
  intros s acc d. destruct (sink_run_in ops (newSink bufferSize batchSize)) as [Hin _].
  assert (Hacc : acc = concat (sk_written s) ++ sk_batch s ++ sk_ch s).
  { unfold in_sink in Hin. fold s acc in Hin. rewrite Hin. unfold newSink.
    by destruct (withDefaults bufferSize batchSize). }
  split.
  - rewrite Hacc. destruct (writeBatch_app (concat (sk_written s)) (sk_batch s ++ sk_ch s)) as (-> & -> & ->).
    destruct (store_batches_recorded ws (sk_written s) (mkSoundings [] [] [] tiers) [])
      as (H1 & H2 & H3); [by repeat split; apply sublist_nil_l|].
    split_and!; apply sublist_inserts_r; done.
  - intros Hlen Hup Hst Hb Hc. rewrite Hb, Hc, !app_nil_r in Hacc. rewrite Hacc in Hst |- *.
    unfold d. rewrite store_batches_all by done. done.
Qed.

(** ** Capacity against demand *)

Implicit Types d c : list (Z * option float64).

(** The level one side gives for a bucket. *)
Fixpoint side_level (rows : list (Z * option float64)) (b : Z) : option float64 :=
  match rows with
  | [] => None
  | (b', o) :: rows' => if decide (b' = b) then o else side_level rows' b
  end.

Definition level d c (b : Z) : LevelBucket :=
  mkLevel b (default f64_zero (side_level d b)) (bool_decide (is_Some (side_level d b)))
    (default f64_zero (side_level c b)) (bool_decide (is_Some (side_level c b))).

(** The buckets of the demand side, then those only the supply side has. *)
Definition merged_buckets d c : list Z := d.*1 ++ filter (fun b => b ∉ d.*1) c.*1.

Lemma side_level_snoc rows b o b' :
  b ∉ rows.*1 -> side_level (rows ++ [(b, o)]) b' = if decide (b' = b) then o else side_level rows b'.
Proof.
  induction rows as [|[b0 o0] rows IH]; intros Hb; simpl.
  - destruct (decide (b' = b)) as [->|?]; [by rewrite decide_True|by rewrite decide_False].
  - csimpl in Hb. apply not_elem_of_cons in Hb as [? ?]. rewrite IH by done.
    repeat case_decide; subst; done.
Qed.

Lemma side_level_out rows b : b ∉ rows.*1 -> side_level rows b = None.
Proof.
  induction rows as [|[b0 o0] rows IH]; [done|]. csimpl. rewrite not_elem_of_cons.
  intros [? ?]. rewrite decide_False by done. auto.
Qed.

(** The state of the merge after the rows [d] and [c]. *)
Definition merged d c (st : gmap Z LevelBucket * list Z) : Prop :=
  st.2 = merged_buckets d c /\
  forall b, st.1 !! b = if decide (b ∈ merged_buckets d c) then Some (level d c b) else None.

Lemma touch_spec b st : let st' := touch b st in
  (forall b', b' <> b -> st'.1 !! b' = st.1 !! b') /\
  st'.1 !! b = Some (default (mkLevel b f64_zero false f64_zero false) (st.1 !! b)) /\
  st'.2 = match st.1 !! b with Some _ => st.2 | None => st.2 ++ [b] end.
Proof.
  unfold touch. destruct (st.1 !! b) as [lb|] eqn:Hb; simpl.
  - split_and!; done.
  - rewrite lookup_insert_eq. split_and!; [|done..]. intros b' ?. by rewrite lookup_insert_ne.
Qed.

Lemma merged_demand d st b o :
  merged d [] st -> b ∉ d.*1 -> merged (d ++ [(b, o)]) [] (add_demand st (b, o)).
Proof.
  intros [Ho Hm] Hb. unfold merged, merged_buckets in *. simpl in Ho, Hm. csimpl.
  rewrite filter_nil, app_nil_r in *. rewrite fmap_app. csimpl.
  assert (Hnone : st.1 !! b = None) by (rewrite Hm; by rewrite decide_False).
  destruct (touch_spec b st) as (Hother & Hsame & Horder). rewrite Hnone in Hsame, Horder.
  assert (Hrest : forall b', b' <> b ->
    (if decide (b' ∈ d.*1 ++ [b]) then Some (level (d ++ [(b, o)]) [] b') else None) = st.1 !! b').
  { intros b' Hne. rewrite Hm. unfold level. rewrite side_level_snoc, (decide_False (P := b' = b)) by done.
    destruct (decide (b' ∈ d.*1)), (decide (b' ∈ d.*1 ++ [b])) as [Hin|Hin]; try done;
      rewrite elem_of_app, list_elem_of_singleton in Hin; tauto. }
  assert (Hself : (if decide (b ∈ d.*1 ++ [b]) then Some (level (d ++ [(b, o)]) [] b) else None) =
    Some (mkLevel b (default f64_zero o) (bool_decide (is_Some o)) f64_zero false)).
  { rewrite decide_True by (rewrite elem_of_app, list_elem_of_singleton; tauto).
    unfold level. by rewrite side_level_snoc, decide_True. }
  unfold add_demand. destruct o as [avg|]; cbn [fst snd set_level].
  - split; [rewrite Horder, Ho; done|]. intros b'. destruct (decide (b' = b)) as [->|Hne].
    + by rewrite lookup_alter_eq, Hsame, Hself.
    + by rewrite lookup_alter_ne, Hother, Hrest.
  - split; [rewrite Horder, Ho; done|]. intros b'. destruct (decide (b' = b)) as [->|Hne].
    + by rewrite Hsame, Hself.
    + by rewrite Hother, Hrest.
Qed.

Lemma merged_buckets_snoc d c b o :
  b ∉ c.*1 ->
  merged_buckets d (c ++ [(b, o)]) = merged_buckets d c ++ (if decide (b ∈ d.*1) then [] else [b]).
Proof.
  intros Hb. unfold merged_buckets. rewrite fmap_app, filter_app, app_assoc. f_equal. csimpl.
  rewrite filter_cons, filter_nil. destruct (decide (b ∈ d.*1)), (decide (b ∉ d.*1)); done || tauto.
Qed.

Lemma elem_of_merged d c b : b ∈ merged_buckets d c <-> b ∈ d.*1 \/ b ∈ c.*1.
Proof.
  unfold merged_buckets. rewrite elem_of_app, list_elem_of_filter.
  destruct (decide (b ∈ d.*1)); tauto.
Qed.

Lemma merged_supply d c st b o :
  merged d c st -> b ∉ c.*1 -> merged d (c ++ [(b, o)]) (add_supply st (b, o)).
Proof.
  intros [Ho Hm] Hb. destruct (touch_spec b st) as (Hother & Hsame & Horder).
  assert (Hrest : forall b', b' <> b ->
    (if decide (b' ∈ merged_buckets d (c ++ [(b, o)])) then Some (level d (c ++ [(b, o)]) b') else None)
    = st.1 !! b').
  { intros b' Hne. rewrite Hm. unfold level. rewrite side_level_snoc, (decide_False (P := b' = b)) by done.
    apply decide_ext. rewrite !elem_of_merged, fmap_app, elem_of_app. csimpl.
    rewrite list_elem_of_singleton. tauto. }
  assert (Hself : (if decide (b ∈ merged_buckets d (c ++ [(b, o)]))
      then Some (level d (c ++ [(b, o)]) b) else None) =
    Some (mkLevel b (default f64_zero (side_level d b)) (bool_decide (is_Some (side_level d b)))
      (default f64_zero o) (bool_decide (is_Some o)))).
  { rewrite decide_True.
    - unfold level. by rewrite side_level_snoc, decide_True.
    - rewrite elem_of_merged, fmap_app, elem_of_app. csimpl. rewrite list_elem_of_singleton. tauto. }
  assert (Hb' : st.1 !! b = if decide (b ∈ d.*1) then Some (level d c b) else None).
  { rewrite Hm. apply decide_ext. rewrite elem_of_merged. tauto. }
  assert (Hstart : default (mkLevel b f64_zero false f64_zero false) (st.1 !! b) =
    mkLevel b (default f64_zero (side_level d b)) (bool_decide (is_Some (side_level d b))) f64_zero false).
  { rewrite Hb'. unfold level. rewrite (side_level_out c) by done. case_decide; simpl; [done|].
    by rewrite side_level_out. }
  assert (Hord : (touch b st).2 = merged_buckets d (c ++ [(b, o)])).
  { rewrite Horder, Hb', merged_buckets_snoc, Ho by done. case_decide; by rewrite ?app_nil_r. }
  rewrite Hstart in Hsame. unfold merged, add_supply.
  destruct o as [avg|]; cbn [fst snd set_level]; (split; [done|]); intros b';
    destruct (decide (b' = b)) as [->|Hne].
  - by rewrite lookup_alter_eq, Hsame, Hself.
  - by rewrite lookup_alter_ne, Hother, Hrest.
  - by rewrite Hsame, Hself.
  - by rewrite Hother, Hrest.
Qed.

Lemma merged_fold d c :
  NoDup d.*1 -> NoDup c.*1 -> merged d c (foldl add_supply (foldl add_demand (∅, []) d) c).
Proof.
  intros Hd Hc. induction c as [|[b o] c IH] using rev_ind.
  - clear Hc. simpl. induction d as [|[b o] d IH] using rev_ind; [done|].
    rewrite fmap_app in Hd. apply NoDup_app in Hd as (Hd & Hdis & _).
    rewrite foldl_app. apply merged_demand; [auto|]. intros Hb.
    apply (Hdis b Hb). by constructor.
  - rewrite fmap_app in Hc. apply NoDup_app in Hc as (Hc & Hdis & _).
    rewrite foldl_app. apply merged_supply; [auto|]. intros Hb.
    apply (Hdis b Hb). by constructor.
Qed.

(** The merge of the two series is the buckets of either, each with the level of
    the side that has it. *)
Lemma merge_levels d c :
  NoDup d.*1 -> NoDup c.*1 ->
  (let '(byBucket, order) := foldl add_supply (foldl add_demand (∅, []) d) c in
   omap (fun b => byBucket !! b) order) = level d c <$> merged_buckets d c.
Proof.
  intros Hd Hc. destruct (merged_fold d c Hd Hc) as [Ho Hm].
  destruct (foldl add_supply _ c) as [m order]. simpl in Ho, Hm. subst order.
  assert (Hall : forall b, b ∈ merged_buckets d c -> m !! b = Some (level d c b)).
  { intros b Hb. by rewrite Hm, decide_True. }
  clear Hm. induction (merged_buckets d c) as [|b l IH]; [done|]. csimpl.
  rewrite Hall by constructor. f_equal. apply IH. intros b' Hb'. apply Hall. by constructor.
Qed.

(** ** Concrete tables *)

Definition two_operators : Soundings :=
  let row t op placed := mkShapeRow t op "6f1c" "compute" f64_zero 0 f64_one 1024 1024 f64_one placed None in
  mkSoundings [row 5 "cloudy" true; row 7 "unknown" false; row 9 "cloudy" false]
    [mkRejectionRow 7 "unknown" "6f1c" "compute" "too_big" f64_one None] [] [].

Lemma operator_slices_add_up_witness :
  exists ops f, Operators String.ltb (at_once 10 two_operators) = Ok ops /\ ops = ["cloudy"; "unknown"] /\
    f "cloudy" = mkTotals 2 1 2 0 /\ f "unknown" = mkTotals 1 0 1 1 /\
    ReadTotals (at_once 10 two_operators) "" 6 =
      Ok (foldr (fun o t => add_totals (f o) t) zero_totals ops).
Proof.
  destruct (operator_slices_add_up String.ltb 10 two_operators 6) as (ops & Hops & _ & _ & f & Hf & Hall).
  - apply (bool_decide_unpack _). vm_compute. exact I.
  - exists ops, f. assert (Heq : ops = ["cloudy"; "unknown"]) by (vm_compute in Hops; congruence).
    split; [exact Hops|]. split; [exact Heq|]. rewrite Heq in Hf.
    assert (Ha := Hf "cloudy" ltac:(constructor)).
    assert (Hb := Hf "unknown" ltac:(constructor; constructor)).
    vm_compute in Ha, Hb. split; [congruence|]. split; [congruence|exact Hall].
Defined.

(** Every text is stored and every job id casts. *)
Definition lenient : PgTypes := {| text_ok := fun _ => true; uuid_ok := fun _ => true |}.

(** A row the database refuses takes the rest of its batch with it. *)
Example refused_row_drops_its_batch :
  let shape dur := kindJobShape (mkJobShape "cloudy" "6f1c" "compute" f64_zero dur f64_one 1 1 f64_one true "") in
  length (sd_shapes (store_batch (H := lenient) (mkAttempts (true, 0) (true, 0) (true, 0))
    [shape 0; shape (2 ^ 31); shape 0] two_operators)) = 3%nat.
Proof. vm_compute. reflexivity. Qed.
