(* ===== verification/Format.v ===== *)
(** The formatting verbs and layouts the source uses ([fmt], [strconv] and
    [time.Time.Format]): %d, %.Nf and %g of a float64, and times in UTC.

    An instant is a number of nanoseconds since 1970-01-01T00:00:00Z; floats are
    formatted from their exact value, as [strconv] does. *)
From Stdlib Require Import Ascii.
From S2P Require Import Prelude Float64 Encoding Profile.
Local Open Scope string_scope.
Local Open Scope list_scope.
Local Open Scope Z_scope.

(** ** Decimal digits *)

(** [n] in decimal, with leading zeros up to [w] digits. *)
Fixpoint zeros (n : nat) : string := match n with O => "" | S n' => "0" +:+ zeros n' end.
Definition pad (w : nat) (n : Z) : string :=
  let s := FormatInt n in zeros (w - String.length s) +:+ s.

(** ** Floats *)

(** The fraction [n/d] rounded to an integer, ties to even; [d] is positive. *)
Definition round_half_even (n d : Z) : Z :=
  let q := n / d in let r := 2 * (n mod d) in
  if r <? d then q else if d <? r then q + 1 else if Z.even q then q else q + 1.

(** The value of a mantissa and an exponent as a fraction. *)
Definition frac_of (m : positive) (e : Z) : Z * Z :=
  if 0 <=? e then (Zpos m * 2 ^ e, 1) else (Zpos m, 2 ^ (- e)).

Definition signed_str (s : bool) (t : string) : string := if s then "-" +:+ t else t.

(** [n] / 10^[prec] with [prec] decimals. *)
Definition fixed (prec : nat) (n : Z) : string :=
  match prec with
  | O => FormatInt n
  | _ => FormatInt (n / 10 ^ Z.of_nat prec) +:+ "." +:+ pad prec (n mod 10 ^ Z.of_nat prec)
  end.

(** [%.Nf] *)
Definition FormatFixed (prec : nat) (x : float64) : string :=
  match x with
  | S754_nan => "NaN"
  | S754_infinity s => if s then "-Inf" else "+Inf"
  | S754_zero s => signed_str s (fixed prec 0)
  | S754_finite s m e =>
      let '(n, d) := frac_of m e in
      signed_str s (fixed prec (round_half_even (n * 10 ^ Z.of_nat prec) d))
  end.

(** [math.Round]: to the nearest integer, halves away from zero. *)
Definition f64_Round (x : float64) : float64 :=
  match x with
  | S754_finite s m e =>
      if 0 <=? e then x
      else
        let n := (Zpos m + 2 ^ (- e - 1)) / 2 ^ (- e) in
        if n =? 0 then S754_zero s else binary_normalize 53 1024 (if s then - n else n) 0 s
  | _ => x
  end.

(** ** The shortest decimal that reads back as the float *)

(** The floats that round to [m] * 2^[e] lie between the midpoints to its
    neighbours, in units of 2^([e]-2); the lower neighbour is closer below a
    power of two.  An even mantissa owns its midpoints. *)
Definition round_interval (m : positive) (e : Z) : Z * Z :=
  let lo := if bool_decide (Zpos m = 2 ^ 52) && (-1074 <? e) then 4 * Zpos m - 1 else 4 * Zpos m - 2 in
  (lo, 4 * Zpos m + 2).

(** Whether [c] * 10^[k] rounds to the float. *)
Definition reads_back (m : positive) (e c k : Z) : bool :=
  let '(lo, hi) := round_interval m e in
  (* c * 10^k against b * 2^(e-2), both sides made integers *)
  let l := c * 10 ^ Z.max 0 k * 2 ^ Z.max 0 (2 - e) in
  let scale := 10 ^ Z.max 0 (- k) * 2 ^ Z.max 0 (e - 2) in
  if Z.even (Zpos m) then (lo * scale <=? l) && (l <=? hi * scale)
  else (lo * scale <? l) && (l <? hi * scale).

(** The decimal exponent: 10^[dp-1] <= [n/d] < 10^[dp], searched downwards from an
    estimate by the binary exponent that is at most three too high. *)
Fixpoint decimal_point (fuel : nat) (n d dp : Z) : Z :=
  match fuel with
  | O => dp
  | S fuel' =>
      if n * 10 ^ Z.max 0 (1 - dp) <? d * 10 ^ Z.max 0 (dp - 1)
      then decimal_point fuel' n d (dp - 1) else dp
  end.

(** The closest decimal with [nd] digits that reads back, if there is one. *)
Definition digits_at (m : positive) (e dp : Z) (nd : Z) : option Z :=
  let '(n, d) := frac_of m e in
  let k := dp - nd in
  let n' := n * 10 ^ Z.max 0 (- k) in let d' := d * 10 ^ Z.max 0 k in
  let c := n' / d' in
  let r := 2 * (n' mod d') in
  let up_first := (d' <? r) || (bool_decide (r = d') && Z.odd c) in
  let fst_ := if up_first then c + 1 else c in
  let snd_ := if up_first then c else c + 1 in
  if reads_back m e fst_ k then Some fst_
  else if reads_back m e snd_ k then Some snd_ else None.

(** The number of digits, at least one; 17 always suffice. *)
Fixpoint shortest_from (fuel : nat) (m : positive) (e dp nd : Z) : Z * Z :=
  match fuel with
  | O => (0, nd)
  | S fuel' =>
      match digits_at m e dp nd with
      | Some c => (c, dp - nd)
      | None => shortest_from fuel' m e dp (nd + 1)
      end
  end.

(** The value c * 10^k, in the form without trailing zeros. *)
Fixpoint strip_zeros (fuel : nat) (c k : Z) : Z * Z :=
  match fuel with
  | O => (c, k)
  | S fuel' => if (c mod 10 =? 0) && negb (c =? 0) then strip_zeros fuel' (c / 10) (k + 1) else (c, k)
  end.

Definition shortest (m : positive) (e : Z) : Z * Z :=
  let '(n, d) := frac_of m e in
  let dp := decimal_point 5 n d ((Z.log2 n - Z.log2 d + 1) * 30103 / 100000 + 2) in
  let '(c, k) := shortest_from 17 m e dp 1 in
  strip_zeros 20 c k.

(** %e with all the digits [c]: d.ddde+XX *)
Definition exp_form (c k : Z) : string :=
  let ds := FormatInt c in
  let n := String.length ds in
  let x := Z.of_nat n + k - 1 in
  let mant := if (n <=? 1)%nat then ds
              else String.substring 0 1 ds +:+ "." +:+ String.substring 1 (n - 1) ds in
  mant +:+ "e" +:+ (if x <? 0 then "-" else "+") +:+ pad 2 (Z.abs x).

(** c * 10^k without an exponent. *)
Definition plain_form (c k : Z) : string :=
  if 0 <=? k then FormatInt (c * 10 ^ k) else fixed (Z.to_nat (- k)) c.

(** [%g] with the shortest precision *)
Definition FormatG (x : float64) : string :=
  match x with
  | S754_nan => "NaN"
  | S754_infinity s => if s then "-Inf" else "+Inf"
  | S754_zero s => signed_str s "0"
  | S754_finite s m e =>
      let '(c, k) := shortest m e in
      let x := Z.of_nat (String.length (FormatInt c)) + k - 1 in
      signed_str s (if (x <? -4) || (6 <=? x) then exp_form c k else plain_form c k)
  end.

(** ** Times in UTC *)

Definition day_of (t : Z) : Z := t / Day.
Definition second_of_day (t : Z) : Z := (t mod Day) / Second.

(** Layout "01/02". *)
Definition month_day (t : Z) : string :=
  let '(_, m, d) := date_of (day_of t) in pad 2 m +:+ "/" +:+ pad 2 d.

Definition year4 (y : Z) : string := if y <? 0 then "-" +:+ pad 4 (- y) else pad 4 y.

(** Layout "2006-01-02". *)
Definition format_date (t : Z) : string :=
  let '(y, m, d) := date_of (day_of t) in year4 y +:+ "-" +:+ pad 2 m +:+ "-" +:+ pad 2 d.

Definition format_clock (t : Z) : string :=
  let '(h, mi, s) := clock_of (second_of_day t) in
  pad 2 h +:+ ":" +:+ pad 2 mi +:+ ":" +:+ pad 2 s.

(** [t.UTC().Format(time.RFC3339)] *)
Definition FormatRFC3339 (t : Z) : string := format_date t +:+ "T" +:+ format_clock t +:+ "Z".

(** The fraction of RFC3339Nano: no trailing zeros, nothing when it is zero. *)
Definition nano_fraction (ns : Z) : string :=
  if ns =? 0 then ""
  else let '(c, k) := strip_zeros 9 ns 0 in "." +:+ pad (Z.to_nat (9 - k)) c.

Definition FormatRFC3339Nano (t : Z) : string :=
  format_date t +:+ "T" +:+ format_clock t +:+ nano_fraction (t mod Second) +:+ "Z".

Example format_floats :
  (FormatG (f64_lit 1 10), FormatG (f64_of_Z 100), FormatG (f64_lit 12345 100), FormatG (f64_of_Z 1),
   FormatG (f64_add (f64_lit 1 10) (f64_lit 2 10)), FormatFixed 2 (f64_lit 2675 1000),
   FormatFixed 0 (f64_lit 25 10), FormatFixed 1 (f64_lit 1 3), FormatG (f64_of_Z 1048576)) =
  ("0.1", "100", "123.45", "1", "0.30000000000000004", "2.67", "2", "0.3", "1.048576e+06").
Proof. vm_compute. reflexivity. Qed.

Example format_times :
  (FormatRFC3339 (1700000000 * Second), FormatRFC3339Nano (1700000000 * Second + 120000000),
   month_day (1700000000 * Second)) =
  ("2023-11-14T22:13:20Z", "2023-11-14T22:13:20.12Z", "11/14").
Proof. vm_compute. reflexivity. Qed.
