(* ===== verification/Templates.v ===== *)
(** Which template files a page is rendered from: [ConfigureConsole],
    [renderTemplate] and [renderAdmin] of internal/api (operator_console.go,
    governance_console.go).

    The templates themselves are files of web/: whether a set of them parses and
    executes is a parameter. *)
From Stdlib Require Import Ascii.
From S2P Require Import Prelude Float64 Workload Sounding Registry Database Lifecycle Effects Encoding Http Limits.
Local Open Scope string_scope.
Local Open Scope list_scope.
Local Open Scope Z_scope.

(** ** path/filepath, on slash-separated paths *)

Fixpoint drop_slashes (l : list ascii) : list ascii :=
  match l with "/"%char :: l' => drop_slashes l' | _ => l end.
(** What comes before the first [c], or all of it. *)
Fixpoint before (c : ascii) (l : list ascii) : list ascii :=
  match l with [] => [] | a :: l' => if Ascii.eqb a c then [] else a :: before c l' end.
Fixpoint holds_char (c : ascii) (l : list ascii) : bool :=
  match l with [] => false | a :: l' => Ascii.eqb a c || holds_char c l' end.

(** The last element, trailing slashes removed; "." for nothing, "/" for slashes. *)
Definition Base (path : string) : string :=
  let l := String.list_ascii_of_string path in
  match l with
  | [] => "."
  | _ =>
      match drop_slashes (reverse l) with
      | [] => "/"
      | r => String.string_of_list_ascii (reverse (before "/" r))
      end
  end.

(** From the last dot of the last element on. *)
Definition Ext (path : string) : string :=
  let last := before "/" (reverse (String.list_ascii_of_string path)) in
  if holds_char "." last then String.string_of_list_ascii ("."%char :: reverse (before "." last)) else "".

Example paths :
  (Base "web/templates/layout.html", Base "layout.html", Base "a/b//", Base "", Base "//",
   Ext "web/templates/layout.html", Ext "a.d/file", Ext "x.tar.gz") =
  ("layout.html", "layout.html", "b", ".", "/", ".html", "", ".gz").
Proof. vm_compute. reflexivity. Qed.

(** [WalkDir]: the entries it visits, with whether each is a directory; [None] is
    an entry it cannot read. *)
Fixpoint collect_templates (walk : list (option (string * bool))) : option (list string) :=
  match walk with
  | [] => Some []
  | None :: _ => None
  | Some (path, is_dir) :: walk' =>
      paths ← collect_templates walk';
      Some (if negb is_dir && bool_decide (Ext path = ".html") then path :: paths else paths)
  end.

(** ** Rendering *)

Inductive Response (D : Type) :=
| HttpError (code : Z)
| Page (files : list string) (page : string) (data : D)
| BrokenPage (files : list string) (page : string) (data : D).
Arguments HttpError {D} code.
Arguments Page {D} files page data.
Arguments BrokenPage {D} files page data.

(** [template.ParseFiles] and [ExecuteTemplate]; a page that fails to execute has
    been sent in part. *)
Class TemplateEngine := {
  parses : list string -> bool;
  executes : forall D : Type, list string -> string -> D -> bool }.

(** The paths found by the scan; a later file of the same name replaces an
    earlier one. *)
Record Found := mkFound { fo_layout : string; fo_page : string; fo_banner : string }.
#[export] Instance eta_Found : Eta Found := fun f => mkFound (fo_layout f) (fo_page f) (fo_banner f).

Definition scan_public (page : string) (f : Found) (p : string) : Found :=
  if bool_decide (Base p = "layout.html") then f <| fo_layout := p |>
  else if bool_decide (Base p = "transitional_banner.html") then f <| fo_banner := p |>
  else if bool_decide (Base p = page) then f <| fo_page := p |>
  else f.

Definition scan_admin (page : string) (f : Found) (p : string) : Found :=
  if bool_decide (Base p = "admin_layout.html") then f <| fo_layout := p |>
  else if bool_decide (Base p = page) then f <| fo_page := p |>
  else f.

Section Render.
Context `{TemplateEngine} {D : Type}.

Definition execute_page (files : list string) (page : string) (data : D) : Response D :=
  if negb (parses files) then HttpError StatusInternalServerError
  else if executes D files page data then Page files page data else BrokenPage files page data.

Definition renderTemplate (templatePaths : list string) (page : string) (data : D) : Response D :=
  let f := foldl (scan_public page) (mkFound "" "" "") templatePaths in
  if bool_decide (fo_layout f = "") || bool_decide (fo_page f = "")
  then HttpError StatusInternalServerError
  else
    let files := [fo_layout f; fo_page f] in
    let files := if negb (bool_decide (fo_banner f = "")) then files ++ [fo_banner f] else files in
    execute_page files page data.

Definition renderAdmin (templatePaths : list string) (page : string) (data : D) : Response D :=
  let f := foldl (scan_admin page) (mkFound "" "" "") templatePaths in
  if bool_decide (fo_layout f = "") || bool_decide (fo_page f = "")
  then HttpError StatusInternalServerError
  else execute_page [fo_layout f; fo_page f] page data.

End Render.

(** The files a response was made from. *)
Definition files_of {D} (r : Response D) : list string :=
  match r with HttpError _ => [] | Page files _ _ | BrokenPage files _ _ => files end.

(** A scan only ever stores a path under the name it looked for. *)
Definition found_as (layout page banner : string) (f : Found) : Prop :=
  (fo_layout f = "" \/ Base (fo_layout f) = layout) /\ (fo_page f = "" \/ Base (fo_page f) = page) /\
  (fo_banner f = "" \/ Base (fo_banner f) = banner).

Lemma scan_public_found page paths f :
  found_as "layout.html" page "transitional_banner.html" f ->
  found_as "layout.html" page "transitional_banner.html" (foldl (scan_public page) f paths).
Proof.
  revert f. induction paths as [|p paths IH]; intros f Hf; simpl; [done|]. apply IH.
  destruct Hf as (?&?&?). unfold scan_public. repeat case_bool_decide; unfold found_as; simpl; auto.
Qed.

Lemma scan_admin_found page paths f :
  found_as "admin_layout.html" page "" f ->
  found_as "admin_layout.html" page "" (foldl (scan_admin page) f paths).
Proof.
  revert f. induction paths as [|p paths IH]; intros f Hf; simpl; [done|]. apply IH.
  destruct Hf as (?&?&?). unfold scan_admin. repeat case_bool_decide; unfold found_as; simpl; auto.
Qed.

Section RenderFiles.
Context `{TemplateEngine} {D : Type}.

Lemma execute_page_files files page (data : D) p :
  p ∈ files_of (execute_page files page data) -> p ∈ files.
Proof. unfold execute_page. repeat case_match; simpl; [by intros ?%not_elem_of_nil|done..]. Qed.

Lemma renderTemplate_files paths page (data : D) p :
  p ∈ files_of (renderTemplate paths page data) ->
  Base p = "layout.html" \/ Base p = page \/ Base p = "transitional_banner.html".
Proof.
  unfold renderTemplate.
  destruct (scan_public_found page paths (mkFound "" "" "")) as (Hl & Hp & Hb); [by repeat split; left|].
  case_bool_decide; [by intros ?%not_elem_of_nil|]. case_bool_decide; [by intros ?%not_elem_of_nil|].
  cbn [orb]. intros Hin%execute_page_files. case_bool_decide; cbn [negb] in Hin;
    repeat (apply elem_of_cons in Hin as [->|Hin] || apply elem_of_app in Hin as [Hin|Hin]);
    try tauto; by apply not_elem_of_nil in Hin.
Qed.

Lemma renderAdmin_files paths page (data : D) p :
  p ∈ files_of (renderAdmin paths page data) -> Base p = "admin_layout.html" \/ Base p = page.
Proof.
  unfold renderAdmin.
  destruct (scan_admin_found page paths (mkFound "" "" "")) as (Hl & Hp & _); [by repeat split; left|].
  case_bool_decide; [by intros ?%not_elem_of_nil|]. case_bool_decide; [by intros ?%not_elem_of_nil|].
  cbn [orb]. intros Hin%execute_page_files.
  repeat (apply elem_of_cons in Hin as [->|Hin]); try tauto. by apply not_elem_of_nil in Hin.
Qed.

End RenderFiles.
