(* ===== verification/Loopback.v ===== *)
(** The local-only guard of the governance surface (internal/api/governance.go:
    [NewGovernanceServer], [StartGovernance], [loopbackOnly], [isLoopbackAddr],
    [isLoopbackListener]), over [net.ParseIP] and [net.IP.IsLoopback].

    An address is its sixteen bytes; an IPv4 address is stored in the IPv6 form
    ::ffff:a.b.c.d, as [net.ParseIP] returns it. *)
From Stdlib Require Import Ascii DecimalString.
From S2P Require Import Prelude Float64 Workload Sounding Registry Database Lifecycle Effects Encoding Http Limits.
Local Open Scope string_scope.
Local Open Scope list_scope.
Local Open Scope Z_scope.

(** ** net.ParseIP *)

Abbreviation chars := String.list_ascii_of_string.

Definition digit_val (c : ascii) : option Z :=
  let z := byte_of c in if (48 <=? z) && (z <=? 57) then Some (z - 48) else None.
Definition hex_val (c : ascii) : option Z :=
  let z := byte_of c in
  if (48 <=? z) && (z <=? 57) then Some (z - 48)
  else if (97 <=? z) && (z <=? 102) then Some (z - 87)
  else if (65 <=? z) && (z <=? 70) then Some (z - 55)
  else None.

(** [parseIPv4Fields]: the value and the number of digits of the current octet
    and the octets before it. *)
Fixpoint v4_fields (s : list ascii) (val : Z) (digLen : nat) (fields : list Z) : option (list Z) :=
  match s with
  | [] => if (length fields <? 3)%nat then None else Some (fields ++ [val])
  | c :: s' =>
      match digit_val c with
      | Some d =>
          if (digLen =? 1)%nat && (val =? 0) then None
          else
            let val := val * 10 + d in
            if 255 <? val then None else v4_fields s' val (S digLen) fields
      | None =>
          if Ascii.eqb c "."
          then
            (* at the start, at the end, or after another dot *)
            if (digLen =? 0)%nat || bool_decide (s' = []) then None
            else if (length fields =? 3)%nat then None
            else v4_fields s' 0 0 (fields ++ [val])
          else None
      end
  end.
Definition parse_v4 (s : list ascii) : option (list Z) := v4_fields s 0 0 [].

(** The hexadecimal digits in front of [s], at most four: their number, their
    value and what follows. *)
Fixpoint hex_group (s : list ascii) (off : nat) (acc : Z) : option (nat * Z * list ascii) :=
  match s with
  | c :: s' =>
      match hex_val c with
      | Some d => if (3 <? off)%nat then None else hex_group s' (S off) (acc * 16 + d)
      | None => Some (off, acc, s)
      end
  | [] => Some (off, acc, [])
  end.

(** The loop over the groups: bytes read so far, where the ellipsis stands, and
    the text that is left. *)
Fixpoint v6_groups (fuel : nat) (s : list ascii) (ip : list Z) (ellipsis : option nat) :
    option (list Z * option nat * list ascii) :=
  match fuel with
  | O => Some (ip, ellipsis, s)
  | S fuel' =>
      match hex_group s 0 0 with
      | None | Some (O, _, _) => None
      | Some (_, _, "."%char :: _) =>
          if (match ellipsis with None => negb (length ip =? 12)%nat | _ => false end) ||
             (12 <? length ip)%nat then None
          else v4 ← parse_v4 s; Some (ip ++ v4, ellipsis, [])
      | Some (_, acc, rest) =>
          let ip := ip ++ [acc / 256; acc mod 256] in
          match rest with
          | [] => Some (ip, ellipsis, [])
          | ":"%char :: [] => None
          | ":"%char :: ":"%char :: rest' =>
              match ellipsis, rest' with
              | Some _, _ => None
              | None, [] => Some (ip, Some (length ip), [])
              | None, _ => v6_groups fuel' rest' ip (Some (length ip))
              end
          | ":"%char :: rest' => v6_groups fuel' rest' ip ellipsis
          | _ => None
          end
      end
  end.

(** At most eight groups of two bytes. *)
Definition parse_v6 (s : list ascii) : option (list Z) :=
  if bool_decide (s = [":"%char; ":"%char]) then Some (replicate 16 0)
  else
    let '(s, ellipsis) := match s with
      | ":"%char :: ":"%char :: s' => (s', Some 0%nat)
      | _ => (s, None)
      end in
    '(ip, ellipsis, rest) ← v6_groups 8 s [] ellipsis;
    if negb (bool_decide (rest = [])) then None
    else if (length ip <? 16)%nat then
      k ← ellipsis; Some (take k ip ++ replicate (16 - length ip) 0 ++ drop k ip)
    else match ellipsis with Some _ => None | None => Some ip end.

(** The first of '.', ':' and '%' decides; a zone is refused by [net.ParseIP]. *)
Fixpoint address_kind (s : list ascii) : option ascii :=
  match s with
  | [] => None
  | c :: s' => if Ascii.eqb c "." || Ascii.eqb c ":" || Ascii.eqb c "%" then Some c else address_kind s'
  end.
Definition v4_in_v6 (v4 : list Z) : list Z := replicate 10 0 ++ [255; 255] ++ v4.
Definition ParseIP (s : string) : option (list Z) :=
  match address_kind (chars s) with
  | Some "."%char => v4_in_v6 <$> parse_v4 (chars s)
  | Some ":"%char => if bool_decide ("%"%char ∈ chars s) then None else parse_v6 (chars s)
  | _ => None
  end.

(** [ip.To4] *)
Definition To4 (ip : list Z) : option (list Z) :=
  if (length ip =? 4)%nat then Some ip
  else if bool_decide (take 12 ip = replicate 10 0 ++ [255; 255]) && (length ip =? 16)%nat
  then Some (drop 12 ip) else None.
Definition IsLoopback (ip : list Z) : bool :=
  match To4 ip with
  | Some v4 => bool_decide (head v4 = Some 127)
  | None => bool_decide (ip = replicate 15 0 ++ [1])
  end.

Example ParseIP_examples :
  (fun s => IsLoopback <$> ParseIP s) <$>
    ["127.0.0.1"; "127.9.8.7"; "::1"; "::ffff:127.0.0.1"; "0:0:0:0:0:0:0:1"; "0.0.0.0"; "::"; "10.0.0.1";
     "127.0.0.01"; "127.1"; "localhost"; "::1%lo"; "2001:db8::1"; "1:2:3:4:5:6:7:8::"; "::ffff:7f00:1";
     "1::2::3"; ":1"; "12345::"] =
  [Some true; Some true; Some true; Some true; Some true; Some false; Some false; Some false;
   None; None; None; None; Some false; None; Some true; None; None; None].
Proof. vm_compute. reflexivity. Qed.

(** ** The guard *)

Definition isLoopbackAddr (addr : string) : bool :=
  match SplitHostPort addr with
  | None => false
  | Some host =>
      if bool_decide (host = "") then false
      else if bool_decide (host = "localhost") then true
      else match ParseIP host with Some ip => IsLoopback ip | None => false end
  end.

(** Where a listener is bound; only a TCP address has an IP. *)
Inductive ListenAddr := TCPAddr (ip : list Z) | OtherAddr.
Definition isLoopbackListener (a : ListenAddr) : bool :=
  match a with TCPAddr ip => IsLoopback ip | OtherAddr => false end.

Definition source_host (remoteAddr : string) : string := default remoteAddr (SplitHostPort remoteAddr).
Definition local_source (remoteAddr : string) : bool :=
  match ParseIP (source_host remoteAddr) with Some ip => IsLoopback ip | None => false end.

Definition loopbackOnly {A} (remoteAddr : string) (next : H A) : H A :=
  if negb (local_source remoteAddr) then reject StatusForbidden else next.

(** ** Construction and start *)

(** Ed25519: the length of a private key, its public half, signing, verifying. *)
Class SigningKey := {
  key_len : string -> Z; Public : string -> option string; SignWith : string -> string -> string;
  VerifyWith : string -> string -> string -> bool }.

Definition ErrGovernanceNotLoopback : string :=
  "api: governance address must be a loopback address (127.0.0.1 / ::1)".
Definition ErrGovernanceBadKey : string :=
  "api: coordinator signing key is missing or not a valid ed25519 private key".
Definition PrivateKeySize : Z := 64.
Definition probe : string := "soholink-coordinator-key-self-test-v1".

Record GovernanceConfig := mkGovConfig { gc_Addr : string; gc_CoordinatorID : string; gc_CoordinatorKey : string }.

(** The server, with the console not configured yet. *)
Record GovernanceServer := mkGovServer { gs_Addr : string; gs_coordinatorID : string; gs_coordKey : string }.

Definition NewGovernanceServer `{SigningKey} (cfg : GovernanceConfig) : result string GovernanceServer :=
  if negb (isLoopbackAddr (gc_Addr cfg)) then Err ErrGovernanceNotLoopback
  else if negb (key_len (gc_CoordinatorKey cfg) =? PrivateKeySize) then Err ErrGovernanceBadKey
  else match Public (gc_CoordinatorKey cfg) with
  | None => Err ErrGovernanceBadKey
  | Some pub =>
      if negb (VerifyWith pub probe (SignWith (gc_CoordinatorKey cfg) probe)) then Err ErrGovernanceBadKey
      else Ok (mkGovServer (gc_Addr cfg) (gc_CoordinatorID cfg) (gc_CoordinatorKey cfg))
  end.

(** [bind] is what the system makes of the address; serving is the result. *)
Definition StartGovernance (g : GovernanceServer) (bind : string -> result string ListenAddr) :
    result string ListenAddr :=
  match bind (gs_Addr g) with
  | Err e => Err ("api: bind governance listener " +:+ gs_Addr g +:+ ": " +:+ e)
  | Ok a => if negb (isLoopbackListener a) then Err ErrGovernanceNotLoopback else Ok a
  end.

(** ** Reading back the addresses the system prints *)

Definition octet (n : Z) : Prop := 0 <= n < 256.
Definition dotted (a b c d : Z) : string :=
  FormatInt a +:+ "." +:+ FormatInt b +:+ "." +:+ FormatInt c +:+ "." +:+ FormatInt d.

Definition reads_octet (n : Z) : Prop := forall rest fields,
  v4_fields (chars (FormatInt n) ++ rest) 0 0 fields =
    v4_fields rest n (S (length (chars (FormatInt n)) - 1)) fields.

Lemma octet_reads n : octet n -> reads_octet n.
Proof.
  intros Hn. assert (Hall : Forall reads_octet (seqZ 0 256)).
  { vm_compute seqZ. repeat (constructor; [intros rest fields; reflexivity|]). constructor. }
  rewrite Forall_forall in Hall. apply Hall, elem_of_seqZ. unfold octet in Hn. lia.
Qed.

(** An octet and the dot after it. *)
Lemma v4_field n rest fields :
  octet n -> rest <> [] -> (length fields < 3)%nat ->
  v4_fields (chars (FormatInt n) ++ chars "." ++ rest) 0 0 fields = v4_fields rest 0 0 (fields ++ [n]).
Proof.
  intros Hn Hr Hf. rewrite octet_reads by done. simpl chars. simpl app. cbn [v4_fields digit_val].
  change (Ascii.eqb "." ".") with true. cbn [Nat.eqb orb]. rewrite bool_decide_eq_false_2 by done.
  destruct (Nat.eqb_spec (length fields) 3); [lia|]. done.
Qed.

Lemma FormatInt_not_nil n : octet n -> chars (FormatInt n) <> [].
Proof.
  intros Hn Hnil.
  pose proof (ParseInt_FormatInt n ltac:(unfold octet, is_int64, int64_min, int64_max in *; lia)) as Hp.
  destruct (FormatInt n); [by vm_compute in Hp|done].
Qed.

Lemma parse_v4_dotted a b c d :
  octet a -> octet b -> octet c -> octet d -> parse_v4 (chars (dotted a b c d)) = Some [a; b; c; d].
Proof.
  intros Ha Hb Hc Hd. unfold parse_v4, dotted. rewrite !chars_app.
  rewrite v4_field; [|done| |simpl; lia].
  2: { pose proof (FormatInt_not_nil b Hb). by destruct (chars (FormatInt b)). }
  rewrite v4_field; [|done| |simpl; lia].
  2: { pose proof (FormatInt_not_nil c Hc). by destruct (chars (FormatInt c)). }
  rewrite v4_field; [|done|by apply FormatInt_not_nil|simpl; lia].
  rewrite <- (app_nil_r (chars (FormatInt d))), octet_reads by done. done.
Qed.

Lemma FormatInt_lacks c z :
  forallb (fun a => negb (Ascii.eqb a c)) ["-";"0";"1";"2";"3";"4";"5";"6";"7";"8";"9"]%char = true ->
  lacks c (FormatInt z) = true.
Proof.
  intros Hc. cbn [forallb] in Hc. apply andb_prop in Hc as [Hm Hc].
  assert (Hu : forall d, lacks c (NilZero.string_of_uint d) = true).
  { intros d. unfold NilZero.string_of_uint. case_match; [|by apply string_of_uint_lacks..].
    cbn [lacks forallb] in Hc |- *. by apply andb_prop in Hc as [-> _]. }
  unfold FormatInt, NilZero.string_of_int. case_match; cbn [lacks]; by rewrite ?Hm, ?Hu.
Qed.

Lemma dotted_lacks ch a b c d :
  forallb (fun x => negb (Ascii.eqb x ch)) ["-";"0";"1";"2";"3";"4";"5";"6";"7";"8";"9"]%char = true ->
  negb (Ascii.eqb "." ch) = true -> lacks ch (dotted a b c d) = true.
Proof.
  intros Hc Hd. unfold dotted. rewrite !lacks_app, !FormatInt_lacks by done. cbn [lacks]. by rewrite Hd.
Qed.

(** The first separator of a dotted address is a dot. *)
Lemma dotted_kind a b c d : address_kind (chars (dotted a b c d)) = Some "."%char.
Proof.
  unfold dotted. rewrite chars_app.
  assert (Hk : forall s rest, lacks "." s = true -> lacks ":" s = true -> lacks "%" s = true ->
    address_kind (chars s ++ "."%char :: rest) = Some "."%char).
  { induction s as [|x s IH]; intros rest; simpl; [done|]. rewrite !andb_true_iff, !negb_true_iff.
    intros [-> ?] [-> ?] [-> ?]. by apply IH. }
  apply Hk; by apply FormatInt_lacks.
Qed.

(** Reading the printed form of an IPv4 address gives the address. *)
Lemma ParseIP_dotted a b c d :
  octet a -> octet b -> octet c -> octet d -> ParseIP (dotted a b c d) = Some (v4_in_v6 [a; b; c; d]).
Proof. intros. unfold ParseIP. by rewrite dotted_kind, parse_v4_dotted. Qed.

(** ** host:port *)

Lemma indexByte_lacks c s : lacks c s = true -> indexByte s c = -1.
Proof.
  induction s as [|a s IH]; simpl; [done|]. rewrite andb_true_iff, negb_true_iff. intros [-> Hs].
  by rewrite IH.
Qed.

Lemma indexByte_app c s t : lacks c s = true ->
  indexByte (s +:+ String.String c t) c = Z.of_nat (String.length s).
Proof.
  induction s as [|a s IH]; simpl; [by rewrite Ascii.eqb_refl|].
  rewrite andb_true_iff, negb_true_iff. intros [-> Hs]. rewrite IH by done.
  destruct (Z.ltb_spec (Z.of_nat (String.length s)) 0); lia.
Qed.

Lemma lacks_Forall c s : lacks c s = true -> Forall (fun a => a <> c) (chars s).
Proof.
  induction s as [|a s IH]; simpl; [constructor|]. rewrite andb_true_iff, negb_true_iff.
  intros [Ha Hs]. constructor; [by apply Ascii.eqb_neq|auto].
Qed.
Lemma lacks_rev c s : lacks c s = true -> lacks c (string_rev s) = true.
Proof. intros Hs. apply lacks_list, Forall_reverse. by apply lacks_Forall. Qed.

Lemma append_char s c t : (s +:+ String.String c "") +:+ t = s +:+ String.String c t.
Proof.
  induction s as [|a s IH]; [done|].
  change (String.String a ((s +:+ String.String c "") +:+ t) = String.String a (s +:+ String.String c t)).
  by rewrite IH.
Qed.

Lemma SplitHostPort_plain host port :
  lacks ":" host = true -> lacks "[" host = true -> lacks "]" host = true -> host <> "" ->
  lacks ":" port = true -> lacks "[" port = true -> lacks "]" port = true ->
  SplitHostPort (host +:+ ":" +:+ port) = Some host.
Proof.
  intros H1 H2 H3 Hne P1 P2 P3. set (s := host +:+ ":" +:+ port).
  assert (Hi : last_colon s = Z.of_nat (String.length host)).
  { unfold last_colon, s. rewrite !string_rev_app.
    change (string_rev ":") with (String.String ":" "").
    rewrite append_char, indexByte_app by (by apply lacks_rev). rewrite length_rev.
    destruct (Z.ltb_spec (Z.of_nat (String.length port)) 0); [lia|].
    rewrite !length_append. simpl. lia. }
  assert (Hl : forall c, lacks c host = true -> lacks c port = true -> Ascii.eqb ":" c = false ->
    indexByte s c = -1).
  { intros c Hh Hp Hc. apply indexByte_lacks. unfold s. rewrite !lacks_app, Hh, Hp. cbn [lacks]. by rewrite Hc. }
  unfold SplitHostPort. rewrite Hi. destruct (Z.ltb_spec (Z.of_nat (String.length host)) 0); [lia|].
  rewrite !Hl by done. cbn [Z.eqb]. unfold prefix_of. rewrite Nat2Z.id. unfold s at 1 2.
  rewrite substring_prefix. by rewrite indexByte_lacks.
Qed.

(** The address Go prints for an IPv4 peer. *)
Definition remote_addr (a b c d port : Z) : string := dotted a b c d +:+ ":" +:+ FormatInt port.

Lemma dotted_not_empty a b c d : octet a -> dotted a b c d <> "".
Proof.
  intros Ha He. apply (FormatInt_not_nil a Ha). unfold dotted in He.
  destruct (FormatInt a); [done|]. discriminate He.
Qed.

Lemma local_source_v4 a b c d port :
  octet a -> octet b -> octet c -> octet d ->
  local_source (remote_addr a b c d port) = bool_decide (a = 127).
Proof.
  intros Ha Hb Hc Hd. unfold local_source, source_host, remote_addr.
  rewrite SplitHostPort_plain by
    (try (by apply dotted_lacks); try (by apply FormatInt_lacks); by apply dotted_not_empty).
  cbn [from_option id]. rewrite ParseIP_dotted by done. unfold IsLoopback, To4, v4_in_v6. simpl.
  apply bool_decide_ext. naive_solver.
Qed.
