(* ===== verification/Dashboard.v ===== *)
(** The demand-sounding dashboard (internal/api/governance_sounding.go): the time
    axis, the charts laid out in float64 coordinates, the tables beside them, and
    the handler of GET /admin/sounding over the read model of SoundingStore.v.

    [None] as the result of a chart is the panic of an index out of range.
    Counts are numbers of table rows and are summed without wrapping. *)
From Stdlib Require Import Ascii.
From S2P Require Import Prelude Float64 Workload Sounding Registry Database Lifecycle Effects Encoding Http Limits.
From S2P Require Import Profile Format SoundingStore Templates.
Import Rungs.
Local Open Scope string_scope.
Local Open Scope list_scope.
Local Open Scope Z_scope.

(** ** The time axis *)

Definition soundingWindow : Z := 7 * Day.
Definition soundingBucket : Z := Day.
Definition soundingWindowLabel : string := "Last 7 days".
Definition soundingBucketCount : nat := 7.

(** Midnight, UTC; [AddDate] moves by days. *)
Definition midnight (t : Z) : Z := t - t mod Day.
Definition soundingDayBuckets (now : Z) (n : nat) : list Z :=
  (fun i => midnight now + (Z.of_nat i - (Z.of_nat n - 1)) * Day) <$> seq 0 n.

(** Seconds since the epoch of the midnight before. *)
Definition bucketKey (t : Z) : Z := midnight t / Second.

(** ** Geometry *)

Definition soundChartW : float64 := f64_of_Z 680.
Definition soundChartH : float64 := f64_of_Z 240.
Definition soundPadL : float64 := f64_of_Z 48.
(** The constant expressions 680 - 48 - 16 and 240 - 16 - 34 are exact. *)
Definition soundPlotW : float64 := f64_of_Z 616.
Definition soundPlotH : float64 := f64_of_Z 190.
Definition soundBaseY : float64 := f64_add (f64_of_Z 16) soundPlotH.

Definition round2 (f : float64) : float64 :=
  f64_div (f64_Round (f64_mul f (f64_of_Z 100))) (f64_of_Z 100).

Record svgRect := mkRect {
  sq_X : float64; sq_Y : float64; sq_W : float64; sq_H : float64; sq_Hue : string; sq_Label : string;
  sq_Value : string }.
Record svgText := mkText { st_X : float64; st_Y : float64; st_S : string }.
Record svgGrid := mkGrid { gr_Y : float64; gr_Label : string }.
Record svgDot := mkDot { dt_X : float64; dt_Y : float64 }.
Record svgLegend := mkLegend { lg_Hue : string; lg_Label : string }.
Record svgSeries := mkSeries { ss_Hue : string; ss_Label : string; ss_Points : string; ss_Dots : list svgDot }.

(** W, H, BaseY and AxisX, the same in every chart. *)
Record Frame := mkFrame { fr_W : float64; fr_H : float64; fr_BaseY : float64; fr_AxisX : float64 }.
Definition frame : Frame := mkFrame soundChartW soundChartH (round2 soundBaseY) soundPadL.

Record barChartVM := mkBarChart {
  bc_Empty : bool; bc_Frame : Frame; bc_Bars : list svgRect; bc_XLabels : list svgText; bc_Grid : list svgGrid;
  bc_SingleHue : string; bc_HueLabel : string }.
Record stackChartVM := mkStackChart {
  sc_Empty : bool; sc_Frame : Frame; sc_Segs : list svgRect; sc_XLabels : list svgText; sc_Grid : list svgGrid;
  sc_Legend : list svgLegend }.
Record lineChartVM := mkLineChart {
  lc_Empty : bool; lc_Frame : Frame; lc_Series : list svgSeries; lc_XLabels : list svgText; lc_Grid : list svgGrid;
  lc_Legend : list svgLegend }.

(** 0, the middle and the maximum, each once. *)
Definition intGrid (maxVal : Z) : list svgGrid :=
  if maxVal <=? 0 then []
  else
    let scale := f64_div soundPlotH (f64_of_Z maxVal) in
    let vals := [0; (maxVal + 1) / 2; maxVal] in
    let '(_, out) := foldl (fun '(seen, out) v =>
      if bool_decide (v ∈ seen) then (seen, out)
      else (seen ++ [v], out ++ [mkGrid (round2 (f64_sub soundBaseY (f64_mul (f64_of_Z v) scale))) (FormatInt v)]))
      (([] : list Z), []) vals in
    out.

Definition floatGrid (maxVal : float64) : list svgGrid :=
  if f64_le maxVal f64_zero then []
  else
    let scale := f64_div soundPlotH maxVal in
    (fun v => mkGrid (round2 (f64_sub soundBaseY (f64_mul v scale))) (FormatFixed 1 v)) <$>
      [f64_zero; f64_div maxVal (f64_of_Z 2); maxVal].

(** The left edge of the bar in slot [i]. *)
Definition barWidth (slot : float64) : float64 := f64_mul slot (f64_lit 62 100).
Definition barX (slot : float64) (i : nat) : float64 :=
  f64_add (f64_add soundPadL (f64_mul slot (f64_of_Z (Z.of_nat i))))
    (f64_div (f64_sub slot (barWidth slot)) (f64_of_Z 2)).
Definition labelAt (slot : float64) (i : nat) (s : string) : svgText :=
  mkText (round2 (f64_add (barX slot i) (f64_div (barWidth slot) (f64_of_Z 2))))
    (f64_add soundBaseY (f64_of_Z 14)) s.

Definition max_of (l : list Z) : Z := foldl (fun m v => if m <? v then v else m) 0 l.

Definition indexed {A} (l : list A) : list (nat * A) := zip (seq 0 (length l)) l.

Definition buildBarChart (labels : list string) (values : list Z) (hue hueLabel : string) : option barChartVM :=
  let maxVal := max_of values in
  if (length values =? 0)%nat || (maxVal =? 0) then Some (mkBarChart true frame [] [] [] hue hueLabel)
  else
    let slot := f64_div soundPlotW (f64_of_Z (Z.of_nat (length values))) in
    let scale := f64_div soundPlotH (f64_of_Z maxVal) in
    drawn ← mapM (fun '(i, v) =>
      label ← labels !! i;
      let h := f64_mul (f64_of_Z v) scale in
      Some (mkRect (round2 (barX slot i)) (round2 (f64_sub soundBaseY h)) (round2 (barWidth slot))
              (round2 h) hue label (FormatInt v),
            labelAt slot i label)) (indexed values);
    Some (mkBarChart false frame drawn.*1 drawn.*2 (intGrid maxVal) hue hueLabel).

(** The segments of one column, bottom-up in category order. *)
Fixpoint stack_segs (legend : list svgLegend) (x barW scale : float64) (cursor : float64)
    (cells : list (nat * Z)) : option (list svgRect) :=
  match cells with
  | [] => Some []
  | (cat, c) :: rest =>
      if c =? 0 then stack_segs legend x barW scale cursor rest
      else
        let h := f64_mul (f64_of_Z c) scale in
        let cursor := f64_sub cursor h in
        lg ← legend !! cat;
        segs ← stack_segs legend x barW scale cursor rest;
        Some (mkRect (round2 x) (round2 cursor) (round2 barW) (round2 h) (lg_Hue lg) "" "" :: segs)
  end.

Definition buildStackChart (xLabels : list string) (matrix : list (list Z)) (legend : list svgLegend) :
    option stackChartVM :=
  let maxTotal := max_of (sumZ <$> matrix) in
  if maxTotal =? 0 then Some (mkStackChart true frame [] [] [] legend)
  else
    let slot := f64_div soundPlotW (f64_of_Z (Z.of_nat (length matrix))) in
    let scale := f64_div soundPlotH (f64_of_Z maxTotal) in
    drawn ← mapM (fun '(i, row) =>
      segs ← stack_segs legend (barX slot i) (barWidth slot) scale soundBaseY (indexed row);
      label ← xLabels !! i;
      Some (segs, labelAt slot i label)) (indexed matrix);
    Some (mkStackChart false frame (concat drawn.*1) drawn.*2 (intGrid maxTotal) legend).

Definition max_level (series : list (list (option float64))) : float64 :=
  foldl (fun m v => match v with Some x => if f64_lt m x then x else m | None => m end) f64_zero
    (concat series).

Definition lineX (slot : float64) (i : nat) : float64 :=
  f64_add (f64_add soundPadL (f64_mul slot (f64_of_Z (Z.of_nat i)))) (f64_div slot (f64_of_Z 2)).

Definition joinPoints (pts : string) (d : svgDot) : string :=
  (if negb (bool_decide (pts = "")) then pts +:+ " " else pts) +:+
    FormatG (dt_X d) +:+ "," +:+ FormatG (dt_Y d).

(** A missing value is a gap. *)
Definition line_dots (slot scale : float64) (vals : list (option float64)) : list svgDot :=
  omap (fun '(i, v) =>
    v ← v; Some (mkDot (round2 (lineX slot i)) (round2 (f64_sub soundBaseY (f64_mul v scale)))))
    (indexed vals).

Definition buildLineChart (xLabels : list string) (series : list (list (option float64)))
    (legend : list svgLegend) : option lineChartVM :=
  let maxVal := max_level series in
  if f64_le maxVal f64_zero then Some (mkLineChart true frame [] [] [] legend)
  else
    let slot := f64_div soundPlotW (f64_of_Z (Z.of_nat (length xLabels))) in
    let scale := f64_div soundPlotH maxVal in
    drawn ← mapM (fun '(s, vals) =>
      let dots := line_dots slot scale vals in
      lg ← legend !! s;
      Some (mkSeries (lg_Hue lg) (lg_Label lg) (foldl joinPoints "" dots) dots)) (indexed series);
    Some (mkLineChart false frame drawn
      ((fun '(i, lab) => mkText (round2 (lineX slot i)) (f64_add soundBaseY (f64_of_Z 14)) lab) <$>
         indexed xLabels)
      (floatGrid maxVal) legend).

(** ** The page *)

Definition soundingReasonOrder : list (string * string * string) :=
  [(ReasonTooBig, "Too big", "#6ea8ff"); (ReasonNoMatchingTier, "No matching tier", "#a98cff");
   (ReasonHadToSplit, "Had to split", "#34c6b0"); (ReasonOptedOut, "Opted out", "#c9a0dc");
   (ReasonNoCapacity, "No capacity", "#d97aa5")].

Record soundingOpOption := mkOption { op_Value : string; op_Label : string; op_Selected : bool }.
Record soundingRungRow := mkRungRow {
  rg_Name : string; rg_Order : Z; rg_CPUCeiling : string; rg_MemCeiling : string; rg_DiskCeiling : string;
  rg_State : string; rg_ComingSoon : bool }.
Record distRow := mkDistRow { dr_Rung : string; dr_Count : Z }.
Record congestusRow := mkCongestusRow { gw_Bucket : string; gw_Total : Z; gw_AgainstCeiling : Z }.
Record rejectionRow := mkRejRow { jr_Bucket : string; jr_Counts : list Z; jr_Total : Z }.
Record capDemandRow := mkCapDemandRow { cd_Bucket : string; cd_Demand : string; cd_Capacity : string }.

Record soundingPageData := mkSoundingPage {
  sp_Operators : list soundingOpOption; sp_SelectedOpLabel : string; sp_WindowLabel : string;
  sp_Totals : Totals; sp_PlacedPct : string; sp_Rungs : list soundingRungRow;
  sp_Dist : barChartVM; sp_DistRows : list distRow;
  sp_Congestus : barChartVM; sp_CongestusRows : list congestusRow;
  sp_Rejections : stackChartVM; sp_RejectionLegend : list svgLegend; sp_RejectionRows : list rejectionRow;
  sp_RejectionTotals : list Z;
  sp_CapDemand : lineChartVM; sp_CapDemandRows : list capDemandRow }.

(** The read surface of the dashboard. *)
Record soundingReadModel := mkReadModel {
  rm_Operators : result string (list string);
  rm_Totals : string -> Z -> result string Totals;
  rm_JobShapeDistribution : string -> Z -> result string (list RungCount);
  rm_CongestusSeries : string -> Z -> Z -> result string (list CongestusBucket);
  rm_RejectionsByReason : string -> Z -> Z -> result string (list RejectionCell);
  rm_CapacityVsDemand : string -> Z -> Z -> result string (list LevelBucket);
  rm_LoadLadderReader : result string Ladder }.

(** [sounding.Reader] provides it. *)
Definition reader_model `{MapOrder} `{PgAvg} (collate : string -> string -> bool) (db : Reader) :
    soundingReadModel :=
  mkReadModel (Operators collate db) (ReadTotals db) (JobShapeDistribution db) (CongestusSeries db)
    (RejectionsByReason db) (CapacityVsDemand db) (LoadLadder db).

Definition aggregateLabel : string := "All operators (aggregate)".
(** The em dash, in UTF-8. *)
Definition dash : string := string_of [226; 128; 148].

Definition op_options (ops : list string) (selectedOp : string) : list soundingOpOption :=
  mkOption "" aggregateLabel (bool_decide (selectedOp = "")) ::
    ((fun op => mkOption op op (bool_decide (op = selectedOp))) <$> ops).
(** The last match of the loop; without one the label stays. *)
Definition selected_label (ops : list string) (selectedOp : string) : string :=
  foldl (fun l op => if bool_decide (op = selectedOp) then op else l) aggregateLabel ops.

Definition placed_pct (t : Totals) : string :=
  if 0 <? tl_Jobs t
  then FormatFixed 0 (f64_mul (f64_div (f64_of_Z (tl_Placed t)) (f64_of_Z (tl_Jobs t))) (f64_of_Z 100)) +:+ "%"
  else dash.

Definition rung_row (t : Tier) : soundingRungRow :=
  mkRungRow (t_Name t) (t_Order t) (FormatG (t_CPUCeiling t)) (FormatInt (t_MemCeiling t))
    (FormatInt (t_DiskCeiling t)) (t_State t) (bool_decide (t_State t = "coming_soon")).

(** [distByRung[d.Rung] += d.Count] *)
Definition dist_by_rung (dist : list RungCount) : gmap string Z :=
  foldl (fun m d => <[rc_Rung d := default 0 (m !! rc_Rung d) + rc_Count d]> m) ∅ dist.
Definition dist_rows (tiers : list Tier) (dist : list RungCount) : list distRow :=
  let byRung := dist_by_rung dist in
  ((fun t => mkDistRow (t_Name t) (default 0 (byRung !! t_Name t))) <$> tiers) ++
    [mkDistRow "unplaced" (default 0 (byRung !! ""))].

(** [idxOf]: the position of a bucket on the axis. *)
Definition idx_of (buckets : list Z) : gmap Z nat :=
  foldl (fun m '(i, b) => <[b / Second := i]> m) ∅ (indexed buckets).

(** [if i, ok := idxOf[bucketKey(c.Bucket)]; ok { congTotal[i] = ...; congAgainst[i] = ... }] *)
Definition fill_congestus (buckets : list Z) (cong : list CongestusBucket) : list (Z * Z) :=
  foldl (fun cells c =>
    match idx_of buckets !! bucketKey (cb_Bucket c) with
    | Some i => <[i := (cb_Total c, cb_AgainstCeiling c)]> cells
    | None => cells
    end) (replicate (length buckets) (0, 0)) cong.

Definition reason_idx : gmap string nat :=
  foldl (fun m '(i, ro) => <[ro.1.1 := i]> m) ∅ (indexed soundingReasonOrder).
Definition reason_legend : list svgLegend :=
  (fun ro => mkLegend ro.2 ro.1.2) <$> soundingReasonOrder.

(** [matrix[bi][ri] += c.Count] *)
Definition add_cell (buckets : list Z) (m : list (list Z)) (c : RejectionCell) : list (list Z) :=
  match idx_of buckets !! bucketKey (rc_Bucket c), reason_idx !! rc_Reason c with
  | Some bi, Some ri => alter (alter (fun n => n + rc_Cell c) ri) bi m
  | _, _ => m
  end.
Definition fill_matrix (buckets : list Z) (rej : list RejectionCell) : list (list Z) :=
  foldl (add_cell buckets) (replicate (length buckets) (replicate (length soundingReasonOrder) 0)) rej.

Definition rejection_rows (buckets : list Z) (matrix : list (list Z)) : list rejectionRow :=
  zip_with (fun b row => mkRejRow (month_day b) row (sumZ row)) buckets matrix.
(** [data.RejectionTotals[ri] += c] over the rows. *)
Definition column_totals (matrix : list (list Z)) : list Z :=
  foldl (zip_with Z.add) (replicate (length soundingReasonOrder) 0) matrix.

Definition fill_levels (has : LevelBucket -> bool) (vcpu : LevelBucket -> float64) (buckets : list Z)
    (cd : list LevelBucket) : list (option float64) :=
  foldl (fun cells lb =>
    match idx_of buckets !! bucketKey (lb_Bucket lb) with
    | Some i => if has lb then <[i := Some (round2 (vcpu lb))]> cells else cells
    | None => cells
    end) (replicate (length buckets) None) cd.

Definition level_str (v : option float64) : string :=
  match v with Some x => FormatFixed 2 x | None => dash end.
Definition cap_demand_rows (buckets : list Z) (demand capacity : list (option float64)) : list capDemandRow :=
  zip_with (fun b dc => mkCapDemandRow (month_day b) (level_str dc.1) (level_str dc.2)) buckets
    (zip demand capacity).

Definition cdLegend : list svgLegend :=
  [mkLegend "#00b4d8" "Demand (avg vCPU/job)"; mkLegend "#a98cff" "Capacity (avg vCPU/group)"].

(** What the handler sends: a response, or a panic on an index out of range. *)
Definition handleAdminSoundingPage `{TemplateEngine} (templatePaths : list string)
    (sounding : option soundingReadModel) (now : Z) (selectedOp : string) : option (Response soundingPageData) :=
  match sounding with
  | None => Some (HttpError StatusInternalServerError)
  | Some rm =>
      match
        ops ← rm_Operators rm;
        totals ← rm_Totals rm selectedOp soundingWindow;
        let tiers := match rm_LoadLadderReader rm with Ok l => Tiers l | Err _ => [] end in
        dist ← rm_JobShapeDistribution rm selectedOp soundingWindow;
        cong ← rm_CongestusSeries rm selectedOp soundingWindow soundingBucket;
        rej ← rm_RejectionsByReason rm selectedOp soundingWindow soundingBucket;
        cd ← rm_CapacityVsDemand rm selectedOp soundingWindow soundingBucket;
        Ok (ops, totals, tiers, dist, cong, rej, cd)
      with
      | Err _ => Some (HttpError StatusInternalServerError)
      | Ok (ops, totals, tiers, dist, cong, rej, cd) =>
          let distRows := dist_rows tiers dist in
          distChart ← buildBarChart (dr_Rung <$> distRows) (dr_Count <$> distRows) "#00b4d8" "Jobs";
          let buckets := soundingDayBuckets now soundingBucketCount in
          let xLabels := month_day <$> buckets in
          let congCells := fill_congestus buckets cong in
          congChart ← buildBarChart xLabels congCells.*2 "#00b4d8" "Against ceiling";
          let matrix := fill_matrix buckets rej in
          rejChart ← buildStackChart xLabels matrix reason_legend;
          let demand := fill_levels lb_HasDemand lb_DemandVCPU buckets cd in
          let capacity := fill_levels lb_HasCapacity lb_CapacityVCPU buckets cd in
          cdChart ← buildLineChart xLabels [demand; capacity] cdLegend;
          Some (renderAdmin templatePaths "gov_sounding.html" (mkSoundingPage
            (op_options ops selectedOp) (selected_label ops selectedOp) soundingWindowLabel totals
            (placed_pct totals) (rung_row <$> tiers) distChart distRows congChart
            (zip_with (fun b c => mkCongestusRow (month_day b) c.1 c.2) buckets congCells)
            rejChart reason_legend (rejection_rows buckets matrix) (column_totals matrix)
            cdChart (cap_demand_rows buckets demand capacity)))
      end
  end.
