(* ===== verification/DashboardProofs.v ===== *)
(** What the dashboard shows is what the tables hold: every cell of its tables is
    the number of rows it stands for, and no request makes it panic. *)
From Stdlib Require Import Ascii.
From S2P Require Import Prelude Float64 Workload Sounding Registry Database Lifecycle Effects Encoding Http Limits.
From S2P Require Import Profile Format SoundingStore Templates Dashboard.
Import Rungs.
Local Open Scope string_scope.
Local Open Scope list_scope.
Local Open Scope Z_scope.

(** ** The time axis *)

Lemma indexed_snoc {A} (l : list A) a : indexed (l ++ [a]) = indexed l ++ [(length l, a)].
Proof.
  unfold indexed. rewrite length_app. simpl. rewrite Nat.add_1_r, seq_S.
  rewrite zip_with_app by (by rewrite length_seq). done.
Qed.

Lemma indexed_lookup {A} (l : list A) i a : (i, a) ∈ indexed l <-> l !! i = Some a.
Proof.
  unfold indexed. rewrite list_elem_of_lookup. setoid_rewrite lookup_zip_with_Some.
  split.
  - intros (j & x & y & [= -> ->] & Hs & Hl). apply lookup_seq in Hs as [-> _]. done.
  - intros Hl. exists i, i, a. split_and!; [done| |done]. apply lookup_seq.
    split; [lia|by eapply lookup_lt_Some].
Qed.

Lemma fmap_indexed {A} (l : list A) : (indexed l).*2 = l.
Proof. unfold indexed. apply snd_zip. by rewrite length_seq. Qed.
Lemma length_indexed {A} (l : list A) : length (indexed l) = length l.
Proof. rewrite <- (fmap_indexed l) at 2. by rewrite length_fmap. Qed.

(** A map from the keys of a list without repetition to their positions. *)
Lemma index_map `{Countable K} {A} (key : A -> K) (l : list A) k i :
  NoDup (key <$> l) ->
  foldl (fun m '(i, a) => <[key a := i]> m) (∅ : gmap K nat) (indexed l) !! k = Some i <->
  (key <$> l) !! i = Some k.
Proof.
  revert i. induction l as [|a l IH] using rev_ind; intros i Hnd.
  { simpl. rewrite lookup_empty. done. }
  rewrite fmap_app in Hnd |- *. apply NoDup_app in Hnd as (Hnd & Hdis & _).
  rewrite indexed_snoc, foldl_app. csimpl. destruct (decide (key a = k)) as [<-|Hne].
  - rewrite lookup_insert_eq. split.
    + intros [= <-]. by rewrite list_lookup_middle by (by rewrite length_fmap).
    + intros Hi. destruct (decide (i = length l)) as [->|Hil]; [done|].
      assert ((key <$> l) !! i = Some (key a)) as Hl.
      { apply lookup_app_Some in Hi as [Hi|[Hge Hi]]; [done|].
        rewrite length_fmap in Hge, Hi. destruct (i - length l)%nat eqn:Hd; [lia|done]. }
      exfalso. apply (Hdis (key a)); [by eapply list_elem_of_lookup_2|constructor].
  - rewrite lookup_insert_ne by done. rewrite IH by done. split.
    + apply lookup_app_l_Some.
    + intros Hi. apply lookup_app_Some in Hi as [Hi|[Hge Hi]]; [done|].
      rewrite length_fmap in Hi. destruct (i - length l)%nat; simpl in Hi; [congruence|done].
Qed.

Definition aligned (b : Z) : Prop := b mod Day = 0.

Lemma aligned_midnight t : aligned (midnight t).
Proof. unfold aligned, midnight, Day, Hour, Minute, Second. Z.to_euclidean_division_equations; lia. Qed.

Lemma midnight_aligned b : aligned b -> midnight b = b.
Proof. unfold aligned, midnight. lia. Qed.

Lemma time_bucket_day t : time_bucket soundingBucket t = midnight t.
Proof.
  unfold time_bucket, soundingBucket, midnight, bucket_origin, Day, Hour, Minute, Second.
  Z.to_euclidean_division_equations; lia.
Qed.

Lemma aligned_inj b b' : aligned b -> aligned b' -> b / Second = b' / Second -> b = b'.
Proof. unfold aligned, Day, Hour, Minute, Second. Z.to_euclidean_division_equations; lia. Qed.

Lemma buckets_lookup now n i b :
  soundingDayBuckets now n !! i = Some b <->
  (i < n)%nat /\ b = midnight now + (Z.of_nat i - (Z.of_nat n - 1)) * Day.
Proof.
  unfold soundingDayBuckets. rewrite list_lookup_fmap_Some. split.
  - intros (j & -> & Hj). by apply lookup_seq in Hj as [-> ?].
  - intros [Hi ->]. exists i. split; [done|]. by apply lookup_seq.
Qed.

Lemma aligned_days b k : aligned b -> aligned (b + k * Day).
Proof. unfold aligned. intros Hb. by rewrite Z_mod_plus_full. Qed.

Lemma buckets_aligned now n b : b ∈ soundingDayBuckets now n -> aligned b.
Proof.
  intros [i Hi]%list_elem_of_lookup. apply buckets_lookup in Hi as [_ ->].
  apply aligned_days, aligned_midnight.
Qed.

Lemma buckets_NoDup now n : NoDup (soundingDayBuckets now n).
Proof.
  unfold soundingDayBuckets. apply NoDup_fmap_2; [|apply NoDup_seq].
  intros i j. unfold Day, Hour, Minute, Second. lia.
Qed.

(** A midnight is on the axis at [i] when it is the bucket there. *)
Lemma idx_of_spec now n b i :
  aligned b ->
  idx_of (soundingDayBuckets now n) !! bucketKey b = Some i <-> soundingDayBuckets now n !! i = Some b.
Proof.
  intros Hb. unfold idx_of, bucketKey. rewrite midnight_aligned by done.
  rewrite (index_map (fun b => b / Second)).
  - rewrite list_lookup_fmap_Some. split; [|eauto]. intros (b' & Heq & Hb').
    rewrite (aligned_inj b b' Hb); [done| |done]. eapply buckets_aligned, list_elem_of_lookup_2; done.
  - apply NoDup_fmap_2_strong; [|apply buckets_NoDup].
    intros x y Hx Hy. apply aligned_inj; by eapply buckets_aligned.
Qed.

Lemma day_on_axis now n t i :
  idx_of (soundingDayBuckets now n) !! bucketKey (midnight t) = Some i <->
  soundingDayBuckets now n !! i = Some (midnight t).
Proof. apply idx_of_spec, aligned_midnight. Qed.

(** ** Filling the cells *)

(** Storing values at their positions, when no two share one. *)
Section Fill.
Context {A V : Type} (pos : A -> option nat) (val : A -> V).

Definition fill (cells : list V) (l : list A) : list V :=
  foldl (fun cells a => match pos a with Some i => <[i := val a]> cells | None => cells end) cells l.

Lemma length_fill cells l : length (fill cells l) = length cells.
Proof.
  unfold fill. revert cells. induction l as [|a l IH]; intros cells; simpl; [done|]. rewrite IH.
  case_match; by rewrite ?length_insert.
Qed.

Lemma fill_out cells l i : (forall a, a ∈ l -> pos a <> Some i) -> fill cells l !! i = cells !! i.
Proof.
  unfold fill. revert cells. induction l as [|a l IH]; intros cells Hall; simpl; [done|].
  rewrite IH by (intros b Hb; apply Hall; by constructor).
  destruct (pos a) as [j|] eqn:Hj; [|done]. rewrite list_lookup_insert_ne; [done|].
  intros ->. apply (Hall a); [constructor|done].
Qed.

Lemma fill_in cells l i a :
  NoDup l -> (forall b, b ∈ l -> pos b = Some i -> b = a) -> a ∈ l -> pos a = Some i ->
  (i < length cells)%nat -> fill cells l !! i = Some (val a).
Proof.
  unfold fill. revert cells. induction l as [|b l IH]; intros cells Hnd Huniq Ha Hi Hlen;
    [by apply not_elem_of_nil in Ha|]. apply NoDup_cons in Hnd as [Hb Hnd]. simpl.
  apply elem_of_cons in Ha as [->|Ha].
  - change (fill (match pos b with Some i => <[i:=val b]> cells | None => cells end) l !! i = Some (val b)).
    rewrite fill_out.
    + rewrite Hi. by rewrite list_lookup_insert_eq.
    + intros c Hc Hp. rewrite (Huniq c) in Hc; [done|by constructor|done].
  - apply IH; [done| |done..|case_match; by rewrite ?length_insert].
    intros c Hc. apply Huniq. by constructor.
Qed.

End Fill.

Lemma NoDup_fmap_elem {A B} (f : A -> B) l a c :
  NoDup (f <$> l) -> a ∈ l -> c ∈ l -> f a = f c -> a = c.
Proof.
  induction l as [|x l IH]; csimpl; [intros _ Ha; by apply not_elem_of_nil in Ha|].
  rewrite NoDup_cons, !elem_of_cons. intros [Hx Hnd] [->|Ha] [->|Hc] Hf; auto.
  - destruct Hx. apply list_elem_of_fmap. eauto.
  - destruct Hx. apply list_elem_of_fmap. eauto.
Qed.

(** A value per key, put on the axis: each bucket gets the value of the element
    with its key, or what the cells start with. *)
Lemma fill_axis {A V} (key : A -> Z) (has : A -> bool) (val : A -> V) (zero : V) (spec : Z -> V)
    (now : Z) (n : nat) (l : list A) :
  NoDup (key <$> l) -> (forall a, a ∈ l -> aligned (key a)) ->
  (forall a, a ∈ l -> has a = true -> spec (key a) = val a) ->
  (forall b, (forall a, a ∈ l -> key a = b -> has a = false) -> spec b = zero) ->
  fill (fun a => if has a then idx_of (soundingDayBuckets now n) !! bucketKey (key a) else None) val
    (replicate n zero) l = spec <$> soundingDayBuckets now n.
Proof.
  intros Hnd Hal Hhas Hzero. apply list_eq. intros i. rewrite list_lookup_fmap.
  destruct (soundingDayBuckets now n !! i) as [b|] eqn:Hb; simpl.
  2: { apply lookup_ge_None_2. rewrite length_fill, length_replicate.
       apply lookup_ge_None in Hb. unfold soundingDayBuckets in Hb. by rewrite length_fmap, length_seq in Hb. }
  assert (Hin : (i < n)%nat) by (by apply buckets_lookup in Hb as [? _]).
  assert (Hpos : forall a, a ∈ l ->
    (if has a then idx_of (soundingDayBuckets now n) !! bucketKey (key a) else None) = Some i <->
    key a = b /\ has a = true).
  { intros a Ha. destruct (has a); [|naive_solver]. rewrite idx_of_spec by auto. rewrite Hb. naive_solver. }
  destruct (decide (Exists (fun a => key a = b /\ has a = true) l)) as [He|Hno]; rewrite Exists_exists in *.
  - destruct He as (a & Ha & Hk & Hh).
    rewrite (fill_in _ _ _ _ _ a); [by rewrite <- Hk, Hhas|by eapply NoDup_fmap_1| |done|by apply Hpos|
      by rewrite length_replicate].
    intros c Hc [Hk' _]%Hpos; [|done]. apply (NoDup_fmap_elem key l); congruence.
  - rewrite fill_out.
    + rewrite lookup_replicate_2, Hzero; [done| |done]. intros a Ha Hk.
      destruct (has a) eqn:Hh; [|done]. by destruct Hno; exists a.
    + intros a Ha [Hk Hh]%Hpos; [|done]. by destruct Hno; exists a.
Qed.

Lemma by_bucket_perm {K B} (bucket : K -> Z) (l : list (K * B)) : by_bucket bucket l ≡ₚ l.
Proof. symmetry. apply isort_perm. Qed.

Lemma NoDup_of_fst {A B} (l : list (A * B)) : NoDup l.*1 -> NoDup l.
Proof. apply NoDup_fmap_1. Qed.

(** The groups of a day, from the series of the read model. *)
Section Series.
Context `{MapOrder} {A : Type} (time : A -> Z) (rows : list A).

Definition days : list (Z * list A) :=
  by_bucket id (map_range (groups (fun s => time_bucket soundingBucket (time s)) rows)).

Definition on_day (b : Z) (s : A) : bool := midnight (time s) =? b.

Lemma days_elem b g :
  (b, g) ∈ days <-> g = filter (fun s => on_day b s = true) rows /\ g <> [].
Proof.
  unfold days. rewrite by_bucket_perm, groups_elem.
  rewrite (list_filter_iff _ (fun s => on_day b s = true)); [done|].
  intros s. unfold on_day. rewrite time_bucket_day, Z.eqb_eq. done.
Qed.

Lemma days_NoDup : NoDup days.*1.
Proof. unfold days. rewrite by_bucket_perm. apply groups_NoDup. Qed.

Lemma days_aligned b g : (b, g) ∈ days -> aligned b.
Proof.
  intros [-> Hg]%days_elem. destruct (filter _ rows) as [|s l] eqn:Hf; [done|].
  assert (Hs : s ∈ filter (fun s => on_day b s = true) rows) by (rewrite Hf; constructor).
  apply list_elem_of_filter in Hs as [Hs _]. apply Z.eqb_eq in Hs as <-. apply aligned_midnight.
Qed.

(** A value per day, put on the axis. *)
Lemma fill_days {V} (now : Z) (n : nat) (val : list A -> V) :
  fill (fun dg => idx_of (soundingDayBuckets now n) !! bucketKey dg.1) (fun dg => val dg.2)
    (replicate n (val [])) days =
  (fun b => val (filter (fun s => on_day b s = true) rows)) <$> soundingDayBuckets now n.
Proof.
  apply (fill_axis fst (fun _ => true)); [apply days_NoDup| | |].
  - intros [b g] Hd. by eapply days_aligned.
  - intros [b g] [-> _]%days_elem _. done.
  - intros b Hno. destruct (filter (fun s => on_day b s = true) rows) as [|s g] eqn:Hf; [done|].
    discriminate (Hno (b, s :: g)); [|done]. apply days_elem. by rewrite Hf.
Qed.

End Series.

(** ** Every cell is a count of rows *)

Section Cells.
Context `{MapOrder} `{PgAvg} (collate : string -> string -> bool) (oid : string) (now : Z) (d : Soundings).

Abbreviation axis := (soundingDayBuckets now soundingBucketCount).
Abbreviation model := (reader_model collate (at_once now d)).

Definition shape_on (b : Z) (s : ShapeRow) : bool :=
  shape_in oid now soundingWindow s && (midnight (sr_time s) =? b).
Definition rejection_on (b : Z) (reason : string) (r : RejectionRow) : bool :=
  rejection_in oid now soundingWindow r && ((midnight (rr_time r) =? b) && bool_decide (rr_reason r = reason)).

Lemma congestus_at_once :
  CongestusSeries (at_once now d) oid soundingWindow soundingBucket =
  Ok ((fun kg => mkCongestus kg.1 (count_if (fun _ => true) kg.2) (count_if against_ceiling kg.2)) <$>
        days sr_time (filter (fun s => shape_in oid now soundingWindow s = true) (sd_shapes d))).
Proof.
  unfold CongestusSeries, at_once. cbn [mbind result_bind wrap].
  rewrite shapes_of_opArgs by (simpl; lia). done.
Qed.

(** The bars and the table of the second chart: of each day, the jobs and those
    against the ceiling. *)
Lemma congestus_cells cong :
  rm_CongestusSeries model oid soundingWindow soundingBucket = Ok cong ->
  fill_congestus axis cong =
  (fun b => (count_if (shape_on b) (sd_shapes d),
             count_if (fun s => shape_on b s && against_ceiling s) (sd_shapes d))) <$> axis.
Proof.
  cbn [rm_CongestusSeries reader_model]. rewrite congestus_at_once. intros [= <-]. unfold fill_congestus. rewrite foldl_fmap.
  set (rows := filter _ (sd_shapes d)).
  etrans; [apply (fill_days sr_time rows now soundingBucketCount
    (fun g => (count_if (fun _ => true) g, count_if against_ceiling g)))|].
  apply list_fmap_ext. intros i b _. unfold rows, on_day.
  rewrite !count_if_filter. unfold shape_on. f_equal; apply count_if_ext; intros s _.
  - by rewrite andb_true_r.
  - by rewrite andb_assoc.
Qed.

(** *** Rejections *)

Lemma reason_idx_spec reason i :
  reason_idx !! reason = Some i <-> ((fun ro => ro.1.1) <$> soundingReasonOrder) !! i = Some reason.
Proof.
  apply (index_map (fun ro : string * string * string => ro.1.1)).
  apply (bool_decide_unpack _). vm_compute. exact I.
Qed.

(** What a cell of the series adds to an entry of the matrix. *)
Definition contribution (buckets : list Z) (bi ri : nat) (c : RejectionCell) : Z :=
  if bool_decide (idx_of buckets !! bucketKey (rc_Bucket c) = Some bi /\ reason_idx !! rc_Reason c = Some ri)
  then rc_Cell c else 0.

Lemma imap_alter {A B} (f : nat -> A -> B) (g : A -> A) (k : nat) (l : list A) :
  imap f (alter g k l) = imap (fun i a => f i (if decide (i = k) then g a else a)) l.
Proof.
  apply list_eq. intros i. rewrite !list_lookup_imap. destruct (decide (i = k)) as [->|Hne].
  - rewrite list_lookup_alter. destruct (l !! k); simpl; by rewrite ?decide_True.
  - rewrite list_lookup_alter_ne by done. by destruct (l !! i); simpl; rewrite ?decide_False.
Qed.

Lemma fill_matrix_entry buckets rej m bi row :
  m !! bi = Some row ->
  foldl (add_cell buckets) m rej !! bi =
  Some (imap (fun ri n => n + sumZ (contribution buckets bi ri <$> rej)) row).
Proof.
  revert m row. induction rej as [|c rej IH]; intros m row Hm; cbn [foldl].
  - rewrite Hm. f_equal. apply list_eq. intros i. rewrite list_lookup_imap.
    destruct (row !! i); simpl; [|done]. f_equal. lia.
  - unfold add_cell at 2. destruct (idx_of buckets !! bucketKey (rc_Bucket c)) as [bi'|] eqn:Hb.
    2: { rewrite (IH m row) by done. f_equal. apply imap_ext. intros i x _. csimpl.
         unfold contribution at 2. rewrite bool_decide_eq_false_2; [lia|]. rewrite Hb. naive_solver. }
    destruct (reason_idx !! rc_Reason c) as [ri'|] eqn:Hr.
    2: { rewrite (IH m row) by done. f_equal. apply imap_ext. intros i x _. csimpl.
         unfold contribution at 2. rewrite bool_decide_eq_false_2; [lia|]. rewrite Hr. naive_solver. }
    destruct (decide (bi' = bi)) as [->|Hne].
    + rewrite (IH _ (alter (fun n => n + rc_Cell c) ri' row)) by (by rewrite list_lookup_alter_eq, Hm).
      f_equal. rewrite imap_alter. apply imap_ext. intros i x _. csimpl. unfold contribution at 2.
      rewrite Hb, Hr. destruct (decide (i = ri')) as [->|?].
      * rewrite bool_decide_eq_true_2 by done. lia.
      * rewrite bool_decide_eq_false_2 by naive_solver. lia.
    + rewrite (IH _ row) by (by rewrite list_lookup_alter_ne). f_equal. apply imap_ext. intros i x _.
      csimpl. unfold contribution at 2. rewrite Hb, bool_decide_eq_false_2; [lia|]. naive_solver.
Qed.

(** Adding up the groups whose key satisfies a condition. *)
Lemma groups_count_key `{Countable K} {A} (key : A -> K) (P : K -> bool) (rows : list A) :
  sumZ ((fun kg : K * list A => if P kg.1 then count_if (fun _ => true) kg.2 else 0) <$>
    map_range (groups key rows)) = count_if (fun a => P (key a)) rows.
Proof.
  rewrite <- (groups_count key (fun a => P (key a)) rows). apply sumZ_ext. intros [k g] Hkg.
  apply groups_elem in Hkg as [-> _]. simpl.
  transitivity (count_if (fun _ => P k) (filter (fun a => key a = k) rows)).
  - unfold count_if. destruct (P k); [done|]. by rewrite sumZ_zero.
  - apply count_if_ext. intros a Ha. by apply list_elem_of_filter in Ha as [-> _].
Qed.

Lemma rejections_at_once :
  RejectionsByReason (at_once now d) oid soundingWindow soundingBucket =
  Ok ((fun kg => mkCell kg.1.1 kg.1.2 (count_if (fun _ => true) kg.2)) <$>
        by_bucket fst (map_range (groups (fun s => (time_bucket soundingBucket (rr_time s), rr_reason s))
          (filter (fun s => rejection_in oid now soundingWindow s = true) (sd_rejections d))))).
Proof.
  unfold RejectionsByReason, at_once. cbn [mbind result_bind wrap].
  rewrite rejections_of_opArgs by (simpl; lia). done.
Qed.

Lemma rejection_sum bi ri b ro rej :
  rm_RejectionsByReason model oid soundingWindow soundingBucket = Ok rej ->
  axis !! bi = Some b -> soundingReasonOrder !! ri = Some ro ->
  sumZ (contribution axis bi ri <$> rej) = count_if (rejection_on b ro.1.1) (sd_rejections d).
Proof.
  cbn [rm_RejectionsByReason reader_model]. rewrite rejections_at_once. intros [= <-] Hb Hro. rewrite <- list_fmap_compose.
  rewrite by_bucket_perm. set (P := fun k : Z * string => (k.1 =? b) && bool_decide (k.2 = ro.1.1)).
  rewrite (sumZ_ext _ (fun kg => if P kg.1 then count_if (fun _ => true) kg.2 else 0)).
  - rewrite groups_count_key, count_if_filter.
    apply count_if_ext. intros s _. unfold rejection_on. cbn [fst snd]. by rewrite time_bucket_day.
  - intros [[b' reason] g] Hkg. apply groups_elem in Hkg as [Hg Hne]. cbn [compose fst snd].
    unfold contribution. cbn [rc_Bucket rc_Reason rc_Cell].
    assert (Hal : aligned b').
    { destruct g as [|s g']; [done|].
      assert (Hs : s ∈ s :: g') by constructor. rewrite Hg in Hs. apply list_elem_of_filter in Hs as [Hs _].
      injection Hs as <- _. rewrite time_bucket_day. apply aligned_midnight. }
    rewrite (bool_decide_ext _ (b' = b /\ reason = ro.1.1)).
    + rewrite bool_decide_and. unfold P. cbn [fst snd].
      destruct (Z.eqb_spec b' b); [by rewrite (bool_decide_eq_true_2 (b' = b))|].
      by rewrite (bool_decide_eq_false_2 (b' = b)).
    + rewrite idx_of_spec, reason_idx_spec by done. rewrite Hb, list_lookup_fmap, Hro. naive_solver.
Qed.

(** The matrix of the third chart: of each day and reason, the rejections. *)
Lemma rejection_cells rej :
  rm_RejectionsByReason model oid soundingWindow soundingBucket = Ok rej ->
  fill_matrix axis rej =
  (fun b => (fun ro => count_if (rejection_on b ro.1.1) (sd_rejections d)) <$> soundingReasonOrder) <$> axis.
Proof.
  intros Hrej. unfold fill_matrix. apply list_eq. intros bi. rewrite list_lookup_fmap.
  destruct (axis !! bi) as [b|] eqn:Hb.
  - rewrite (fill_matrix_entry _ _ _ _ (replicate (length soundingReasonOrder) 0))
      by (apply lookup_replicate_2; by eapply lookup_lt_Some).
    cbn [fmap option_fmap option_map]. f_equal. apply list_eq. intros ri.
    rewrite list_lookup_imap, list_lookup_fmap.
    destruct (soundingReasonOrder !! ri) as [ro|] eqn:Hro.
    + rewrite lookup_replicate_2 by (by eapply lookup_lt_Some).
      cbn [fmap option_fmap option_map]. f_equal. rewrite Z.add_0_l. by eapply rejection_sum.
    + rewrite lookup_ge_None_2; [done|]. rewrite length_replicate. by apply lookup_ge_None.
  - apply lookup_ge_None_2. apply lookup_ge_None in Hb.
    assert (Hlen : forall l m, length (foldl (add_cell axis) m l) = length m).
    { induction l as [|c l IH]; intros m; cbn [foldl]; [done|]. rewrite IH. unfold add_cell.
      repeat case_match; by rewrite ?length_alter. }
    by rewrite Hlen, length_replicate.
Qed.

(** *** The ladder *)

Lemma dist_by_rung_lookup dist r :
  default 0 (dist_by_rung dist !! r) =
  sumZ ((fun c => if bool_decide (rc_Rung c = r) then rc_Count c else 0) <$> dist).
Proof.
  unfold dist_by_rung. induction dist as [|c dist IH] using rev_ind.
  { cbn [foldl]. by rewrite lookup_empty. }
  rewrite foldl_app, fmap_app, sumZ_app. csimpl. rewrite <- IH.
  case_bool_decide as Hr; [subst r; rewrite lookup_insert_eq|rewrite lookup_insert_ne by done]; simpl; lia.
Qed.

Definition shape_fits (r : string) (s : ShapeRow) : bool :=
  shape_in oid now soundingWindow s && bool_decide (rung_or_empty s = r).

(** The bars of the first chart: of each rung, the jobs recorded under it. *)
Lemma dist_cells dist r :
  rm_JobShapeDistribution model oid soundingWindow = Ok dist ->
  default 0 (dist_by_rung dist !! r) = count_if (shape_fits r) (sd_shapes d).
Proof.
  cbn [rm_JobShapeDistribution reader_model]. unfold JobShapeDistribution, at_once.
  cbn [mbind result_bind wrap]. rewrite shapes_of_opArgs by (simpl; lia). cbn [mbind result_bind wrap].
  intros [= <-]. rewrite dist_by_rung_lookup, <- list_fmap_compose.
  set (P := fun k : string => bool_decide (k = r)).
  transitivity (count_if (fun s => P (rung_or_empty s))
    (filter (fun s => shape_in oid now soundingWindow s = true) (sd_shapes d))).
  - by rewrite <- groups_count_key.
  - by rewrite count_if_filter.
Qed.

(** *** Levels *)

Lemma fill_levels_spec d1 c1 (side : list (Z * option float64)) has vcpu :
  NoDup d1.*1 -> NoDup c1.*1 -> (forall b, b ∈ merged_buckets d1 c1 -> aligned b) ->
  (forall b, has (level d1 c1 b) = bool_decide (is_Some (side_level side b))) ->
  (forall b, vcpu (level d1 c1 b) = default f64_zero (side_level side b)) ->
  (forall b, b ∈ side.*1 -> b ∈ merged_buckets d1 c1) ->
  fill_levels has vcpu axis (level d1 c1 <$> merged_buckets d1 c1) =
  (fun b => round2 <$> side_level side b) <$> axis.
Proof.
  intros Hd Hc Hal Hhas Hv Hin. unfold fill_levels. rewrite foldl_fmap.
  transitivity (fill (fun b => if has (level d1 c1 b) then idx_of axis !! bucketKey b else None)
    (fun b => Some (round2 (vcpu (level d1 c1 b)))) (replicate soundingBucketCount None) (merged_buckets d1 c1)).
  { unfold fill. change (length axis) with soundingBucketCount.
    clear Hal Hin. generalize (replicate soundingBucketCount (None : option float64)).
    induction (merged_buckets d1 c1) as [|b l IH]; intros cells; cbn [foldl]; [done|].
    match goal with |- foldl _ ?x _ = foldl _ ?y _ => replace x with y; [apply IH|] end.
    cbn [level lb_Bucket]. by destruct (has (level d1 c1 b)), (idx_of axis !! bucketKey b). }
  apply (fill_axis (fun b : Z => b) (fun b => has (level d1 c1 b))).
  - rewrite list_fmap_id. unfold merged_buckets. apply NoDup_app. split_and!; [done| |by apply NoDup_filter].
    intros b Hb [Hn _]%list_elem_of_filter. done.
  - done.
  - intros b _. rewrite Hhas, Hv. intros [v Hs]%bool_decide_eq_true. by rewrite Hs.
  - intros b Hno. destruct (side_level side b) as [v|] eqn:Hs; [|done].
    assert (Hb : b ∈ merged_buckets d1 c1).
    { apply Hin. apply dec_stable. intros Hn. by rewrite side_level_out in Hs. }
    specialize (Hno b Hb eq_refl). rewrite Hhas, Hs in Hno. by apply bool_decide_eq_false in Hno as [].
Qed.

Definition day_shapes (b : Z) : list ShapeRow := filter (fun s => shape_on b s = true) (sd_shapes d).
Definition capacity_on (b : Z) (c : CapacityRow) : bool :=
  capacity_in oid now soundingWindow c && (midnight (cr_time c) =? b).
Definition day_capacity (b : Z) : list CapacityRow :=
  filter (fun c => capacity_on b c = true)
    (filter (fun c => cr_workload_type c = WorkloadCompute) (sd_capacity d)).

Lemma filter_and {A} (p q : A -> bool) (l : list A) :
  filter (fun a => q a = true) (filter (fun a => p a = true) l) = filter (fun a => p a && q a = true) l.
Proof.
  induction l as [|a l IH]; [done|]. rewrite !filter_cons.
  destruct (p a) eqn:Hp; simpl; [|done]. rewrite filter_cons, IH. by destruct (q a).
Qed.

(** A side of the comparison: the average of each day that has rows. *)
Lemma side_level_days {A} (time : A -> Z) (rows : list A) (avg : list A -> option float64) b :
  avg [] = None ->
  side_level ((fun kg => (kg.1, avg kg.2)) <$> days time rows) b =
  avg (filter (fun s => on_day time b s = true) rows).
Proof.
  intros Hnil. set (rs := (fun kg => (kg.1, avg kg.2)) <$> days time rows).
  assert (Hnd : NoDup rs.*1) by (unfold rs; rewrite <- list_fmap_compose; apply days_NoDup).
  assert (Hkey : forall o, (b, o) ∈ rs -> o = avg (filter (fun s => on_day time b s = true) rows)).
  { intros o ([b' g] & [= <- ->] & Hg)%list_elem_of_fmap. by apply days_elem in Hg as [-> _]. }
  destruct (decide (b ∈ rs.*1)) as [Hb|Hb].
  - apply list_elem_of_fmap in Hb as ([b' o] & Hbo & Hin). simpl in Hbo. subst b'.
    rewrite <- (Hkey o Hin). clear Hkey. clearbody rs. induction rs as [|[b' o'] rs IH];
      [by apply not_elem_of_nil in Hin|]. csimpl in Hnd. apply NoDup_cons in Hnd as [Hn Hnd]. simpl.
    apply elem_of_cons in Hin as [[= -> ->]|Hin]; [by rewrite decide_True|].
    rewrite decide_False; [auto|]. intros ->. apply Hn, list_elem_of_fmap. by exists (b, o).
  - rewrite side_level_out by done.
    destruct (filter (fun s => on_day time b s = true) rows) as [|s g] eqn:Hf; [done|].
    destruct Hb. unfold rs. rewrite <- list_fmap_compose. apply list_elem_of_fmap.
    exists (b, s :: g). split; [done|]. apply days_elem. by rewrite Hf.
Qed.

Lemma levels_at_once cd :
  rm_CapacityVsDemand model oid soundingWindow soundingBucket = Ok cd ->
  fill_levels lb_HasDemand lb_DemandVCPU axis cd =
    (fun b => round2 <$> avg_f64 (sr_cpu <$> day_shapes b)) <$> axis /\
  fill_levels lb_HasCapacity lb_CapacityVCPU axis cd =
    (fun b => round2 <$> avg_int (cr_vcpus <$> day_capacity b)) <$> axis.
Proof.
  cbn [rm_CapacityVsDemand reader_model]. unfold CapacityVsDemand, at_once. cbn [mbind result_bind wrap].
  rewrite shapes_of_opArgs, capacity_of_opArgs by (simpl; lia). cbn [mbind result_bind wrap].
  set (srows := filter _ (sd_shapes d)). set (crows := filter _ (filter _ (sd_capacity d))).
  change (demand_rows soundingBucket srows)
    with ((fun kg => (kg.1, avg_f64 (sr_cpu <$> kg.2))) <$> days sr_time srows).
  change (supply_rows soundingBucket crows)
    with ((fun kg => (kg.1, avg_int (cr_vcpus <$> kg.2))) <$> days cr_time crows).
  set (dl := _ <$> days sr_time srows). set (cl := _ <$> days cr_time crows).
  assert (Hd : NoDup dl.*1) by (unfold dl; rewrite <- list_fmap_compose; apply days_NoDup).
  assert (Hc : NoDup cl.*1) by (unfold cl; rewrite <- list_fmap_compose; apply days_NoDup).
  assert (Hal : forall b, b ∈ merged_buckets dl cl -> aligned b).
  { intros b [Hb|Hb]%elem_of_merged; unfold dl, cl in Hb; rewrite <- list_fmap_compose in Hb;
      apply list_elem_of_fmap in Hb as ([b' g] & -> & Hg); by eapply days_aligned. }
  pose proof (merge_levels dl cl Hd Hc) as Hm. destruct (foldl add_supply _ _) as [byB order].
  intros [= <-]. rewrite Hm. clear Hm. split.
  - rewrite (fill_levels_spec dl cl dl) by (done || (intros; rewrite elem_of_merged; tauto)).
    apply list_fmap_ext. intros i b _. unfold dl.
    rewrite (side_level_days sr_time srows (fun g => avg_f64 (sr_cpu <$> g))) by (by apply avg_f64_null).
    unfold srows. by rewrite filter_and.
  - rewrite (fill_levels_spec dl cl cl) by (done || (intros; rewrite elem_of_merged; tauto)).
    apply list_fmap_ext. intros i b _. unfold cl.
    rewrite (side_level_days cr_time crows (fun g => avg_int (cr_vcpus <$> g))) by (by apply avg_int_null).
    unfold crows. by rewrite filter_and.
Qed.

End Cells.

(** ** The charts never index out of range *)

Lemma mapM_indexed {A B} (f : nat * A -> option B) (l : list A) :
  (forall i a, l !! i = Some a -> is_Some (f (i, a))) -> is_Some (mapM f (indexed l)).
Proof.
  intros Hf. apply mapM_is_Some, Forall_forall. intros [i a] Hin. by apply Hf, indexed_lookup.
Qed.

Lemma buildBarChart_some labels values hue hueLabel :
  length labels = length values -> is_Some (buildBarChart labels values hue hueLabel).
Proof.
  intros Hlen. unfold buildBarChart. case_match; [done|].
  match goal with |- is_Some (mapM ?f _ ≫= _) => destruct (mapM_indexed f values) as [x ->]; [|done] end.
  intros i v Hv. destruct (lookup_lt_is_Some_2 labels i) as [lab Hl].
  { rewrite Hlen. by eapply lookup_lt_Some. }
  cbv beta iota. by rewrite Hl.
Qed.

Lemma stack_segs_some legend x barW scale cursor cells :
  (forall cat c, (cat, c) ∈ cells -> (cat < length legend)%nat) ->
  is_Some (stack_segs legend x barW scale cursor cells).
Proof.
  revert cursor. induction cells as [|[cat c] cells IH]; intros cursor Hall; simpl; [done|].
  assert (Hrest : forall cat c, (cat, c) ∈ cells -> (cat < length legend)%nat)
    by (intros cat' c' Hc; apply (Hall cat' c'); by constructor).
  case_match; [by apply IH|].
  destruct (lookup_lt_is_Some_2 legend cat) as [lg ->]; [apply (Hall cat c); constructor|]. simpl.
  match goal with |- is_Some (stack_segs _ _ _ _ ?cu _ ≫= _) => destruct (IH cu Hrest) as [segs ->] end.
  done.
Qed.

Lemma buildStackChart_some xLabels matrix legend :
  length xLabels = length matrix -> (forall row, row ∈ matrix -> length row = length legend) ->
  is_Some (buildStackChart xLabels matrix legend).
Proof.
  intros Hlen Hrows. unfold buildStackChart. case_match; [done|].
  match goal with |- is_Some (mapM ?f _ ≫= _) => destruct (mapM_indexed f matrix) as [x ->]; [|done] end.
  intros i row Hrow. cbv beta iota.
  match goal with |- is_Some (stack_segs ?a ?b ?c ?e ?g ?h ≫= _) =>
    destruct (stack_segs_some a b c e g h) as [segs ->] end.
  - intros cat c Hc%indexed_lookup. rewrite <- (Hrows row) by (by eapply list_elem_of_lookup_2).
    by eapply lookup_lt_Some.
  - cbn [mbind option_bind]. destruct (lookup_lt_is_Some_2 xLabels i) as [lab ->]; [|done].
    rewrite Hlen. by eapply lookup_lt_Some.
Qed.

Lemma buildLineChart_some xLabels series legend :
  length series = length legend -> is_Some (buildLineChart xLabels series legend).
Proof.
  intros Hlen. unfold buildLineChart. case_match; [done|].
  match goal with |- is_Some (mapM ?f _ ≫= _) => destruct (mapM_indexed f series) as [x ->]; [|done] end.
  intros i vals Hv. cbv beta iota. destruct (lookup_lt_is_Some_2 legend i) as [lg ->]; [|done].
  rewrite <- Hlen. by eapply lookup_lt_Some.
Qed.

(** The matrix has a row per bucket and a column per reason, whatever is read. *)
Lemma fill_matrix_shape buckets rej :
  length (fill_matrix buckets rej) = length buckets /\
  forall row, row ∈ fill_matrix buckets rej -> length row = length soundingReasonOrder.
Proof.
  unfold fill_matrix. set (m := replicate _ _).
  assert (Hm : length m = length buckets /\ forall row, row ∈ m -> length row = length soundingReasonOrder).
  { split; [apply length_replicate|]. intros row [-> _]%elem_of_replicate. apply length_replicate. }
  clearbody m. revert m Hm. induction rej as [|c rej IH]; intros m Hm; cbn [foldl]; [done|].
  apply IH. destruct Hm as [Hl Hr]. unfold add_cell. repeat case_match; try done.
  split; [by rewrite length_alter|]. apply Forall_forall, Forall_alter; [by apply Forall_forall|].
  intros row _ Hrow. by rewrite length_alter.
Qed.

Lemma length_fill_congestus buckets cong : length (fill_congestus buckets cong) = length buckets.
Proof.
  unfold fill_congestus. set (cells := replicate _ _).
  assert (Hl : length cells = length buckets) by apply length_replicate. clearbody cells.
  revert cells Hl. induction cong as [|c cong IH]; intros cells Hl; cbn [foldl]; [done|].
  apply IH. case_match; by rewrite ?length_insert.
Qed.

(** The page that the results of the reads make. *)
Lemma sounding_page `{TemplateEngine} paths rm now op ops totals dist cong rej cd :
  let tiers := match rm_LoadLadderReader rm with Ok l => Tiers l | Err _ => [] end in
  let ax := soundingDayBuckets now soundingBucketCount in
  let demand := fill_levels lb_HasDemand lb_DemandVCPU ax cd in
  let capacity := fill_levels lb_HasCapacity lb_CapacityVCPU ax cd in
  rm_Operators rm = Ok ops -> rm_Totals rm op soundingWindow = Ok totals ->
  rm_JobShapeDistribution rm op soundingWindow = Ok dist ->
  rm_CongestusSeries rm op soundingWindow soundingBucket = Ok cong ->
  rm_RejectionsByReason rm op soundingWindow soundingBucket = Ok rej ->
  rm_CapacityVsDemand rm op soundingWindow soundingBucket = Ok cd ->
  exists c1 c2 c3 c4, handleAdminSoundingPage paths (Some rm) now op =
    Some (renderAdmin paths "gov_sounding.html" (mkSoundingPage
      (op_options ops op) (selected_label ops op) soundingWindowLabel totals (placed_pct totals)
      (rung_row <$> tiers) c1 (dist_rows tiers dist) c2
      (zip_with (fun b c => mkCongestusRow (month_day b) c.1 c.2) ax (fill_congestus ax cong))
      c3 reason_legend (rejection_rows ax (fill_matrix ax rej)) (column_totals (fill_matrix ax rej))
      c4 (cap_demand_rows ax demand capacity))).
Proof.
  intros tiers ax demand capacity H1 H2 H3 H4 H5 H6. unfold handleAdminSoundingPage.
  rewrite H1, H2, H3, H4, H5, H6. cbn [mbind result_bind]. fold tiers ax.
  destruct (buildBarChart_some (dr_Rung <$> dist_rows tiers dist) (dr_Count <$> dist_rows tiers dist)
    "#00b4d8" "Jobs") as [c1 ->]; [by rewrite !length_fmap|]. cbn [mbind option_bind].
  destruct (buildBarChart_some (month_day <$> ax) (fill_congestus ax cong).*2 "#00b4d8" "Against ceiling")
    as [c2 ->]; [by rewrite !length_fmap, length_fill_congestus|]. cbn [mbind option_bind].
  destruct (fill_matrix_shape ax rej) as [Hl Hr].
  destruct (buildStackChart_some (month_day <$> ax) (fill_matrix ax rej) reason_legend)
    as [c3 ->]; [by rewrite length_fmap|done|]. cbn [mbind option_bind].
  destruct (buildLineChart_some (month_day <$> ax) [demand; capacity] cdLegend) as [c4 Hc4]; [done|].
  fold demand capacity. rewrite Hc4. cbn [mbind option_bind]. eauto.
Qed.

(** An error or the page, and nothing else. *)
Lemma sounding_reply `{TemplateEngine} paths rm now op r :
  handleAdminSoundingPage paths rm now op = Some r ->
  r = HttpError StatusInternalServerError \/ exists data, r = renderAdmin paths "gov_sounding.html" data.
Proof.
  unfold handleAdminSoundingPage. destruct rm as [rm|]; [|intros [= <-]; auto].
  destruct (_ ≫= _) as [[[[[[[ops totals] tiers] dist] cong] rej] cd]|]; [|intros [= <-]; auto].
  destruct (buildBarChart (dr_Rung <$> _) _ _ _); [|done].
  destruct (buildBarChart (month_day <$> _) _ _ _); [|done].
  destruct (buildStackChart _ _ _); [|done]. destruct (buildLineChart _ _ _); [|done].
  intros [= <-]. eauto.
Qed.

(** The dashboard always answers: whatever the read model returns, the handler
    lays the charts out without an index out of range; it answers 500 when any
    read but that of the ladder fails, and renders the page otherwise. *)
Theorem dashboard_answers `{TemplateEngine} paths rm now op :
  let reads_ok := is_ok (rm_Operators rm) && is_ok (rm_Totals rm op soundingWindow) &&
    is_ok (rm_JobShapeDistribution rm op soundingWindow) &&
    is_ok (rm_CongestusSeries rm op soundingWindow soundingBucket) &&
    is_ok (rm_RejectionsByReason rm op soundingWindow soundingBucket) &&
    is_ok (rm_CapacityVsDemand rm op soundingWindow soundingBucket) in
  if reads_ok
  then exists data, handleAdminSoundingPage paths (Some rm) now op =
         Some (renderAdmin paths "gov_sounding.html" data)
  else handleAdminSoundingPage paths (Some rm) now op = Some (HttpError StatusInternalServerError).
Proof.
  cbn zeta.
  destruct (rm_Operators rm) as [ops|] eqn:H1, (rm_Totals rm op soundingWindow) as [totals|] eqn:H2,
    (rm_JobShapeDistribution rm op soundingWindow) as [dist|] eqn:H3,
    (rm_CongestusSeries rm op soundingWindow soundingBucket) as [cong|] eqn:H4,
    (rm_RejectionsByReason rm op soundingWindow soundingBucket) as [rej|] eqn:H5,
    (rm_CapacityVsDemand rm op soundingWindow soundingBucket) as [cd|] eqn:H6; cbn [is_ok andb];
    try (unfold handleAdminSoundingPage; rewrite H1; cbn [mbind result_bind];
         try (rewrite H2; cbn [mbind result_bind]); try (rewrite H3; cbn [mbind result_bind]);
         try (rewrite H4; cbn [mbind result_bind]); try (rewrite H5; cbn [mbind result_bind]);
         try (rewrite H6; cbn [mbind result_bind]); reflexivity).
  destruct (sounding_page paths rm now op ops totals dist cong rej cd H1 H2 H3 H4 H5 H6) as (?&?&?&?&->).
  eauto.
Qed.

(** What the page of operator [op] says, read off the tables. *)
Definition shows_tables `{PgAvg} (op : string) (now : Z) (d : Soundings) (data : soundingPageData) : Prop :=
  let ax := soundingDayBuckets now soundingBucketCount in
  sp_CongestusRows data = (fun b => mkCongestusRow (month_day b)
    (count_if (shape_on op now b) (sd_shapes d))
    (count_if (fun s => shape_on op now b s && against_ceiling s) (sd_shapes d))) <$> ax /\
  sp_RejectionRows data = (fun b =>
    let cells := (fun ro => count_if (rejection_on op now b ro.1.1) (sd_rejections d)) <$> soundingReasonOrder in
    mkRejRow (month_day b) cells (sumZ cells)) <$> ax /\
  sp_DistRows data = ((fun t => mkDistRow (t_Name t) (count_if (shape_fits op now (t_Name t)) (sd_shapes d)))
      <$> NewLadder (sd_tiers d)) ++ [mkDistRow "unplaced" (count_if (shape_fits op now "") (sd_shapes d))] /\
  sp_CapDemandRows data = (fun b => mkCapDemandRow (month_day b)
    (level_str (round2 <$> avg_f64 (sr_cpu <$> day_shapes op now d b)))
    (level_str (round2 <$> avg_int (cr_vcpus <$> day_capacity op now d b)))) <$> ax.

Lemma zip_with_fmap_r {A C D : Type} (f : A -> C -> D) (g : A -> C) (l : list A) :
  zip_with f l (g <$> l) = (fun a => f a (g a)) <$> l.
Proof. induction l as [|a l IH]; [done|]. csimpl. by rewrite IH. Qed.
Lemma zip_fmap_fmap {A B C : Type} (f : A -> B) (g : A -> C) (l : list A) :
  zip (f <$> l) (g <$> l) = (fun a => (f a, g a)) <$> l.
Proof. induction l as [|a l IH]; [done|]. csimpl. by rewrite IH. Qed.

Lemma page_shows `{TemplateEngine} `{MapOrder} `{PgAvg} collate paths now op d :
  exists data,
    handleAdminSoundingPage paths (Some (reader_model collate (at_once now d))) now op =
      Some (renderAdmin paths "gov_sounding.html" data) /\
    ReadTotals (at_once now d) op soundingWindow = Ok (sp_Totals data) /\
    shows_tables op now d data.
Proof.
  set (rm := reader_model collate (at_once now d)).
  destruct (rm_JobShapeDistribution rm op soundingWindow) as [dist|] eqn:H3.
  2: { revert H3. simpl. unfold JobShapeDistribution, at_once. cbn [mbind result_bind wrap].
       by rewrite shapes_of_opArgs by (simpl; lia). }
  pose proof (rejections_at_once op now d) as H5. pose proof (congestus_at_once op now d) as H4.
  destruct (rm_CapacityVsDemand rm op soundingWindow soundingBucket) as [cd|] eqn:H6.
  2: { revert H6. simpl. unfold CapacityVsDemand, at_once. cbn [mbind result_bind wrap].
       rewrite shapes_of_opArgs, capacity_of_opArgs by (simpl; lia). cbn [mbind result_bind wrap].
       by destruct (foldl add_supply _ _). }
  destruct (sounding_page paths rm now op _ _ dist _ _ cd eq_refl (ReadTotals_at_once op soundingWindow now d)
    H3 H4 H5 H6) as (c1 & c2 & c3 & c4 & ->).
  eexists. split; [done|]. cbn [sp_Totals]. split; [apply ReadTotals_at_once|]. unfold shows_tables.
  cbn [sp_CongestusRows sp_RejectionRows sp_DistRows sp_CapDemandRows]. split_and!.
  - rewrite (congestus_cells collate op now d) by exact H4. apply zip_with_fmap_r.
  - rewrite (rejection_cells collate op now d) by exact H5. unfold rejection_rows. apply zip_with_fmap_r.
  - unfold dist_rows. rewrite (dist_cells collate op now d dist "" H3). f_equal.
    apply list_fmap_ext. intros i t _. by rewrite (dist_cells collate op now d dist _ H3).
  - destruct (levels_at_once collate op now d cd H6) as [-> ->]. unfold cap_demand_rows.
    rewrite zip_fmap_fmap. apply zip_with_fmap_r.
Qed.

(** C32 Every number of the dashboard is a count of table rows: on one snapshot, the
    cells of the tables beside the charts are, day by day, reason by reason and
    rung by rung, the numbers of the rows of that operator in the window, and the
    levels are the averages of the rows of the day. *)
Theorem dashboard_shows_the_tables `{TemplateEngine} `{MapOrder} `{PgAvg} collate paths now op d :
  exists data,
    handleAdminSoundingPage paths (Some (reader_model collate (at_once now d))) now op =
      Some (renderAdmin paths "gov_sounding.html" data) /\
    ReadTotals (at_once now d) op soundingWindow = Ok (sp_Totals data) /\
    shows_tables op now d data.
Proof. apply page_shows. Qed.

(** ** Adding the cells up *)

(** Counting by keys that do not repeat counts what has one of them. *)
Lemma count_by_keys {A K} `{EqDecision K} (p : A -> bool) (q : K -> A -> bool) (key : A -> K) (ks : list K) l :
  (forall k a, q k a = p a && bool_decide (key a = k)) -> NoDup ks ->
  sumZ ((fun k => count_if (q k) l) <$> ks) = count_if (fun a => p a && bool_decide (key a ∈ ks)) l.
Proof.
  intros Hq. induction ks as [|k ks IH]; intros Hnd; rewrite ?fmap_cons; cbn [sumZ fmap list_fmap].
  - symmetry. apply sumZ_zero. intros a _. rewrite bool_decide_eq_false_2 by apply not_elem_of_nil.
    by rewrite andb_false_r.
  - apply NoDup_cons in Hnd as [Hk Hnd]. rewrite IH by done. unfold count_if. rewrite <- sumZ_add.
    apply sumZ_ext. intros a _. rewrite Hq. destruct (p a); simpl; [|done].
    destruct (decide (key a = k)) as [<-|Hne].
    + rewrite bool_decide_eq_true_2, (bool_decide_eq_false_2 (key a ∈ ks)),
        (bool_decide_eq_true_2 (key a ∈ key a :: ks)) by (done || constructor). done.
    + rewrite (bool_decide_eq_false_2 (key a = k)) by done.
      rewrite (bool_decide_ext (key a ∈ k :: ks) (key a ∈ ks)); [done|]. rewrite elem_of_cons. tauto.
Qed.

Lemma on_axis now t :
  now - soundingWindow < t <= now ->
  midnight t ∈ soundingDayBuckets now soundingBucketCount <-> midnight now - 6 * Day <= t.
Proof.
  intros Ht. rewrite list_elem_of_lookup. setoid_rewrite buckets_lookup. split.
  - intros (i & Hi & Hb). unfold midnight, soundingWindow, soundingBucketCount in *.
    pose proof (Z.mod_pos_bound t Day). unfold Day, Hour, Minute, Second in *. lia.
  - intros Hge. exists (Z.to_nat ((midnight t - midnight now) / Day + 6)).
    unfold midnight, soundingWindow, soundingBucketCount, Day, Hour, Minute, Second in *.
    Z.to_euclidean_division_equations; lia.
Qed.

(** The part of the window before the first bucket of the axis: the rest of the
    day seven days ago. *)
Definition before_axis (now t : Z) : bool := t <? midnight now - 6 * Day.

Lemma axis_sum {A} (time : A -> Z) (p : A -> bool) now l :
  (forall a, a ∈ l -> p a = true -> now - soundingWindow < time a <= now) ->
  count_if p l =
    sumZ ((fun b => count_if (fun a => p a && (midnight (time a) =? b)) l) <$>
      soundingDayBuckets now soundingBucketCount) +
    count_if (fun a => p a && before_axis now (time a)) l.
Proof.
  intros Hw. rewrite (count_by_keys p _ (fun a => midnight (time a))); [|intros k a; f_equal|apply buckets_NoDup].
  - unfold count_if. rewrite <- sumZ_add. apply sumZ_ext. intros a Ha.
    destruct (p a) eqn:Hp; simpl; [|done]. pose proof (on_axis now (time a) (Hw a Ha Hp)) as Hax.
    unfold before_axis. destruct (Z.ltb_spec (time a) (midnight now - 6 * Day)) as [Hlt|Hge].
    + rewrite bool_decide_eq_false_2; [done|]. rewrite Hax. lia.
    + by rewrite bool_decide_eq_true_2 by (by apply Hax).
  - destruct (Z.eqb_spec (midnight (time a)) k); symmetry;
      [by apply bool_decide_eq_true_2|by apply bool_decide_eq_false_2].
Qed.

Lemma shape_in_window op now s : shape_in op now soundingWindow s = true -> now - soundingWindow < sr_time s.
Proof. unfold shape_in. intros H. reflect_bools. done. Qed.
Lemma rejection_in_window op now s :
  rejection_in op now soundingWindow s = true -> now - soundingWindow < rr_time s.
Proof. unfold rejection_in. intros H. reflect_bools. done. Qed.

Lemma sumZ_swap {A B} (f : A -> B -> Z) (l : list A) (k : list B) :
  sumZ ((fun a => sumZ ((fun b => f a b) <$> k)) <$> l) = sumZ ((fun b => sumZ ((fun a => f a b) <$> l)) <$> k).
Proof.
  induction l as [|a l IH]; csimpl; [by rewrite sumZ_zero|]. rewrite IH, <- sumZ_add. done.
Qed.

(** What a set of tables must satisfy for the totals to be comparable: rows do
    not come from the future, reasons pass the CHECK of the schema and rungs have
    distinct names. *)
Record sane_tables (now : Z) (d : Soundings) : Prop := {
  sane_shapes : forall s, s ∈ sd_shapes d -> sr_time s <= now;
  sane_rejections : forall r, r ∈ sd_rejections d -> rr_time r <= now;
  sane_reasons : forall r, r ∈ sd_rejections d -> known_reason (rr_reason r) = true;
  sane_tiers : NoDup (t_Name <$> sd_tiers d);
  sane_names : "" ∉ t_Name <$> sd_tiers d }.

Lemma jobs_by_day op now d : (forall s, s ∈ sd_shapes d -> sr_time s <= now) ->
  count_if (shape_in op now soundingWindow) (sd_shapes d) =
  sumZ ((fun b => count_if (shape_on op now b) (sd_shapes d)) <$> soundingDayBuckets now soundingBucketCount) +
  count_if (fun s => shape_in op now soundingWindow s && before_axis now (sr_time s)) (sd_shapes d).
Proof.
  intros Hs. apply axis_sum. intros s Hin Hw%shape_in_window. auto.
Qed.

Lemma ceiling_by_day op now d : (forall s, s ∈ sd_shapes d -> sr_time s <= now) ->
  count_if (fun s => shape_in op now soundingWindow s && against_ceiling s) (sd_shapes d) =
  sumZ ((fun b => count_if (fun s => shape_on op now b s && against_ceiling s) (sd_shapes d)) <$>
    soundingDayBuckets now soundingBucketCount) +
  count_if (fun s => shape_in op now soundingWindow s && against_ceiling s && before_axis now (sr_time s))
    (sd_shapes d).
Proof.
  intros Hs. rewrite (axis_sum sr_time _ now).
  - f_equal. apply sumZ_ext. intros b _. apply count_if_ext. intros s _. apply andb_swap_r.
  - intros s Hin Hw. reflect_bools. split; [by eapply shape_in_window|auto].
Qed.

Lemma rejections_by_day op now d : sane_tables now d ->
  count_if (rejection_in op now soundingWindow) (sd_rejections d) =
  sumZ ((fun b => sumZ ((fun ro => count_if (rejection_on op now b ro.1.1) (sd_rejections d)) <$>
    soundingReasonOrder)) <$> soundingDayBuckets now soundingBucketCount) +
  count_if (fun r => rejection_in op now soundingWindow r && before_axis now (rr_time r)) (sd_rejections d).
Proof.
  intros Hd. rewrite (axis_sum rr_time _ now).
  2: { intros r Hin Hw%rejection_in_window. split; [done|]. by apply (sane_rejections now d). }
  f_equal. apply sumZ_ext. intros b _.
  set (keys := (fun ro : string * string * string => ro.1.1) <$> soundingReasonOrder).
  transitivity (sumZ ((fun reason => count_if (rejection_on op now b reason) (sd_rejections d)) <$> keys));
    [|done].
  rewrite (count_by_keys (fun r => rejection_in op now soundingWindow r && (midnight (rr_time r) =? b)) _ rr_reason).
  - apply count_if_ext. intros r Hr. rewrite bool_decide_eq_true_2, andb_true_r; [done|].
    pose proof (sane_reasons now d Hd r Hr) as Hk. apply bool_decide_eq_true in Hk. exact Hk.
  - intros reason r. unfold rejection_on. apply andb_assoc.
  - apply (bool_decide_unpack _). vm_compute. exact I.
Qed.

Lemma jobs_by_rung op now d : sane_tables now d ->
  count_if (shape_in op now soundingWindow) (sd_shapes d) =
  sumZ ((fun t => count_if (shape_fits op now (t_Name t)) (sd_shapes d)) <$> NewLadder (sd_tiers d)) +
  count_if (shape_fits op now "") (sd_shapes d) +
  count_if (fun s => shape_in op now soundingWindow s &&
    negb (bool_decide (rung_or_empty s ∈ "" :: (t_Name <$> sd_tiers d)))) (sd_shapes d).
Proof.
  intros Hd. rewrite (count_if_split _ (fun s => bool_decide (rung_or_empty s ∈ "" :: (t_Name <$> sd_tiers d)))).
  f_equal. rewrite <- (count_by_keys _ (shape_fits op now) rung_or_empty); [|done|].
  - rewrite fmap_cons. cbn [sumZ]. rewrite Z.add_comm. f_equal. rewrite <- list_fmap_compose.
    unfold NewLadder. by rewrite <- isort_perm.
  - apply NoDup_cons. split; [apply (sane_names now d Hd)|apply (sane_tiers now d Hd)].
Qed.

(** The tables of the page account for its headline totals.  On one snapshot of
    sane tables the days add up to the totals of the window less the part of the
    window that lies before the first of the seven days, and the rungs add up to
    the jobs of the window less those recorded under a rung the ladder no longer
    has. *)
Theorem dashboard_reconciles `{TemplateEngine} `{MapOrder} `{PgAvg} collate paths now op d :
  sane_tables now d ->
  exists data,
    handleAdminSoundingPage paths (Some (reader_model collate (at_once now d))) now op =
      Some (renderAdmin paths "gov_sounding.html" data) /\
    tl_Jobs (sp_Totals data) = sumZ (gw_Total <$> sp_CongestusRows data) +
      count_if (fun s => shape_in op now soundingWindow s && before_axis now (sr_time s)) (sd_shapes d) /\
    tl_AgainstCeiling (sp_Totals data) = sumZ (gw_AgainstCeiling <$> sp_CongestusRows data) +
      count_if (fun s => shape_in op now soundingWindow s && against_ceiling s && before_axis now (sr_time s))
        (sd_shapes d) /\
    tl_Rejections (sp_Totals data) = sumZ (jr_Total <$> sp_RejectionRows data) +
      count_if (fun r => rejection_in op now soundingWindow r && before_axis now (rr_time r)) (sd_rejections d) /\
    tl_Jobs (sp_Totals data) = sumZ (dr_Count <$> sp_DistRows data) +
      count_if (fun s => shape_in op now soundingWindow s &&
        negb (bool_decide (rung_or_empty s ∈ "" :: (t_Name <$> sd_tiers d)))) (sd_shapes d).
Proof.
  intros Hd. destruct (page_shows collate paths now op d) as (data & Hpage & Ht & Hc & Hr & Hdist & _).
  exists data. split; [exact Hpage|]. rewrite ReadTotals_at_once in Ht. injection Ht as <-.
  rewrite Hc, Hr, Hdist. cbn [tl_Jobs tl_AgainstCeiling tl_Rejections].
  rewrite fmap_app, sumZ_app, <- !list_fmap_compose. split_and!.
  - apply jobs_by_day, (sane_shapes now d Hd).
  - apply ceiling_by_day, (sane_shapes now d Hd).
  - by apply rejections_by_day.
  - cbn [fmap list_fmap sumZ dr_Count]. rewrite Z.add_0_r. by apply jobs_by_rung.
Qed.

(** ** Concrete pages *)

(** The mean of the values in the order of the rows. *)
Definition mean (l : list float64) : option float64 :=
  match l with
  | [] => None
  | _ => Some (f64_div (foldl f64_add f64_zero l) (f64_of_Z (Z.of_nat (length l))))
  end.
Definition sample_avg : PgAvg.
Proof.
  refine {| avg_f64 := mean; avg_int := fun l => mean (f64_of_Z <$> l) |}; by intros [].
Defined.
Definition sample_engine : TemplateEngine :=
  {| parses := fun _ => true; executes := fun _ _ _ _ => true |}.
Definition sample_paths : list string := ["web/templates/admin_layout.html"; "web/templates/gov_sounding.html"].

(** 2023-11-14T22:13:20Z *)
Definition sample_noon : Z := 1700000000 * Second.
Definition sample_shape (t : Z) (op : string) (placed : bool) (rung : option string) : ShapeRow :=
  mkShapeRow t op "6f1c" "compute" f64_zero 0 f64_one 1024 1024 (f64_lit 1 2) placed rung.
Definition sample_rungs : list Tier :=
  [mkTier "cumulus" 1 (f64_of_Z 2) 4096 20480 "available"; mkTier "storm" 4 (f64_of_Z 128) 262144 2097152 "coming_soon"].
Definition sample_soundings : Soundings :=
  mkSoundings
    [sample_shape (sample_noon - Hour) "op-a" true (Some "cumulus");
     sample_shape (sample_noon - 7 * Day + Hour) "op-b" false None;
     sample_shape (sample_noon - 2 * Day) "op-b" true None]
    [mkRejectionRow (sample_noon - Hour) "op-a" "6f1d" "compute" "too_big" f64_one (Some "storm")]
    [] sample_rungs.

Definition page_of (op : string) (d : Soundings) : option soundingPageData :=
  match handleAdminSoundingPage (H0 := sample_engine) sample_paths
          (Some (@reader_model default_order sample_avg String.ltb (at_once sample_noon d))) sample_noon op with
  | Some (Page _ _ data) => Some data
  | _ => None
  end.

Lemma sample_sane : sane_tables sample_noon sample_soundings.
Proof.
  split; try (apply (bool_decide_unpack _); vm_compute; exact I).
  - apply Forall_forall, (bool_decide_unpack _). vm_compute. exact I.
  - apply Forall_forall, (bool_decide_unpack _). vm_compute. exact I.
  - apply Forall_forall, (bool_decide_unpack _). vm_compute. exact I.
Qed.

(** The window is seven times 24 hours and touches eight calendar days; seven are
    drawn.  The job of the first evening is in the headline and in no row. *)
Example oldest_day_not_drawn :
  (fun p => (tl_Jobs (sp_Totals p), gw_Total <$> sp_CongestusRows p)) <$> page_of "" sample_soundings =
  Some (3, [0; 0; 0; 0; 1; 0; 1]).
Proof. vm_compute. reflexivity. Qed.

(** A job that was placed although no rung covers it is drawn as unplaced. *)
Example placed_drawn_as_unplaced :
  (fun p => (tl_Placed (sp_Totals p), sp_DistRows p)) <$> page_of "" sample_soundings =
  Some (2, [mkDistRow "cumulus" 1; mkDistRow "storm" 0; mkDistRow "unplaced" 2]).
Proof. vm_compute. reflexivity. Qed.

(** The page of an operator without events is labelled as the aggregate, with no
    entry of the dropdown selected and nothing counted. *)
Example unknown_operator_labelled_aggregate :
  (fun p => (sp_SelectedOpLabel p, op_Selected <$> sp_Operators p, tl_Jobs (sp_Totals p))) <$>
    page_of "op-z" sample_soundings = Some (aggregateLabel, [false; false; false], 0).
Proof. vm_compute. reflexivity. Qed.

Lemma dashboard_reconciles_witness :
  exists data,
    handleAdminSoundingPage (H0 := sample_engine) sample_paths
      (Some (@reader_model default_order sample_avg String.ltb (at_once sample_noon sample_soundings)))
      sample_noon "" = Some (renderAdmin (H0 := sample_engine) sample_paths "gov_sounding.html" data) /\
    tl_Jobs (sp_Totals data) = sumZ (gw_Total <$> sp_CongestusRows data) + 1.
Proof.
  destruct (@dashboard_reconciles sample_engine default_order sample_avg String.ltb sample_paths sample_noon ""
    sample_soundings sample_sane) as (data & Hp & Hj & _).
  exists data. split; [exact Hp|]. rewrite Hj. reflexivity.
Defined.
