(* ===== verification/Console.v ===== *)
(** The console pages of the coordinator: the public operator console
    (internal/api/operator_console.go) and the governance console
    (internal/api/governance_console.go), and the routes of the governance
    surface behind its loopback guard (internal/api/governance.go).

    The enumerations of the schema stand for their text.  [Balanced] is a method
    of the fee terms of sohocloud-protocol. *)
From Stdlib Require Import Ascii.
From S2P Require Import Prelude Float64 Workload Sounding Registry Database Replay Lifecycle Effects.
From S2P Require Import Encoding Sha256 Operator Conformance Http Notify Limits OperatorApi ReadModel Profile Format.
From S2P Require Import SoundingStore Templates Dashboard Loopback.
Local Open Scope string_scope.
Local Open Scope list_scope.
Local Open Scope Z_scope.

Definition fmtTime (t : option Z) : string :=
  match t with None => dash | Some t => FormatRFC3339 t end.
Definition boolStamp (reached : bool) (label : string) : string := if reached then label else dash.

(** ** The public operator console *)

Section Public.
Context `{TemplateEngine} (templatePaths : list string) (configured : bool) (coordinatorID : string).
Context (Balanced : Z -> Z -> bool).

Definition render {D} (page : string) (data : D) : H (Response D) := mret (renderTemplate templatePaths page data).

(** The layout of these two pages reads [IsAuthenticated] only, which is false. *)
Definition handleLanding : H (Response bool) := render "operator_landing.html" false.
Definition handleApplyPage : H (Response bool) := render "operator_apply.html" false.

Record feesPageData := mkFeesPage {
  fp_CoordinatorID : string; fp_FeeSet : bool; fp_ContributorShareBps : Z; fp_PlatformFeeBps : Z;
  fp_Balanced : bool; fp_EffectiveAt : string; fp_Seq : Z; fp_Signature : string }.

Definition fees_page (decl : FeeDeclaration) : feesPageData :=
  mkFeesPage (fe_CoordinatorID decl) true (fe_ContributorShareBps decl) (fe_PlatformFeeBps decl)
    (Balanced (fe_ContributorShareBps decl) (fe_PlatformFeeBps decl)) (FormatRFC3339 (fe_EffectiveAt decl))
    (fe_Seq decl) (StdEncode (fe_Signature decl)).
Definition no_fees_page : feesPageData := mkFeesPage coordinatorID false 0 0 false "" 0 "".

Definition handleFeesPage : H (Response feesPageData) :=
  data ← (if configured then
      r ← attempt (CurrentFeeDeclaration coordinatorID);
      match r with
      | Ok decl => mret (fees_page decl)
      | Err e => if bool_decide (e = ErrNoFeeDeclaration) then mret no_fees_page
                 else reject StatusInternalServerError
      end
    else mret no_fees_page);
  render "operator_fees.html" data.

(** The operator id of the step pages. *)
Definition handleKeysPage (id : string) : H (Response string) := render "operator_keys.html" id.
Definition handleVerifyPage (id : string) : H (Response string) := render "operator_verify.html" id.
Definition handleConformancePage (id : string) : H (Response string) := render "operator_conformance.html" id.

Record dashboardKeyRow := mkKeyRow {
  dk_Index : Z; dk_PubKeyTrunc : string; dk_State : operator_key_state; dk_UsageCount : Z; dk_Threshold : Z;
  dk_NearThreshold : bool }.
Definition key_row (k : KeyView) : dashboardKeyRow :=
  mkKeyRow (kv_KeyIndex k) (kv_PublicKeyB64Trunc k) (kv_State k) (kv_UsageCount k) (kv_ExpirationThreshold k)
    (kv_NearThreshold k).

Record dashboardPageData := mkDashboardPage {
  dp_Name : string; dp_OperatorID : string; dp_OnboardingState : operator_onboarding_state;
  dp_Status : operator_status; dp_EmailVerified : bool; dp_ConformancePassed : bool; dp_KeyCount : Z;
  dp_ActiveKeyCount : Z; dp_Transmissions24h : Z; dp_Keys : list dashboardKeyRow; dp_CreatedAt : string;
  dp_VerifiedAt : string; dp_ConformancePassedAt : string; dp_ActivatedAt : string; dp_FeeSet : bool;
  dp_ContributorShareBps : Z; dp_PlatformFeeBps : Z; dp_FeeEffectiveAt : string; dp_FeeSeq : Z }.

Definition dashboard_page (detail : OperatorDetail) (fee : option FeeDeclaration) : dashboardPageData :=
  mkDashboardPage (od_Name detail) (od_ID detail) (od_OnboardingState detail) (od_Status detail)
    (od_EmailVerified detail) (bool_decide (is_Some (od_ConformancePassedAt detail)))
    (Z.of_nat (length (od_Keys detail))) (od_ActiveKeyCount detail) (od_TransmissionsLast24h detail)
    (key_row <$> od_Keys detail) (fmtTime (Some (lv_CreatedAt (od_Lifecycle detail))))
    (boolStamp (od_EmailVerified detail) "verified") (fmtTime (od_ConformancePassedAt detail))
    (boolStamp (lv_Activated (od_Lifecycle detail)) "active") (bool_decide (is_Some fee))
    (from_option fe_ContributorShareBps 0 fee) (from_option fe_PlatformFeeBps 0 fee)
    (from_option (fun d => FormatRFC3339 (fe_EffectiveAt d)) "" fee) (from_option fe_Seq 0 fee).

Definition operator_status_code (e : Error) : Z :=
  if bool_decide (e = ErrOperatorNotFound) then StatusNotFound else StatusInternalServerError.

Definition handleDashboardPage (id : string) : H (Response dashboardPageData) :=
  _ ← reject_if (negb configured) StatusInternalServerError;
  detail ← or_reject operator_status_code (GetOperator id);
  r ← attempt (CurrentFeeDeclaration coordinatorID);
  fee ← match r with
        | Ok decl => mret (Some decl)
        | Err e => if bool_decide (e = ErrNoFeeDeclaration) then mret None else reject StatusInternalServerError
        end;
  render "operator_dashboard.html" (dashboard_page detail fee).

End Public.

(** ** The governance console *)

Section Admin.
Context `{TemplateEngine} (templatePaths : list string) (configured : bool) (coordinatorID : string).
Context (Balanced : Z -> Z -> bool) (collate : string -> string -> bool).

Definition render_admin {D} (page : string) (data : D) : H (Response D) :=
  mret (renderAdmin templatePaths page data).

Record adminOperatorRow := mkAdminRow {
  ar_OperatorID : string; ar_Name : string; ar_OnboardingState : operator_onboarding_state;
  ar_Status : operator_status; ar_EmailVerified : bool; ar_ConformancePassed : bool; ar_KeyCount : Z;
  ar_ActiveKeyCount : Z }.
Record adminOperatorsData := mkAdminOperators {
  ao_TotalCount : Z; ao_ActiveCount : Z; ao_PendingCount : Z; ao_ReadyCount : Z; ao_RevokedCount : Z;
  ao_Operators : list adminOperatorRow }.
Definition admin_row (s : OperatorSummary) : adminOperatorRow :=
  mkAdminRow (os_ID s) (os_Name s) (os_OnboardingState s) (os_Status s) (os_EmailVerified s)
    (os_ConformancePassed s) (os_ActiveKeyCount s) (os_ActiveKeyCount s).

Definition handleAdminOperatorsPage : H (Response adminOperatorsData) :=
  _ ← reject_if (negb configured) StatusInternalServerError;
  '(summaries, counts) ← or_500 (ListOperators collate);
  render_admin "gov_operators.html" (mkAdminOperators (oc_Total counts) (oc_Active counts) (oc_Pending counts)
    (oc_VerifiedPassed counts) (oc_Revoked counts) (admin_row <$> summaries)).

Record adminKeyRow := mkAdminKey { ak_Index : Z; ak_PubKeyTrunc : string; ak_State : operator_key_state }.
Record adminRunRow := mkAdminRun { an_Label : ConformanceSuite; an_Passed : bool; an_Detail : string }.
Record adminOperatorDetailData := mkAdminDetail {
  ad_Name : string; ad_OperatorID : string; ad_OnboardingState : operator_onboarding_state;
  ad_Status : operator_status; ad_EmailVerified : bool; ad_ConformancePassed : bool; ad_KeysetMatch : bool;
  ad_KeyCount : Z; ad_Keys : list adminKeyRow; ad_RunResults : list adminRunRow; ad_CanActivate : bool }.

(** A suite that is not graded yet shows as failed, with that as its detail. *)
Definition admin_run (s : SuiteVerdictView) : adminRunRow :=
  mkAdminRun (sv_Suite s) (sv_Graded s && sv_Passed s)
    (if negb (sv_Graded s) then "not yet graded" else if negb (sv_Passed s) then sv_Detail s else "").
Definition admin_detail (detail : OperatorDetail) : adminOperatorDetailData :=
  mkAdminDetail (od_Name detail) (od_ID detail) (od_OnboardingState detail) (od_Status detail)
    (od_EmailVerified detail) (bool_decide (is_Some (od_ConformancePassedAt detail)))
    (od_KeysetHashMatches detail) (od_ActiveKeyCount detail)
    ((fun k => mkAdminKey (kv_KeyIndex k) (kv_PublicKeyB64Trunc k) (kv_State k)) <$> od_Keys detail)
    (match od_LatestRun detail with Some run => admin_run <$> rv_Suites run | None => [] end)
    (od_ReadyToActivate detail).

Definition handleAdminOperatorDetailPage (id : string) : H (Response adminOperatorDetailData) :=
  _ ← reject_if (negb configured) StatusInternalServerError;
  detail ← or_reject operator_status_code (GetOperator id);
  render_admin "admin_operator_detail.html" (admin_detail detail).

Record adminFeeCurrent := mkAdminFee {
  af_ContributorShareBps : Z; af_PlatformFeeBps : Z; af_Seq : Z; af_Balanced : bool; af_EffectiveAt : string;
  af_Signature : string }.
Record adminFeeHistoryRow := mkAdminHistory {
  ah_Seq : Z; ah_ContributorShareBps : Z; ah_PlatformFeeBps : Z; ah_Balanced : bool; ah_EffectiveAt : string }.
Record adminFeesData := mkAdminFees {
  as_CoordinatorID : string; as_Current : option adminFeeCurrent; as_NextSeq : Z;
  as_History : list adminFeeHistoryRow }.

Definition admin_current (decl : FeeDeclaration) : adminFeeCurrent :=
  mkAdminFee (fe_ContributorShareBps decl) (fe_PlatformFeeBps decl) (fe_Seq decl)
    (Balanced (fe_ContributorShareBps decl) (fe_PlatformFeeBps decl)) (FormatRFC3339 (fe_EffectiveAt decl))
    (StdEncode (fe_Signature decl)).
Definition history_row (h : FeeDeclarationView) : adminFeeHistoryRow :=
  mkAdminHistory (fv_Seq h) (fv_ContributorShareBps h) (fv_PlatformFeeBps h)
    (to_int64 (fv_ContributorShareBps h + fv_PlatformFeeBps h) =? 10000) (FormatRFC3339 (fv_EffectiveAt h)).

Definition handleAdminFeesPage : H (Response adminFeesData) :=
  _ ← reject_if (negb configured) StatusInternalServerError;
  r ← attempt (CurrentFeeDeclaration coordinatorID);
  current ← match r with
            | Ok decl => mret (Some (admin_current decl))
            | Err e => if bool_decide (e = ErrNoFeeDeclaration) then mret None
                       else reject StatusInternalServerError
            end;
  nextSeq ← or_500 (NextSeq coordinatorID);
  history ← or_500 (FeeHistory coordinatorID);
  render_admin "gov_fees.html" (mkAdminFees coordinatorID current nextSeq (history_row <$> history)).

Definition handleAdminMessagingPage : H (Response unit) := render_admin "gov_messaging.html" tt.

End Admin.

(** ** The governance surface *)

Inductive GovRequest :=
| RPublishFees (body : Body publishFeesRequest)
| RCurrentFees
| RRevoke (id : string)
| RDisconnect (id : string)
| RSendMessage (body : Body sendMessageRequest)
| ROperators
| ROperator (id : string)
| RFees
| RMessaging
| RSounding (operator : string).

Inductive GovReply :=
| SentFee (decl : FeeDeclaration)
| SentDone
| SentReport (recipients sent : Z) (bad : list string)
| SentOperators (r : Response adminOperatorsData)
| SentOperator (r : Response adminOperatorDetailData)
| SentFees (r : Response adminFeesData)
| SentMessaging (r : Response unit)
| SentSounding (r : option (Response soundingPageData)).

Section Routes.
Context `{TemplateEngine} (templatePaths : list string) (configured : bool) (coordinatorID : string).
Context (Balanced : Z -> Z -> bool) (collate : string -> string -> bool) (Sign : FeeDeclaration -> string).
Context (parse_RFC3339 : string -> option Z) (Send : Message -> M unit) (sounding : option soundingReadModel).

(** [registerRoutes], a route to its handler; the static files are left out. *)
Definition gov_route (r : GovRequest) : H GovReply :=
  match r with
  | RPublishFees b => decl ← handlePublishFees coordinatorID Sign parse_RFC3339 b; mret (SentFee decl)
  | RCurrentFees => decl ← handleCurrentFees coordinatorID; mret (SentFee decl)
  | RRevoke id => _ ← handleRevoke id; mret SentDone
  | RDisconnect id => _ ← handleDisconnect id; mret SentDone
  | RSendMessage b => '(n, sent, bad) ← handleSendMessage Send collate b; mret (SentReport n sent bad)
  | ROperators => p ← handleAdminOperatorsPage templatePaths configured collate; mret (SentOperators p)
  | ROperator id => p ← handleAdminOperatorDetailPage templatePaths configured id; mret (SentOperator p)
  | RFees => p ← handleAdminFeesPage templatePaths configured coordinatorID Balanced; mret (SentFees p)
  | RMessaging => p ← handleAdminMessagingPage templatePaths; mret (SentMessaging p)
  | RSounding op => fun w =>
      (Ok (Ok (SentSounding (handleAdminSoundingPage templatePaths sounding (w_now w) op))), w)
  end.

(** The handler of the server: the guard around the routes. *)
Definition serve_governance (remoteAddr : string) (r : GovRequest) : H GovReply :=
  loopbackOnly remoteAddr (gov_route r).

End Routes.

(** ** The surface is local *)

Lemma remote_refused {A} (remote : string) (next : H A) w :
  local_source remote = false -> loopbackOnly remote next w = (Ok (Err StatusForbidden), w).
Proof. intros Hl. unfold loopbackOnly. by rewrite Hl. Qed.

(** C34 The governance surface is reachable from the host only.  A server that was
    constructed has a key whose public half verifies what it signs; if it starts
    to serve at all, the socket it serves is bound to a loopback address; and
    whatever is asked of it, a request from an IPv4 peer outside 127.0.0.0/8, or
    from any address that does not parse as a loopback one, is refused with 403 and
    changes nothing. *)
Theorem governance_is_local `{SigningKey} `{TemplateEngine} cfg g paths configured Balanced collate Sign
    parse Send sounding r :
  NewGovernanceServer cfg = Ok g ->
  (exists pub, Public (gs_coordKey g) = Some pub /\ VerifyWith pub probe (SignWith (gs_coordKey g) probe) = true) /\
  (forall bind a, StartGovernance g bind = Ok a -> isLoopbackListener a = true) /\
  (forall a b c d port w, octet a -> octet b -> octet c -> octet d -> a <> 127 ->
     serve_governance paths configured (gs_coordinatorID g) Balanced collate Sign parse Send sounding
       (remote_addr a b c d port) r w = (Ok (Err StatusForbidden), w)) /\
  (forall remote w, local_source remote = false ->
     serve_governance paths configured (gs_coordinatorID g) Balanced collate Sign parse Send sounding
       remote r w = (Ok (Err StatusForbidden), w)).
Proof.
  unfold NewGovernanceServer. case_match; [done|]. case_match; [done|].
  destruct (Public (gc_CoordinatorKey cfg)) as [pub|] eqn:Hpub; [|done].
  destruct (VerifyWith pub probe _) eqn:Hv; cbn [negb]; [|done]. intros Hg. injection Hg as Hg. subst g.
  split_and!.
  - by exists pub.
  - intros bind a. unfold StartGovernance. destruct (bind _) as [a'|]; [|done].
    destruct (isLoopbackListener a') eqn:Hl; [|done]. by intros [= <-].
  - intros a b c d port w Ha Hb Hc Hd Hne. apply remote_refused.
    rewrite local_source_v4 by done. by apply bool_decide_eq_false_2.
  - intros remote w Hl. by apply remote_refused.
Qed.

(** ** Templates of the two surfaces *)

Inductive PublicRequest :=
| GLanding | GApply | GFees | GKeys (id : string) | GVerify (id : string) | GConformance (id : string)
| GDashboard (id : string).

(** The files a page of the public console was made from. *)
Definition public_files `{TemplateEngine} paths configured coord Balanced (r : PublicRequest) : H (list string) :=
  match r with
  | GLanding => p ← handleLanding paths; mret (files_of p)
  | GApply => p ← handleApplyPage paths; mret (files_of p)
  | GFees => p ← handleFeesPage paths configured coord Balanced; mret (files_of p)
  | GKeys id => p ← handleKeysPage paths id; mret (files_of p)
  | GVerify id => p ← handleVerifyPage paths id; mret (files_of p)
  | GConformance id => p ← handleConformancePage paths id; mret (files_of p)
  | GDashboard id => p ← handleDashboardPage paths configured coord id; mret (files_of p)
  end.

Definition reply_files (r : GovReply) : list string :=
  match r with
  | SentOperators p => files_of p
  | SentOperator p => files_of p
  | SentFees p => files_of p
  | SentMessaging p => files_of p
  | SentSounding (Some p) => files_of p
  | _ => []
  end.
