(* ===== verification/ConsoleProofs.v ===== *)
(** What the consoles guarantee: pages are made from the templates of their own
    surface, reading them writes nothing, and what governance publishes is what
    every page shows. *)
From Stdlib Require Import Ascii.
From S2P Require Import Prelude Float64 Workload Sounding Registry Database Replay Lifecycle Effects.
From S2P Require Import Encoding Sha256 Operator Conformance Http Notify Limits OperatorApi OperatorProofs.
From S2P Require Import OperatorSafety ReadModel ReadModelProofs Profile Format.
From S2P Require Import SoundingStore Templates Dashboard DashboardProofs Loopback Console.
Local Open Scope string_scope.
Local Open Scope list_scope.
Local Open Scope Z_scope.

(** ** Templates *)

(** Whatever a handler answers satisfies [Q]. *)
Definition answers {A} (m : H A) (Q : A -> Prop) : Prop := forall w a w', m w = (Ok (Ok a), w') -> Q a.

Lemma answers_bind {A B} (m : H A) (f : A -> H B) Q : (forall a, answers (f a) Q) -> answers (m ≫= f : H B) Q.
Proof. intros Hf w b w' (a & w1 & _ & Hb)%hbind_inv. by eapply Hf. Qed.
Lemma answers_then {A B} (m : H A) (f : A -> H B) P Q :
  answers m P -> (forall a, P a -> answers (f a) Q) -> answers (m ≫= f : H B) Q.
Proof. intros Hm Hf w b w' (a & w1 & Ha & Hb)%hbind_inv. eapply Hf; [by eapply Hm|exact Hb]. Qed.
Lemma answers_ret {A} (a : A) (Q : A -> Prop) : Q a -> answers (mret a : H A) Q.
Proof. by intros Hq w a' w' [= <- <-]. Qed.

Section Layouts.
Context `{TemplateEngine}.

(** No file of the page is called [name]. *)
Definition avoids {D} (name : string) (r : Response D) : Prop := forall p, p ∈ files_of r -> Base p <> name.

Lemma render_avoids {D} paths page (data : D) :
  page <> "admin_layout.html" -> answers (render paths page data) (avoids "admin_layout.html").
Proof.
  intros Hp. apply answers_ret. intros p Hin He. apply renderTemplate_files in Hin. rewrite He in Hin.
  destruct Hin as [?|[?|?]]; congruence.
Qed.

Lemma render_admin_avoids {D} paths page (data : D) :
  page <> "layout.html" -> answers (render_admin paths page data) (avoids "layout.html").
Proof.
  intros Hp. apply answers_ret. intros p Hin He. apply renderAdmin_files in Hin. rewrite He in Hin.
  destruct Hin as [?|?]; congruence.
Qed.

(** The two surfaces share no layout: whatever the state, the files and the
    request, no page of the public console is made from admin_layout.html and no
    reply of the governance surface from layout.html. *)
Theorem layouts_never_mix paths configured coord Balanced collate Sign parse Send sounding remote
    (pub : PublicRequest) (gov : GovRequest) :
  answers (public_files paths configured coord Balanced pub) (Forall (fun p => Base p <> "admin_layout.html")) /\
  answers (serve_governance paths configured coord Balanced collate Sign parse Send sounding remote gov)
    (fun reply => Forall (fun p => Base p <> "layout.html") (reply_files reply)).
Proof.
  split.
  - assert (Hfin : forall D (m : H (Response D)), answers m (avoids "admin_layout.html") ->
      answers (p ← m; mret (files_of p)) (Forall (fun p => Base p <> "admin_layout.html"))).
    { intros D m Hm. eapply answers_then; [exact Hm|]. intros p Hp. by apply answers_ret, Forall_forall. }
    destruct pub; apply Hfin; repeat (apply answers_bind; intros); by apply render_avoids.
  - unfold serve_governance, loopbackOnly. destruct (negb _); [by intros w a w' [= ]|].
    assert (Hfin : forall D (m : H (Response D)) (k : Response D -> GovReply),
      (forall p, reply_files (k p) = files_of p) -> answers m (avoids "layout.html") ->
      answers (p ← m; mret (k p)) (fun reply => Forall (fun p => Base p <> "layout.html") (reply_files reply))).
    { intros D m k Hk Hm. eapply answers_then; [exact Hm|]. intros p Hp. apply answers_ret. rewrite Hk.
      by apply Forall_forall. }
    destruct gov; unfold gov_route; try (apply Hfin; [done|]).
    1-4: apply answers_bind; intros; by apply answers_ret, Forall_nil.
    + apply answers_bind. intros [[? ?] ?]. by apply answers_ret, Forall_nil.
    + apply answers_bind; intros. apply answers_bind. intros [? ?]. by apply render_admin_avoids.
    + repeat (apply answers_bind; intros). by apply render_admin_avoids.
    + repeat (apply answers_bind; intros). by apply render_admin_avoids.
    + by apply render_admin_avoids.
    + intros w a w' [= <- <-]. simpl. destruct (handleAdminSoundingPage _ _ _ _) as [p|] eqn:Hs; [|constructor].
      apply sounding_reply in Hs as [->|[data ->]]; [constructor|].
      apply Forall_forall. intros f Hf. by apply (render_admin_avoids paths "gov_sounding.html" data ltac:(done) w _ w eq_refl).
Qed.
End Layouts.

(** ** Pages only read *)

Section ReadOnly.
Context (R : DB -> DB -> Prop) `{!PreOrder R}.

Lemma preserves_op_query {A} (f : OpTables -> A) : preserves R (op_query f).
Proof. by apply preserves_query. Qed.
Lemma preserves_op_row {A} (f : OpTables -> option A) : preserves R (op_row f).
Proof. by apply preserves_query_row. Qed.
Lemma preserves_no_rows_as {A} e (m : M A) : preserves R m -> preserves R (no_rows_as e m).
Proof.
  intros Hm. unfold no_rows_as. apply preserves_bind; [done|by apply preserves_try|].
  intros [a|[]]; apply preserves_ret; done.
Qed.

Ltac reads := repeat first
  [ apply preserves_op_query | apply preserves_op_row | apply preserves_no_rows_as | preserves_handler ].

Lemma GetOperator_reads id : preserves R (GetOperator id).
Proof. unfold GetOperator, keyViews, latestRunView, suiteVerdicts, TransmissionsLast24h, currentActiveKeysetHash. reads. Qed.

Lemma current_fee_reads coord : preserves R (CurrentFeeDeclaration coord).
Proof. unfold CurrentFeeDeclaration. reads. Qed.
End ReadOnly.

(** Decompose a page into the reads it makes. *)
Ltac page_reads := repeat first
  [ by apply current_fee_reads | by apply GetOperator_reads | by apply preserves_op_query | preserves_handler ].

(** A GET of the governance surface. *)
Definition is_get (r : GovRequest) : bool :=
  match r with RPublishFees _ | RRevoke _ | RDisconnect _ | RSendMessage _ => false | _ => true end.

(** Reading a page changes nothing: whatever relation between database states
    everything else respects, a GET of either console respects it too, however its
    statements fail; with nothing else running the database stays as it is. *)
Theorem pages_only_read `{TemplateEngine} (R : DB -> DB -> Prop) `{!PreOrder R} paths configured coord Balanced
    collate Sign parse Send sounding remote pub gov :
  is_get gov = true ->
  preserves R (public_files paths configured coord Balanced pub) /\
  preserves R (serve_governance paths configured coord Balanced collate Sign parse Send sounding remote gov).
Proof.
  intros Hget. split.
  - destruct pub; unfold public_files, handleLanding, handleApplyPage, handleFeesPage, handleKeysPage,
      handleVerifyPage, handleConformancePage, handleDashboardPage, render; page_reads.
  - unfold serve_governance, loopbackOnly. destruct (negb _); [page_reads|].
    destruct gov; try done; unfold gov_route, handleCurrentFees, handleAdminOperatorsPage,
      handleAdminOperatorDetailPage, handleAdminFeesPage, handleAdminMessagingPage, ListOperators, NextSeq,
      FeeHistory, render_admin; page_reads.
    intros w r w' Hr [= <- <-]. done.
Qed.

(** ** What is published is what is shown *)

Lemma fees_by_seq_head coord t f : latest_fee coord t = Some f -> exists rest, fees_by_seq coord t = f :: rest.
Proof.
  unfold latest_fee, fees_by_seq. destruct (isort FeeRow _ _) as [|x rest]; [done|]. intros [= ->]. eauto.
Qed.

(** The row of a declaration on the history page. *)
Definition history_of (decl : FeeDeclaration) : adminFeeHistoryRow :=
  mkAdminHistory (fe_Seq decl) (fe_ContributorShareBps decl) (fe_PlatformFeeBps decl)
    (to_int64 (fe_ContributorShareBps decl + fe_PlatformFeeBps decl) =? 10000)
    (FormatRFC3339 (fe_EffectiveAt decl)).

(** Publication reaches every page: in an undisturbed run, after the governance
    handler has published a declaration, the public fee page shows its terms,
    number and signature, and the governance page shows the same declaration as
    the current one and first in the history, and offers the next number. *)
Theorem published_terms_on_every_page `{TemplateEngine} paths admin_paths coord Balanced Sign parse req decl w w' :
  calm w -> w_tx w = None -> fees_ordered (ops w) -> is_uint64 (pf_Seq req) ->
  handlePublishFees coord Sign parse (Decoded req) w = (Ok (Ok decl), w') ->
  handleFeesPage paths true coord Balanced w' =
    (Ok (Ok (renderTemplate paths "operator_fees.html" (fees_page Balanced (as_stored decl)))), w') /\
  exists history, handleAdminFeesPage admin_paths true coord Balanced w' =
    (Ok (Ok (renderAdmin admin_paths "gov_fees.html" (mkAdminFees coord
       (Some (admin_current Balanced (as_stored decl))) (pf_Seq req + 1)
       (history_of (as_stored decl) :: history)))), w').
Proof.
  intros Hc Ht Hord Hu Hp. unfold handlePublishFees in Hp.
  apply hbind_inv in Hp as (r & w1 & [= <- <-] & Hp).
  apply hbind_inv in Hp as (u & w1 & [_ ->]%reject_if_inv & Hp).
  destruct (parse _) as [at_|]; [|done]. apply hbind_inv in Hp as ([] & w1 & Hpub%or_reject_inv & Hp).
  injection Hp as <- <-. set (decl := mkFeeDeclaration coord _ _ at_ (pf_Seq req) _) in *.
  destruct (published_fees decl w w1 Hc Ht Hu Hord Hpub) as (Hc1 & Hmax & _ & Hord1 & Hl).
  pose proof (published_current decl w w1 Hc Ht Hu Hord Hpub) as Hcur. cbn [fe_CoordinatorID decl] in Hcur, Hl.
  cbn [fe_Seq decl] in Hmax.
  assert (Hseq : to_int64 (pf_Seq req) = pf_Seq req).
  { apply to_int64_id. destruct Hu. unfold is_int64, int64_min, int64_max in *. lia. }
  split.
  - unfold handleFeesPage. rewrite (hbind_ok _ _ w1 (fees_page Balanced (as_stored decl)) w1); [done|].
    rewrite (hbind_ok _ _ w1 (Ok (as_stored decl)) w1); [done|]. unfold attempt. by rewrite Hcur.
  - destruct (fees_by_seq_head _ _ _ Hl) as [rest Hrest]. exists (history_row <$> (fee_view false <$> rest)).
    unfold handleAdminFeesPage. rewrite (hbind_ok _ _ w1 tt w1) by done.
    rewrite (hbind_ok _ _ w1 (Ok (as_stored decl)) w1) by (unfold attempt; by rewrite Hcur).
    rewrite (hbind_ok _ _ w1 (Some (admin_current Balanced (as_stored decl))) w1) by done.
    rewrite (hbind_ok _ _ w1 (pf_Seq req + 1) w1).
    2: { apply or_reject_ok. unfold NextSeq. rewrite (bind_eq _ _ _ _ _ (op_query_calm _ w1 Hc1)).
         rewrite max_seq_latest, Hl. cbn [fmap option_fmap option_map].
         change (fd_seq (fee_row (w_now w) decl)) with (to_int64 (pf_Seq req)). rewrite Hseq. destruct Hu. unfold to_uint64, int64_max in *.
         rewrite (Z.mod_small (pf_Seq req)) by lia. rewrite Z.mod_small by lia. done. }
    rewrite (hbind_ok _ _ w1 (fee_view true (fee_row (w_now w) decl) :: (fee_view false <$> rest)) w1).
    2: { apply or_reject_ok. unfold FeeHistory. rewrite (bind_eq _ _ _ _ _ (op_query_calm _ w1 Hc1)).
         by rewrite Hrest. }
    assert (Hrow : history_row (fee_view true (fee_row (w_now w) decl)) = history_of (as_stored decl)).
    { unfold history_row, history_of, fee_view, fee_row, as_stored, decl.
      cbn [fv_Seq fv_ContributorShareBps fv_PlatformFeeBps fv_EffectiveAt fd_seq fd_contributor_share_bps
        fd_platform_fee_bps fd_effective_at fe_Seq fe_ContributorShareBps fe_PlatformFeeBps fe_EffectiveAt].
      rewrite Hseq. unfold to_uint64. rewrite Z.mod_small; [done|]. destruct Hu. unfold int64_max in *. lia. }
    rewrite fmap_cons, Hrow. done.
Qed.

(** ** Witnesses *)

Definition plain_engine : TemplateEngine :=
  {| parses := fun _ => true; executes := fun _ _ _ _ => true |}.

(** Keys are their own public halves and signatures repeat the message. *)
Definition echo_key : SigningKey :=
  {| key_len := fun k => Z.of_nat (String.length k); Public := fun k => Some k;
     SignWith := fun k m => m; VerifyWith := fun _ m sig => bool_decide (m = sig) |}.
Definition long_key : string := zeros 64.
Definition local_config : GovernanceConfig := mkGovConfig "127.0.0.1:8090" "soholink" long_key.
Definition local_server : GovernanceServer := mkGovServer "127.0.0.1:8090" "soholink" long_key.
Definition sample_balanced (a b : Z) : bool := a + b =? 10000.
Definition no_sign (d : FeeDeclaration) : string := "sig".
Definition at_the_epoch (s : string) : option Z := Some 1000.
Definition no_send (m : Message) : M unit := mret tt.

Lemma governance_is_local_witness :
  serve_governance (H0 := plain_engine) [] true "soholink" sample_balanced String.ltb no_sign at_the_epoch no_send
    None (remote_addr 10 0 0 7 51234) (RRevoke "op") (sample_op_world sample_op_tables) =
  (Ok (Err StatusForbidden), sample_op_world sample_op_tables).
Proof.
  destruct (@governance_is_local echo_key plain_engine local_config local_server [] true sample_balanced String.ltb
    no_sign at_the_epoch no_send None (RRevoke "op")) as (_ & _ & Hv4 & _); [reflexivity|].
  apply Hv4; try (split; lia). lia.
Defined.

(** A request that a handler of the same host sends to the port passes the guard
    like one from the administrator. *)
Example same_host_passes :
  local_source "127.0.0.1:51234" = true /\ local_source "[::1]:51234" = true /\
  isLoopbackAddr ":8090" = false /\ isLoopbackAddr "0.0.0.0:8090" = false.
Proof. vm_compute. done. Qed.

Lemma pages_only_read_witness :
  preserves (fun d d' : DB => d = d')
    (serve_governance (H0 := plain_engine) [] true "soholink" sample_balanced String.ltb no_sign at_the_epoch
       no_send None "127.0.0.1:51234" RFees).
Proof.
  apply (@pages_only_read plain_engine (fun d d' : DB => d = d') _ [] true "soholink" sample_balanced String.ltb
    no_sign at_the_epoch no_send None "127.0.0.1:51234" GLanding RFees).
  reflexivity.
Defined.

Definition sample_publish : publishFeesRequest := mkPublishFees 6500 3500 3 "1970-01-01T00:00:00.000001Z".

Lemma published_terms_on_every_page_witness :
  let w := sample_op_world sample_op_tables in
  let run := handlePublishFees "soholink" no_sign at_the_epoch (Decoded sample_publish) w in
  run.1 = Ok (Ok (mkFeeDeclaration "soholink" 6500 3500 1000 3 "sig")) /\
  handleFeesPage (H0 := plain_engine) ["layout.html"; "operator_fees.html"] true "soholink" sample_balanced run.2 =
    (Ok (Ok (Page ["layout.html"; "operator_fees.html"] "operator_fees.html"
      (mkFeesPage "soholink" true 6500 3500 true "1970-01-01T00:00:00Z" 3 "c2ln"))), run.2).
Proof.
  cbv zeta. set (run := handlePublishFees _ _ _ _ _).
  assert (H1 : run.1 = Ok (Ok (mkFeeDeclaration "soholink" 6500 3500 1000 3 "sig"))) by (vm_compute; reflexivity).
  split; [exact H1|].
  destruct (@published_terms_on_every_page plain_engine ["layout.html"; "operator_fees.html"] [] "soholink"
    sample_balanced no_sign at_the_epoch sample_publish (mkFeeDeclaration "soholink" 6500 3500 1000 3 "sig")
    (sample_op_world sample_op_tables) run.2) as [Hp _].
  - split; reflexivity.
  - reflexivity.
  - by apply empty_fees_ordered.
  - split; vm_compute; discriminate.
  - unfold run in *. rewrite <- H1. apply surjective_pairing.
  - rewrite Hp. reflexivity.
Defined.
