(* ===== verification/PortalPages.v ===== *)
(** The pages of the member portal that only read: internal/portal/server.go.

    The dashboard, the marketplace, the queue of disputes, the state of a job
    with its stream of updates, the confirmation page, the provisioning page and
    the opt-out settings.  A page is the data it is rendered with.

    The rows of Database.v leave out columns that the database fills in when it
    inserts a row and that no statement changes afterwards: they are functions of
    the key of the row ([Columns]).  Rows with equal sort keys come in the order
    of the [MapOrder] instance, text is ordered by [collate], AVG is [PgAvg].  The
    enumerations of the schema stand for their text and sessions of the database
    run in UTC. *)
From Stdlib Require Import Ascii.
From S2P Require Import Prelude Float64 Workload Sounding Registry Scheduler Database Lifecycle Effects.
From S2P Require Import Encoding Sha256 Token Allowlist Orchestrator Dispatch Http Session NodesApi Adapter.
From S2P Require Import Portal Profile Format SoundingStore Templates.
Local Open Scope string_scope.
Local Open Scope list_scope.
Local Open Scope Z_scope.

(** The columns with defaults. *)
Class Columns := {
  job_created_at : string -> Z; node_created_at : string -> Z; metering_computed_at : string -> Z;
  token_created_at : string -> Z; dispute_created_at : string -> Z; profile_created_at : string -> Z;
  profile_gpu_pct : string -> Z }.

Definition ErrScan : Error := ErrGo "cannot scan NULL".

(** A SELECT whose rows are scanned into variables; [None] does not scan. *)
Definition query_scan {A} (f : Z -> DB -> option A) : M A :=
  stmt (fun now d => match f now d with Some a => Ok (a, d) | None => Err ErrScan end).

(** [SUM] of a BIGINT column, a NUMERIC, scanned into an int64. *)
Definition scan_int64 (z : Z) : option Z := if decide (is_int64 z) then Some z else None.

(** ORDER BY a time, ascending and descending. *)
Definition oldest_first {A} (t : string -> Z) (a b : string * A) : bool := t a.1 <? t b.1.
Definition newest_first {A} (t : string -> Z) (a b : string * A) : bool := t b.1 <? t a.1.
(** DESC puts NULL first. *)
Definition nulls_first_desc (a b : option Z) : bool :=
  match a, b with None, Some _ => true | Some x, Some y => y <? x | _, None => false end.

Definition year_month (t : Z) : Z * Z := let '(y, m, _) := date_of (day_of t) in (y, m).

(** ** What belongs to a member *)

Definition own_nodes (user : string) (d : DB) : gmap string NodeRow :=
  filter (fun '(_, n) => n_participant_id n = user) (nodes d).
Definition own_jobs (user : string) (d : DB) : gmap string JobRow :=
  filter (fun '(_, j) => j_participant_id j = Some user) (jobs d).
Definition own_tokens (user : string) (d : DB) : gmap string RegTokenRow :=
  filter (fun '(_, t) => t_participant_id t = user) (node_registration_tokens d).
Definition own_profiles (user : string) (d : DB) : gmap string ProfileRow :=
  filter (fun '(_, p) => is_Some (own_nodes user d !! pf_node_id p)) (resource_profiles d).
(** [jobs j JOIN nodes n ON n.id = j.node_id WHERE n.participant_id = $1] *)
Definition hosted_jobs (user : string) (d : DB) : gmap string JobRow :=
  filter (fun '(_, j) => is_Some (j_node_id j ≫= fun id => own_nodes user d !! id)) (jobs d).
Definition printers_of (node : string) (d : DB) : gmap (string * string) Database.PrinterRow :=
  filter (fun '(k, _) => k.1 = node) (node_printers d).

(** ** The data of the pages *)

Record ActiveJobRow := mkActiveJob {
  aj_JobID : string; aj_NodeID : string; aj_Workload : string; aj_CPUCores : Z; aj_RAMMB : Z;
  aj_StartedAt : Z }.
Record SubmittedJobRow := mkSubmittedJob {
  sj_JobID : string; sj_Status : job_status; sj_Workload : string; sj_CreatedAt : Z }.
Record NodeView := mkNodeView {
  nv_ID : string; nv_Hostname : string; nv_Status : string; nv_NodeClass : string; nv_CountryCode : string;
  nv_UptimePct : float64; nv_LastHeartbeat : Z }.
Record DashboardData := mkDashboard {
  da_Email : string; da_HasNodes : bool; da_NodeCount : Z; da_UptimePct : float64; da_UptimeClass : string;
  da_ThisMonthDollars : float64; da_TotalDollars : float64; da_PendingPayoutDollars : float64; da_TotalJobs : Z;
  da_ActiveJobs : list ActiveJobRow; da_SubmittedJobs : list SubmittedJobRow; da_Nodes : list NodeView;
  da_HasStripe : bool; da_RegToken : string }.

Record NodeListing := mkNodeListing {
  li_ID : string; li_CountryCode : string; li_CPUCores : Z; li_RAMGB : Z; li_StorageGB : Z;
  li_BandwidthMbps : Z; li_EstHrRate : float64 }.
Record ClassGroup := mkClassGroup {
  cg_Class : string; cg_ClassName : string; cg_Nodes : list NodeListing; cg_MinRate : float64;
  cg_MaxRate : float64 }.
Record MarketplaceData := mkMarketplace {
  ma_Email : string; ma_Classes : list ClassGroup; ma_CPURateHr : float64; ma_RAMRateHr : float64 }.

Record DisputeView := mkDisputeView {
  dv_ID : string; dv_Status : dispute_status; dv_Reason : string; dv_ConsumerRefundPct : Z; dv_CreatedAt : Z;
  dv_PaymentIntentID : string; dv_JobID : string; dv_ConsumerEmail : string; dv_NodeClass : string;
  dv_CountryCode : string }.
Record DisputeQueueData := mkDisputeQueue { dq_Email : string; dq_Disputes : list DisputeView }.

Record JobStatusData := mkJobStatus {
  js_JobID : string; js_Status : job_status; js_NodeID : string; js_FailureCause : string; js_CreatedAt : Z;
  js_Email : string }.
Record JobConfirmData := mkJobConfirm {
  jc_Email : string; jc_JobID : string; jc_WorkloadType : string; jc_ContainerImage : string;
  jc_CPUCores : Z; jc_RAMMB : Z; jc_StorageGB : Z; jc_GPURequired : bool; jc_CountryConstraint : string;
  jc_PrinterID : string; jc_SpecHashHex : string; jc_ConfirmationDeadline : Z; jc_Status : job_status }.

Record ProfileView := mkProfileView {
  pv_ID : string; pv_Name : string; pv_IsDefault : bool; pv_CPUEnabled : bool; pv_GPUPct : Z; pv_RAMPct : Z;
  pv_StorageGB : Z; pv_BandwidthMbps : Z }.
Record provisionData := mkProvision {
  pd_Email : string; pd_NodeID : string; pd_Profiles : list ProfileView; pd_UptimePct : float64;
  pd_EligibleClasses : list string }.

Record optOutPrinterDTO := mkOptOutPrinter { od_PrinterID : string; od_PrinterName : string; od_Enabled : bool }.
Record OptOutNodeRow := mkOptOutNode {
  on_ID : string; on_Hostname : string; on_OptOutCompute : bool; on_OptOutStorage : bool;
  on_OptOutPrinting : bool; on_Version : Z; on_SyncStatus : string; on_Printers : list optOutPrinterDTO }.
Record optOutAPIResponse := mkOptOutResponse {
  or_NodeID : string; or_Compute : bool; or_Storage : bool; or_Printing : bool; or_Version : Z;
  or_UpdatedAt : Z; or_LastHeartbeat : option Z; or_Printers : list optOutPrinterDTO }.

(** ** Construction *)

(** [New]: the templates it collects. *)
Definition NewPortal (walk : list (option (string * bool))) : result string (list string) :=
  match collect_templates walk with
  | None => Err "new portal: walk templates"
  | Some [] => Err "new portal: no templates found"
  | Some paths => Ok paths
  end.

Section Pages.
Context `{TemplateEngine} `{MapOrder} `{PgAvg} `{Columns}.
Context (templatePaths : list string) (collate : string -> string -> bool).

Definition render_member {D} (page : string) (data : D) : H (Response D) :=
  mret (renderTemplate templatePaths page data).

(** The pages without data. *)
Definition handleIndex : H (Response unit) := render_member "index.html" tt.
Definition handleJoinPage : H (Response unit) := render_member "join.html" tt.
Definition handleDownloadPage : H (Response unit) := render_member "download.html" tt.
Definition handlePrivacyPage : H (Response unit) := render_member "privacy.html" tt.
Definition handleLoginPage : H (Response unit) := render_member "login.html" tt.
Definition handleRegisterPage : H (Response unit) := render_member "register.html" tt.

(** ** The dashboard *)

(** The most recent token that can still be claimed. *)
Definition latest_token (user : string) (now : Z) (d : DB) : option string :=
  fst <$> head (isort _ (newest_first token_created_at)
    (map_range (filter (fun '(_, t) => claimable now t = true) (own_tokens user d)))).

Definition uptimes (user : string) (d : DB) : list float64 :=
  (fun '(_, n) => n_uptime_pct n) <$> map_range (own_nodes user d).

Definition node_view (r : string * NodeRow) : NodeView :=
  let '(id, n) := r in
  mkNodeView id (n_hostname n) (n_status n) (n_node_class n) (n_country_code n) (n_uptime_pct n)
    (default (node_created_at id) (n_last_heartbeat_at n)).
Definition node_views (user : string) (d : DB) : list NodeView :=
  node_view <$> isort _ (oldest_first node_created_at) (map_range (own_nodes user d)).

Definition uptime_class (uptimePct : float64) : string :=
  if f64_le (f64_of_Z 95) uptimePct then "A"
  else if f64_le (f64_of_Z 85) uptimePct then "B"
  else if f64_le (f64_of_Z 70) uptimePct then "C"
  else "".

(** [... JOIN job_metering jm ON jm.job_id = j.id] *)
Definition metered (user : string) (d : DB) : list (string * JobRow * MeteringRow) :=
  omap (fun '(id, j) => m ← job_metering d !! id; Some (id, j, m)) (map_range (hosted_jobs user d)).
Definition earned (rows : list (string * JobRow * MeteringRow)) : Z :=
  sumZ ((fun r => m_contributor_earned_cents r.2) <$> rows).

Definition earnings (user : string) (now : Z) (d : DB) : option (Z * Z * Z) :=
  let rows := metered user d in
  total ← scan_int64 (earned rows);
  thisMonth ← scan_int64 (earned (filter (fun r =>
    year_month (metering_computed_at r.1.1) = year_month now) rows));
  Some (total, thisMonth, Z.of_nat (length rows)).
Definition pending_cents (user : string) (now : Z) (d : DB) : option Z :=
  scan_int64 (earned (filter (fun r =>
    from_option (fun t => now - Day <? t) false (j_completed_at r.1.2) = true) (metered user d))).

Definition active_job (r : string * JobRow) : option ActiveJobRow :=
  let '(id, j) := r in
  node ← j_node_id j; cpu ← j_cpu_cores j; ram ← j_ram_mb j;
  Some (mkActiveJob id node (j_workload_type j) cpu ram (default (job_created_at id) (j_started_at j))).
Definition active_jobs (user : string) (d : DB) : option (list ActiveJobRow) :=
  mapM active_job (isort _ (fun a b => nulls_first_desc (j_started_at a.2) (j_started_at b.2))
    (map_range (filter (fun '(_, j) => has_status running j = true) (hosted_jobs user d)))).

Definition submitted_jobs (user : string) (d : DB) : list SubmittedJobRow :=
  (fun '(id, j) => mkSubmittedJob id (j_status j) (j_workload_type j) (job_created_at id)) <$>
    take 10 (isort _ (newest_first job_created_at) (map_range (own_jobs user d))).

Definition dollars (cents : Z) : float64 := f64_div (f64_of_Z cents) (f64_of_Z 100).

Definition buildDashboardData (claims : SessionClaims) : M DashboardData :=
  let user := sc_UserID claims in
  p ← query_row (fun _ d => participants d !! user);
  let hasStripe := negb (bool_decide (default "" (p_stripe_account_id p) = "")) in
  token ← try (query_row (fun now d => latest_token user now d));
  let existingToken := match token with Ok t => t | Err _ => "" end in
  '(nodeCount, uptimePct) ← query (fun _ d =>
    (Z.of_nat (length (uptimes user d)), default f64_zero (avg_f64 (uptimes user d))));
  views ← query (fun _ d => node_views user d);
  '(total, thisMonth, totalJobs, pendingC) ← (if 0 <? nodeCount then
      '(total, thisMonth, totalJobs) ← query_scan (earnings user);
      pendingC ← query_scan (pending_cents user);
      mret (total, thisMonth, totalJobs, pendingC)
    else mret (0, 0, 0, 0));
  activeJobs ← (if 0 <? nodeCount then query_scan (fun _ d => active_jobs user d) else mret []);
  submitted ← query (fun _ d => submitted_jobs user d);
  mret (mkDashboard (sc_Email claims) (0 <? nodeCount) nodeCount uptimePct (uptime_class uptimePct)
    (dollars thisMonth) (dollars total) (dollars pendingC) totalJobs activeJobs submitted views hasStripe
    existingToken).

Definition handleDashboard (claims : SessionClaims) : H (Response DashboardData) :=
  data ← or_500 (buildDashboardData claims);
  render_member "dashboard.html" data.

(** ** The marketplace *)

(** The uptime a class has to keep. *)
Definition class_floor (class : string) : option Z :=
  if bool_decide (class = "A") then Some 95 else if bool_decide (class = "B") then Some 85
  else if bool_decide (class = "C") then Some 70 else if bool_decide (class = "D") then Some 80
  else None.
Definition market_ready (n : NodeRow) : bool :=
  bool_decide (n_status n = "online") &&
  match class_floor (n_node_class n) with
  | Some floor => f64_le (f64_of_Z floor) (n_uptime_pct n)
  | None => false
  end.

(** The order of the enumeration, then the country. *)
Definition class_index (class : string) : Z :=
  if bool_decide (class = "A") then 0 else if bool_decide (class = "B") then 1
  else if bool_decide (class = "C") then 2 else 3.
Definition market_less (a b : string * NodeRow) : bool :=
  let ca := class_index (n_node_class a.2) in let cb := class_index (n_node_class b.2) in
  (ca <? cb) || ((ca =? cb) && collate (n_country_code a.2) (n_country_code b.2)).

Definition market_rows (d : DB) : list (string * NodeRow) :=
  isort _ market_less (map_range (filter (fun '(_, n) => market_ready n = true) (nodes d))).

(** [(hardware_profile->>'CPUCores')::int] and
    [(hardware_profile->>'RAMMB')::bigint / 1024], which have to be numbers. *)
Definition hw_cpu_cores (n : NodeRow) : option Z :=
  z ← hw_number (n_hardware_profile n) "CPUCores"; if is_int32 z then Some z else None.
Definition hw_ram_gb (n : NodeRow) : option Z :=
  z ← hw_number (n_hardware_profile n) "RAMMB"; z ← scan_int64 z; Some (Z.quot z 1024).

Definition est_hr_rate (rates : gmap string float64) (p : option ProfileRow) (cpuCores ramGB : Z) : float64 :=
  let availCPU := if from_option pf_cpu_enabled true p then f64_of_Z cpuCores else f64_zero in
  let availRAM := f64_div (f64_mul (f64_of_Z ramGB) (f64_of_Z (from_option pf_ram_pct 100 p))) (f64_of_Z 100) in
  f64_mul (f64_add (f64_mul availCPU (rate rates "cpu_core_hr")) (f64_mul availRAM (rate rates "ram_gb_hr")))
    (from_option pf_price_multiplier f64_one p).

(** A row of the query joined with the default profile, and the listing made of it. *)
Definition listing (rates : gmap string float64) (d : DB) (r : string * NodeRow) : option (string * NodeListing) :=
  let '(id, n) := r in
  let p := default_profile d id in
  cpuCores ← hw_cpu_cores n;
  ramGB ← hw_ram_gb n;
  Some (n_node_class n, mkNodeListing id (n_country_code n) cpuCores ramGB (from_option pf_storage_gb 0 p)
    (from_option pf_bandwidth_mbps 0 p) (est_hr_rate rates p cpuCores ramGB)).

(** [classMap] and [classOrder] *)
Definition add_listing (st : gmap string (list NodeListing) * list string) (x : string * NodeListing) :
    gmap string (list NodeListing) * list string :=
  let '(classMap, classOrder) := st in
  let '(class, l) := x in
  (<[class := default [] (classMap !! class) ++ [l]]> classMap,
   match classMap !! class with None => classOrder ++ [class] | Some _ => classOrder end).

Definition em_dash : string := string_of [226; 128; 148].
Definition class_name (class : string) : string :=
  if bool_decide (class = "A") then "Class A " +:+ em_dash +:+ " Dedicated Server"
  else if bool_decide (class = "B") then "Class B " +:+ em_dash +:+ " Mobile GPU"
  else if bool_decide (class = "C") then "Class C " +:+ em_dash +:+ " Smart TV"
  else if bool_decide (class = "D") then "Class D " +:+ em_dash +:+ " NAS / Storage"
  else "Class " +:+ class.

Definition min_rate (r0 : float64) (l : list NodeListing) : float64 :=
  foldl (fun m n => if f64_lt (li_EstHrRate n) m then li_EstHrRate n else m) r0 l.
Definition max_rate (r0 : float64) (l : list NodeListing) : float64 :=
  foldl (fun m n => if f64_lt m (li_EstHrRate n) then li_EstHrRate n else m) r0 l.

(** [nodes[0]] of an empty group would panic. *)
Definition class_group (classMap : gmap string (list NodeListing)) (class : string) : option ClassGroup :=
  match default [] (classMap !! class) with
  | [] => None
  | n :: l => Some (mkClassGroup class (class_name class) (n :: l) (min_rate (li_EstHrRate n) l)
                (max_rate (li_EstHrRate n) l))
  end.
Definition class_groups (listings : list (string * NodeListing)) : option (list ClassGroup) :=
  let '(classMap, classOrder) := foldl add_listing (∅, []) listings in
  mapM (class_group classMap) classOrder.

(** A panic of the handler is [None]. *)
Definition handleConsumerMarketplace (claims : SessionClaims) : H (option (Response MarketplaceData)) :=
  rows ← or_500 (query (fun now d => current_rates now d));
  let rates := (collect_rates rows).1 in
  listings ← or_500 (query_scan (fun _ d => mapM (listing rates d) (market_rows d)));
  mret (groups ← class_groups listings;
        Some (renderTemplate templatePaths "consumer_marketplace.html"
          (mkMarketplace (sc_Email claims) groups (rate rates "cpu_core_hr") (rate rates "ram_gb_hr")))).

(** ** The queue of disputes *)

(** The inner joins drop a dispute whose job, member or node is gone. *)
Definition dispute_view (d : DB) (r : string * DisputeRow) : option DisputeView :=
  let '(id, x) := r in
  _ ← jobs d !! d_job_id x;
  c ← (d_participant_id x ≫= fun p => participants d !! p);
  n ← nodes d !! d_node_id x;
  Some (mkDisputeView id (d_status x) (d_reason x) (d_consumer_refund_pct x) (dispute_created_at id)
    (d_payment_intent_id x) (d_job_id x) (p_email c) (n_node_class n) (n_country_code n)).
Definition dispute_queue (d : DB) : list DisputeView :=
  omap (dispute_view d) (isort _ (oldest_first dispute_created_at)
    (map_range (filter (fun '(_, x) => active (d_status x) = true) (disputes d)))).

Definition handleDisputeQueue (claims : SessionClaims) : H (Response DisputeQueueData) :=
  _ ← require_staff (sc_UserID claims);
  rows ← or_500 (query (fun _ d => dispute_queue d));
  render_member "dispute_queue.html" (mkDisputeQueue (sc_Email claims) rows).

(** ** Jobs *)

Definition job_status_data (claims : SessionClaims) (jobID : string) (j : JobRow) : JobStatusData :=
  mkJobStatus jobID (j_status j) (default "" (j_node_id j)) (default "" (j_failure_cause j))
    (job_created_at jobID) (sc_Email claims).
Definition handleJobStatus (claims : SessionClaims) (jobID : string) : H (Response JobStatusData) :=
  j ← or_reject not_found (query_row (fun _ d => job_of_consumer d jobID (sc_UserID claims)));
  render_member "consumer_job_status.html" (job_status_data claims jobID j).

(** A job without a deadline does not scan. *)
Definition job_confirm_data (claims : SessionClaims) (jobID : string) (j : JobRow) : option JobConfirmData :=
  deadline ← j_confirmation_deadline j;
  Some (mkJobConfirm (sc_Email claims) jobID (j_workload_type j) (default "" (j_container_image j))
    (default 0 (j_cpu_cores j)) (default 0 (j_ram_mb j)) (default 0 (j_storage_gb j)) (j_gpu_required j)
    (default "" (j_country_constraint j)) (default "" (j_printer_id j))
    (hex_encode (default "" (j_spec_hash j))) deadline (j_status j)).
Definition handleJobConfirm (claims : SessionClaims) (jobID : string) : H (Response JobConfirmData) :=
  data ← or_reject not_found (query_scan (fun _ d =>
    j ← job_of_provider d jobID (sc_UserID claims); job_confirm_data claims jobID j));
  render_member "contributor_job_confirm.html" data.

(** ** Provisioning *)

Inductive ProvisionReply := ToOnboarding | Provisioned (p : Response provisionData).

Definition first_node (user : string) (d : DB) : option string :=
  fst <$> head (isort _ (oldest_first node_created_at) (map_range (own_nodes user d))).

(** [ORDER BY is_default DESC, created_at ASC] *)
Definition profile_less (a b : string * ProfileRow) : bool :=
  (pf_is_default a.2 && negb (pf_is_default b.2)) ||
  (eqb (pf_is_default a.2) (pf_is_default b.2) && oldest_first profile_created_at a b).
Definition profile_view (r : string * ProfileRow) : ProfileView :=
  let '(id, p) := r in
  mkProfileView id (pf_name p) (pf_is_default p) (pf_cpu_enabled p) (profile_gpu_pct id) (pf_ram_pct p)
    (pf_storage_gb p) (pf_bandwidth_mbps p).
Definition profile_views (user : string) (d : DB) : list ProfileView :=
  profile_view <$> isort _ profile_less (map_range (own_profiles user d)).

Definition eligible_classes (uptimePct : float64) : list string :=
  (if f64_le (f64_of_Z 95) uptimePct then ["A"] else []) ++
  (if f64_le (f64_of_Z 85) uptimePct then ["B"] else []) ++
  (if f64_le (f64_of_Z 80) uptimePct then ["D"] else []) ++
  (if f64_le (f64_of_Z 70) uptimePct then ["C"] else []).

(** The errors of the second and the last query leave the zero values. *)
Definition handleProviderProvision (claims : SessionClaims) : H ProvisionReply :=
  let user := sc_UserID claims in
  p ← or_500 (query_row (fun _ d => participants d !! user));
  if negb (p_onboarding_complete p) then mret ToOnboarding
  else
    node ← attempt (query_row (fun _ d => first_node user d));
    let nodeID := match node with Ok id => id | Err _ => "" end in
    profiles ← or_500 (query (fun _ d => profile_views user d));
    uptime ← attempt (query (fun _ d => default (f64_of_Z 100) (avg_f64 (uptimes user d))));
    let uptimePct := match uptime with Ok u => u | Err _ => f64_zero end in
    page ← render_member "provider_provision.html"
      (mkProvision (sc_Email claims) nodeID profiles uptimePct (eligible_classes uptimePct));
    mret (Provisioned page).

(** ** Opt-out settings *)

(** [Duration.Minutes] *)
Definition Minutes (d : Z) : float64 :=
  f64_add (f64_of_Z (Z.quot d Minute)) (f64_div (f64_of_Z (Z.rem d Minute)) (f64_of_Z Minute)).

Definition formatShortDuration (d : Z) : string :=
  if d <? Minute then FormatInt (f64_to_int64 (Seconds d)) +:+ "s"
  else if d <? Hour then FormatInt (f64_to_int64 (Minutes d)) +:+ "m"
  else if d <? 24 * Hour then FormatInt (f64_to_int64 (Hours d)) +:+ "h"
  else FormatInt (f64_to_int64 (f64_div (Hours d) (f64_of_Z 24))) +:+ "d".

Definition middle_dot : string := string_of [194; 183].
Definition formatOptOutSyncStatus (version optOutUpdatedAt : Z) (lastHeartbeat : option Z) (now : Z) : string :=
  let v := "Version " +:+ FormatInt version +:+ " " +:+ middle_dot in
  match lastHeartbeat with
  | Some hb => if hb <? optOutUpdatedAt then v +:+ " pending node confirmation"
               else v +:+ " last confirmed " +:+ formatShortDuration (time_sub now hb) +:+ " ago"
  | None => v +:+ " pending node confirmation"
  end.

(** [jsonb_agg(... ORDER BY np.printer_id)] *)
Definition printer_list (node : string) (d : DB) : list optOutPrinterDTO :=
  (fun '((_, p), r) => mkOptOutPrinter p (pr_name r) (pr_enabled r)) <$>
    isort _ (fun a b => collate a.1.2 b.1.2) (map_range (printers_of node d)).

Definition opt_out_row (now : Z) (x : string * NodeRow * list optOutPrinterDTO) : OptOutNodeRow :=
  let '(id, n, printers) := x in
  mkOptOutNode id (n_hostname n) (n_opt_out_compute n) (n_opt_out_storage n) (n_opt_out_printing n)
    (n_opt_out_version n)
    (formatOptOutSyncStatus (n_opt_out_version n) (n_opt_out_updated_at n) (n_last_heartbeat_at n) now) printers.
Definition opt_out_rows (user : string) (d : DB) : list (string * NodeRow * list optOutPrinterDTO) :=
  (fun '(id, n) => (id, n, printer_list id d)) <$>
    isort _ (fun a b => collate (n_hostname a.2) (n_hostname b.2)) (map_range (own_nodes user d)).

Definition handleOptOutPage (claims : SessionClaims) : H (Response (list OptOutNodeRow)) :=
  rows ← or_500 (query (fun _ d => opt_out_rows (sc_UserID claims) d));
  now ← or_500 time_Now;
  render_member "opt_out.html" (opt_out_row now <$> rows).

Definition opt_out_response (id : string) (n : NodeRow) (printers : list optOutPrinterDTO) : optOutAPIResponse :=
  mkOptOutResponse id (n_opt_out_compute n) (n_opt_out_storage n) (n_opt_out_printing n) (n_opt_out_version n)
    (n_opt_out_updated_at n) (n_last_heartbeat_at n) printers.
Definition handleGetOptOut (claims : SessionClaims) (node_id : string) : H optOutAPIResponse :=
  let nodeID := TrimSpace node_id in
  _ ← reject_if (bool_decide (nodeID = "")) StatusBadRequest;
  '(n, printers) ← or_reject not_found (query_row (fun _ d =>
    n ← nodes d !! nodeID; Some (n, printer_list nodeID d)));
  _ ← reject_if (negb (bool_decide (n_participant_id n = sc_UserID claims))) StatusNotFound;
  mret (opt_out_response nodeID n printers).

End Pages.

(** ** The stream of a job's states *)

Inductive StreamEvent := SentStatus (status : job_status) (nodeID : string) | SentNotFound.

(** A passage of the select: whether it took [r.Context().Done()], and otherwise
    when the tick was received, the state the statement of this passage starts
    from and when the event is written. *)
Record Wake := mkWake { wk_done : bool; wk_tick : Z; wk_world : World; wk_write : Z }.

Definition streamPeriod : Z := 2 * Second.
(** [WriteTimeout] of the server, from the time the request was read. *)
Definition WriteTimeout : Z := 15 * Second.

Section Stream.
Context (claims : SessionClaims) (jobID : string) (deadline : Z).

(** A statement whose context is cancelled fails. *)
Definition stream_read (cancelled : bool) (w : World) : result Error (job_status * string) :=
  if cancelled then Err ErrConn
  else (query_row (fun _ d =>
    j ← job_of_consumer d jobID (sc_UserID claims); Some (j_status j, default "" (j_node_id j))) w).1.

(** A write after the deadline fails, and the server then cancels the context. *)
Definition delivered_at (cancelled : bool) (t : Z) : bool := negb cancelled && (t <=? deadline).

(** The loop, as the list of the events that were sent; [None] is a loop that has
    not ended after [fuel] passages. *)
Fixpoint handleJobStatusStream (fuel : nat) (env : nat -> Wake) (cancelled : bool) : option (list StreamEvent) :=
  match fuel with
  | O => None
  | S fuel' =>
      let k := env O in
      let sent := delivered_at cancelled (wk_write k) in
      if wk_done k then Some []
      else match stream_read cancelled (wk_world k) with
      | Err _ => Some (if sent then [SentNotFound] else [])
      | Ok (status, nodeID) =>
          let out := if sent then [SentStatus status nodeID] else [] in
          if bool_decide (status = completed) || bool_decide (status = failed) then Some out
          else
            rest ← handleJobStatusStream fuel' (fun i => env (S i)) (cancelled || negb sent);
            Some (out ++ rest)
      end
  end.

End Stream.
