(* ===== verification/PortalPagesProofs.v ===== *)
(** What the pages of the member portal guarantee: they show a member nothing but
    what belongs to the member, the marketplace lists exactly the nodes that keep
    the uptime of their class, and the stream of a job's states ends. *)
From Stdlib Require Import Ascii.
From S2P Require Import Prelude Float64 Workload Sounding Registry Scheduler Database Lifecycle Effects.
From S2P Require Import Encoding Sha256 Token Allowlist Orchestrator Samples Dispatch Http Session NodesApi.
From S2P Require Import Adapter Portal PortalProofs Profile Format SoundingStore Templates DashboardProofs PortalPages.
Import Types.
Local Open Scope string_scope.
Local Open Scope list_scope.
Local Open Scope Z_scope.

(** ** Pages only read *)

Lemma safe_query_scan {A} (f : Z -> DB -> option A) : safe (query_scan f).
Proof. apply safe_stmt. intros now d a d'. case_match; intros [= <- <-]. apply rtc_refl. Qed.
#[export] Hint Resolve safe_query_scan : safe.

Lemma safe_buildDashboardData `{MapOrder} `{PgAvg} `{Columns} claims : safe (buildDashboardData claims).
Proof.
  unfold buildDashboardData. cbv zeta.
  repeat lazymatch goal with
  | |- safe (@mbind M _ _ _ _ _) => apply safe_bind; [|intros ?]
  | |- safe (try _) => apply safe_try
  | |- safe (match ?x with _ => _ end) => destruct x
  | |- safe (mret _) => apply safe_ret
  | |- _ => progress eauto using safe_query, safe_query_row with safe nocore
  end.
Qed.
#[export] Hint Resolve safe_buildDashboardData : safe.

(** ** What a member can tell apart *)

(** Two databases that agree on what belongs to [user]. *)
Record same_view (user : string) (d1 d2 : DB) : Prop := {
  sv_participant : participants d1 !! user = participants d2 !! user;
  sv_nodes : own_nodes user d1 = own_nodes user d2;
  sv_jobs : own_jobs user d1 = own_jobs user d2;
  sv_hosted : hosted_jobs user d1 = hosted_jobs user d2;
  sv_metering : forall id, is_Some (hosted_jobs user d1 !! id) -> job_metering d1 !! id = job_metering d2 !! id;
  sv_tokens : own_tokens user d1 = own_tokens user d2;
  sv_profiles : own_profiles user d1 = own_profiles user d2;
  sv_printers : forall id, is_Some (own_nodes user d1 !! id) -> printers_of id d1 = printers_of id d2 }.

(** The same for what other requests do meanwhile: statements fail alike, time
    passes alike, and what the others commit keeps the agreement. *)
Definition same_event (user : string) (e1 e2 : Event) : Prop :=
  ev_fault e1 = ev_fault e2 /\ ev_tick e1 = ev_tick e2 /\
  forall now d1 d2, same_view user d1 d2 -> same_view user (ev_db e1 now d1) (ev_db e2 now d2).

Record indistinct (user : string) (w1 w2 : World) : Prop := {
  in_db : same_view user (w_db w1) (w_db w2);
  in_now : w_now w1 = w_now w2;
  in_tx1 : w_tx w1 = None;
  in_tx2 : w_tx w2 = None;
  in_events : Forall2 (same_event user) (w_events w1) (w_events w2) }.

(** Code that answers alike in worlds that [user] cannot tell apart. *)
Definition unaware {A} (user : string) (m : M A) : Prop := forall w1 w2, indistinct user w1 w2 ->
  (m w1).1 = (m w2).1 /\ indistinct user (m w1).2 (m w2).2.

Section Unaware.
Context (user : string).

Lemma unaware_answer {A} (m : M A) w1 w2 : unaware user m -> indistinct user w1 w2 -> (m w1).1 = (m w2).1.
Proof. by intros Hm [? _]%Hm. Qed.

Lemma unaware_ret {A} (a : A) : unaware user (mret a : M A).
Proof. by intros w1 w2 Hw. Qed.
Lemma unaware_fail {A} e : unaware user (fail e : M A).
Proof. by intros w1 w2 Hw. Qed.
Lemma unaware_bind {A B} (m : M A) (f : A -> M B) :
  unaware user m -> (forall a, unaware user (f a)) -> unaware user (m ≫= f).
Proof.
  intros Hm Hf w1 w2 [Ha Hw]%Hm. unfold mbind, M_bind. destruct (m w1) as [[a|e] v1], (m w2) as [[a'|e'] v2];
    simplify_eq/=; [by apply Hf|done].
Qed.
Lemma unaware_try {A} (m : M A) : unaware user m -> unaware user (try m).
Proof.
  intros Hm w1 w2 [Ha Hw]%Hm. unfold try. destruct (m w1), (m w2); simplify_eq/=. done.
Qed.
Lemma unaware_time_Now : unaware user time_Now.
Proof. intros w1 w2 Hw. cbn. by rewrite (in_now _ _ _ Hw). Qed.

Lemma unaware_next_event : unaware user next_event.
Proof.
  intros [d1 r1 s1 n1 es1 u1 t1] [d2 r2 s2 n2 es2 u2 t2] [Hd Hn Ht1 Ht2 He]. simpl in *. subst.
  unfold next_event. simpl. destruct He as [|e1 e2 es1 es2 (Hf & Ht & Hp) He]; simpl.
  - split; [done|]. split; simpl; done.
  - rewrite Hf, Ht. split; [done|]. split; simpl; try done. by apply Hp.
Qed.

(** A statement that reads, and answers alike from both databases. *)
Lemma unaware_stmt {A} (f : Z -> DB -> result Error (A * DB)) :
  (forall now d1 d2, same_view user d1 d2 ->
     match f now d1, f now d2 with
     | Ok (a1, d1'), Ok (a2, d2') => a1 = a2 /\ d1' = d1 /\ d2' = d2
     | Err e1, Err e2 => e1 = e2
     | _, _ => False
     end) -> unaware user (stmt f).
Proof.
  intros Hf. apply unaware_bind; [apply unaware_next_event|]. intros x.
  assert (Hr : unaware user (run_stmt f)).
  { intros w1 w2 Hw. unfold run_stmt, sql_now. rewrite (in_tx1 _ _ _ Hw), (in_tx2 _ _ _ Hw), (in_now _ _ _ Hw).
    simpl. specialize (Hf (w_now w2) _ _ (in_db _ _ _ Hw)).
    destruct (f _ (w_db w1)) as [[a1 d1]|], (f _ (w_db w2)) as [[a2 d2]|]; simpl in *; try done; [|by subst].
    destruct Hf as (-> & -> & ->). split; [done|]. by destruct Hw. }
  destruct x; [done|apply unaware_fail|apply unaware_bind; [by apply unaware_try|intros ?; apply unaware_fail]].
Qed.

Lemma unaware_query {A} (f : Z -> DB -> A) :
  (forall now d1 d2, same_view user d1 d2 -> f now d1 = f now d2) -> unaware user (query f).
Proof. intros Hf. apply unaware_stmt. intros now d1 d2 Hd. by rewrite (Hf now d1 d2 Hd). Qed.
Lemma unaware_query_row {A} (f : Z -> DB -> option A) :
  (forall now d1 d2, same_view user d1 d2 -> f now d1 = f now d2) -> unaware user (query_row f).
Proof. intros Hf. apply unaware_stmt. intros now d1 d2 Hd. rewrite (Hf now d1 d2 Hd). by destruct (f now d2). Qed.
Lemma unaware_query_scan {A} (f : Z -> DB -> option A) :
  (forall now d1 d2, same_view user d1 d2 -> f now d1 = f now d2) -> unaware user (query_scan f).
Proof. intros Hf. apply unaware_stmt. intros now d1 d2 Hd. rewrite (Hf now d1 d2 Hd). by destruct (f now d2). Qed.

(** Handlers. *)
Lemma unaware_hret {A} (a : A) : unaware user (mret a : H A).
Proof. by intros w1 w2 Hw. Qed.
Lemma unaware_hbind {A B} (m : H A) (f : A -> H B) :
  unaware user m -> (forall a, unaware user (f a)) -> unaware user (m ≫= f : H B).
Proof.
  intros Hm Hf w1 w2 [Ha Hw]%Hm. unfold mbind, H_bind.
  destruct (m w1) as [[[a|c]|e] v1], (m w2) as [[[a'|c']|e'] v2]; simplify_eq/=; [by apply Hf|done..].
Qed.
Lemma unaware_or_reject {A} code (m : M A) : unaware user m -> unaware user (or_reject code m).
Proof.
  intros Hm w1 w2 [Ha Hw]%Hm. unfold or_reject. destruct (m w1) as [[?|?] ?], (m w2) as [[?|?] ?]; simplify_eq/=; done.
Qed.
Lemma unaware_attempt {A} (m : M A) : unaware user m -> unaware user (attempt m).
Proof. intros Hm w1 w2 [Ha Hw]%Hm. unfold attempt. destruct (m w1), (m w2); simplify_eq/=. done. Qed.
Lemma unaware_reject_if b c : unaware user (reject_if b c).
Proof. destruct b; by intros w1 w2 Hw. Qed.
End Unaware.

(** Decompose a page into its reads. *)
Ltac unaware_page := repeat lazymatch goal with
  | |- unaware _ (@mbind H _ _ _ _ _) => apply unaware_hbind; [|intros ?]
  | |- unaware _ (@mbind M _ _ _ _ _) => apply unaware_bind; [|intros ?]
  | |- unaware _ (or_500 _) => apply unaware_or_reject
  | |- unaware _ (or_reject _ _) => apply unaware_or_reject
  | |- unaware _ (attempt _) => apply unaware_attempt
  | |- unaware _ (try _) => apply unaware_try
  | |- unaware _ (reject_if _ _) => apply unaware_reject_if
  | |- unaware _ time_Now => apply unaware_time_Now
  | |- unaware _ (render_member _ _ _) => apply unaware_hret
  | |- unaware _ (@mret H _ _ _) => apply unaware_hret
  | |- unaware _ (@mret M _ _ _) => apply unaware_ret
  | |- unaware _ (query _) => apply unaware_query; intros ??? Hview
  | |- unaware _ (query_row _) => apply unaware_query_row; intros ??? Hview
  | |- unaware _ (query_scan _) => apply unaware_query_scan; intros ??? Hview
  | |- unaware _ (match ?x with _ => _ end) => destruct x
  end.

(** ** The reads of the pages *)

Section Reads.
Context `{MapOrder} `{PgAvg} `{Columns} (collate : string -> string -> bool).
Context (user : string) (d1 d2 : DB) (Hv : same_view user d1 d2).

Lemma job_of_consumer_own d id : job_of_consumer d id user = own_jobs user d !! id.
Proof.
  apply option_eq. intros j. unfold job_of_consumer, own_jobs. rewrite map_lookup_filter_Some.
  destruct (jobs d !! id) as [j'|]; simpl; [case_bool_decide|]; naive_solver.
Qed.

Lemma hosted_lookup d id : hosted_jobs user d !! id = job_of_provider d id user.
Proof.
  apply option_eq. intros j. unfold job_of_provider, hosted_jobs. rewrite map_lookup_filter_Some.
  destruct (jobs d !! id) as [j'|]; simpl; [|naive_solver].
  destruct (j_node_id j') as [nid|] eqn:Hn; simpl.
  - split.
    + intros [[= <-] [n Ho]]. rewrite Hn in Ho. simpl in Ho. apply map_lookup_filter_Some in Ho as [-> Ho].
      simpl. by rewrite bool_decide_eq_true_2.
    + destruct (nodes d !! nid) as [n|] eqn:Hnode; simpl; [|done]. case_bool_decide; [|done]. intros [= <-].
      split; [done|]. exists n. rewrite Hn. simpl. by apply map_lookup_filter_Some.
  - split; [intros [[= <-] Hs]; rewrite Hn in Hs; by destruct Hs|done].
Qed.

Lemma read_latest_token now : latest_token user now d1 = latest_token user now d2.
Proof. unfold latest_token. by rewrite (sv_tokens _ _ _ Hv). Qed.
Lemma read_uptimes : uptimes user d1 = uptimes user d2.
Proof. unfold uptimes. by rewrite (sv_nodes _ _ _ Hv). Qed.
Lemma read_node_views : node_views user d1 = node_views user d2.
Proof. unfold node_views. by rewrite (sv_nodes _ _ _ Hv). Qed.

Lemma read_metered : metered user d1 = metered user d2.
Proof.
  unfold metered. rewrite (sv_hosted _ _ _ Hv). apply list_omap_ext, Forall_Forall2_diag, Forall_forall.
  intros [id j] Hin. rewrite (sv_metering _ _ _ Hv); [done|]. rewrite (sv_hosted _ _ _ Hv).
  rewrite map_range_perm in Hin. apply elem_of_map_to_list in Hin. eauto.
Qed.
Lemma read_earnings now : earnings user now d1 = earnings user now d2.
Proof. unfold earnings. by rewrite read_metered. Qed.
Lemma read_pending now : pending_cents user now d1 = pending_cents user now d2.
Proof. unfold pending_cents. by rewrite read_metered. Qed.
Lemma read_active_jobs : active_jobs user d1 = active_jobs user d2.
Proof. unfold active_jobs. by rewrite (sv_hosted _ _ _ Hv). Qed.
Lemma read_submitted : submitted_jobs user d1 = submitted_jobs user d2.
Proof. unfold submitted_jobs. by rewrite (sv_jobs _ _ _ Hv). Qed.
Lemma read_job id : job_of_consumer d1 id user = job_of_consumer d2 id user.
Proof. by rewrite !job_of_consumer_own, (sv_jobs _ _ _ Hv). Qed.
Lemma read_hosted_job id : job_of_provider d1 id user = job_of_provider d2 id user.
Proof. by rewrite <- !hosted_lookup, (sv_hosted _ _ _ Hv). Qed.
Lemma read_first_node : first_node user d1 = first_node user d2.
Proof. unfold first_node. by rewrite (sv_nodes _ _ _ Hv). Qed.
Lemma read_profiles : profile_views user d1 = profile_views user d2.
Proof. unfold profile_views. by rewrite (sv_profiles _ _ _ Hv). Qed.

Lemma read_printers id : is_Some (own_nodes user d1 !! id) -> printer_list collate id d1 = printer_list collate id d2.
Proof. intros Hid. unfold printer_list. by rewrite (sv_printers _ _ _ Hv). Qed.
Lemma read_opt_out : opt_out_rows collate user d1 = opt_out_rows collate user d2.
Proof.
  unfold opt_out_rows. rewrite (sv_nodes _ _ _ Hv). apply list_fmap_ext. intros i [id n] Hi.
  rewrite read_printers; [done|]. rewrite (sv_nodes _ _ _ Hv).
  apply list_elem_of_lookup_2 in Hi. rewrite <- isort_perm, map_range_perm in Hi.
  apply elem_of_map_to_list in Hi. eauto.
Qed.
End Reads.

(** ** Privacy *)

Section Private.
Context `{TemplateEngine} `{MapOrder} `{PgAvg} `{Columns} (paths : list string) (collate : string -> string -> bool).
Context (claims : SessionClaims).
Let user := sc_UserID claims.

Lemma unaware_dashboard : unaware user (buildDashboardData claims).
Proof.
  unfold buildDashboardData. cbv zeta. unaware_page;
    eauto using read_latest_token, read_node_views, read_earnings, read_pending, read_active_jobs,
      read_submitted, sv_participant.
  by erewrite read_uptimes by done.
Qed.

(** The settings of a node, read as if the statement asked for the owner too. *)
Definition own_opt_out (nodeID : string) : H optOutAPIResponse :=
  '(n, printers) ← or_reject not_found (query_row (fun _ d =>
    n ← own_nodes user d !! nodeID; Some (n, printer_list collate nodeID d)));
  mret (opt_out_response nodeID n printers).

Lemma get_opt_out_own node_id w : TrimSpace node_id <> "" ->
  handleGetOptOut collate claims node_id w = own_opt_out (TrimSpace node_id) w.
Proof.
  intros Hne. unfold handleGetOptOut. rewrite bool_decide_eq_false_2 by done.
  rewrite (hbind_ok _ _ w tt w) by done.
  unfold own_opt_out, reject_if, mbind, H_bind, or_reject, query_row, stmt, mbind, M_bind.
  destruct (next_event w) as [[[| |]|] w1]; try done; unfold run_stmt, try, fail.
  - destruct (own_nodes user (w_db w1) !! TrimSpace node_id) as [n|] eqn:Ho.
    + apply map_lookup_filter_Some in Ho as [Hn Ho]. rewrite Hn. simpl. by rewrite bool_decide_eq_true_2.
    + apply map_lookup_filter_None in Ho as [Hn|Ho]; [by rewrite Hn|].
      destruct (nodes (w_db w1) !! TrimSpace node_id) as [n|]; [|done]. simpl.
      rewrite bool_decide_eq_false_2 by (by apply Ho). by destruct w1.
  - simpl. destruct (nodes (w_db w1) !! TrimSpace node_id) as [n|], (own_nodes user (w_db w1) !! TrimSpace node_id);
      by destruct w1.
Qed.

Lemma unaware_own_opt_out nodeID : unaware user (own_opt_out nodeID).
Proof.
  unfold own_opt_out. unaware_page. rewrite (sv_nodes _ _ _ Hview).
  destruct (own_nodes user d2 !! nodeID) as [n|] eqn:Ho; [|done]. simpl. f_equal. f_equal.
  eapply read_printers; [done|]. rewrite (sv_nodes _ _ _ Hview). eauto.
Qed.

Lemma unaware_get_opt_out node_id : unaware user (handleGetOptOut collate claims node_id).
Proof.
  destruct (decide (TrimSpace node_id = "")) as [He|Hne].
  - unfold handleGetOptOut. rewrite He. by intros w1 w2 Hw.
  - intros w1 w2 Hw. rewrite !get_opt_out_own by done. by apply unaware_own_opt_out.
Qed.

End Private.

(** C30 A member's pages show nothing of other members.  Take two states of the system
    that agree on the rows that belong to the member (the account, the nodes with
    their printers and profiles, the jobs submitted and the jobs hosted with their
    metering, the registration tokens) and differ in anything else, while other
    requests keep them so and statements fail in both or in neither: the
    dashboard, the page and the stream of a job, the confirmation page, the
    provisioning page and both views of the opt-out settings answer exactly alike.
    So another member's job or node is answered like one that does not exist. *)
Theorem member_pages_private `{TemplateEngine} `{MapOrder} `{PgAvg} `{Columns} paths collate claims id w1 w2 :
  indistinct (sc_UserID claims) w1 w2 ->
  (handleDashboard paths claims w1).1 = (handleDashboard paths claims w2).1 /\
  (handleJobStatus paths claims id w1).1 = (handleJobStatus paths claims id w2).1 /\
  (handleJobConfirm paths claims id w1).1 = (handleJobConfirm paths claims id w2).1 /\
  (handleProviderProvision paths claims w1).1 = (handleProviderProvision paths claims w2).1 /\
  (handleOptOutPage paths collate claims w1).1 = (handleOptOutPage paths collate claims w2).1 /\
  (handleGetOptOut collate claims id w1).1 = (handleGetOptOut collate claims id w2).1 /\
  (forall cancelled, stream_read claims id cancelled w1 = stream_read claims id cancelled w2).
Proof.
  intros Hw. split_and!; [..|intros [|]; [done|unfold stream_read]].
  - apply (unaware_hbind (sc_UserID claims)); [|intros ?; apply unaware_hret|done].
    by apply unaware_or_reject, unaware_dashboard.
  - eapply (unaware_answer (sc_UserID claims)); [|done]. unfold handleJobStatus. unaware_page. by eapply read_job.
  - eapply (unaware_answer (sc_UserID claims)); [|done]. unfold handleJobConfirm. unaware_page.
    by erewrite read_hosted_job by done.
  - eapply (unaware_answer (sc_UserID claims)); [|done]. unfold handleProviderProvision. cbv zeta. unaware_page;
      eauto using read_first_node, read_profiles, sv_participant. by erewrite read_uptimes by done.
  - eapply (unaware_answer (sc_UserID claims)); [|done]. unfold handleOptOutPage. unaware_page. by eapply read_opt_out.
  - by apply unaware_get_opt_out.
  - eapply (unaware_answer (sc_UserID claims)); [|done]. apply unaware_query_row. intros ??? Hview.
    by erewrite read_job by done.
Qed.

(** ** The marketplace *)

(** The best of a list under a comparison that is a weak order on the values. *)
Section Best.
Context (P : float64 -> Prop) (better : float64 -> float64 -> bool).
Context (better_asym : forall x y, P x -> P y -> better x y = true -> better y x = false).
Context (better_trans : forall x y z, P x -> P y -> P z ->
  better x y = false -> better y z = false -> better x z = false).

Definition best (r0 : float64) (l : list NodeListing) : float64 :=
  foldl (fun m n => if better (li_EstHrRate n) m then li_EstHrRate n else m) r0 l.

Lemma best_attained r0 l : best r0 l = r0 \/ exists n, n ∈ l /\ best r0 l = li_EstHrRate n.
Proof.
  revert r0. induction l as [|n l IH]; intros r0; [by left|]. simpl. case_match.
  - right. destruct (IH (li_EstHrRate n)) as [Hb|(n' & Hin & Hb)]; [exists n|exists n'];
      (split; [by constructor|exact Hb]).
  - destruct (IH r0) as [Hb|(n' & Hin & Hb)]; [by left|right; exists n'; split; [by constructor|exact Hb]].
Qed.

Lemma best_bound r0 l : P r0 -> (forall n, n ∈ l -> P (li_EstHrRate n)) ->
  P (best r0 l) /\ better r0 (best r0 l) = false /\
  forall n, n ∈ l -> better (li_EstHrRate n) (best r0 l) = false.
Proof.
  revert r0. induction l as [|n l IH]; intros r0 H0 Hl; simpl.
  - split; [done|]. split; [|by intros n ?%not_elem_of_nil].
    destruct (better r0 r0) eqn:Hb; [|done]. by rewrite <- (better_asym r0 r0 H0 H0 Hb), Hb.
  - assert (Hn : P (li_EstHrRate n)) by (apply Hl; by constructor).
    assert (Hl' : forall n', n' ∈ l -> P (li_EstHrRate n')) by (intros; apply Hl; by constructor).
    destruct (better (li_EstHrRate n) r0) eqn:Hb.
    + destruct (IH (li_EstHrRate n) Hn Hl') as (Hp & Hm & Hall). split; [done|]. split.
      * eapply better_trans; [..|exact Hm]; try done. by apply better_asym.
      * intros n' [->|Hin]%elem_of_cons; auto.
    + destruct (IH r0 H0 Hl') as (Hp & Hm & Hall). split; [done|]. split; [done|].
      intros n' [->|Hin]%elem_of_cons; [|auto]. eapply better_trans; [..|exact Hm]; done.
Qed.
End Best.

Definition a_number (x : float64) : Prop := is_nan x = false.

Lemma lt_asym x y : a_number x -> a_number y -> f64_lt x y = true -> f64_lt y x = false.
Proof.
  intros Hx Hy Hlt. apply f64_lt_key in Hlt; [|done..]. apply not_true_iff_false. rewrite f64_lt_key by done.
  unfold key_lt in *. destruct (f64_key x) as [[??]?], (f64_key y) as [[??]?]. lia.
Qed.
Lemma lt_neg_trans x y z : a_number x -> a_number y -> a_number z ->
  f64_lt x y = false -> f64_lt y z = false -> f64_lt x z = false.
Proof.
  intros Hx Hy Hz. rewrite <- !not_true_iff_false, !f64_lt_key by done. unfold key_lt.
  destruct (f64_key x) as [[??]?], (f64_key y) as [[??]?], (f64_key z) as [[??]?]. lia.
Qed.

(** ** Groups *)

Definition of_class (class : string) (listings : list (string * NodeListing)) : list NodeListing :=
  snd <$> filter (fun x => x.1 = class) listings.

Lemma of_class_snoc class ls x :
  of_class class (ls ++ [x]) = of_class class ls ++ (if decide (x.1 = class) then [x.2] else []).
Proof.
  unfold of_class. rewrite filter_app, fmap_app. f_equal. rewrite filter_cons, filter_nil. by case_decide.
Qed.

Lemma add_listings ls :
  let '(classMap, classOrder) := foldl add_listing (∅, []) ls in
  (forall c, classMap !! c = match of_class c ls with [] => None | l => Some l end) /\
  (forall c, c ∈ classOrder <-> is_Some (classMap !! c)) /\ NoDup classOrder.
Proof.
  induction ls as [|[c l] ls IH] using rev_ind.
  - simpl. split; [intros c; by rewrite lookup_empty|]. split; [|constructor].
    intros c. rewrite lookup_empty. split; [by intros ?%not_elem_of_nil|by intros [? ?]].
  - rewrite foldl_app. destruct (foldl add_listing (∅, []) ls) as [m o]. destruct IH as (Hm & Ho & Hnd).
    simpl. split; [|split].
    + intros c'. rewrite of_class_snoc. simpl. destruct (decide (c = c')) as [->|Hc].
      * rewrite lookup_insert_eq, Hm. by destruct (of_class c' ls).
      * rewrite lookup_insert_ne, Hm, app_nil_r by done. done.
    + intros c'. destruct (decide (c = c')) as [->|Hc].
      * rewrite lookup_insert_eq. split; [by eexists|intros _]. destruct (m !! c') eqn:He.
        -- apply Ho. eauto.
        -- apply elem_of_app. right. by constructor.
      * rewrite lookup_insert_ne by done. rewrite <- Ho. destruct (m !! c); [done|].
        rewrite elem_of_app, list_elem_of_singleton. naive_solver.
    + destruct (m !! c) eqn:He; [done|]. apply NoDup_app. split; [done|]. split.
      * intros x Hx ->%list_elem_of_singleton. apply Ho in Hx. rewrite He in Hx. by destruct Hx.
      * apply NoDup_singleton.
Qed.

(** The groups of a list of offers: one per class, with the offers of the class
    in their order and the extremes of their rates. *)
Definition grouped (listings : list (string * NodeListing)) (groups : list ClassGroup) : Prop :=
  NoDup (cg_Class <$> groups) /\
  (forall x, x ∈ listings -> x.1 ∈ cg_Class <$> groups) /\
  (forall g, g ∈ groups -> cg_Nodes g = of_class (cg_Class g) listings /\ cg_ClassName g = class_name (cg_Class g) /\
     (exists l, l ∈ cg_Nodes g /\ cg_MinRate g = li_EstHrRate l) /\
     (exists l, l ∈ cg_Nodes g /\ cg_MaxRate g = li_EstHrRate l) /\
     ((forall l, l ∈ cg_Nodes g -> a_number (li_EstHrRate l)) -> forall l, l ∈ cg_Nodes g ->
        f64_lt (li_EstHrRate l) (cg_MinRate g) = false /\ f64_lt (cg_MaxRate g) (li_EstHrRate l) = false)).

Lemma class_group_inv m c g : class_group m c = Some g -> cg_Class g = c /\ cg_ClassName g = class_name c /\
  exists l0 l, default [] (m !! c) = l0 :: l /\ cg_Nodes g = l0 :: l /\
    cg_MinRate g = best f64_lt (li_EstHrRate l0) l /\
    cg_MaxRate g = best (fun x y => f64_lt y x) (li_EstHrRate l0) l.
Proof.
  unfold class_group. destruct (default [] (m !! c)) as [|l0 l] eqn:Hd; [done|]. intros [= <-]. simpl.
  split; [done|]. split; [done|]. by exists l0, l.
Qed.

Lemma class_groups_grouped listings : exists groups, class_groups listings = Some groups /\ grouped listings groups.
Proof.
  unfold class_groups. pose proof (add_listings listings) as Hinv.
  destruct (foldl add_listing (∅, []) listings) as [m o]. destruct Hinv as (Hm & Ho & Hnd).
  assert (Hd : forall c, default [] (m !! c) = of_class c listings).
  { intros c. rewrite Hm. by destruct (of_class c listings). }
  destruct (mapM (class_group m) o) as [groups|] eqn:Hg.
  2: { apply mapM_None_1, Exists_exists in Hg as (c & [l Hc]%Ho & Hnone). exfalso. revert Hnone.
       unfold class_group. rewrite Hc. rewrite Hm in Hc. simpl. by destruct (of_class c listings); simplify_eq. }
  exists groups. split; [done|]. apply mapM_Some_1 in Hg.
  assert (Hcl : cg_Class <$> groups = o).
  { clear -Hg. induction Hg as [|c g o gs Hc Hg IH]; [done|]. simpl. apply class_group_inv in Hc as [-> _]. f_equal. exact IH. }
  split; [by rewrite Hcl|]. split.
  - intros x Hx. rewrite Hcl. apply Ho. rewrite Hm.
    assert (Hin : x.2 ∈ of_class x.1 listings) by (by apply list_elem_of_fmap_2, list_elem_of_filter).
    destruct (of_class x.1 listings); [by apply not_elem_of_nil in Hin|eauto].
  - intros g Hin. apply list_elem_of_lookup in Hin as [i Hi].
    destruct (Forall2_lookup_r _ _ _ _ _ Hg Hi) as (c & _ & Hc).
    apply class_group_inv in Hc as (-> & -> & l0 & l & Hn & -> & Hmin & Hmax). rewrite Hmin, Hmax.
    split; [by rewrite <- Hn, Hd|]. split; [done|]. split; [|split].
    + destruct (best_attained f64_lt (li_EstHrRate l0) l) as [->|(n & Hn' & ->)]; eexists; (split; [|done]); by constructor.
    + destruct (best_attained (fun x y => f64_lt y x) (li_EstHrRate l0) l) as [->|(n & Hn' & ->)]; eexists; (split; [|done]);
        by constructor.
    + intros Hnum.
      assert (H0 : a_number (li_EstHrRate l0)) by (apply Hnum; by constructor).
      assert (Hl : forall n, n ∈ l -> a_number (li_EstHrRate n)) by (intros; apply Hnum; by constructor).
      destruct (best_bound a_number f64_lt lt_asym lt_neg_trans _ l H0 Hl) as (_ & Hmin0 & Hminl).
      destruct (best_bound a_number (fun x y => f64_lt y x)) with (r0 := li_EstHrRate l0) (l := l)
        as (_ & Hmax0 & Hmaxl); eauto using lt_asym, lt_neg_trans.
      intros n [->|Hin]%elem_of_cons; auto.
Qed.

Lemma query_scan_calm {A} (f : Z -> DB -> option A) w : calm w ->
  query_scan f w = (match f (w_now w) (w_db w) with Some a => Ok a | None => Err ErrScan end, w).
Proof.
  intros Hc. unfold query_scan. rewrite stmt_calm by done. destruct Hc as [_ Hn]. unfold run_stmt. rewrite Hn.
  destruct (f _ _); [|done]. by destruct w.
Qed.

(** The numbers of a node's hardware profile that the page asks for. *)
Definition has_numbers (n : NodeRow) : Prop := is_Some (hw_cpu_cores n) /\ is_Some (hw_ram_gb n).

Section Marketplace.
Context `{MapOrder} (collate : string -> string -> bool).

Lemma market_rows_elem d id n : (id, n) ∈ market_rows collate d <-> nodes d !! id = Some n /\ market_ready n = true.
Proof.
  unfold market_rows. rewrite <- isort_perm, map_range_perm, elem_of_map_to_list. by rewrite map_lookup_filter_Some.
Qed.

Lemma market_rows_ids d : NoDup (market_rows collate d).*1.
Proof. unfold market_rows. rewrite <- isort_perm, map_range_perm. apply NoDup_fst_map_to_list. Qed.

Lemma listing_some rates d id n : is_Some (listing rates d (id, n)) <-> has_numbers n.
Proof.
  unfold listing, has_numbers. destruct (hw_cpu_cores n), (hw_ram_gb n); simpl; split;
    intros Hs; try destruct Hs as [??]; try done; eauto.
Qed.

(** The page answers if and only if every listed node has its numbers. *)
Lemma listings_some rates d :
  is_Some (mapM (listing rates d) (market_rows collate d)) <->
  forall id n, nodes d !! id = Some n -> market_ready n = true -> has_numbers n.
Proof.
  rewrite mapM_is_Some, Forall_forall. split.
  - intros Hall id n Hn Hr. by eapply (listing_some rates d id), Hall, market_rows_elem.
  - intros Hall [id n] [Hn Hr]%market_rows_elem. by eapply listing_some, Hall.
Qed.

Context `{TemplateEngine} (paths : list string) (claims : SessionClaims).

Lemma marketplace_calm w : calm w ->
  handleConsumerMarketplace paths collate claims w =
    (Ok (let rates := (collect_rates (current_rates (w_now w) (w_db w))).1 in
         match mapM (listing rates (w_db w)) (market_rows collate (w_db w)) with
         | None => Err StatusInternalServerError
         | Some listings => Ok (groups ← class_groups listings;
             Some (renderTemplate paths "consumer_marketplace.html"
               (mkMarketplace (sc_Email claims) groups (rate rates "cpu_core_hr") (rate rates "ram_gb_hr"))))
         end), w).
Proof.
  intros Hc. unfold handleConsumerMarketplace. cbv zeta.
  erewrite hbind_ok by (unfold or_500; erewrite or_reject_ok by (by apply query_calm); reflexivity).
  unfold mbind, H_bind, or_500, or_reject. rewrite query_scan_calm by done. by destruct (mapM _ _).
Qed.

Lemma listed_ids rates d listings : mapM (listing rates d) (market_rows collate d) = Some listings ->
  (fun x => li_ID x.2) <$> listings = (market_rows collate d).*1.
Proof.
  intros Hl%mapM_Some_1. induction Hl as [|[id n] x rows ls Hx Hl IH]; [done|]. csimpl. rewrite IH. f_equal.
  unfold listing in Hx. destruct (hw_cpu_cores n), (hw_ram_gb n); simplify_eq/=. done.
Qed.

Lemma listed_elem rates d listings x : mapM (listing rates d) (market_rows collate d) = Some listings ->
  x ∈ listings <-> exists id n, nodes d !! id = Some n /\ market_ready n = true /\ listing rates d (id, n) = Some x.
Proof.
  intros Hl%mapM_Some_1. split.
  - intros [i Hi]%list_elem_of_lookup. destruct (Forall2_lookup_r _ _ _ _ _ Hl Hi) as ([id n] & Hr & Hx).
    apply list_elem_of_lookup_2, market_rows_elem in Hr as [??]. eauto.
  - intros (id & n & Hn & Hr & Hx). assert (Hin : (id, n) ∈ market_rows collate d) by by apply market_rows_elem.
    apply list_elem_of_lookup in Hin as [i Hi]. destruct (Forall2_lookup_l _ _ _ _ _ Hl Hi) as (y & Hy & Hxy).
    simplify_eq. by apply list_elem_of_lookup_2 in Hy.
Qed.

End Marketplace.

Lemma of_class_elem c ls l : l ∈ of_class c ls <-> (c, l) ∈ ls.
Proof.
  unfold of_class. rewrite list_elem_of_fmap. setoid_rewrite list_elem_of_filter. split.
  - intros ([c' l'] & -> & <- & Hin). done.
  - intros Hin. by exists (c, l).
Qed.

(** The marketplace lists exactly the nodes that are online and keep the uptime of
    their class, each in the one group of its class, with the resources of its
    hardware profile cut by its default resource profile and the rate that the
    current prices give; the extremes shown for a class are rates of the group, and
    no rate of the group lies outside them.  The page never panics.  It is refused
    to everybody, with 500, as soon as one such node has a hardware profile without
    the keys the query asks for. *)
Theorem marketplace_exact `{TemplateEngine} `{MapOrder} paths collate claims w : calm w ->
  let d := w_db w in
  let rates := (collect_rates (current_rates (w_now w) d)).1 in
  (forall id n, nodes d !! id = Some n -> market_ready n = true -> ~ has_numbers n ->
     handleConsumerMarketplace paths collate claims w = (Ok (Err StatusInternalServerError), w)) /\
  ((forall id n, nodes d !! id = Some n -> market_ready n = true -> has_numbers n) ->
   exists groups,
     handleConsumerMarketplace paths collate claims w = (Ok (Ok (Some (renderTemplate paths
       "consumer_marketplace.html" (mkMarketplace (sc_Email claims) groups (rate rates "cpu_core_hr")
         (rate rates "ram_gb_hr"))))), w) /\
     NoDup (cg_Class <$> groups) /\
     (forall id n, nodes d !! id = Some n -> market_ready n = true ->
        exists g l, g ∈ groups /\ l ∈ cg_Nodes g /\ li_ID l = id) /\
     (forall g l, g ∈ groups -> l ∈ cg_Nodes g -> exists n, nodes d !! li_ID l = Some n /\
        market_ready n = true /\ listing rates d (li_ID l, n) = Some (cg_Class g, l)) /\
     (forall g, g ∈ groups -> NoDup (li_ID <$> cg_Nodes g) /\
        (exists l, l ∈ cg_Nodes g /\ cg_MinRate g = li_EstHrRate l) /\
        (exists l, l ∈ cg_Nodes g /\ cg_MaxRate g = li_EstHrRate l) /\
        ((forall l, l ∈ cg_Nodes g -> a_number (li_EstHrRate l)) -> forall l, l ∈ cg_Nodes g ->
          f64_lt (li_EstHrRate l) (cg_MinRate g) = false /\ f64_lt (cg_MaxRate g) (li_EstHrRate l) = false))).
Proof.
  intros Hc d rates. rewrite (marketplace_calm _ _ _ _ Hc). cbv zeta. fold d rates. split.
  - intros id n Hn Hr Hno. destruct (mapM _ _) as [ls|] eqn:Hls; [|done]. exfalso. apply Hno.
    eapply (proj1 (listings_some collate rates d)); eauto.
  - intros Hall. apply (listings_some collate rates d) in Hall as [ls Hls]. rewrite Hls.
    destruct (class_groups_grouped ls) as (groups & -> & Hnd & Hcov & Hg). exists groups. split; [done|].
    split; [done|]. split_and!.
    + intros id n Hn Hr. destruct (proj1 (listings_some collate rates d) (ex_intro _ _ Hls) id n Hn Hr) as [Hcpu Hram].
      destruct (proj2 (listing_some rates d id n) (conj Hcpu Hram)) as [[c l] Hl].
      assert (Hin : (c, l) ∈ ls) by (apply (listed_elem collate _ _ _ _ Hls); eauto).
      pose proof (Hcov _ Hin) as Hcls. apply list_elem_of_fmap in Hcls as (g & Hcg & Hgin). exists g, l.
      split; [done|]. split; [|by unfold listing in Hl; destruct (hw_cpu_cores n), (hw_ram_gb n); simplify_eq/=].
      destruct (Hg g Hgin) as (-> & _). apply of_class_elem. by rewrite <- Hcg.
    + intros g l Hgin Hl. destruct (Hg g Hgin) as (Hnodes & _). rewrite Hnodes in Hl. apply of_class_elem in Hl.
      apply (listed_elem collate _ _ _ _ Hls) in Hl as (id & n & Hn & Hr & Hl). exists n.
      assert (li_ID l = id) as ->; [|done].
      unfold listing in Hl. destruct (hw_cpu_cores n), (hw_ram_gb n); simplify_eq/=. done.
    + intros g Hgin. destruct (Hg g Hgin) as (Hnodes & _ & Hmin & Hmax & Hb). split; [|done].
      pose proof (market_rows_ids collate d) as Hids. rewrite <- (listed_ids collate _ _ _ Hls) in Hids.
      rewrite Hnodes. unfold of_class. rewrite <- list_fmap_compose.
      eapply sublist_NoDup; [exact Hids|]. apply (fmap_sublist (fun x : string * NodeListing => li_ID x.2)).
      apply sublist_filter.
Qed.

(** Registration stores other keys than the marketplace reads. *)
Lemma registered_row_unreadable now p class host country region hw : class ∈ node_classes ->
  market_ready (new_node_row now p class host country region (hw_json hw)) = true /\
  ~ has_numbers (new_node_row now p class host country region (hw_json hw)).
Proof.
  intros Hc. split; [|by intros [[? ?] _]]. unfold market_ready, new_node_row. cbn [n_status n_node_class n_uptime_pct].
  rewrite bool_decide_eq_true_2 by done.
  repeat (apply elem_of_cons in Hc as [->|Hc]; [vm_compute; reflexivity|]). by apply not_elem_of_nil in Hc.
Qed.

(** The first node that registers takes the marketplace down. *)
Lemma registration_breaks_marketplace `{TemplateEngine} `{MapOrder} paths collate claims id p class host country
    region hw w w' :
  calm w -> nodes (w_db w) !! id = None ->
  sql_upsert_node id p class host country region (hw_json hw) w = (Ok id, w') ->
  handleConsumerMarketplace paths collate claims w' = (Ok (Err StatusInternalServerError), w').
Proof.
  intros Hc Hn Hr. pose proof Hc as [He Ht].
  unfold sql_upsert_node in Hr. rewrite stmt_calm in Hr by done. unfold run_stmt in Hr. rewrite Hn in Hr.
  case_bool_decide as Hcls; simpl in Hr; [|done]. destruct (hostname_taken _ _ _); [done|].
  case_bool_decide; [|done]. injection Hr as <-.
  set (row := new_node_row _ _ _ _ _ _ _).
  destruct (registered_row_unreadable (sql_now w) p class host country region hw Hcls) as [Hready Hno].
  rewrite marketplace_calm by done. cbv zeta. destruct (mapM _ _) eqn:Hm; [|done].
  exfalso. apply Hno. eapply (proj1 (listings_some collate _ _)); [by rewrite Hm|apply lookup_insert_eq|done].
Qed.

(** ** The stream of a job's states *)

(** The ticks of a ticker started at [start]: the i-th is received no sooner than
    i periods later, and what is written for it is written after that. *)
Definition ticking (start : Z) (env : nat -> Wake) : Prop := forall i,
  start + (Z.of_nat i + 1) * streamPeriod <= wk_tick (env i) /\ wk_tick (env i) <= wk_write (env i).

(** An event says what the statement of its passage read. *)
Definition event_of (r : result Error (job_status * string)) : StreamEvent :=
  match r with Ok (s, n) => SentStatus s n | Err _ => SentNotFound end.

Section Stream.
Context (claims : SessionClaims) (jobID : string) (deadline : Z).
Notation stream := (handleJobStatusStream claims jobID deadline).
Notation reads k := (stream_read claims jobID false (wk_world k)).

Lemma stream_step n env c : stream (S n) env c =
  let sent := delivered_at deadline c (wk_write (env 0%nat)) in
  if wk_done (env 0%nat) then Some []
  else match stream_read claims jobID c (wk_world (env 0%nat)) with
  | Err _ => Some (if sent then [SentNotFound] else [])
  | Ok (s, nid) =>
      if bool_decide (s = completed) || bool_decide (s = failed)
      then Some (if sent then [SentStatus s nid] else [])
      else rest ← stream n (fun i => env (S i)) (c || negb sent);
           Some ((if sent then [SentStatus s nid] else []) ++ rest)
  end.
Proof. reflexivity. Qed.

(** After the write that misses the deadline one more passage ends the loop. *)
Lemma cancelled_ends n env : stream (S n) env true = Some [].
Proof. simpl. by destruct (wk_done (env 0%nat)). Qed.

(** The events that end the stream. *)
Definition final (e : StreamEvent) : bool :=
  match e with
  | SentNotFound => true
  | SentStatus s _ => bool_decide (s = completed) || bool_decide (s = failed)
  end.

(** The events of a stream are those of its passages, in order; one that is final
    is the last; and the event of a passage that is reached, with the client still
    there and the deadline still ahead, is sent. *)
Definition faithful (env : nat -> Wake) (evs : list StreamEvent) : Prop :=
  (forall i e, evs !! i = Some e -> e = event_of (reads (env i)) /\ (final e = true -> length evs = S i)) /\
  (forall i, (forall k, (k <= i)%nat -> wk_done (env k) = false /\ wk_write (env k) <= deadline) ->
     (forall k, (k < i)%nat -> final (event_of (reads (env k))) = false) ->
     evs !! i = Some (event_of (reads (env i)))).

Lemma faithful_nil env : wk_done (env 0%nat) = true \/ deadline < wk_write (env 0%nat) -> faithful env [].
Proof.
  intros Hend. split; [done|]. intros i Hall _. destruct (Hall 0%nat) as [Hd Hw]; [lia|].
  destruct Hend; [congruence|lia].
Qed.

Lemma faithful_last env : final (event_of (reads (env 0%nat))) = true -> faithful env [event_of (reads (env 0%nat))].
Proof.
  intros Hf. split.
  - intros [|i] e He; simplify_eq/=; done.
  - intros [|i] _ Hk; [done|]. rewrite (Hk 0%nat) in Hf by lia. done.
Qed.

Lemma faithful_cons env evs : final (event_of (reads (env 0%nat))) = false -> faithful (fun i => env (S i)) evs ->
  faithful env (event_of (reads (env 0%nat)) :: evs).
Proof.
  intros Hf [Hev Hall]. split.
  - intros [|i] e He; simplify_eq/=; [split; [done|congruence]|].
    destruct (Hev i e He) as [-> Hl]. split; [done|]. intros Hfin. by rewrite (Hl Hfin).
  - intros [|i] Hd Hk; [done|]. simpl. apply Hall; intros k Hki; [apply Hd|apply Hk]; lia.
Qed.

(** [k] more passages can write before the deadline. *)
Lemma stream_ends k start n env : ticking start env -> deadline < start + (Z.of_nat k + 1) * streamPeriod ->
  exists evs, stream (S (S (k + n))) env false = Some evs /\ (length evs <= k)%nat /\ faithful env evs.
Proof.
  revert start env. induction k as [|k IH]; intros start env Ht Hdl; rewrite stream_step; cbv zeta.
  all: destruct (wk_done (env 0%nat)) eqn:Hd; [exists []; split_and!; [done|simpl; lia|apply faithful_nil; auto]|].
  all: destruct (Ht 0%nat) as [Htick Hwrite]; unfold delivered_at; cbn [negb andb].
  - assert (Hlate : deadline < wk_write (env 0%nat)) by (simpl in *; lia).
    rewrite (proj2 (Z.leb_gt _ _) Hlate). exists [].
    split; [|split; [done|apply faithful_nil; auto]].
    destruct (stream_read _ _ _ _) as [[s nid]|]; [|done]. destruct (_ || _); [done|].
    cbn [negb orb]. by rewrite cancelled_ends.
  - destruct (Z.leb_spec (wk_write (env 0%nat)) deadline) as [Hin|Hlate].
    + destruct (stream_read claims jobID false (wk_world (env 0%nat))) as [[s nid]|e] eqn:Hr.
      * destruct (bool_decide (s = completed) || bool_decide (s = failed)) eqn:Hfin.
        -- exists [event_of (reads (env 0%nat))]. rewrite Hr. split; [done|]. split; [simpl; lia|].
           rewrite <- Hr. apply faithful_last. by rewrite Hr.
        -- destruct (IH (start + streamPeriod) (fun i => env (S i))) as (evs & Hevs & Hlen & Hf).
           ++ intros i. destruct (Ht (S i)) as [??]. split; [|done]. lia.
           ++ lia.
           ++ exists (event_of (reads (env 0%nat)) :: evs). cbn [negb orb].
              change (S (S k + n)) with (S (S (k + n))). rewrite Hevs, Hr. split; [done|]. split; [simpl; lia|].
              rewrite <- Hr. apply faithful_cons; [|done]. by rewrite Hr.
      * exists [event_of (reads (env 0%nat))]. rewrite Hr. split; [done|]. split; [simpl; lia|].
        rewrite <- Hr. apply faithful_last. by rewrite Hr.
    + exists []. split; [|split; [simpl; lia|apply faithful_nil; auto]].
      destruct (stream_read _ _ _ _) as [[s nid]|]; [|done]. destruct (_ || _); [done|].
      cbn [negb orb]. by rewrite cancelled_ends.
Qed.
End Stream.

(** C31 The stream of a job's states ends.  The handler loops until the client leaves,
    the job is completed or failed, or its statement finds no job of the member;
    nothing else in the loop ends it.  It returns all the same, after at most nine
    passages and seven events, because the server allows fifteen seconds for a
    response and the ticker fires every two: the write after the deadline fails
    and cancels the context of the request.  Until then each event says what was
    read at its tick, an event that ends the stream is the last, and no event of a
    passage that is reached is lost. *)
Theorem job_stream_ends claims jobID received start env fuel :
  received <= start -> ticking start env -> (9 <= fuel)%nat ->
  exists evs, handleJobStatusStream claims jobID (received + WriteTimeout) fuel env false = Some evs /\
    (length evs <= 7)%nat /\ faithful claims jobID (received + WriteTimeout) env evs.
Proof.
  intros Hr Ht Hfuel. replace fuel with (S (S (7 + (fuel - 9)))) by lia.
  eapply stream_ends; [exact Ht|]. unfold WriteTimeout, streamPeriod, Second. lia.
Qed.

(** ** Concrete pages *)

Definition sample_columns : Columns := {|
  job_created_at := fun _ => 0; node_created_at := fun _ => 0; metering_computed_at := fun _ => 0;
  token_created_at := fun _ => 0; dispute_created_at := fun _ => 0; profile_created_at := fun _ => 0;
  profile_gpu_pct := fun _ => 0 |}.
Definition member_paths : list string := ["layout.html"; "dashboard.html"; "consumer_marketplace.html"].
Definition owner_claims : SessionClaims := mkClaims "owner" "owner@example.org" 1700000900.

Definition job_on (node : string) (x : job_status) : JobRow :=
  (insert_job_row sample_now (mkNewJob "consumer" node MarketplaceBatchCompute (Some "US") 4 0 0 false sample_image))
    <| j_status := x |>.

(** The sample with another member's node and job. *)
Definition crowded_db : DB := sample_db
  <| nodes := <["n2" := sample_node_row <| n_participant_id := "other" |>]> (nodes sample_db) |>
  <| jobs := {[ "secret" := job_on "n2" running ]} |>.

Lemma crowded_view : same_view "owner" sample_db crowded_db.
Proof.
  split; try reflexivity; intros; reflexivity.
Qed.

Lemma member_pages_private_witness :
  let page d := (handleDashboard (H0 := sample_engine) (H1 := default_order) (H2 := sample_avg)
    (H3 := sample_columns) member_paths owner_claims (sample_world_with d [])).1 in
  is_ok (page sample_db) = true /\ page sample_db = page crowded_db.
Proof.
  cbv zeta. split; [vm_compute; reflexivity|].
  apply (@member_pages_private sample_engine default_order sample_avg sample_columns member_paths String.ltb
    owner_claims "secret" (sample_world_with sample_db []) (sample_world_with crowded_db [])).
  split; [exact crowded_view|reflexivity|reflexivity|reflexivity|constructor].
Defined.

(** A node whose hardware profile has the keys of the query. *)
Definition listed_node : NodeRow :=
  sample_node_row <| n_hardware_profile := {[ "CPUCores" := JNum 8; "RAMMB" := JNum 16384 ]} |>.

Lemma marketplace_exact_witness :
  let w := sample_world_with (sample_db <| nodes := {[ "n1" := listed_node ]} |>) [] in
  exists groups g l, handleConsumerMarketplace (H0 := sample_engine) (H1 := default_order) member_paths String.ltb
      owner_claims w = (Ok (Ok (Some (Page ["layout.html"; "consumer_marketplace.html"] "consumer_marketplace.html"
        (mkMarketplace "owner@example.org" groups f64_zero f64_zero)))), w) /\
    g ∈ groups /\ l ∈ cg_Nodes g /\ li_ID l = "n1".
Proof.
  cbv zeta. set (w := sample_world_with _ []).
  destruct (@marketplace_exact sample_engine default_order member_paths String.ltb owner_claims w) as [_ Hok].
  { split; reflexivity. }
  destruct Hok as (groups & Hp & _ & Hall & _).
  - intros id n Hn Hr. unfold w in Hn. simpl in Hn. apply lookup_singleton_Some in Hn as [<- <-].
    split; vm_compute; eauto.
  - destruct (Hall "n1" listed_node) as (g & l & Hin & Hl & Hid); [reflexivity|vm_compute; reflexivity|].
    exists groups, g, l. exact (conj Hp (conj Hin (conj Hl Hid))).
Defined.

(** A job that is delivered keeps its stream running until the server cuts it. *)
Definition delivered_env (i : nat) : Wake :=
  mkWake false ((Z.of_nat i + 1) * streamPeriod)
    (sample_world_with (sample_db <| jobs := {[ "job" := job_on "n1" delivered ]} |>) [])
    ((Z.of_nat i + 1) * streamPeriod).

Lemma delivered_ticks : ticking 0 delivered_env.
Proof. intros i. cbn. lia. Qed.

Lemma job_stream_ends_witness :
  let claims := mkClaims "consumer" "consumer@example.org" 0 in
  handleJobStatusStream claims "job" WriteTimeout 9 delivered_env false =
    Some (replicate 7 (SentStatus delivered "n1")) /\
  exists evs, handleJobStatusStream claims "job" (0 + WriteTimeout) 9 delivered_env false = Some evs /\
    (length evs <= 7)%nat /\ faithful claims "job" (0 + WriteTimeout) delivered_env evs.
Proof.
  cbv zeta. split; [vm_compute; reflexivity|].
  apply (job_stream_ends (mkClaims "consumer" "consumer@example.org" 0) "job" 0 0 delivered_env 9);
    [lia|exact delivered_ticks|lia].
Defined.
