(* ===== verification/Mux.v ===== *)
(** [http.ServeMux] as the program uses it: patterns with an optional method and
    with literal, single-segment ([{id}]), trailing-slash and [{$}] segments; the
    search for the handler of a request; the redirects to a clean path; and the
    conflicts between patterns for which registration panics.

    A path is the list of its segments, and the slash a path ends with is a
    segment of its own, so that [{$}] is the literal "/". *)
From Stdlib Require Import Ascii.
From S2P Require Import Prelude Encoding.
Local Open Scope string_scope.
Local Open Scope list_scope.
Local Open Scope Z_scope.

(** ** Patterns *)

Inductive Seg := SLit (s : string) | SWild | SMulti.
Record Pattern := mkPattern { pt_method : string; pt_segs : list Seg }.

#[export] Instance Seg_eq_dec : EqDecision Seg.
Proof. solve_decision. Defined.

(** [parsePattern]: what follows a slash up to the next. *)
Definition parse_seg (s : string) : Seg :=
  if bool_decide (s = "{$}") then SLit "/"
  else if String.prefix "{" s then SWild
  else SLit s.
Fixpoint parse_segs (parts : list string) : list Seg :=
  match parts with
  | [] => []
  | [""] => [SMulti]
  | p :: parts' => parse_seg p :: parse_segs parts'
  end.
Definition pattern (s : string) : Pattern :=
  let '(method, path) := default ("", s) (cut " " s) in
  mkPattern method (parse_segs (tail (Split "/" path))).

(** ** Paths *)

Definition hex_of (a : ascii) : option Z :=
  let n := byte_of a in
  if (48 <=? n) && (n <=? 57) then Some (n - 48)
  else if (97 <=? n) && (n <=? 102) then Some (n - 87)
  else if (65 <=? n) && (n <=? 70) then Some (n - 55)
  else None.

(** [url.PathUnescape], whose error leaves the segment as it is. *)
Fixpoint unescape (s : string) : option string :=
  match s with
  | "" => Some ""
  | String.String a s' =>
      if Ascii.eqb a "%" then
        match s' with
        | String.String b (String.String c s'') =>
            x ← hex_of b; y ← hex_of c; rest ← unescape s'';
            Some (String.String (ascii_of (16 * x + y)) rest)
        | _ => None
        end
      else rest ← unescape s'; Some (String.String a rest)
  end.
Definition pathUnescape (s : string) : string := default s (unescape s).

(** The segments of a path that starts with a slash. *)
Fixpoint segments (parts : list string) : list string :=
  match parts with
  | [] => []
  | [""] => ["/"]
  | p :: parts' => pathUnescape p :: segments parts'
  end.
Definition path_segs (path : string) : list string := segments (tail (Split "/" path)).

(** [path.Clean] of a rooted path, by its elements. *)
Fixpoint clean_parts (acc parts : list string) : list string :=
  match parts with
  | [] => reverse acc
  | p :: parts' =>
      if bool_decide (p = "") || bool_decide (p = ".") then clean_parts acc parts'
      else if bool_decide (p = "..") then clean_parts (tail acc) parts'
      else clean_parts (p :: acc) parts'
  end.
Definition ends_with_slash (p : string) : bool :=
  match string_rev p with String.String a _ => Ascii.eqb a "/" | "" => false end.
Definition cleanPath (p : string) : string :=
  let p := if String.prefix "/" p then p else "/" +:+ p in
  match clean_parts [] (Split "/" p) with
  | [] => "/"
  | parts => "/" +:+ join "/" parts +:+ (if ends_with_slash p then "/" else "")
  end.

(** ** The search *)

Section Search.
Context {A : Type}.

(** What is left of the patterns that continue with a segment. *)
Definition after_lit (seg : string) (tbl : list (list Seg * A)) : list (list Seg * A) :=
  omap (fun '(segs, a) => match segs with
    | SLit s :: segs' => if bool_decide (s = seg) then Some (segs', a) else None
    | _ => None end) tbl.
Definition after_wild (tbl : list (list Seg * A)) : list (list Seg * A) :=
  omap (fun '(segs, a) => match segs with SWild :: segs' => Some (segs', a) | _ => None end) tbl.
Definition multi_here (tbl : list (list Seg * A)) : option A :=
  head (omap (fun '(segs, a) => match segs with [SMulti] => Some a | _ => None end) tbl).
Definition ends_here (tbl : list (list Seg * A)) : option A :=
  head (omap (fun '(segs, a) => match segs with [] => Some a | _ => None end) tbl).

(** Literals first, then a wildcard, which does not match a trailing slash, then
    the subtree; the values of the wildcards are returned. *)
Fixpoint matchPath (tbl : list (list Seg * A)) (path : list string) : option (A * list string) :=
  match path with
  | [] => a ← ends_here tbl; Some (a, [])
  | seg :: rest =>
      match matchPath (after_lit seg tbl) rest with
      | Some r => Some r
      | None =>
          match (if bool_decide (seg = "/") then None else matchPath (after_wild tbl) rest) with
          | Some (a, params) => Some (a, seg :: params)
          | None => a ← multi_here tbl; Some (a, [])
          end
      end
  end.

End Search.

Section Tree.
Context {A : Type}.

Definition of_method (m : string) (tbl : list (Pattern * A)) : list (list Seg * (Pattern * A)) :=
  omap (fun '(p, a) => if bool_decide (pt_method p = m) then Some (pt_segs p, (p, a)) else None) tbl.
Definition found (x : option ((Pattern * A) * list string)) : bool := if x then true else false.

(** A pattern for GET also serves HEAD; one without a method comes last. *)
Definition match_tree (tbl : list (Pattern * A)) (method : string) (path : list string) :
    option ((Pattern * A) * list string) :=
  match matchPath (of_method method tbl) path with
  | Some r => Some r
  | None =>
      match (if bool_decide (method = "HEAD") then matchPath (of_method "GET" tbl) path else None) with
      | Some r => Some r
      | None => matchPath (of_method "" tbl) path
      end
  end.

(** Whether a pattern is about the path itself and not about a subtree it is in. *)
Definition exactMatch (x : option ((Pattern * A) * list string)) (path : list string) : bool :=
  match x with
  | None => false
  | Some ((p, _), _) =>
      if bool_decide (last (pt_segs p) = Some SMulti)
      then bool_decide (last path = Some "/") && (length (pt_segs p) =? length path)%nat
      else true
  end.

Inductive Routed :=
| Handled (a : A) (params : list string)
| Moved
| MethodNotAllowed
| NoRoute.

Definition any_method (tbl : list (Pattern * A)) (path : list string) : bool :=
  existsb (fun '(p, a) => found (matchPath [(pt_segs p, (p, a))] path)) tbl.

Definition findHandler (tbl : list (Pattern * A)) (method escapedPath : string) : Routed :=
  let clean := if bool_decide (method = "CONNECT") then escapedPath else cleanPath escapedPath in
  let path := path_segs clean in
  let slashed := path ++ ["/"] in
  let n := match_tree tbl method path in
  if negb (exactMatch n path) && negb (ends_with_slash clean) && negb (bool_decide (clean = "")) &&
     exactMatch (match_tree tbl method slashed) slashed then Moved
  else if negb (bool_decide (clean = escapedPath)) then Moved
  else match n with
  | Some ((_, a), params) => Handled a params
  | None =>
      if any_method tbl path || (negb (ends_with_slash clean) && any_method tbl slashed)
      then MethodNotAllowed else NoRoute
  end.

End Tree.
Arguments Routed A : clear implicits.
Arguments Moved {A}.
Arguments MethodNotAllowed {A}.
Arguments NoRoute {A}.

(** ** What the search finds *)

(** A pattern against a path, by itself. *)
Fixpoint seg_match (segs : list Seg) (path : list string) : option (list string) :=
  match segs, path with
  | [], [] => Some []
  | [SMulti], _ :: _ => Some []
  | SLit s :: segs', p :: path' => if bool_decide (s = p) then seg_match segs' path' else None
  | SWild :: segs', p :: path' =>
      if bool_decide (p = "/") then None else cons p <$> seg_match segs' path'
  | _, _ => None
  end.

Lemma head_omap_Some {A B} (f : A -> option B) l b : head (omap f l) = Some b -> exists a, a ∈ l /\ f a = Some b.
Proof.
  intros Hb. apply (list_elem_of_omap f l b). destruct (omap f l); [done|]. injection Hb as ->. left.
Qed.
Lemma head_omap_None {A B} (f : A -> option B) l a : head (omap f l) = None -> a ∈ l -> f a = None.
Proof.
  intros Hh Ha. destruct (f a) as [b|] eqn:Hf; [|done].
  assert (Hb : b ∈ omap f l) by (apply list_elem_of_omap; eauto).
  destruct (omap f l); [by apply elem_of_nil in Hb|done].
Qed.

(** What is found is in the table, matches the path and gives the values of its
    wildcards. *)
Lemma matchPath_sound {A} (tbl : list (list Seg * A)) path a params :
  matchPath tbl path = Some (a, params) ->
  exists segs, (segs, a) ∈ tbl /\ seg_match segs path = Some params.
Proof.
  revert tbl params. induction path as [|seg rest IH]; intros tbl params; cbn [matchPath].
  - intros (a0 & Ha & [= -> <-])%bind_Some. apply head_omap_Some in Ha as ([segs x] & Hin & Hs).
    destruct segs; [|done]. injection Hs as ->. eauto.
  - destruct (matchPath (after_lit seg tbl) rest) as [r|] eqn:Hl.
    { intros [= ->]. apply IH in Hl as (segs & Hin & Hm).
      apply list_elem_of_omap in Hin as ([[|[s| |] segs0] x] & Hin & Hs); try done.
      case_bool_decide; [|done]. injection Hs as -> ->. exists (SLit s :: segs). split; [done|].
      cbn [seg_match]. by rewrite bool_decide_eq_true_2. }
    destruct (if bool_decide (seg = "/") then None else matchPath (after_wild tbl) rest) as [[x ps]|] eqn:Hw.
    { intros [= -> <-]. case_bool_decide as Hslash; [done|]. apply IH in Hw as (segs & Hin & Hm).
      apply list_elem_of_omap in Hin as ([[|[s| |] segs0] x] & Hin & Hs); try done.
      injection Hs as -> ->. exists (SWild :: segs). split; [done|]. cbn [seg_match].
      rewrite bool_decide_eq_false_2 by done. by rewrite Hm. }
    intros (a0 & Ha & [= -> <-])%bind_Some. apply head_omap_Some in Ha as ([segs x] & Hin & Hs).
    destruct segs as [|[s| |] [|]]; try done. injection Hs as ->. exists [SMulti]. done.
Qed.

(** Nothing is found only if no pattern matches. *)
Lemma matchPath_complete {A} (tbl : list (list Seg * A)) path segs a :
  matchPath tbl path = None -> (segs, a) ∈ tbl -> seg_match segs path = None.
Proof.
  revert tbl segs. induction path as [|seg rest IH]; intros tbl segs; cbn [matchPath].
  - intros Hn Hin. destruct (ends_here tbl) eqn:He; [done|].
    apply (head_omap_None _ _ _ He) in Hin. destruct segs as [|[s| |] [|]]; done.
  - destruct (matchPath (after_lit seg tbl) rest) as [r|] eqn:Hl; [done|].
    destruct (if bool_decide (seg = "/") then None else matchPath (after_wild tbl) rest) as [[x ps]|] eqn:Hw; [done|].
    intros Hn Hin. destruct (multi_here tbl) eqn:Hm; [done|].
    apply (head_omap_None _ _ _ Hm) in Hin as Hmulti. destruct segs as [|[s| |] segs']; [done| | |].
    + cbn [seg_match]. destruct (decide (s = seg)) as [->|]; [|by rewrite bool_decide_eq_false_2].
      rewrite bool_decide_eq_true_2 by done. apply (IH _ _ Hl). apply list_elem_of_omap.
      exists (SLit seg :: segs', a). split; [done|]. by rewrite bool_decide_eq_true_2.
    + cbn [seg_match]. case_bool_decide; [done|]. by rewrite (IH _ _ Hw) by
      (apply list_elem_of_omap; by exists (SWild :: segs', a)).
    + by destruct segs'.
Qed.

(** What a request is given to was registered. *)
Lemma findHandler_registered {A} (tbl : list (Pattern * A)) method path a params :
  findHandler tbl method path = Handled a params ->
  exists p, (p, a) ∈ tbl /\ pt_method p ∈ [method; "GET"; ""] /\ seg_match (pt_segs p) (path_segs path) = Some params.
Proof.
  assert (Hof : forall m path0 r ps, matchPath (of_method m tbl) path0 = Some (r, ps) ->
    exists p, r = (p, r.2) /\ (p, r.2) ∈ tbl /\ pt_method p = m /\ seg_match (pt_segs p) path0 = Some ps).
  { intros m path0 r ps (segs & Hin & Hm)%matchPath_sound.
    apply list_elem_of_omap in Hin as ([p x] & Hin & Hs). case_bool_decide; [|done]. injection Hs as <- <-. eauto. }
  unfold findHandler. generalize (if bool_decide (method = "CONNECT") then path else cleanPath path) as clean.
  intros clean. cbv zeta. destruct (_ && exactMatch _ _); [done|].
  destruct (decide (clean = path)) as [->|]; [|by rewrite bool_decide_eq_false_2].
  rewrite bool_decide_eq_true_2 by done. cbn [negb].
  destruct (match_tree tbl method (path_segs path)) as [[[p0 x] ps]|] eqn:Hn; [|by case_match].
  intros [= -> ->]. unfold match_tree in Hn.
  destruct (matchPath (of_method method tbl) _) as [r|] eqn:H1.
  { injection Hn as ->. apply Hof in H1 as (p & _ & ? & <- & ?). exists p. set_solver. }
  case_bool_decide as Hh.
  - destruct (matchPath (of_method "GET" tbl) _) as [r|] eqn:H2.
    { injection Hn as ->. apply Hof in H2 as (p & _ & ? & Hp & ?). exists p. rewrite Hp. set_solver. }
    apply Hof in Hn as (p & _ & ? & Hp & ?). exists p. rewrite Hp. set_solver.
  - apply Hof in Hn as (p & _ & ? & Hp & ?). exists p. rewrite Hp. set_solver.
Qed.

(** ** Conflicts *)

Inductive Relation := Equivalent | MoreGeneral | MoreSpecific | Disjoint | Overlaps.

#[export] Instance Relation_eq_dec : EqDecision Relation.
Proof. solve_decision. Defined.

Definition inverseRelationship (r : Relation) : Relation :=
  match r with MoreSpecific => MoreGeneral | MoreGeneral => MoreSpecific | r => r end.

Definition combineRelationships (r1 r2 : Relation) : Relation :=
  match r1 with
  | Equivalent => r2
  | Disjoint => Disjoint
  | Overlaps => match r2 with Disjoint => Disjoint | _ => Overlaps end
  | MoreGeneral | MoreSpecific =>
      match r2 with
      | Equivalent => r1
      | Disjoint => Disjoint
      | _ => if bool_decide (r2 = r1) then r1 else Overlaps
      end
  end.

Definition compareMethods (m1 m2 : string) : Relation :=
  if bool_decide (m1 = m2) then Equivalent
  else if bool_decide (m1 = "") then MoreGeneral
  else if bool_decide (m2 = "") then MoreSpecific
  else if bool_decide (m1 = "GET") && bool_decide (m2 = "HEAD") then MoreGeneral
  else if bool_decide (m2 = "GET") && bool_decide (m1 = "HEAD") then MoreSpecific
  else Disjoint.

Definition compareSegments (s1 s2 : Seg) : Relation :=
  match s1, s2 with
  | SMulti, SMulti => Equivalent
  | SMulti, _ => MoreGeneral
  | _, SMulti => MoreSpecific
  | SWild, SWild => Equivalent
  | SWild, SLit s => if bool_decide (s = "/") then Disjoint else MoreGeneral
  | SLit s, SWild => if bool_decide (s = "/") then Disjoint else MoreSpecific
  | SLit s, SLit t => if bool_decide (s = t) then Equivalent else Disjoint
  end.

(** Segment by segment; of patterns of different length the shorter must end in a
    subtree. *)
Fixpoint comparePaths (r : Relation) (l1 l2 : list Seg) : Relation :=
  match l1, l2 with
  | [], [] => r
  | [SMulti], _ :: _ :: _ => combineRelationships r MoreGeneral
  | _ :: _ :: _, [SMulti] => combineRelationships r MoreSpecific
  | s1 :: l1', s2 :: l2' => comparePaths (combineRelationships r (compareSegments s1 s2)) l1' l2'
  | _, _ => Disjoint
  end.

Definition conflictsWith (p q : Pattern) : bool :=
  let r := combineRelationships (compareMethods (pt_method p) (pt_method q))
             (comparePaths Equivalent (pt_segs p) (pt_segs q)) in
  bool_decide (r = Equivalent) || bool_decide (r = Overlaps).

(** [register] panics at the first pattern that conflicts with an earlier one. *)
Fixpoint registers {A} (tbl : list (Pattern * A)) : bool :=
  match tbl with
  | [] => true
  | (p, _) :: tbl' => forallb (fun '(q, _) => negb (conflictsWith p q)) tbl' && registers tbl'
  end.

Example routing :
  let tbl := [(pattern "GET /", 0); (pattern "GET /static/", 1); (pattern "POST /job/{id}", 2);
              (pattern "GET /job/{id}/log", 3); (pattern "GET /{$}", 4)] in
  (findHandler tbl "GET" "/", findHandler tbl "GET" "/other", findHandler tbl "GET" "/static", findHandler tbl "HEAD" "/static/a/b",
   findHandler tbl "POST" "/job/a%2Fb", findHandler tbl "GET" "/job/7/log", findHandler tbl "GET" "/job//7/./log",
   findHandler tbl "POST" "/static/x", findHandler tbl "POST" "/job/", registers tbl,
   registers ((pattern "/any", 5) :: tbl), registers ((pattern "GET /job/new/{x}", 5) :: tbl)) =
  (Handled 4 [], Handled 0 [], Moved, Handled 1 [], Handled 2 ["a/b"], Handled 3 ["7"], Moved, MethodNotAllowed, MethodNotAllowed,
   true, false, false).
Proof. vm_compute. reflexivity. Qed.
