(* ===== verification/PortalRoutes.v ===== *)
(** The member portal as a server: the route table that [New] of
    internal/portal/server.go builds, with the operator console mounted on it
    ([RegisterRoutes] of internal/api/operator_onboarding.go) or without, and the
    session check in front of the members' handlers.

    The file server behind /static/ is not modelled: its answer is [OutStatic]. *)
From Stdlib Require Import Ascii.
From S2P Require Import Prelude Float64 Workload Sounding Registry Scheduler Database Lifecycle Effects.
From S2P Require Import Encoding Sha256 Token Allowlist Orchestrator Samples Dispatch Http Session Limits Account.
From S2P Require Import Notify NodesApi NodesApiProofs Adapter AdapterProofs Portal SoundingStore Format Templates.
From S2P Require Import DashboardProofs PortalPages PortalPagesProofs Mux.
Local Open Scope string_scope.
Local Open Scope list_scope.
Local Open Scope Z_scope.

Definition StatusMovedPermanently : Z := 301.
Definition StatusMethodNotAllowed : Z := 405.

(** ** The table *)

(** The methods of [PortalServer] that answer requests. *)
Inductive Handler :=
| HIndex | HJoinPage | HDownloadPage | HPrivacyPage | HLoginPage | HLogin | HStripeWebhook
| HRegisterPage | HRegister | HLogout | HStatic
| HRefresh | HDashboard | HConsumerMarketplace | HSubmitJob | HJobStatus | HJobStatusStream
| HConsumerPickedUp | HConsumerDelivered | HConsumerContestNoShow
| HDisputeQueue | HDisputeResolve | HDisputeReview
| HProviderOnboardingPage | HProviderOnboarding | HProviderOnboardingReturn | HProviderProvision
| HAddProfile | HGenerateNodeToken | HOptOutPage | HGetOptOut | HPostOptOut
| HJobConfirm | HJobConfirmAction | HProviderNoShow.

#[export] Instance Handler_eq_dec : EqDecision Handler.
Proof. solve_decision. Defined.

(** How a handler is mounted: as it is, behind [RequireAuth], or by the option
    [WithOperatorConsole]. *)
Inductive Mounted (Op : Type) := Plain (h : Handler) | Guarded (h : Handler) | Console (o : Op).
Arguments Plain {Op} h.
Arguments Guarded {Op} h.
Arguments Console {Op} o.

Definition member_routes {Op} : list (Pattern * Mounted Op) := [
  (pattern "GET /join", Plain HJoinPage);
  (pattern "GET /download", Plain HDownloadPage);
  (pattern "GET /privacy", Plain HPrivacyPage);
  (pattern "GET /login", Plain HLoginPage);
  (pattern "POST /login", Plain HLogin);
  (pattern "POST /stripe/webhook", Plain HStripeWebhook);
  (pattern "GET /register", Plain HRegisterPage);
  (pattern "POST /register", Plain HRegister);
  (pattern "GET /logout", Plain HLogout);
  (pattern "GET /static/", Plain HStatic);
  (pattern "POST /auth/refresh", Guarded HRefresh);
  (pattern "GET /dashboard", Guarded HDashboard);
  (pattern "GET /marketplace", Guarded HConsumerMarketplace);
  (pattern "GET /consumer/marketplace", Guarded HConsumerMarketplace);
  (pattern "POST /consumer/job", Guarded HSubmitJob);
  (pattern "GET /consumer/job/{id}", Guarded HJobStatus);
  (pattern "GET /consumer/job/{id}/status-stream", Guarded HJobStatusStream);
  (pattern "POST /consumer/job/{id}/picked-up", Guarded HConsumerPickedUp);
  (pattern "POST /consumer/job/{id}/delivered", Guarded HConsumerDelivered);
  (pattern "POST /consumer/job/{id}/contest-no-show", Guarded HConsumerContestNoShow);
  (pattern "GET /dispute/queue", Guarded HDisputeQueue);
  (pattern "POST /dispute/{id}/resolve", Guarded HDisputeResolve);
  (pattern "POST /dispute/{id}/review", Guarded HDisputeReview);
  (pattern "GET /provider/onboarding", Guarded HProviderOnboardingPage);
  (pattern "POST /provider/onboarding", Guarded HProviderOnboarding);
  (pattern "GET /provider/onboarding/return", Guarded HProviderOnboardingReturn);
  (pattern "GET /provider/provision", Guarded HProviderProvision);
  (pattern "POST /provider/provision/profile", Guarded HAddProfile);
  (pattern "POST /node/token", Guarded HGenerateNodeToken);
  (pattern "GET /opt-out", Guarded HOptOutPage);
  (pattern "GET /api/opt-out", Guarded HGetOptOut);
  (pattern "POST /api/opt-out", Guarded HPostOptOut);
  (pattern "GET /provider/job/{id}/confirm", Guarded HJobConfirm);
  (pattern "POST /provider/job/{id}/confirm", Guarded HJobConfirmAction);
  (pattern "POST /provider/job/{id}/no-show", Guarded HProviderNoShow)].

(** With a console the root is the console's and the member index moves. *)
Definition portal_table {Op} (operatorRoutes : option (list (Pattern * Op))) : list (Pattern * Mounted Op) :=
  match operatorRoutes with
  | Some routes => (prod_map id Console <$> routes) ++ [(pattern "GET /portal", Plain HIndex)]
  | None => [(pattern "GET /", Plain HIndex)]
  end ++ member_routes.

(** The handlers of the operator console. *)
Inductive OperatorHandler :=
| OApply | ORegisterKeys | OVerifyStart | OVerifyCheck | OConformanceStart | OConformanceSubmit
| OLanding | OFeesPage | OApplyPage | OKeysPage | OVerifyPage | OConformancePage | ODashboardPage.

Definition RegisterRoutes : list (Pattern * OperatorHandler) := [
  (pattern "POST /operators/apply", OApply);
  (pattern "POST /operators/{id}/keys", ORegisterKeys);
  (pattern "POST /operators/{id}/verify/start", OVerifyStart);
  (pattern "POST /operators/{id}/verify/check", OVerifyCheck);
  (pattern "POST /operators/{id}/conformance/start", OConformanceStart);
  (pattern "POST /operators/{id}/conformance/{run}/submit", OConformanceSubmit);
  (pattern "GET /{$}", OLanding);
  (pattern "GET /fees", OFeesPage);
  (pattern "GET /operators/apply", OApplyPage);
  (pattern "GET /operators/{id}/keys", OKeysPage);
  (pattern "GET /operators/{id}/verify", OVerifyPage);
  (pattern "GET /operators/{id}/conformance", OConformancePage);
  (pattern "GET /operators/{id}/dashboard", ODashboardPage)].

(** ** Requests *)

(** The body of a request in the views the handlers take of it; [None] is a form
    that does not parse. *)
Record PortalInput := mkInput {
  in_login : option LoginForm; in_register : option RegisterForm; in_submit : option SubmitForm;
  in_profile : option ProfileForm; in_onboarding : option (string * string); in_action : string;
  in_refund_pct : option Z; in_opt_out : Body optOutPostRequest; in_node_id : string;
  in_body : string; in_signature : string }.

Record PortalRequest := mkPortalRequest {
  pq_method : string; pq_path : string; pq_cookie : option string; pq_remote : string; pq_input : PortalInput }.

(** What an answer does besides its page: sets the session cookie, clears it, or
    goes on as a stream. *)
Inductive Outcome :=
| OutPage
| OutStatic
| OutLoggedOut
| OutSession (token : string)
| OutStream (claims : SessionClaims) (jobID : string).

(** ** The server *)

Section Server.
Context `{TemplateEngine} `{MapOrder} `{PgAvg} `{Columns}.
Context (templatePaths : list string) (collate : string -> string -> bool).
Context (Sign : string -> string) (Verify : string -> string -> bool).
Context (CompareHashAndPassword : string -> string -> bool) (GenerateFromPassword : string -> result Error string).
Context (stripe : Stripe) (webhookSecret baseURL : string).
Context (submit : SubmitJobRequest -> M SubmitJobResponse).
Context (spire_token_generate : M string) (rand_Read : Z -> M string).
(** The console's handlers, with the values of the wildcards. *)
Context {Op : Type} (operatorRoutes : option (list (Pattern * Op))).
Context (operator_handler : Op -> list string -> PortalRequest -> H Outcome).

Definition page {A} (m : H A) : H Outcome := _ ← m; mret OutPage.
Definition of_form {A} (f : option A) (m : A -> H Outcome) : H Outcome :=
  match f with Some f => m f | None => reject StatusBadRequest end.

Definition handleLogout : H Outcome := mret OutLoggedOut.

(** A handler with the claims in its context. *)
Definition run_handler (h : Handler) (claims : SessionClaims) (params : list string) (q : PortalRequest)
    (rl : LoginRateLimiter) : M (result Z Outcome * LoginRateLimiter) :=
  let i := pq_input q in
  let user := sc_UserID claims in
  let id := hd "" params in
  let answer (m : H Outcome) : M (result Z Outcome * LoginRateLimiter) :=
    @mbind M _ _ _ (fun r => mret (r, rl)) m in
  match h with
  | HIndex => answer (page (handleIndex templatePaths))
  | HJoinPage => answer (page (handleJoinPage templatePaths))
  | HDownloadPage => answer (page (handleDownloadPage templatePaths))
  | HPrivacyPage => answer (page (handlePrivacyPage templatePaths))
  | HLoginPage => answer (page (handleLoginPage templatePaths))
  | HRegisterPage => answer (page (handleRegisterPage templatePaths))
  | HStatic => answer (mret OutStatic)
  | HLogout => answer handleLogout
  | HLogin =>
      '(r, rl) ← handleLogin Sign CompareHashAndPassword (pq_remote q) (in_login i) rl;
      mret (match r with Ok token => Ok (OutSession token) | Err code => Err code end, rl)
  | HRegister => answer (r ← handleRegister Sign GenerateFromPassword (in_register i);
      mret (match r with Registered token => OutSession token | RegisterPage _ => OutPage end))
  | HStripeWebhook => answer (page (handleStripeWebhook stripe webhookSecret (in_body i) (in_signature i)))
  | HRefresh => answer (r ← handleRefresh Sign claims;
      mret (match r with Some token => OutSession token | None => OutPage end))
  | HDashboard => answer (page (handleDashboard templatePaths claims))
  | HConsumerMarketplace => answer (page (handleConsumerMarketplace templatePaths collate claims))
  | HSubmitJob => answer (of_form (in_submit i) (fun f => page (handleSubmitJob submit user f)))
  | HJobStatus => answer (page (handleJobStatus templatePaths claims id))
  | HJobStatusStream => answer (mret (OutStream claims id))
  | HConsumerPickedUp => answer (page (handleConsumerPickedUp user id))
  | HConsumerDelivered => answer (page (handleConsumerDelivered user id))
  | HConsumerContestNoShow => answer (page (handleConsumerContestNoShow user id))
  | HDisputeQueue => answer (page (handleDisputeQueue templatePaths claims))
  | HDisputeResolve => answer (page (handleDisputeResolve (CreateRefund stripe) user id (in_refund_pct i)))
  | HDisputeReview => answer (page (handleDisputeReview user id))
  | HProviderOnboardingPage => answer (page (handleProviderOnboardingPage claims))
  | HProviderOnboarding => answer (page (handleProviderOnboarding stripe baseURL claims (in_onboarding i)))
  | HProviderOnboardingReturn => answer (page (handleProviderOnboardingReturn stripe claims))
  | HProviderProvision => answer (page (handleProviderProvision templatePaths claims))
  | HAddProfile => answer (of_form (in_profile i) (fun f => page (handleAddProfile user f)))
  | HGenerateNodeToken =>
      answer (page (handleGenerateNodeToken spire_token_generate rand_Read (buildDashboardData claims) user))
  | HOptOutPage => answer (page (handleOptOutPage templatePaths collate claims))
  | HGetOptOut => answer (page (handleGetOptOut collate claims (in_node_id i)))
  | HPostOptOut => answer (page (handlePostOptOut user (in_opt_out i)))
  | HJobConfirm => answer (page (handleJobConfirm templatePaths claims id))
  | HJobConfirmAction => answer (page (handleJobConfirmAction user id (in_action i)))
  | HProviderNoShow => answer (page (handleProviderNoShow user id))
  end.

(** [ClaimsFromContext] without a session. *)
Definition no_claims : SessionClaims := mkClaims "" "" 0.

Definition portal_route (q : PortalRequest) : Routed (Mounted Op) :=
  findHandler (portal_table operatorRoutes) (pq_method q) (pq_path q).

Definition serve_portal (q : PortalRequest) (rl : LoginRateLimiter) : M (result Z Outcome * LoginRateLimiter) :=
  match portal_route q with
  | Handled (Plain h) params => run_handler h no_claims params q rl
  | Handled (Guarded h) params =>
      let next claims : H (result Z Outcome * LoginRateLimiter) :=
        @mbind M _ _ _ (fun x => mret (Ok x)) (run_handler h claims params q rl) in
      @mbind M _ _ _ (fun r => mret (match r with Ok x => x | Err code => (Err code, rl) end))
        (RequireAuth Verify (pq_cookie q) next)
  | Handled (Console o) params => @mbind M _ _ _ (fun r => mret (r, rl)) (operator_handler o params q)
  | Moved => mret (Err StatusMovedPermanently, rl)
  | MethodNotAllowed => mret (Err StatusMethodNotAllowed, rl)
  | NoRoute => mret (Err StatusNotFound, rl)
  end.

End Server.

(** ** Members only *)

(** The handlers anyone may call, and those of them that look at the database. *)
Definition public_pages : list Handler :=
  [HIndex; HJoinPage; HDownloadPage; HPrivacyPage; HLoginPage; HRegisterPage; HLogout; HStatic].
Definition public_actions : list Handler := [HLogin; HRegister; HStripeWebhook].

Definition plain_is_public {Op} (e : Pattern * Mounted Op) : Prop :=
  match e.2 with Plain h => h ∈ public_pages ++ public_actions | _ => True end.

Lemma plain_routes_public {Op} (ops : option (list (Pattern * Op))) p h :
  (p, Plain h) ∈ portal_table ops -> h ∈ public_pages ++ public_actions.
Proof.
  assert (Hall : Forall plain_is_public (portal_table ops)).
  { unfold portal_table. apply Forall_app. split.
    - destruct ops as [routes|]; [|by repeat constructor]. apply Forall_app. split; [|by repeat constructor].
      apply Forall_fmap, Forall_true. by intros [].
    - unfold member_routes. repeat constructor. }
  intros Hin. rewrite Forall_forall in Hall. exact (Hall _ Hin).
Qed.

Section Members.
Context `{TemplateEngine} `{MapOrder} `{PgAvg} `{Columns}.
Context (templatePaths : list string) (collate : string -> string -> bool).
Context (Sign : string -> string) (Verify : string -> string -> bool).
Context (CompareHashAndPassword : string -> string -> bool) (GenerateFromPassword : string -> result Error string).
Context (stripe : Stripe) (webhookSecret baseURL : string).
Context (submit : SubmitJobRequest -> M SubmitJobResponse).
Context (spire_token_generate : M string) (rand_Read : Z -> M string).
Context {Op : Type} (operatorRoutes : option (list (Pattern * Op))).
Context (operator_handler : Op -> list string -> PortalRequest -> H Outcome).
Notation run h c ps q rl := (run_handler templatePaths collate Sign CompareHashAndPassword GenerateFromPassword stripe
  webhookSecret baseURL submit spire_token_generate rand_Read h c ps q rl).
Notation served q rl := (serve_portal templatePaths collate Sign Verify CompareHashAndPassword GenerateFromPassword
  stripe webhookSecret baseURL submit spire_token_generate rand_Read operatorRoutes operator_handler q rl).

(** A public page is answered without a statement. *)
Lemma public_page_answers h c ps q rl w : h ∈ public_pages ->
  exists out, run h c ps q rl w = (Ok (Ok out, rl), w) /\ out ∈ [OutPage; OutStatic; OutLoggedOut].
Proof.
  unfold public_pages. intros Hh. repeat (apply elem_of_cons in Hh as [->|Hh]); [..|by apply elem_of_nil in Hh];
    (eexists; split; [reflexivity|set_solver]).
Qed.

Lemma guarded_serves h ps q rl w : portal_route operatorRoutes q = Handled (Guarded h) ps ->
  forall next, (forall c w, next c w = let '(r, w') := run h c ps q rl w in
                  (match r with Ok x => Ok (Ok x) | Err e => Err e end, w')) ->
  served q rl w = match RequireAuth Verify (pq_cookie q) next w with
                  | (Ok (Ok x), w') => (Ok x, w')
                  | (Ok (Err code), w') => (Ok (Err code, rl), w')
                  | (Err e, w') => (Err e, w')
                  end.
Proof.
  intros Hr next Hn. unfold serve_portal. rewrite Hr. unfold mbind at 1, M_bind at 1.
  assert (Ha : forall f, (forall c w, f c w = next c w) -> RequireAuth Verify (pq_cookie q) f w = RequireAuth Verify (pq_cookie q) next w).
  { intros f Hf. unfold RequireAuth. destruct (pq_cookie q); [|done].
    rewrite !(hbind_ok _ _ w (w_now w) w) by done. by destruct (VerifyToken _ _ _). }
  rewrite Ha.
  - by destruct (RequireAuth Verify (pq_cookie q) next w) as [[[x|code]|e] w'].
  - intros c w0. rewrite Hn. unfold mbind, M_bind. by destruct (run h c ps q rl w0) as [[x|e] w'].
Qed.

(** C29 The portal is for members.  As long as nobody but the portal can produce a
    signature that verifies, every request to the portal's server, whatever its
    method, path and cookie, is answered in one of these ways: by a handler of the
    operator console, where one is mounted; by a public page, without a single
    statement and without a session; by login, registration or the payment
    webhook; by 301, 404 or 405; or, on every other route, by a redirect to the
    login page without a single statement, unless the cookie carries claims that
    were issued, unaltered and not expired, in which case the route's handler runs
    with exactly these claims. *)
Theorem portal_members_only (issued : list SessionClaims) q rl w :
  Forall (fun c => lacks "|" (sc_UserID c) = true /\ is_int64 (sc_ExpiresAt c)) issued ->
  (forall m s, Verify m s = true -> exists c, c ∈ issued /\ m = RawURLEncode (raw_claims c)) ->
  match portal_route operatorRoutes q with
  | Handled (Console o) params =>
      exists p routes, operatorRoutes = Some routes /\ (p, o) ∈ routes /\
        seg_match (pt_segs p) (path_segs (pq_path q)) = Some params
  | Handled (Plain h) _ =>
      h ∈ public_actions \/
      exists out, served q rl w = (Ok (Ok out, rl), w) /\ out ∈ [OutPage; OutStatic; OutLoggedOut]
  | Handled (Guarded h) params =>
      served q rl w = (Ok (Err StatusFound, rl), w) \/
      exists c, c ∈ issued /\ Unix (w_now w) <= sc_ExpiresAt c /\ served q rl w = run h c params q rl w
  | _ => exists code, served q rl w = (Ok (Err code, rl), w) /\
           code ∈ [StatusMovedPermanently; StatusMethodNotAllowed; StatusNotFound]
  end.
Proof.
  intros Hiss Hforge. destruct (portal_route operatorRoutes q) as [m params| | |] eqn:Hr;
    [|unfold serve_portal; rewrite Hr; eexists; (split; [reflexivity|set_solver])..].
  pose proof (findHandler_registered _ _ _ _ _ Hr) as (p & Hin & _ & Hm). destruct m as [h|h|o].
  - apply plain_routes_public, elem_of_app in Hin as [Hp|Ha]; [right|by left].
    unfold serve_portal. rewrite Hr. by apply public_page_answers.
  - set (next c w := let '(r, w') := run h c params q rl w in
      (match r with Ok x => Ok (Ok x) | Err e => Err e end, w') : result Error (result Z (result Z Outcome * LoginRateLimiter)) * World).
    rewrite (guarded_serves h params q rl w Hr next) by done.
    destruct (session_only_issued issued Verify (pq_cookie q) next w Hiss Hforge) as [-> |(c & Hc & He & ->)];
      [by left|right]. exists c. split; [done|]. split; [done|]. unfold next.
    by destruct (run h c params q rl w) as [[x|e] w'].
  - unfold portal_table in Hin. destruct operatorRoutes as [routes|].
    + apply elem_of_app in Hin as [Hin|Hin].
      * apply elem_of_app in Hin as [Hin|Hin]; [|set_solver].
        apply list_elem_of_fmap in Hin as ([p0 o0] & [= -> ->] & Hin). eauto.
      * unfold member_routes in Hin. set_solver.
    + unfold member_routes in Hin. set_solver.
Qed.
End Members.

(** ** The tables *)

(** No two patterns conflict, so that building the server does not panic, with the
    console and without it. *)
Lemma portal_registers : registers (portal_table (Some RegisterRoutes)) = true /\
  registers (portal_table (Op := OperatorHandler) None) = true.
Proof. split; vm_compute; reflexivity. Qed.

(** The console takes over the root and nothing else of the members'. *)
Example console_owns_root :
  let routed ops path := findHandler (portal_table ops) "GET" path in
  (routed (Some RegisterRoutes) "/", routed (Some RegisterRoutes) "/portal", routed (Some RegisterRoutes) "/nothing",
   routed None "/", routed None "/nothing", routed (Some RegisterRoutes) "/consumer/job/7",
   findHandler (portal_table (Some RegisterRoutes)) "POST" "/operators/x/conformance/r1/submit",
   findHandler (portal_table (Some RegisterRoutes)) "GET" "/node/token") =
  (Handled (Console OLanding) [], Handled (Plain HIndex) [], NoRoute,
   Handled (Plain HIndex) [], Handled (Plain HIndex) [], Handled (Guarded HJobStatus) ["7"],
   Handled (Console OConformanceSubmit) ["x"; "r1"], MethodNotAllowed).
Proof. vm_compute. reflexivity. Qed.

(** ** A concrete portal *)

Definition no_stripe : Stripe := mkStripe (fun _ _ _ => fail ErrConn) (fun _ _ => fail ErrConn) (fun _ _ => fail ErrConn)
  (fun _ _ _ => fail ErrConn) (fun _ => fail ErrConn) (fun _ _ _ => fail ErrConn) (fun _ _ _ => None).
Definition no_input : PortalInput := mkInput None None None None None "" (Some 50) InvalidJSON "" "" "".
Definition sample_portal_request (method path : string) (cookie : option string) : PortalRequest :=
  mkPortalRequest method path cookie "203.0.113.9:4000" no_input.

(** The signatures of the portal that issued the owner's session. *)
Definition only_owner (m s : string) : bool :=
  bool_decide (m = RawURLEncode (raw_claims owner_claims)) && bool_decide (s = HMAC "k" m).

Definition sample_portal (q : PortalRequest) : M (result Z Outcome * LoginRateLimiter) :=
  serve_portal (H0 := sample_engine) (H1 := default_order) (H2 := sample_avg) (H3 := sample_columns)
    member_paths String.ltb (HMAC "k") only_owner (fun _ _ => false) (fun _ => Err ErrConn) no_stripe "" ""
    (fun _ => fail ErrConn) (fail ErrConn) (fun _ => fail ErrConn) (Some RegisterRoutes)
    (fun _ _ _ => mret OutPage) q ∅.

Definition to_resolve (cookie : option string) : PortalRequest :=
  sample_portal_request "POST" "/dispute/d1/resolve" cookie.

Lemma portal_members_only_witness :
  let w := sample_world in
  sample_portal (to_resolve None) w = (Ok (Err StatusFound, ∅), w) /\
  (sample_portal (sample_portal_request "GET" "/dashboard" (Some (CreateToken (HMAC "k") owner_claims))) w).1 =
    Ok (Ok OutPage, ∅) /\
  (sample_portal (to_resolve None) w = (Ok (Err StatusFound, ∅), w) \/
   exists c, c ∈ [owner_claims] /\ Unix (w_now w) <= sc_ExpiresAt c).
Proof.
  cbv zeta. split; [reflexivity|]. split; [vm_compute; reflexivity|].
  pose proof (@portal_members_only sample_engine default_order sample_avg sample_columns member_paths String.ltb
    (HMAC "k") only_owner (fun _ _ => false) (fun _ => Err ErrConn) no_stripe "" "" (fun _ => fail ErrConn)
    (fail ErrConn) (fun _ => fail ErrConn) OperatorHandler (Some RegisterRoutes) (fun _ _ _ => mret OutPage)
    [owner_claims] (to_resolve None) ∅ sample_world) as Hp.
  change (portal_route (Some RegisterRoutes) (to_resolve None)) with
    (@Handled (Mounted OperatorHandler) (Guarded HDisputeResolve) ["d1"]) in Hp.
  destruct Hp as [Hp|(c & Hc & He & _)]; [| |by left|right; eauto].
  - repeat constructor; vm_compute; discriminate.
  - intros m s [Hm _]%andb_prop. apply bool_decide_eq_true in Hm as ->. eexists. split; [|reflexivity]. set_solver.
Defined.
