(* ===== verification/Gateway.v ===== *)
(** How a request reaches the control plane: the SPIFFE middleware
    (internal/identity/middleware.go), the route tables of the public and of the
    internal listener (internal/api/server.go, internal_server.go, jobs.go,
    allowlist.go), the /v0 mount (internal/protocoladapter/handler.go), and the
    two clients that talk to them (internal/orchclient/client.go and the encoder
    of operator headers in operator_auth.go).

    Parameters: the verification of a certificate chain against the trust bundle
    ([Verify] of go-spiffe), JSON, and the reference handler of the protocol
    package that sits behind the /v0 mount. *)
From Stdlib Require Import Ascii.
From S2P Require Import Prelude Float64 Workload Sounding Registry Scheduler Database Replay Lifecycle Effects.
From S2P Require Import Encoding Sha256 Token Allowlist Orchestrator Operator Conformance Dispatch Http Notify.
From S2P Require Import OperatorApi NodesApi NodesApiProofs Adapter.
Local Open Scope string_scope.
Local Open Scope list_scope.
Local Open Scope Z_scope.

Definition StatusServiceUnavailable : Z := 503.

(** ** The SPIFFE middleware *)

(** [x509svid.Verify]: the path of the authenticated identity. *)
Class TrustBundle := { svid_Verify : list string -> option string }.

(** The context starts empty: what the middleware stores is all there is. *)
Definition RequireSPIFFE `{TrustBundle} {A} (peerCertificates : list string) (next : Ctx -> H A) : H A :=
  match peerCertificates with
  | [] => reject StatusUnauthorized
  | _ =>
      match svid_Verify peerCertificates with
      | None => reject StatusUnauthorized
      | Some path => next (mkCtx (Some path) None)
      end
  end.

Definition UnavailableHandler {A} : H A := reject StatusServiceUnavailable.

(** ** The internal listener and its client *)

Section Internal.
Context (SubmitJob : SubmitJobRequest -> M SubmitJobResponse).

Definition handleInternalSubmitJob (body : Body SubmitJobRequest) : H SubmitJobResponse :=
  req ← decode body;
  or_500 (SubmitJob req).
End Internal.

(** JSON as the two sides use it: what the other side decodes of what was
    encoded. *)
Class Wire (A : Type) := {
  carried : A -> Prop;
  transfer : A -> option A;
  transfer_carried : forall a, carried a -> transfer a = Some a }.

Section Client.
Context `{Wire SubmitJobRequest} `{Wire SubmitJobResponse}.
Context (SubmitJob : SubmitJobRequest -> M SubmitJobResponse).

Definition body_of (r : option SubmitJobRequest) : Body SubmitJobRequest :=
  match r with Some r => Decoded r | None => InvalidJSON end.

Definition ErrClient : Error := ErrGo "orchclient".

(** What [Do] and [ReadAll] make of the exchange: the request may not arrive, and
    the reply may not (a timeout of the client is one of these). *)
Definition client_SubmitJob (req : SubmitJobRequest) : M SubmitJobResponse :=
  x ← next_event;
  match x with
  | LostBefore => fail ErrClient
  | LostAfter => _ ← try (handleInternalSubmitJob SubmitJob (body_of (transfer req))); fail ErrClient
  | Succeeds =>
      reply ← handleInternalSubmitJob SubmitJob (body_of (transfer req));
      match reply with
      | Err _ => fail ErrClient
      | Ok resp => match transfer resp with Some resp => mret resp | None => fail ErrClient end
      end
  end.
End Client.

(** ** The operator header *)

Section OperatorHeader.
Context (marshal : operatorTransmissionWire -> string).

Definition EncodeOperatorHeader (tx : OperatorTransmission) : string :=
  StdEncode (marshal (mkWire (ot_OperatorID tx) (ot_TsUnixNano tx) (StdEncode (ot_Nonce tx)) (ot_Seq tx)
    (ot_Algo tx) (ot_Idx0 tx) (ot_Idx1 tx) (StdEncode (ot_Sig0 tx)) (StdEncode (ot_Sig1 tx)))).
End OperatorHeader.

(** ** The routes *)

(** What [os.ReadFile] finds. *)
Inductive FileRead := FileData (s : string) | FileMissing | FileUnreadable.

Definition handleGetAllowlist (file : FileRead) : H string :=
  match file with
  | FileData s => mret s
  | FileMissing => reject StatusNotFound
  | FileUnreadable => reject StatusInternalServerError
  end.

Definition healthHandler (idSource : bool) : H (string * string) :=
  mret ("ok", if idSource then "ready" else "unavailable").

(** The routes of the listener; [RouteV0] stands for everything under /v0/ but
    the fees. *)
Inductive Route :=
| RouteHealth
| RouteAllowlist
| RouteClaim (b : Body claimNodeRequest)
| RouteFees
| RouteV0 (r : V0Request)
| RouteRegister (secret : string) (b : Body registerNodeRequest)
| RouteNode (c : NodeCall).

Record ApiRequest := mkApiRequest {
  rq_certs : list string; rq_operator : string; rq_route : Route }.

Section Server.
Context `{MapOrder} `{TrustBundle} (collate : string -> string -> bool).
Context (spire_entry_create : string -> string -> string -> M unit) (rand_Read : Z -> M string).
Context (register_secret spire_selector : string) (allowlist : FileRead).
(** The operator middleware and the protocol package. *)
Context (OP : OpProtocol) (unmarshal : string -> option operatorTransmissionWire) (repo : operatorVerifier).
Context (coordinatorID : string) (P : Protocol) (bare : Ctx -> V0Request -> H unit).
(** Whether the identity source could be reached at startup. *)
Context (idSource : bool).

Definition gate {A} (q : ApiRequest) (spiffeGated : H A) (operatorNext : Ctx -> H A) : H A :=
  '(_, a) ← OperatorOrSPIFFE OP unmarshal repo coordinatorID (rq_operator q) (mkCtx None None) spiffeGated operatorNext;
  mret a.

(** [protocoladapter.NewHandler], as the orchestrator wires it. *)
Definition handleFees : H unit :=
  or_reject (fun e => if bool_decide (e = ErrNoFeeDeclaration) then StatusNotFound else StatusInternalServerError)
    (_ ← CurrentFeeDeclaration coordinatorID; mret tt).

Definition NewHandler (q : ApiRequest) (r : V0Request) : H unit :=
  if negb idSource then UnavailableHandler
  else gate q (RequireSPIFFE (rq_certs q) (fun ctx => bindNodeID P ctx r (bare ctx r))) (fun ctx => bare ctx r).

(** [registerNodeRoutes] behind the middleware. *)
Definition authMux (ctx : Ctx) (r : Route) : H unit :=
  match r with
  | RouteRegister secret b => handleRegisterNode register_secret secret b
  | RouteNode c => node_call collate ctx c
  | _ => reject StatusNotFound
  end.

Definition protected (q : ApiRequest) : H unit :=
  if idSource then RequireSPIFFE (rq_certs q) (fun ctx => authMux ctx (rq_route q)) else UnavailableHandler.

(** [New]: the more specific pattern wins. *)
Definition serve_api (q : ApiRequest) : H unit :=
  match rq_route q with
  | RouteHealth => code_of (healthHandler idSource)
  | RouteAllowlist => code_of (handleGetAllowlist allowlist)
  | RouteClaim b => code_of (handleClaimNode spire_entry_create rand_Read spire_selector b)
  | RouteFees => handleFees
  | RouteV0 r => NewHandler q r
  | RouteNode (CallPubkey b) =>
      if idSource
      then gate q (RequireSPIFFE (rq_certs q) (fun ctx => handleRegisterNodePubkey ctx b))
             (fun ctx => handleRegisterNodePubkey ctx b)
      else protected q
  | _ => protected q
  end.

End Server.
