(* ===== verification/GatewayProofs.v ===== *)
(** What the control plane's front door guarantees: who may act for a node, what
    an operator's header carries, and that a submission that goes through the
    internal listener is a submission. *)
From Stdlib Require Import Ascii.
From S2P Require Import Prelude Float64 Workload Sounding Registry Scheduler Database Replay Lifecycle Effects.
From S2P Require Import Encoding Sha256 Token Allowlist Orchestrator Samples Operator Conformance Dispatch Http.
From S2P Require Import Notify OperatorApi OperatorProofs NodesApi NodesApiProofs Adapter AdapterProofs Gateway.
Import Types.
Local Open Scope string_scope.
Local Open Scope list_scope.
Local Open Scope Z_scope.

(** ** Who may act *)

(** The identity a request proves. *)
Definition verified `{TrustBundle} (q : ApiRequest) : option string :=
  match rq_certs q with [] => None | certs => svid_Verify certs end.

(** The node a /v0 request names. *)
Definition v0_names (r : V0Request) : option string :=
  match r with
  | SignedPost path _ probe => if bool_decide (path ∈ signed_paths) then probe else None
  | GetJobsRequest node_id => Some node_id
  | OtherRequest => None
  end.

Section Door.
Context `{MapOrder} `{TrustBundle} (collate : string -> string -> bool).
Context (spire_entry_create : string -> string -> string -> M unit) (rand_Read : Z -> M string).
Context (register_secret spire_selector : string) (allowlist : FileRead).
Context (OP : OpProtocol) (unmarshal : string -> option operatorTransmissionWire) (repo : operatorVerifier).
Context (coordinatorID : string) (P : Protocol) (bare : Ctx -> V0Request -> H unit).
Notation serve live := (serve_api collate spire_entry_create rand_Read register_secret spire_selector allowlist
  OP unmarshal repo coordinatorID P bare live).

Lemma RequireSPIFFE_verified {A} q (next : Ctx -> H A) :
  RequireSPIFFE (rq_certs q) next =
    match verified q with Some path => next (mkCtx (Some path) None) | None => reject StatusUnauthorized end.
Proof. unfold RequireSPIFFE, verified. by destruct (rq_certs q). Qed.

Lemma gate_spiffe {A} q (m : H A) next w : rq_operator q = "" ->
  gate OP unmarshal repo coordinatorID q m next w = (x ← m; mret x : H A) w.
Proof.
  intros Hq. unfold gate, OperatorOrSPIFFE. rewrite Hq. simpl. unfold mbind, H_bind.
  by destruct (m w) as [[[?|?]|?] ?].
Qed.

Lemma hbind_ret {A} (m : H A) w : (x ← m; mret x : H A) w = m w.
Proof. unfold mbind, H_bind. by destruct (m w) as [[[?|?]|?] ?]. Qed.

(** A header that does not authenticate is answered as such and nothing follows. *)
Lemma gate_operator {A} q (m : H A) next w code w' : rq_operator q <> "" ->
  authenticate OP unmarshal repo coordinatorID (rq_operator q) w = (Ok (Err code), w') ->
  gate OP unmarshal repo coordinatorID q m next w = (Ok (Err code), w').
Proof.
  intros Hq Ha. unfold gate, OperatorOrSPIFFE. rewrite bool_decide_eq_false_2 by done. simpl.
  apply hbind_err. unfold OperatorAuth. by apply hbind_err.
Qed.

Lemma node_refused_at_door q c w :
  (forall b, c = CallPubkey b -> rq_operator q = "") -> rq_route q = RouteNode c ->
  (forall n, acts_for (w_db (next_event w).2) c = Some n -> verified q <> Some (node_path n)) ->
  refused (serve true q) w.
Proof.
  intros Hop Hr Hn.
  assert (Hcall : refused (RequireSPIFFE (rq_certs q) (fun ctx => node_call collate ctx c)) w).
  { rewrite RequireSPIFFE_verified. destruct (verified q) as [path|].
    - apply node_call_refused; [|done]. intros n Ha. apply bool_decide_eq_false. intros [= ->]. by eapply Hn.
    - apply refused_reject. unfold client_errors. rewrite !elem_of_cons. auto. }
  unfold serve_api. rewrite Hr. destruct c; try (unfold protected, authMux; rewrite Hr; exact Hcall).
  destruct Hcall as (code & w' & Hc & Hin & Hw). exists code, w'. split; [|done].
  rewrite gate_spiffe by eauto. by rewrite hbind_ret.
Qed.

Lemma v0_refused_at_door q r w : rq_operator q = "" -> rq_route q = RouteV0 r ->
  match verified q with
  | None => True
  | Some path => exists n, v0_names r = Some n /\ n <> "" /\ BindsTo P path n = false
  end ->
  exists code, serve true q w = (Ok (Err code), w) /\
    code ∈ [StatusUnauthorized; StatusForbidden; StatusRequestEntityTooLarge].
Proof.
  intros Hop Hr Hv. unfold serve_api, NewHandler. rewrite Hr. cbn [negb].
  rewrite gate_spiffe by done. rewrite hbind_ret. rewrite RequireSPIFFE_verified.
  destruct (verified q) as [path|]; [|by eexists; split; [reflexivity|constructor]].
  destruct Hv as (n & Hn & Hne & Hb). destruct r as [p size probe|node_id|]; simpl in *; try done.
  - case_bool_decide; [|done]. subst probe. destruct (maxBindBody <? size); simpl.
    + eexists. split; [reflexivity|]. rewrite !elem_of_cons. auto.
    + rewrite bool_decide_eq_false_2 by done. unfold authorize. simpl. rewrite Hb. simpl.
      eexists. split; [reflexivity|]. rewrite !elem_of_cons. auto.
  - injection Hn as ->. rewrite bool_decide_eq_false_2 by done. unfold authorize. simpl. rewrite Hb. simpl.
    eexists. split; [reflexivity|]. rewrite !elem_of_cons. auto.
Qed.

(** C20 Nobody acts for a node from outside but the node itself.  Through the public
    listener, whatever the world does meanwhile: without a certificate chain that
    verifies to exactly the identity of the node a call acts for, the call is
    refused having written nothing, and under /v0 the protocol handler is not even
    entered; an operator header in its place, where one is accepted at all,
    decides alone, and one that does not authenticate is answered without anything
    following it; and when the identity source could not be reached, every such
    route answers 503. *)
Theorem acting_needs_identity q w :
  (forall c, rq_route q = RouteNode c ->
     serve false q w = (Ok (Err StatusServiceUnavailable), w) /\
     ((forall b, c = CallPubkey b -> rq_operator q = "") ->
      (forall n, acts_for (w_db (next_event w).2) c = Some n -> verified q <> Some (node_path n)) ->
      refused (serve true q) w)) /\
  (forall r, rq_route q = RouteV0 r ->
     serve false q w = (Ok (Err StatusServiceUnavailable), w) /\
     (rq_operator q = "" ->
      match verified q with
      | None => True
      | Some path => exists n, v0_names r = Some n /\ n <> "" /\ BindsTo P path n = false
      end ->
      exists code, serve true q w = (Ok (Err code), w) /\
        code ∈ [StatusUnauthorized; StatusForbidden; StatusRequestEntityTooLarge])) /\
  (forall code w', rq_operator q <> "" ->
     authenticate OP unmarshal repo coordinatorID (rq_operator q) w = (Ok (Err code), w') ->
     (exists r, rq_route q = RouteV0 r) \/ (exists b, rq_route q = RouteNode (CallPubkey b)) ->
     serve true q w = (Ok (Err code), w')).
Proof.
  split; [|split].
  - intros c Hr. split; [|by intros; eapply node_refused_at_door].
    unfold serve_api. rewrite Hr. by destruct c.
  - intros r Hr. split; [|by intros; eapply v0_refused_at_door]. unfold serve_api. by rewrite Hr.
  - intros code w' Hq Ha Hr. unfold serve_api, NewHandler.
    destruct Hr as [[r ->]|[b ->]]; cbn [negb]; by apply gate_operator.
Qed.
End Door.

(** ** The operator header *)

(** Round trip: what the coordinator decodes of the header an operator's client
    encodes is the transmission that was signed. *)
Theorem operator_header_roundtrip marshal unmarshal tx :
  (forall w, unmarshal (marshal w) = Some w) ->
  decodeOperatorHeader unmarshal (EncodeOperatorHeader marshal tx) = Some tx.
Proof.
  intros Hj. unfold decodeOperatorHeader, EncodeOperatorHeader. rewrite Std_roundtrip. simpl. rewrite Hj. simpl.
  rewrite Std_roundtrip. simpl. rewrite Std_roundtrip. simpl. rewrite Std_roundtrip. by destruct tx.
Qed.

(** ** Submission through the internal listener *)

Section Listener.
Context `{Wire SubmitJobRequest} `{Wire SubmitJobResponse}.
Context (SubmitJob : SubmitJobRequest -> M SubmitJobResponse).

Lemma safe_handleInternalSubmitJob body :
  (forall r, safe (SubmitJob r)) -> safe (handleInternalSubmitJob SubmitJob body).
Proof. intros Hs. unfold handleInternalSubmitJob. destruct body; simpl; safe_handler; apply Hs. Qed.

(** However the exchange goes, the client does nothing to the database but what a
    submission does. *)
Lemma safe_client_SubmitJob req : (forall r, safe (SubmitJob r)) -> safe (client_SubmitJob SubmitJob req).
Proof.
  intros Hs. unfold client_SubmitJob. apply safe_bind; [apply safe_next_event|]. intros x. destruct x.
  - apply safe_bind; [by apply safe_handleInternalSubmitJob|]. intros [resp|]; [|apply safe_fail].
    destruct (transfer resp); [apply safe_ret|apply safe_fail].
  - apply safe_fail.
  - apply safe_bind; [by apply safe_try, safe_handleInternalSubmitJob|intros ?; apply safe_fail].
Qed.

(** The portal's submission is the orchestrator's: when the exchange goes through
    and JSON carries the strings, the client of the internal listener answers what
    the orchestrator answers, error for error, and leaves the state it leaves. *)
Theorem listener_submits req w : w_events w = [] -> carried req ->
  (forall resp w', SubmitJob req w = (Ok resp, w') -> carried resp) ->
  client_SubmitJob SubmitJob req w =
    match SubmitJob req w with
    | (Ok resp, w') => (Ok resp, w')
    | (Err _, w') => (Err ErrClient, w')
    end.
Proof.
  intros He Hc Hr. unfold client_SubmitJob, mbind, M_bind.
  assert (Hn : next_event w = (Ok Succeeds, w)).
  { unfold next_event. rewrite He. simpl. destruct w as [d r s t es u b]; simpl in *. subst es.
    rewrite Z.add_0_r. destruct s; by destruct b. }
  rewrite Hn, (transfer_carried req Hc). unfold handleInternalSubmitJob. simpl. unfold or_500, or_reject, H_bind.
  simpl. unfold mbind, H_bind. simpl. destruct (SubmitJob req w) as [[resp|e] w'] eqn:Hs; [|done].
  rewrite (transfer_carried resp); [done|]. by eapply Hr.
Qed.
End Listener.

#[export] Hint Resolve safe_client_SubmitJob : safe.

(** ** A concrete door *)

(** A bundle that knows one certificate. *)
Definition sample_bundle : TrustBundle :=
  {| svid_Verify := fun certs => if bool_decide (certs = ["svid of n1"]) then Some "/node/n1" else None |}.
Definition sample_door (live : bool) (certs : list string) (r : Route) : result Error (result Z unit) :=
  (serve_api (H0 := default_order) (H1 := sample_bundle) String.ltb (fun _ _ _ => mret tt) (fun _ => fail ErrConn)
     "" "" FileMissing sample_op_protocol (fun _ => None) repository "soholink" sample_protocol
     (fun _ _ => mret tt) live (mkApiRequest certs "" r) sample_world).1.

(** The node's own poll passes; for another node, with a certificate that does not
    verify, with none, or in degraded mode it does not.  Behind /v0 likewise. *)
Example the_door :
  (sample_door true ["svid of n1"] (RouteNode (CallGetJobs "n1")),
   sample_door true ["svid of n1"] (RouteNode (CallGetJobs "n2")),
   sample_door true ["self-signed /node/n1"] (RouteNode (CallGetJobs "n1")),
   sample_door true [] (RouteNode (CallGetJobs "n1")),
   sample_door false ["svid of n1"] (RouteNode (CallGetJobs "n1")),
   sample_door false [] RouteHealth,
   sample_door true ["svid of n1"] (RouteV0 (GetJobsRequest "n1")),
   sample_door true ["svid of n1"] (RouteV0 (GetJobsRequest "n2"))) =
  (Ok (Ok tt), Ok (Err 403), Ok (Err 401), Ok (Err 401), Ok (Err 503), Ok (Ok tt), Ok (Ok tt), Ok (Err 403)).
Proof. vm_compute. reflexivity. Qed.

(** JSON that carries everything. *)
#[export] Instance plain_wire A : Wire A :=
  {| carried := fun _ => True; transfer := Some; transfer_carried := fun _ _ => eq_refl |}.

Lemma listener_submits_witness :
  let submit (_ : SubmitJobRequest) : M SubmitJobResponse := mret (mkSubmitResponse "job-0" "n1" "t" "") in
  client_SubmitJob submit sample_request sample_world = (Ok (mkSubmitResponse "job-0" "n1" "t" ""), sample_world).
Proof.
  cbv zeta. rewrite (listener_submits _ sample_request sample_world); [reflexivity|reflexivity|exact I|].
  intros. exact I.
Defined.
