(* ===== verification/Printers.v ===== *)
(** Detection of printers on Unix: internal/agent/printers_unix.go.

    The programs it runs ([lpstat], [ioreg]) and the files it reads are
    parameters; their output is parsed as the code parses it.  Strings are bytes,
    and white space, upper case and digits are those of ASCII. *)
From Stdlib Require Import Ascii.
From S2P Require Import Prelude Float64 Workload Sounding Registry Scheduler Database Lifecycle Effects.
From S2P Require Import Encoding Sha256 Token Allowlist Orchestrator Dispatch Http Notify NodesApi Adapter Portal.
From S2P Require Import NodeAgent Templates.
Local Open Scope string_scope.
Local Open Scope list_scope.
Local Open Scope Z_scope.

(** ** Commands *)

(** What [runCmd] comes back with: output, a non-zero exit, any other error. *)
Inductive CmdResult := CmdOut (s : string) | CmdExit | CmdFailed.

Definition runCmd (out : CmdResult) : CmdResult :=
  match out with CmdOut s => CmdOut (TrimSpace s) | r => r end.

(** ** lpstat *)

(** [bufio.Scanner] over lines: the last one may lack its line feed, a carriage
    return before the line feed is dropped, and the scan stops at a line that does
    not fit the buffer. *)
Definition MaxScanTokenSize : Z := 65536.
Fixpoint drop_CR (s : string) : string :=
  match s with
  | "" => ""
  | String.String a "" => if Ascii.eqb a CR then "" else s
  | String.String a s' => String.String a (drop_CR s')
  end.
Fixpoint until_long (ls : list string) : list string :=
  match ls with
  | [] => []
  | l :: ls' => if Z.of_nat (String.length l) <? MaxScanTokenSize then l :: until_long ls' else []
  end.
Fixpoint drop_last_empty (ls : list string) : list string :=
  match ls with
  | [] => []
  | [l] => if bool_decide (l = "") then [] else [l]
  | l :: ls' => l :: drop_last_empty ls'
  end.
Definition scan_lines (s : string) : list string := drop_CR <$> until_long (drop_last_empty (Split LF s)).

(** [strings.SplitN(line, " ", 3)[1]] of a line that has a space. *)
Definition second_field (line : string) : string :=
  match cut " " line with
  | Some (_, rest) => match cut " " rest with Some (name, _) => name | None => rest end
  | None => ""
  end.

Definition flush (st : list PrinterInfo * option PrinterInfo) : list PrinterInfo :=
  st.1 ++ match st.2 with Some p => [p] | None => [] end.

Definition lpstat_line (st : list PrinterInfo * option PrinterInfo) (line : string) :
    list PrinterInfo * option PrinterInfo :=
  if String.prefix "printer " line then
    let name := second_field line in
    (flush st, Some (mkLocalPrinter ("cups:" +:+ name) PrinterKindTraditional name "" ""))
  else match st.2 with
  | None => st
  | Some p =>
      match cut_prefix "Description:" (TrimSpace line) with
      | Some d => (st.1, Some (mkLocalPrinter (lp_ID p) (lp_Kind p) (lp_Name p) (TrimSpace d) (lp_ConnectionPath p)))
      | None => st
      end
  end.

Definition parseLpstatOutput (out : string) : list PrinterInfo :=
  if bool_decide (out = "") then [] else flush (foldl lpstat_line ([], None) (scan_lines out)).

Definition detectTraditionalUnix (lookPath : bool) (lpstat : CmdResult) : result unit (list PrinterInfo) :=
  if negb lookPath then Ok []
  else match runCmd lpstat with
  | CmdOut out => Ok (parseLpstatOutput out)
  | CmdExit => Ok []
  | CmdFailed => Err tt
  end.

(** ** Serial devices on Linux *)

Definition known3DPrinterVendorIDs : gmap string string := list_to_map [
  ("2C99", "Prusa Research"); ("1A86", "QinHeng (CH340)"); ("0403", "FTDI");
  ("10C4", "Silicon Labs (CP210x)"); ("0483", "STMicroelectronics");
  ("2E8A", "Raspberry Pi (Pico-based boards)"); ("1D6B", "Linux Foundation"); ("2D56", "BambuLab");
  ("1F3A", "Creality"); ("0525", "NetChip (Ultimaker)"); ("2341", "Arduino (used in some printers)")].

Inductive DirRead := DirEntries (names : list string) | DirMissing | DirUnreadable.
Class SysFs := {
  fs_ReadDir : string -> DirRead;
  fs_EvalSymlinks : string -> option string;
  fs_ReadFile : string -> option string }.

(** [filepath.Join] of a clean path and a name, and [filepath.Dir] of a clean
    absolute path. *)
Definition Join (dir name : string) : string :=
  if bool_decide (dir = "/") then "/" +:+ name else dir +:+ "/" +:+ name.
Fixpoint after_slash (l : list ascii) : list ascii :=
  match l with [] => [] | a :: l' => if Ascii.eqb a "/" then l' else after_slash l' end.
Definition Dir (path : string) : string :=
  match after_slash (reverse (String.list_ascii_of_string path)) with
  | [] => "/"
  | l => String.string_of_list_ascii (reverse l)
  end.

Definition upper (a : ascii) : ascii :=
  let n := byte_of a in if (97 <=? n) && (n <=? 122) then ascii_of (n - 32) else a.
Definition ToUpper (s : string) : string :=
  String.string_of_list_ascii (upper <$> String.list_ascii_of_string s).

Section Linux.
Context `{SysFs}.

Fixpoint walk_up (levels : nat) (sysPath attr : string) : string :=
  match levels with
  | O => ""
  | S levels' =>
      match fs_ReadFile (Join sysPath attr) with
      | Some data => TrimSpace data
      | None =>
          let parent := Dir sysPath in
          if bool_decide (parent = sysPath) || bool_decide (parent = "/") then "" else walk_up levels' parent attr
      end
  end.

Definition readSysfsUSBID (devPath attr : string) : string :=
  match fs_EvalSymlinks (Join (Join "/sys/class/tty" (Base devPath)) "device") with
  | None => ""
  | Some sysPath => walk_up 6 sysPath attr
  end.

(** [strings.LastIndex] *)
Fixpoint LastIndex (sub s : string) : option nat :=
  match s with
  | "" => if String.prefix sub "" then Some 0%nat else None
  | String.String _ s' =>
      match LastIndex sub s' with
      | Some i => Some (S i)
      | None => if String.prefix sub s then Some 0%nat else None
      end
  end.
Definition TrimPrefix (p s : string) : string := default s (cut_prefix p s).
Definition underscores (s : string) : string := String.string_of_list_ascii
  ((fun a => if Ascii.eqb a "_" then " "%char else a) <$> String.list_ascii_of_string s).

Definition humanizeLinuxSerialName (raw : string) : string :=
  let name := TrimPrefix "usb-" raw in
  underscores (match LastIndex "-if" name with
               | Some (S i) => String.substring 0 (S i) name
               | _ => name
               end).

Definition serialDir : string := "/dev/serial/by-id".

Definition serial_printer (e : string) : option PrinterInfo :=
  target ← fs_EvalSymlinks (Join serialDir e);
  let vid := readSysfsUSBID target "idVendor" in
  if bool_decide (vid = "") then None
  else
    vendor ← known3DPrinterVendorIDs !! ToUpper vid;
    Some (mkLocalPrinter ("usb:" +:+ e) PrinterKind3D (humanizeLinuxSerialName e) vendor target).

Definition detect3DLinux : result unit (list PrinterInfo) :=
  match fs_ReadDir serialDir with
  | DirMissing => Ok []
  | DirUnreadable => Err tt
  | DirEntries names => Ok (omap serial_printer names)
  end.
End Linux.

(** ** The USB tree on macOS *)

(** The character class of the expressions: no vertical tab. *)
Definition re_space (a : ascii) : bool :=
  let n := byte_of a in (n =? 9) || (n =? 10) || (n =? 12) || (n =? 13) || (n =? 32).
Fixpoint skip_space (s : string) : string :=
  match s with String.String a s' => if re_space a then skip_space s' else s | "" => "" end.
Fixpoint take_chars (p : ascii -> bool) (s : string) : string :=
  match s with
  | String.String a s' => if p a then String.String a (take_chars p s') else ""
  | "" => ""
  end.
Definition is_digit (a : ascii) : bool := let n := byte_of a in (48 <=? n) && (n <=? 57).
Definition hex_value (a : ascii) : option Z :=
  let n := byte_of a in
  if (48 <=? n) && (n <=? 57) then Some (n - 48)
  else if (97 <=? n) && (n <=? 102) then Some (n - 87)
  else if (65 <=? n) && (n <=? 70) then Some (n - 55)
  else None.
Definition is_hex (a : ascii) : bool := if hex_value a then true else false.

Definition dquote : ascii := "034".

(** ["key"\s*=\s*], anchored: what follows it. *)
Definition after_key (key s : string) : option string :=
  rest ← cut_prefix (String.String dquote (key +:+ String.String dquote "")) s;
  rest ← cut_prefix "=" (skip_space rest);
  Some (skip_space rest).

(** The alternatives of the value, in the order of the expression. *)
Definition number_at (s : string) : option string :=
  let hex := from_option (take_chars is_hex) "" (cut_prefix "0x" s) in
  if negb (bool_decide (hex = "")) then Some ("0x" +:+ hex)
  else let dec := take_chars is_digit s in if bool_decide (dec = "") then None else Some dec.
Definition quoted_at (s : string) : option string :=
  rest ← cut_prefix (String.String dquote "") s;
  '(text, _) ← cut dquote rest;
  if bool_decide (text = "") then None else Some text.

(** The leftmost match. *)
Fixpoint leftmost {A} (m : string -> option A) (s : string) : option A :=
  match m s with
  | Some a => Some a
  | None => match s with String.String _ s' => leftmost m s' | "" => None end
  end.
Definition macIoregVIDRe (s : string) : option string :=
  leftmost (fun s => rest ← after_key "idVendor" s; number_at rest) s.
Definition macIoregProductRe (s : string) : option string :=
  leftmost (fun s => rest ← after_key "USB Product Name" s; quoted_at rest) s.
Definition macIoregSerialRe (s : string) : option string :=
  leftmost (fun s => rest ← after_key "USB Serial Number" s; quoted_at rest) s.

Fixpoint parse_hex (acc : Z) (s : string) : option Z :=
  match s with
  | "" => Some acc
  | String.String a s' => d ← hex_value a; parse_hex (16 * acc + d) s'
  end.

Definition hex_char (d : Z) : ascii := ascii_of (if d <? 10 then d + 48 else d + 55).
Definition hex4 (n : Z) : string := String.string_of_list_ascii
  (hex_char <$> [n / 4096 mod 16; n / 256 mod 16; n / 16 mod 16; n mod 16]).

(** [Sscanf] with "0x%x" or "%d", of the text the expression matched. *)
Definition normalizeIoregVID (raw : string) : string :=
  match (match cut_prefix "0x" raw with Some hex => parse_hex 0 hex | None => ParseInt raw end) with
  | Some n => if (n <=? 0) || (65535 <? n) then "" else hex4 n
  | None => ""
  end.

(** [strings.Split] on a longer separator: [skip] bytes of it are left. *)
Fixpoint split_sub (sep s : string) (skip : nat) : string * list string :=
  match s with
  | "" => ("", [])
  | String.String a s' =>
      match skip with
      | S k => split_sub sep s' k
      | O =>
          if String.prefix sep s
          then let '(x, rest) := split_sub sep s' (String.length sep - 1) in ("", x :: rest)
          else let '(x, rest) := split_sub sep s' 0 in (String.String a x, rest)
      end
  end.
Definition blocks_of (out : string) : list string :=
  let '(x, rest) := split_sub "+-o " out 0 in x :: rest.

Definition ioreg_printer (block : string) : option PrinterInfo :=
  raw ← macIoregVIDRe block;
  let vid := normalizeIoregVID raw in
  if bool_decide (vid = "") then None
  else
    vendor ← known3DPrinterVendorIDs !! vid;
    let productName := default "" (macIoregProductRe block) in
    let serial := default "" (macIoregSerialRe block) in
    let pid := if negb (bool_decide (serial = "")) then "usb:" +:+ vid +:+ ":" +:+ serial else "usb:" +:+ vid in
    let name := if bool_decide (productName = "") then vendor +:+ " device" else productName in
    Some (mkLocalPrinter pid PrinterKind3D name vendor "").

Definition detect3DDarwin (lookPath : bool) (ioreg : CmdResult) : result unit (list PrinterInfo) :=
  if negb lookPath then Ok []
  else match runCmd ioreg with
  | CmdOut out => if bool_decide (out = "") then Ok [] else Ok (omap ioreg_printer (blocks_of out))
  | _ => Err tt
  end.

Definition detect3DUnix `{SysFs} (goos : string) (lookPath : bool) (ioreg : CmdResult) : result unit (list PrinterInfo) :=
  if bool_decide (goos = "linux") then detect3DLinux
  else if bool_decide (goos = "darwin") then detect3DDarwin lookPath ioreg
  else Ok [].

(** ** Concrete outputs *)

Definition lines (ls : list string) : string := join LF ls.
Definition sample_lpstat : string := lines [
  "printer Laser is idle.  enabled since Mon 01 Jan 2024"; "	Form mounted:"; "	Description: HP LaserJet 4";
  "	Alerts: none"; "printer Photo disabled since Tue"; "	reason unknown"].
Definition quoted (s : string) : string := String.String dquote (s +:+ String.String dquote "").
Definition sample_ioreg : string :=
  "+-o Root" +:+ lines [""; "  +-o Original Prusa i3 MK3"; quoted "idVendor" +:+ " = 11417";
    quoted "USB Product Name" +:+ " = " +:+ quoted "Original Prusa"; quoted "USB Serial Number" +:+ "=" +:+ quoted "CZPX1";
    "  +-o Keyboard"; quoted "idVendor" +:+ " = 0x05AC"; "  +-o Bridge"; quoted "idVendor" +:+ " = 0x1a86"].

Example detected :
  (detectTraditionalUnix true (CmdOut sample_lpstat), detect3DDarwin true (CmdOut sample_ioreg),
   humanizeLinuxSerialName "usb-Prusa_Research_MK3_CZPX1234-if00", Dir "/sys/devices/usb1/1-1", Dir "/sys") =
  (Ok [mkLocalPrinter "cups:Laser" PrinterKindTraditional "Laser" "HP LaserJet 4" "";
       mkLocalPrinter "cups:Photo" PrinterKindTraditional "Photo" "" ""],
   Ok [mkLocalPrinter "usb:2C99:CZPX1" PrinterKind3D "Original Prusa" "Prusa Research" "";
       mkLocalPrinter "usb:1A86" PrinterKind3D "QinHeng (CH340) device" "QinHeng (CH340)" ""],
   "Prusa Research MK3 CZPX1234", "/sys/devices/usb1", "/").
Proof. vm_compute. reflexivity. Qed.
