(* ===== verification/PrintersProofs.v ===== *)
(** What the detection of printers guarantees: the listing of a print server reads
    back as the queues it lists, and 3D printers are told apart on Linux. *)
From Stdlib Require Import Ascii.
From S2P Require Import Prelude Float64 Workload Sounding Registry Scheduler Database Lifecycle Effects.
From S2P Require Import Encoding Sha256 Token Allowlist Orchestrator Dispatch Http Session Notify NodesApi Adapter.
From S2P Require Import Portal NodeAgent Templates Printers.
Local Open Scope string_scope.
Local Open Scope list_scope.
Local Open Scope Z_scope.

(** ** Lines *)

(** A line that a scan returns as it is. *)
Definition a_line (l : string) : Prop :=
  one_line l /\ l <> "" /\ Z.of_nat (String.length l) < MaxScanTokenSize.

Lemma drop_CR_lacks s : lacks CR s = true -> drop_CR s = s.
Proof.
  induction s as [|a s IH]; [done|]. cbn [lacks drop_CR]. rewrite andb_true_iff, negb_true_iff. intros [Ha Hs].
  destruct s; [by rewrite Ha|]. by rewrite IH.
Qed.

Lemma Split_join ls : ls <> [] -> Forall (fun l => lacks LF l = true) ls -> Split LF (join LF ls) = ls.
Proof.
  intros Hne. induction 1 as [|l ls Hl Hls IH]; [done|]. destruct ls as [|l' ls]; [by apply Split_lacks|].
  change (join LF (l :: l' :: ls)) with (l +:+ String.String LF (join LF (l' :: ls))).
  rewrite Split_app by done. by rewrite IH.
Qed.

Lemma drop_last_empty_same ls : Forall (fun l => l <> "") ls -> drop_last_empty ls = ls.
Proof.
  induction 1 as [|l ls Hl Hls IH]; [done|]. simpl. destruct ls; [|by rewrite IH].
  by rewrite bool_decide_eq_false_2.
Qed.

Lemma until_long_same ls : Forall (fun l => Z.of_nat (String.length l) < MaxScanTokenSize) ls -> until_long ls = ls.
Proof.
  induction 1 as [|l ls Hl Hls IH]; [done|]. simpl. rewrite (proj2 (Z.ltb_lt _ _) Hl). by rewrite IH.
Qed.

Lemma scan_lines_join ls : ls <> [] -> Forall a_line ls -> scan_lines (join LF ls) = ls.
Proof.
  intros Hne Hls. unfold scan_lines.
  rewrite Split_join, drop_last_empty_same, until_long_same; try done;
    try (eapply Forall_impl; [exact Hls|]; intros l ((? & ?) & ? & ?); done).
  rewrite <- (list_fmap_id ls) at 2. apply list_fmap_ext. intros i l Hi. apply drop_CR_lacks.
  rewrite Forall_lookup in Hls. by destruct (Hls i l Hi) as [[? _] _].
Qed.

Lemma cut_prefix_app p s : cut_prefix p (p +:+ s) = Some s.
Proof.
  unfold cut_prefix. rewrite prefix_app.
  f_equal. rewrite length_append. assert (Hn : (String.length s <= String.length p + String.length s)%nat) by lia.
  revert Hn. generalize (String.length p + String.length s)%nat as n. intros n Hn.
  induction p as [|a p IH]; [by apply substring_long|exact IH].
Qed.

(** ** Listing queues *)

(** A queue as [lpstat -p -l] lists it: what follows the name, the lines before
    the description, the description and the lines after it. *)
Record Queue := mkQueue {
  qu_name : string; qu_status : string; qu_before : list string; qu_desc : string; qu_after : list string }.

Definition description (d : string) : string := String.String "009" ("Description: " +:+ d).
Definition queue_lines (q : Queue) : list string :=
  ("printer " +:+ qu_name q +:+ String.String " " (qu_status q)) ::
    qu_before q ++ description (qu_desc q) :: qu_after q.
Definition print_queues (qs : list Queue) : string := join LF (qs ≫= queue_lines).

Definition detail (l : string) : Prop :=
  String.prefix "printer " l = false /\ cut_prefix "Description:" (TrimSpace l) = None.
Definition queue_ok (q : Queue) : Prop :=
  lacks " " (qu_name q) = true /\ TrimSpace (qu_desc q) = qu_desc q /\
  Forall detail (qu_before q) /\ Forall detail (qu_after q) /\ Forall a_line (queue_lines q).

Definition queue_printer (q : Queue) : PrinterInfo :=
  mkLocalPrinter ("cups:" +:+ qu_name q) PrinterKindTraditional (qu_name q) (qu_desc q) "".

Lemma details_skipped ls st : Forall detail ls -> foldl lpstat_line st ls = st.
Proof.
  intros Hls. revert st. induction Hls as [|l ls [Hp Hd] Hls IH]; intros st; [done|]. simpl.
  assert (lpstat_line st l = st) as ->; [|apply IH]. unfold lpstat_line. rewrite Hp, Hd. by destruct (st.2).
Qed.

Lemma description_read d : TrimSpace d = d ->
  exists rest, cut_prefix "Description:" (TrimSpace (description d)) = Some rest /\ TrimSpace rest = d.
Proof.
  intros Hd. pose proof (trimmed_rtrim d Hd) as Hr.
  destruct (decide (d = "")) as [->|Hne]; [by exists ""|]. exists (" " +:+ d).
  assert (TrimSpace (description d) = "Description:" +:+ (" " +:+ d)) as ->.
  { change (TrimSpace (description d)) with (rtrim ("Description: " +:+ d)). rewrite rtrim_app by congruence.
    by rewrite Hr. }
  split.
  - apply cut_prefix_app.
  - exact Hd.
Qed.

Lemma queue_read st q : queue_ok q ->
  foldl lpstat_line st (queue_lines q) = (flush st, Some (queue_printer q)).
Proof.
  intros (Hn & Hd & Hb & Ha & _). unfold queue_lines. cbn [foldl].
  assert (lpstat_line st ("printer " +:+ qu_name q +:+ String.String " " (qu_status q)) =
    (flush st, Some (mkLocalPrinter ("cups:" +:+ qu_name q) PrinterKindTraditional (qu_name q) "" ""))) as ->.
  { unfold lpstat_line. rewrite prefix_app. set (line := "printer " +:+ _).
    assert (second_field line = qu_name q) as ->; [|done].
    unfold second_field. change line with ("printer" +:+ String.String " " (qu_name q +:+ String.String " " (qu_status q))).
    rewrite cut_app by done. by rewrite cut_app. }
  rewrite foldl_app, (details_skipped (qu_before q)) by done. cbn [foldl].
  destruct (description_read _ Hd) as (rest & Hr & Ht). unfold lpstat_line at 2.
  change (String.prefix "printer " (description (qu_desc q))) with false. cbn iota. cbn [snd]. rewrite Hr, Ht.
  by rewrite details_skipped.
Qed.

Lemma queues_read qs st : Forall queue_ok qs ->
  flush (foldl lpstat_line st (qs ≫= queue_lines)) = flush st ++ (queue_printer <$> qs).
Proof.
  intros Hqs. revert st. induction Hqs as [|q qs Hq Hqs IH]; intros st; [csimpl; by rewrite app_nil_r|].
  change ((q :: qs) ≫= queue_lines) with (queue_lines q ++ (qs ≫= queue_lines)).
  rewrite foldl_app, queue_read, IH by done. unfold flush at 1. csimpl. by rewrite <- app_assoc.
Qed.

(** Round trip: the listing of any queues, printed the way lpstat prints them,
    reads back as exactly those queues, in order, with their descriptions; the
    other lines of a queue add nothing. *)
Theorem lpstat_roundtrip qs : Forall queue_ok qs ->
  parseLpstatOutput (print_queues qs) = queue_printer <$> qs.
Proof.
  intros Hqs. unfold parseLpstatOutput. destruct qs as [|q qs]; [done|].
  assert (Hlines : Forall a_line ((q :: qs) ≫= queue_lines)).
  { apply Forall_bind. eapply Forall_impl; [exact Hqs|]. by intros x (_ & _ & _ & _ & ?). }
  assert (Hne : print_queues (q :: qs) <> "").
  { intros He. unfold print_queues in He. pose proof (scan_lines_join ((q :: qs) ≫= queue_lines)) as Hs.
    rewrite He in Hs. by discriminate Hs. }
  rewrite bool_decide_eq_false_2 by done. unfold print_queues. rewrite scan_lines_join by done.
  by rewrite queues_read.
Qed.

(** ** Serial devices *)

Lemma serial_printer_id `{SysFs} e p : serial_printer e = Some p ->
  lp_ID p = "usb:" +:+ e /\ lp_Kind p = PrinterKind3D /\ exists vid, known3DPrinterVendorIDs !! vid = Some (lp_Model p).
Proof.
  unfold serial_printer. destruct (fs_EvalSymlinks _) as [target|]; [|done]. simpl. case_bool_decide; [done|].
  destruct (known3DPrinterVendorIDs !! ToUpper _) as [vendor|] eqn:Hv; [|done]. intros [= <-]. simpl. eauto.
Qed.

(** Every 3D printer found on Linux is of a vendor on the list, and two of them
    never share an id: the entries of a directory have different names. *)
Theorem serial_ids_distinct `{SysFs} names ps :
  fs_ReadDir serialDir = DirEntries names -> NoDup names -> detect3DLinux = Ok ps ->
  NoDup (lp_ID <$> ps) /\ forall p, p ∈ ps -> exists vid, known3DPrinterVendorIDs !! vid = Some (lp_Model p).
Proof.
  unfold detect3DLinux. intros -> Hnd [= <-]. split.
  - induction Hnd as [|e names He Hnd IH]; [constructor|]. csimpl.
    destruct (serial_printer e) as [p|] eqn:Hp; [|done]. csimpl. constructor; [|done].
    intros (q & Heq & Hq)%list_elem_of_fmap. apply list_elem_of_omap in Hq as (e' & He' & Hq).
    apply serial_printer_id in Hp as [Hp _]. apply serial_printer_id in Hq as [Hq _]. rewrite Hp, Hq in Heq.
    apply (inj (String.append "usb:")) in Heq as ->. by apply He.
  - intros p (e & _ & Hp)%list_elem_of_omap. by apply serial_printer_id in Hp as (_ & _ & ?).
Qed.

Definition sample_queues : list Queue :=
  [mkQueue "Laser" "is idle." ["	Form mounted:"] "HP LaserJet 4" ["	Alerts: none"];
   mkQueue "Photo" "disabled since Tue -" [] "" []].

Lemma lpstat_roundtrip_witness :
  parseLpstatOutput (print_queues sample_queues) =
    [mkLocalPrinter "cups:Laser" PrinterKindTraditional "Laser" "HP LaserJet 4" "";
     mkLocalPrinter "cups:Photo" PrinterKindTraditional "Photo" "" ""].
Proof.
  rewrite (lpstat_roundtrip sample_queues); [reflexivity|].
  repeat constructor; try reflexivity; try discriminate.
Defined.
