(* ===== verification/PrintersWindows.v ===== *)
(** Detection of printers on Windows: internal/agent/printers_windows.go.

    PowerShell and the decoding of its JSON are parameters; upper case is that of
    ASCII. *)
From Stdlib Require Import Ascii.
From S2P Require Import Prelude Float64 Workload Sounding Registry Scheduler Database Lifecycle Effects.
From S2P Require Import Encoding Sha256 Token Allowlist Orchestrator Dispatch Http Session Notify NodesApi Adapter Portal.
From S2P Require Import NodeAgent Templates Printers.
Local Open Scope string_scope.
Local Open Scope list_scope.
Local Open Scope Z_scope.

(** Any error of the command is returned. *)
Definition runPowerShell (out : CmdResult) : option string :=
  match out with CmdOut s => Some (TrimSpace s) | _ => None end.

(** One result is printed as an object, several as an array. *)
Definition as_array (out : string) : string :=
  if String.prefix "[" out then out else "[" +:+ out +:+ "]".

(** What both detections do with the output of their script. *)
Definition run_script {A} (Unmarshal : string -> option (list A)) (printers_of : list A -> list PrinterInfo)
    (out : CmdResult) : result unit (list PrinterInfo) :=
  match runPowerShell out with
  | None => Err tt
  | Some out =>
      if bool_decide (out = "") then Ok []
      else match Unmarshal (as_array out) with
      | None => Err tt
      | Some raw => Ok (printers_of raw)
      end
  end.

(** ** Print queues *)

Record winPrinter := mkWinPrinter {
  wp_Name : string; wp_DriverName : string; wp_PortName : string; wp_ShareName : string;
  wp_PrinterStatus : Z; wp_DeviceType : string; wp_PNPDeviceID : string }.

Definition win_queue (p : winPrinter) : PrinterInfo :=
  let id := if bool_decide (wp_PNPDeviceID p = "") then "name:" +:+ wp_Name p else wp_PNPDeviceID p in
  mkLocalPrinter id PrinterKindTraditional (wp_Name p) (wp_DriverName p) (wp_ShareName p).

Definition detectTraditionalWindows (Unmarshal : string -> option (list winPrinter)) (out : CmdResult) :
    result unit (list PrinterInfo) :=
  run_script Unmarshal (fmap win_queue) out.

(** ** Serial devices *)

(** [strings.Index] *)
Fixpoint Index (s sub : string) : option nat :=
  if String.prefix sub s then Some 0%nat
  else match s with "" => None | String.String _ s' => S <$> Index s' sub end.

Definition extractVIDFromInstanceID (instanceID : string) : string :=
  match Index instanceID "VID_" with
  | None => ""
  | Some idx =>
      let start := (idx + 4)%nat in
      if (String.length instanceID <? start + 4)%nat then "" else ToUpper (String.substring start 4 instanceID)
  end.

Record winSerialDevice := mkWinSerial {
  ws_InstanceId : string; ws_FriendlyName : string; ws_Manufacturer : string; ws_Status : string }.

Definition win_serial (d : winSerialDevice) : option PrinterInfo :=
  let vid := extractVIDFromInstanceID (ws_InstanceId d) in
  if bool_decide (vid = "") then None
  else
    vendor ← known3DPrinterVendorIDs !! vid;
    let name := if bool_decide (ws_FriendlyName d = "") then vendor +:+ " device" else ws_FriendlyName d in
    Some (mkLocalPrinter (ws_InstanceId d) PrinterKind3D name vendor "").

Definition detect3DWindows (Unmarshal : string -> option (list winSerialDevice)) (out : CmdResult) :
    result unit (list PrinterInfo) :=
  run_script Unmarshal (omap win_serial) out.

(** ** Vendors *)

Lemma prefix_false a s sub : lacks a s = true -> forall t, s <> "" -> String.prefix (String.String a sub) (s +:+ t) = false.
Proof.
  destruct s as [|b s]; [done|]. cbn [lacks]. intros [Hb _]%andb_true_iff t _.
  change (String.String b s +:+ t) with (String.String b (s +:+ t)). cbn [String.prefix].
  destruct (ascii_dec a b) as [->|]; [|done]. by rewrite Ascii.eqb_refl in Hb.
Qed.

Lemma Index_app a sub s t : lacks a s = true ->
  Index (s +:+ String.String a sub +:+ t) (String.String a sub) = Some (String.length s).
Proof.
  induction s as [|b s IH]; intros Hs.
  - change ("" +:+ String.String a sub +:+ t) with (String.String a sub +:+ t).
    pose proof (prefix_app (String.String a sub) t) as Hp.
    change (String.String a sub +:+ t) with (String.String a (sub +:+ t)) in *. cbn [Index]. by rewrite Hp.
  - pose proof (prefix_false a (String.String b s) sub Hs (String.String a sub +:+ t)) as Hp.
    change (String.String b s +:+ String.String a sub +:+ t) with (String.String b (s +:+ String.String a sub +:+ t)) in *.
    cbn [Index]. rewrite Hp by done. cbn [lacks] in Hs. apply andb_true_iff in Hs as [_ Hs]. by rewrite IH.
Qed.

Lemma substring_skip s n t : String.substring (String.length s) n (s +:+ t) = String.substring 0 n t.
Proof. induction s as [|a s IH]; [done|exact IH]. Qed.

(** The vendor of a device identifier is found whatever surrounds it, in upper
    case. *)
Lemma vendor_of_instance bus vid rest : lacks "V" bus = true -> String.length vid = 4%nat ->
  extractVIDFromInstanceID (bus +:+ "VID_" +:+ vid +:+ rest) = ToUpper vid.
Proof.
  intros Hb Hv. unfold extractVIDFromInstanceID.
  pose proof (Index_app "V" "ID_" bus (vid +:+ rest) Hb) as Hi.
  change (String.String "V" "ID_") with "VID_" in Hi. rewrite Hi.
  destruct (Nat.ltb_spec (String.length (bus +:+ "VID_" +:+ vid +:+ rest)) (String.length bus + 4 + 4)) as [Hl|_].
  { rewrite !length_append in Hl. simpl in Hl. lia. }
  f_equal. replace (String.length bus + 4)%nat with (String.length (bus +:+ "VID_")) by (by rewrite length_append).
  rewrite <- (append_assoc bus), substring_skip, <- Hv. apply substring_prefix.
Qed.

Example windows_devices :
  (win_serial (mkWinSerial "USB\VID_2c99&PID_0002\CZPX" "" "Prusa" "OK"), win_serial (mkWinSerial "USB\ROOT_HUB30\4" "Hub" "" "OK"),
   extractVIDFromInstanceID "USB\VID_2C", win_queue (mkWinPrinter "Laser" "HP" "USB001" "" 0 "" "")) =
  (Some (mkLocalPrinter "USB\VID_2c99&PID_0002\CZPX" PrinterKind3D "Prusa Research device" "Prusa Research" ""), None,
   "", mkLocalPrinter "name:Laser" PrinterKindTraditional "Laser" "HP" "").
Proof. vm_compute. reflexivity. Qed.
