(* ===== verification/Site.v ===== *)
(** The public site's backend, cmd/sitesvc/main.go: the waiting list, kept as lines
    of JSON in a file, and the cached news feed.

    Parameters: [encoding/json] and the folding of case ([JsonLines]), the file
    system's failures (a [FileEvent] per signup), and the documents the news
    source returns.  White space is that of ASCII. *)
From Stdlib Require Import Ascii.
From S2P Require Import Prelude Float64 Workload Sounding Registry Scheduler Database Lifecycle Effects.
From S2P Require Import Encoding Sha256 Token Allowlist Orchestrator Operator Dispatch Http Session Limits Notify.
From S2P Require Import NodesApi Adapter Portal NodeAgent Profile Format Templates Printers Mux.
Local Open Scope string_scope.
Local Open Scope list_scope.
Local Open Scope Z_scope.

(** ** The waiting list *)

Record waitlistEntry := mkWaitlistEntry { we_Email : string; we_Note : string; we_At : string }.

(** [json.Marshal], [Decoder.Decode] (the next value of a text and what is left of
    it) and [strings.EqualFold]. *)
Class JsonLines := {
  json_Marshal : waitlistEntry -> string;
  dec_Decode : string -> option (waitlistEntry * string);
  EqualFold : string -> string -> bool }.

(** [strings.LastIndexByte] *)
Definition LastIndexByte (s : string) (c : ascii) : Z :=
  let i := indexByte (string_rev s) c in
  if i <? 0 then -1 else Z.of_nat (String.length s) - 1 - i.
Definition ContainsAny (s chars : string) : bool :=
  existsb (fun a => negb (lacks a s)) (String.list_ascii_of_string chars).
Definition blanks_and_brackets : string := " <>" +:+ String.String "009" (String.String CR (String.String LF "")).

Definition looksLikeEmail (s : string) : bool :=
  let s := TrimSpace s in
  let at_ := indexByte s "@" in
  let dot := LastIndexByte s "." in
  let len := Z.of_nat (String.length s) in
  (6 <=? len) && (len <=? 254) && (0 <? at_) && (at_ + 1 <? dot) && (dot <? len - 1) &&
  negb (ContainsAny s blanks_and_brackets).

(** What the file system does during one signup: whether the file opens for
    reading, how many bytes of it can be read ([None]: all), whether it opens for
    appending and how many bytes a failing write leaves ([None]: it succeeds). *)
Record FileEvent := mkFileEvent {
  fe_open : bool; fe_read : option nat; fe_append : bool; fe_write : option nat }.

Section Waitlist.
Context `{JsonLines}.

(** The loop of [already]: every value takes at least one byte, so the length of
    the text is enough fuel. *)
Fixpoint decode_until (fuel : nat) (email text : string) : bool :=
  match fuel with
  | O => false
  | S fuel' =>
      match dec_Decode text with
      | None => false
      | Some (e, rest) => EqualFold (we_Email e) email || decode_until fuel' email rest
      end
  end.

(** [None] is a file that does not exist. *)
Definition already (ev : FileEvent) (file : option string) (email : string) : bool :=
  match file with
  | Some text =>
      if fe_open ev then
        let text := match fe_read ev with None => text | Some n => String.substring 0 n text end in
        decode_until (S (String.length text)) email text
      else false
  | None => false
  end.

Definition entry_line (e : waitlistEntry) : string := json_Marshal e +:+ String.String LF "".

Definition add (ev : FileEvent) (email note at_ : string) (file : option string) : bool * option string :=
  if already ev file email then (true, file)
  else if negb (fe_append ev) then (false, file)
  else
    let text := default "" file in
    let line := entry_line (mkWaitlistEntry email note at_) in
    match fe_write ev with
    | None => (true, Some (text +:+ line))
    | Some n => (false, Some (text +:+ String.substring 0 n line))
    end.

(** A request: its method, the decoded body and the time. *)
Record Signup := mkSignup { su_method : string; su_body : option (string * string); su_now : Z }.

Definition handle (ev : FileEvent) (r : Signup) (file : option string) : Z * option string :=
  if negb (bool_decide (su_method r = "POST")) then (405, file)
  else match su_body r with
  | None => (StatusBadRequest, file)
  | Some (email, note) =>
      let email := TrimSpace email in
      if negb (looksLikeEmail email) then (StatusBadRequest, file)
      else
        let note := if 500 <? Z.of_nat (String.length note) then String.substring 0 500 note else note in
        let '(ok, file) := add ev email note (FormatRFC3339 (su_now r)) file in
        (if ok then 200 else StatusInternalServerError, file)
  end.

(** Signups one after the other, as the mutex makes them, with their answers. *)
Fixpoint signups (rs : list (FileEvent * Signup)) (file : option string) : list Z * option string :=
  match rs with
  | [] => ([], file)
  | (ev, r) :: rs' =>
      let '(code, file) := handle ev r file in
      let '(codes, file) := signups rs' file in (code :: codes, file)
  end.

End Waitlist.

(** ** The news *)

Record RssItem := mkRssItem { ri_Title : string; ri_Link : string; ri_PubDate : string; ri_Source : string }.
Record newsItem := mkNewsItem { ni_Title : string; ni_Source : string; ni_URL : string; ni_Published : string }.

Definition drop_string (n : nat) (s : string) : string := String.substring n (String.length s - n) s.

(** A headline with its source, or nothing. *)
Definition news_item (it : RssItem) : option newsItem :=
  let title := TrimSpace (ri_Title it) in
  if bool_decide (title = "") then None
  else
    let src := TrimSpace (ri_Source it) in
    let '(title, src) :=
      if bool_decide (src = "") then
        match LastIndex " - " title with
        | Some (S i) => (TrimSpace (String.substring 0 (S i) title), TrimSpace (drop_string (S i + 3) title))
        | _ => (title, src)
        end
      else (title, src) in
    Some (mkNewsItem title src (TrimSpace (ri_Link it)) (TrimSpace (ri_PubDate it))).

(** The loop over the items, which checks the limit after it appended. *)
Fixpoint news_loop (max : nat) (out : list newsItem) (items : list RssItem) : list newsItem :=
  match items with
  | [] => out
  | it :: items' =>
      match news_item it with
      | None => news_loop max out items'
      | Some n => let out := out ++ [n] in if (max <=? length out)%nat then out else news_loop max out items'
      end
  end.

(** What the request comes back with. *)
Inductive Fetched := FetchError | FetchStatus (code : Z) | FetchBroken | FetchDoc (items : list RssItem).

Definition fetchNews (max : nat) (f : Fetched) : option (list newsItem) :=
  match f with
  | FetchDoc items => Some (news_loop max [] items)
  | _ => None
  end.

Record newsCache := mkCache { nc_items : list newsItem; nc_updated : option Z }.
Definition empty_cache : newsCache := mkCache [] None.

(** One round of the loop of [main], with its time. *)
Definition refresh_news (c : newsCache) (round : Z * Fetched) : newsCache :=
  match fetchNews 8 round.2 with
  | Some items => mkCache items (Some round.1)
  | None => c
  end.

(** ** Routes *)

Inductive SiteHandler := SWaitlist | SNews | SHealthz.
Definition site_routes : list (Pattern * SiteHandler) :=
  [(pattern "POST /api/waitlist", SWaitlist); (pattern "GET /api/news", SNews); (pattern "GET /api/healthz", SHealthz)].

(** ** One line per person *)

(** What the list relies on of JSON: a value ends where it ends, white space
    before a value is skipped, a value takes at least a byte, and what was encoded
    is decoded (an invalid byte becomes the replacement character, which folds with
    it). *)
Definition folds `{JsonLines} (a b : string) : Prop := EqualFold a b = true.

Class JsonLaws `{JsonLines} := {
  fold_equiv : Equivalence folds;
  decode_end : dec_Decode "" = None;
  decode_shrinks : forall s e rest, dec_Decode s = Some (e, rest) -> (String.length rest < String.length s)%nat;
  decode_blank : forall s, dec_Decode (String.String LF s) = dec_Decode s;
  decode_line : forall e rest, exists e',
    dec_Decode (json_Marshal e +:+ String.String LF rest) = Some (e', String.String LF rest) /\
    EqualFold (we_Email e') (we_Email e) = true }.
#[export] Existing Instance fold_equiv.

Lemma append_empty_r s : s +:+ "" = s.
Proof. induction s as [|a s IH]; [done|]. exact (f_equal (String.String a) IH). Qed.

Section Once.
Context `{JsonLaws}.

(** The loop ends: more fuel than the length of the text changes nothing. *)
Lemma decode_until_ends email fuel text : (String.length text < fuel)%nat ->
  decode_until fuel email text = decode_until (S (String.length text)) email text.
Proof.
  revert text. induction fuel as [fuel IH] using lt_wf_ind. intros text Hf.
  destruct fuel as [|fuel]; [lia|]. cbn [decode_until].
  destruct (dec_Decode text) as [[e rest]|] eqn:Hd; [|done]. apply decode_shrinks in Hd.
  f_equal. destruct (decide (fuel = String.length text)) as [->|]; [done|].
  rewrite (IH fuel) by lia. symmetry. apply (IH (String.length text)); lia.
Qed.

Definition on_list (es : list waitlistEntry) (email : string) : bool :=
  existsb (fun e => EqualFold (we_Email e) email) es.
Definition text_of (es : list waitlistEntry) : string := foldr (fun e t => entry_line e +:+ t) "" es.

Lemma fold_trans a b email : EqualFold a b = true -> EqualFold a email = EqualFold b email.
Proof.
  intros Hab. apply eq_true_iff_eq. split; intros Hx.
  - change (folds b email). transitivity a; [symmetry; exact Hab|exact Hx].
  - change (folds a email). transitivity b; [exact Hab|exact Hx].
Qed.

Lemma line_app e t : entry_line e +:+ t = json_Marshal e +:+ String.String LF t.
Proof. unfold entry_line. by rewrite append_assoc. Qed.

Lemma decode_until_list es email fuel : (length es < fuel)%nat ->
  decode_until fuel email (text_of es) = on_list es email.
Proof.
  revert fuel. induction es as [|e es IH]; intros fuel Hf; (destruct fuel as [|fuel]; [lia|]);
    cbn [decode_until text_of foldr on_list existsb]; [by rewrite decode_end|].
  rewrite line_app. destruct (decode_line e (text_of es)) as (e' & Hd & Hfold).
  change (foldr _ "" es) with (text_of es). rewrite Hd. rewrite (fold_trans _ _ _ Hfold). f_equal.
  change (existsb _ es) with (on_list es email). rewrite <- (IH fuel) by (simpl in Hf; lia).
  destruct fuel as [|fuel]; [simpl in Hf; lia|]. cbn [decode_until]. by rewrite decode_blank.
Qed.

Lemma text_of_length es : (length es <= String.length (text_of es))%nat.
Proof.
  induction es as [|e es IH]; [done|]. cbn [text_of foldr length]. unfold entry_line. rewrite !length_append.
  change (foldr _ "" es) with (text_of es). simpl. lia.
Qed.

Lemma text_of_app es fs : text_of (es ++ fs) = text_of es +:+ text_of fs.
Proof.
  induction es as [|e es IH]; [done|]. cbn [app text_of foldr]. change (foldr _ "" (es ++ fs)) with (text_of (es ++ fs)).
  rewrite IH. symmetry. apply append_assoc.
Qed.

(** The file system works: a signup reads the whole file, and a write happens as a
    whole or not at all. *)
Definition sound_event (ev : FileEvent) : Prop :=
  fe_open ev = true /\ fe_read ev = None /\ (fe_write ev = None \/ fe_write ev = Some 0%nat).

Lemma already_exact ev es file email : sound_event ev -> default "" file = text_of es ->
  already ev file email = on_list es email.
Proof.
  intros (Ho & Hr & _) Hf. unfold already. destruct file as [text|]; simpl in Hf; subst.
  - rewrite Ho, Hr. apply decode_until_list. pose proof (text_of_length es). lia.
  - pose proof (text_of_length es) as Hl. rewrite <- Hf in Hl. by destruct es; [|simpl in Hl; lia].
Qed.

(** The person a request signs up. *)
Definition signs_up (r : Signup) (email : string) : Prop :=
  exists raw note, su_body r = Some (raw, note) /\ email = TrimSpace raw /\ looksLikeEmail email = true.

(** One signup adds at most one line, and answers 200 if and only if the person is
    on the list afterwards because of it. *)
Lemma handle_step ev r es file code file' : sound_event ev -> default "" file = text_of es ->
  handle ev r file = (code, file') ->
  exists new, default "" file' = text_of (es ++ new) /\
    (code = 200 -> exists email, signs_up r email /\ on_list (es ++ new) email = true) /\
    (new = [] \/ exists e, new = [e] /\ signs_up r (we_Email e) /\ on_list es (we_Email e) = false).
Proof.
  intros Hev Hf. unfold handle.
  assert (Hsame : default "" file = text_of (es ++ [])) by (by rewrite app_nil_r).
  destruct (negb _); [by intros [= <- <-]; exists []; naive_solver|].
  destruct (su_body r) as [[raw note]|] eqn:Hb; [|by intros [= <- <-]; exists []; naive_solver].
  destruct (looksLikeEmail (TrimSpace raw)) eqn:Hl; cbn [negb]; [|by intros [= <- <-]; exists []; naive_solver].
  assert (Hs : signs_up r (TrimSpace raw)) by (exists raw, note; auto).
  unfold add. rewrite (already_exact ev es) by done. destruct (on_list es (TrimSpace raw)) eqn:Ho.
  { intros [= <- <-]. exists []. split; [done|]. split; [|by left]. rewrite app_nil_r. eauto. }
  destruct (fe_append ev); cbn [negb]; [|by intros [= <- <-]; exists []; naive_solver].
  set (e := mkWaitlistEntry _ _ _). destruct Hev as (_ & _ & [-> | ->]).
  - intros [= <- <-]. exists [e]. cbn [default]. rewrite Hf, text_of_app. split; [|split].
    + change (text_of [e]) with (entry_line e +:+ ""). by rewrite append_empty_r.
    + intros _. exists (TrimSpace raw). split; [done|]. unfold on_list. rewrite existsb_app. cbn [existsb].
      assert (Hr : folds (TrimSpace raw) (TrimSpace raw)) by reflexivity. unfold folds in Hr. simpl. rewrite Hr.
      by rewrite orb_true_r.
    + right. exists e. auto.
  - intros [= <- <-]. exists []. cbn [default]. split; [|naive_solver].
    rewrite app_nil_r, <- Hf. change (String.substring 0 0 _) with (String.substring 0 0 (entry_line e)).
    destruct (entry_line e); exact (append_empty_r _).
Qed.
Lemma on_list_app es fs email : on_list (es ++ fs) email = on_list es email || on_list fs email.
Proof. apply existsb_app. Qed.

(** No two lines are about the same person. *)
Definition distinct (es : list waitlistEntry) : Prop :=
  forall i j a b, (i < j)%nat -> es !! i = Some a -> es !! j = Some b -> EqualFold (we_Email a) (we_Email b) = false.

Lemma distinct_snoc es e : distinct es -> on_list es (we_Email e) = false -> distinct (es ++ [e]).
Proof.
  intros Hd Ho i j a b Hij Hi Hj. apply lookup_snoc_Some in Hj as [[Hl Hj]|[-> <-]].
  - rewrite lookup_app_l in Hi by lia. exact (Hd i j a b Hij Hi Hj).
  - rewrite lookup_app_l in Hi by lia. apply not_true_is_false. intros Hf.
    apply not_true_iff_false in Ho. apply Ho, existsb_exists. exists a. split; [|done].
    apply list_elem_of_In. by eapply list_elem_of_lookup_2.
Qed.

(** What a request that was answered 200 can rely on. *)
Definition listed (es : list waitlistEntry) (x : (FileEvent * Signup) * Z) : Prop :=
  x.2 = 200 -> exists email, signs_up x.1.2 email /\ on_list es email = true.

Lemma signups_run rs es file codes file' : Forall sound_event rs.*1 ->
  default "" file = text_of es -> distinct es -> signups rs file = (codes, file') ->
  exists new, default "" file' = text_of (es ++ new) /\ distinct (es ++ new) /\ length codes = length rs /\
    Forall (listed (es ++ new)) (zip rs codes) /\
    Forall (fun e => exists x, x ∈ rs /\ signs_up x.2 (we_Email e)) new.
Proof.
  revert es file codes. induction rs as [|[ev r] rs IH]; intros es file codes Hev Hf Hd; cbn [signups].
  { intros [= <- <-]. exists []. rewrite app_nil_r. split_and!; try done; constructor. }
  apply Forall_cons in Hev as [Hev Hevs]. destruct (handle ev r file) as [code file1] eqn:Hh.
  destruct (signups rs file1) as [codes1 file2] eqn:Hs. intros [= <- <-].
  destruct (handle_step _ _ _ _ _ _ Hev Hf Hh) as (new & Hf1 & H200 & Hnew).
  assert (Hd1 : distinct (es ++ new)).
  { destruct Hnew as [-> |(e & -> & _ & Ho)]; [by rewrite app_nil_r|by apply distinct_snoc]. }
  destruct (IH _ _ _ Hevs Hf1 Hd1 Hs) as (more & Hf2 & Hd2 & Hlen & Hl & Hm). exists (new ++ more).
  rewrite app_assoc. split_and!; [done|done|by simpl; rewrite Hlen| |].
  - cbn [zip zip_with]. constructor; [|done]. intros Hc. destruct (H200 Hc) as (email & ? & Ho). exists email.
    split; [done|]. by rewrite on_list_app, Ho.
  - apply Forall_app. split.
    + destruct Hnew as [-> |(e & -> & He & _)]; [constructor|]. constructor; [|constructor].
      exists (ev, r). split; [left|done].
    + eapply Forall_impl; [exact Hm|]. intros e (x & Hx & He). exists x. split; [by right|done].
Qed.

(** The waiting list has everyone once.  As long as the file can be read and a line
    is written as a whole or not at all, after any sequence of signups the file is
    a sequence of whole lines, no two of them about the same address up to case,
    every signup that was answered 200 had a plausible address which is on the
    list, and every line is somebody's who signed up. *)
Theorem waitlist_once rs codes file : Forall sound_event rs.*1 -> signups rs None = (codes, file) ->
  exists es, default "" file = text_of es /\ distinct es /\ length codes = length rs /\
    Forall (listed es) (zip rs codes) /\
    Forall (fun e => exists x, x ∈ rs /\ signs_up x.2 (we_Email e)) es.
Proof.
  intros Hev Hs. destruct (signups_run rs [] None codes file) as (es & Hes); [done..| |done|by exists es].
  intros i j a b _ Hi. by rewrite lookup_nil in Hi.
Qed.
End Once.

Lemma handle_append `{JsonLines} ev r file : exists t, default "" (handle ev r file).2 = default "" file +:+ t.
Proof.
  assert (Hkeep : exists t, default "" file = default "" file +:+ t) by (exists ""; symmetry; apply append_empty_r).
  unfold handle. destruct (negb _); [done|]. destruct (su_body r) as [[raw note]|]; [|done].
  destruct (negb _); [done|]. unfold add. destruct (already _ _ _); [done|]. destruct (negb _); [done|].
  destruct (fe_write ev); by eexists.
Qed.

(** Whatever the file system does, nothing that was written is lost. *)
Lemma signups_append `{JsonLines} rs file : exists t, default "" (signups rs file).2 = default "" file +:+ t.
Proof.
  revert file. induction rs as [|[ev r] rs IH]; intros file; cbn [signups].
  { exists "". symmetry. apply append_empty_r. }
  pose proof (handle_append ev r file) as Hstep. destruct (handle ev r file) as [code file1].
  destruct Hstep as [t Ht]. destruct (IH file1) as [u Hu]. destruct (signups rs file1) as [codes file2].
  exists (t +:+ u). simpl in *. rewrite Hu, Ht. apply append_assoc.
Qed.

(** ** The news *)

(** The loop takes the first [max] headlines, and one where the limit is zero. *)
Lemma news_loop_take max items out : (length out < Nat.max 1 max)%nat ->
  news_loop max out items = take (Nat.max 1 max) (out ++ omap news_item items).
Proof.
  revert out. induction items as [|it items IH]; intros out Ho; cbn [news_loop omap list_omap].
  { rewrite app_nil_r, take_ge; [done|lia]. }
  destruct (news_item it) as [n|]; [|by apply IH].
  change (n :: omap news_item items) with ([n] ++ omap news_item items). rewrite app_assoc.
  destruct (Nat.leb_spec max (length (out ++ [n]))) as [Hm|Hm]; rewrite length_app in Hm; simpl in Hm.
  - rewrite take_app_le by (rewrite length_app; simpl; lia). rewrite take_ge; [done|]. rewrite length_app. simpl. lia.
  - apply IH. rewrite length_app. simpl. lia.
Qed.

Lemma trim_left_head a s : is_space a = false -> trim_left (String.String a s) = String.String a s.
Proof. intros Ha. cbn [trim_left]. by rewrite Ha. Qed.

Lemma trim_left_front s a t : trim_left s = String.String a t -> is_space a = false.
Proof.
  induction s as [|b s IH]; [done|]. cbn [trim_left]. destruct (is_space b) eqn:Hb; [exact IH|].
  by intros [= <- _].
Qed.

(** Trimming the right leaves a text that starts with a letter its first letter. *)
Lemma rtrim_front a s : is_space a = false -> exists t, rtrim (String.String a s) = String.String a t.
Proof.
  intros Ha. unfold rtrim. change (String.String a s) with (String.String a "" +:+ s). rewrite string_rev_app.
  change (string_rev (String.String a "")) with (String.String a "").
  assert (Hx : forall r, exists u, trim_left (r +:+ String.String a "") = u +:+ String.String a "").
  { induction r as [|b r [u IH]]; [exists ""; by apply trim_left_head|].
    change (String.String b r +:+ String.String a "") with (String.String b (r +:+ String.String a "")).
    cbn [trim_left]. destruct (is_space b); [by exists u|]. by exists (String.String b r). }
  destruct (Hx (string_rev s)) as [u ->]. rewrite string_rev_app. by eexists.
Qed.

Lemma trim_front a s : is_space a = false -> exists t, TrimSpace (String.String a s) = String.String a t.
Proof. intros Ha. unfold TrimSpace. rewrite trim_left_head by done. by apply rtrim_front. Qed.

Lemma trimmed_front s : TrimSpace s <> "" -> exists a t, TrimSpace s = String.String a t /\ is_space a = false.
Proof.
  unfold TrimSpace. destruct (trim_left s) as [|a t] eqn:Hl; [done|]. intros _.
  pose proof (trim_left_front _ _ _ Hl) as Ha. destruct (rtrim_front a t Ha) as [u Hu].
  exists a, u. split; [exact Hu|exact Ha].
Qed.

(** A headline is never empty, even after its source was cut off. *)
Lemma news_item_title it n : news_item it = Some n -> ni_Title n <> "".
Proof.
  unfold news_item. destruct (decide (TrimSpace (ri_Title it) = "")) as [He|Hne]; [by rewrite bool_decide_eq_true_2|].
  rewrite bool_decide_eq_false_2 by done. destruct (trimmed_front _ Hne) as (a & t & Ht & Ha). rewrite Ht.
  case_bool_decide; [|by intros [= <-]]. destruct (LastIndex " - " (String.String a t)) as [[|i]|]; try by intros [= <-].
  intros [= <-]. cbn [ni_Title String.substring]. destruct (trim_front a (String.substring 0 i t) Ha) as [u ->]. done.
Qed.

(** The cache is what the last fetch that succeeded found, however many failed
    since: at most eight headlines, none of them empty. *)
Lemma news_fail_open rounds c : Forall (fun r => fetchNews 8 r.2 = None) rounds -> foldl refresh_news c rounds = c.
Proof.
  induction 1 as [|r rounds Hr _ IH]; [done|]. cbn [foldl]. unfold refresh_news at 2. by rewrite Hr.
Qed.

Lemma news_cached rounds : let c := foldl refresh_news empty_cache rounds in
  (length (nc_items c) <= 8)%nat /\ Forall (fun n => ni_Title n <> "") (nc_items c).
Proof.
  cbv zeta. assert (He : (length (nc_items empty_cache) <= 8)%nat /\ Forall (fun n => ni_Title n <> "") (nc_items empty_cache))
    by (split; [simpl; lia|constructor]).
  revert He. generalize empty_cache as c. induction rounds as [|r rounds IH]; intros c Hc; [done|]. apply IH.
  unfold refresh_news. destruct r.2 as [| | |items]; simpl; try done. rewrite news_loop_take by (simpl; lia).
  split; [rewrite length_take; lia|]. apply Forall_take, Forall_forall.
  intros n (it & _ & Hn)%list_elem_of_omap. by eapply news_item_title.
Qed.

(** ** A concrete site *)

(** Lines of base64 fields between braces stand for JSON. *)
Definition brace_Marshal (e : waitlistEntry) : string :=
  "{" +:+ RawURLEncode (we_Email e) +:+ "," +:+ RawURLEncode (we_Note e) +:+ "," +:+ RawURLEncode (we_At e) +:+ "}".
Fixpoint skip_lines (s : string) : string :=
  match s with String.String a s' => if Ascii.eqb a LF then skip_lines s' else s | "" => "" end.
Definition brace_Decode (s : string) : option (waitlistEntry * string) :=
  body ← match skip_lines s with String.String "{" body => Some body | _ => None end;
  '(fields, rest) ← cut "}" body;
  '(x, y, z) ← SplitN3 "," fields;
  email ← RawURLDecode x; note ← RawURLDecode y; at_ ← RawURLDecode z;
  Some (mkWaitlistEntry email note at_, rest).
#[export] Instance brace_lines : JsonLines :=
  {| json_Marshal := brace_Marshal; dec_Decode := brace_Decode; EqualFold := fun a b => bool_decide (ToLower a = ToLower b) |}.

Lemma RawURLEncode_lacks c s : Forall (fun z => b64_char url_alphabet z <> c) (seqZ 0 64) ->
  lacks c (RawURLEncode s) = true.
Proof.
  intros Hc. unfold RawURLEncode. apply lacks_list, Forall_fmap.
  eapply Forall_impl; [apply sextets_range, bytes_of_range|]. intros z Hz. rewrite Forall_forall in Hc.
  apply Hc, elem_of_seqZ. unfold is_sextet in Hz. lia.
Qed.
Lemma no_comma s : lacks "," (RawURLEncode s) = true.
Proof. apply RawURLEncode_lacks. apply (bool_decide_unpack _). by vm_compute. Qed.
Lemma no_brace s : lacks "}" (RawURLEncode s) = true.
Proof. apply RawURLEncode_lacks. apply (bool_decide_unpack _). by vm_compute. Qed.

Lemma skip_lines_length s : (String.length (skip_lines s) <= String.length s)%nat.
Proof. induction s as [|a s IH]; [done|]. cbn [skip_lines]. destruct (Ascii.eqb a LF); simpl; lia. Qed.

Lemma brace_line e rest : brace_Decode (brace_Marshal e +:+ String.String LF rest) = Some (e, String.String LF rest).
Proof.
  set (fields := RawURLEncode (we_Email e) +:+ String.String "," (RawURLEncode (we_Note e) +:+
    String.String "," (RawURLEncode (we_At e)))).
  assert (Hm : brace_Marshal e +:+ String.String LF rest =
    String.String "{" (fields +:+ String.String "}" (String.String LF rest))).
  { unfold brace_Marshal, fields. repeat (rewrite append_assoc || rewrite cons_app). reflexivity. }
  rewrite Hm. unfold brace_Decode. cbn [skip_lines]. simpl (Ascii.eqb _ _). cbn iota beta.
  cbn [mbind option_bind]. rewrite cut_app.
  - unfold SplitN3, fields. cbn [mbind option_bind]. rewrite cut_app by apply no_comma. cbn [mbind option_bind].
    rewrite cut_app by apply no_comma. cbn [mbind option_bind]. rewrite !RawURL_roundtrip. by destruct e.
  - unfold fields. rewrite lacks_app. cbn [lacks]. rewrite lacks_app. cbn [lacks]. by rewrite !no_brace.
Qed.

#[export] Instance brace_laws : JsonLaws.
Proof.
  split.
  - unfold folds, EqualFold, brace_lines. split; intros a; [by apply bool_decide_eq_true_2| |].
    + intros b Hab%bool_decide_eq_true. by apply bool_decide_eq_true_2.
    + intros b c Hab%bool_decide_eq_true Hbc%bool_decide_eq_true. apply bool_decide_eq_true_2. congruence.
  - reflexivity.
  - intros s e rest Hd. pose proof (skip_lines_length s). unfold dec_Decode, brace_lines, brace_Decode in Hd.
    apply bind_Some in Hd as (body & Hb & Hd). apply bind_Some in Hd as ([fields r] & Hc & Hd).
    apply bind_Some in Hd as ([[x y] z] & _ & Hd). do 3 apply bind_Some in Hd as (? & _ & Hd). injection Hd as _ ->.
    apply cut_Some in Hc as [-> _]. assert (Hl : String.length (skip_lines s) = S (String.length (fields +:+ String.String "}" rest))).
    { repeat case_match; try discriminate. by injection Hb as ->. }
    rewrite length_append in Hl. simpl in Hl. lia.
  - reflexivity.
  - intros e rest. exists e. split; [apply brace_line|by apply bool_decide_eq_true_2].
Qed.

Definition works : FileEvent := mkFileEvent true None true None.
Definition signup_of (email : string) : Signup := mkSignup "POST" (Some (email, "")) (1700000000 * Second).
Definition addresses (file : option string) : list string :=
  let fix go fuel text := match fuel with
    | O => []
    | S fuel' => match dec_Decode text with Some (e, rest) => we_Email e :: go fuel' rest | None => [] end
    end in
  match file with Some text => go (String.length text) text | None => [] end.

Example waitlist_day :
  let '(codes, file) := signups
    [(works, signup_of " ann@example.org "); (works, signup_of "ANN@example.org"); (works, signup_of "bob@example");
     (mkFileEvent true None false None, signup_of "cy@example.org"); (works, signup_of "bob@example.org")] None in
  codes = [200; 200; 400; 500; 200] /\ addresses file = ["ann@example.org"; "bob@example.org"].
Proof. vm_compute. split; reflexivity. Qed.

(** A write that fails in the middle of a line hides every later line from the
    reader, and from then on the same address is added again and again. *)
Example torn_line_hides_the_rest :
  let torn := mkFileEvent true None true (Some 9%nat) in
  let '(codes, file) := signups
    [(works, signup_of "ann@example.org"); (torn, signup_of "bob@example.org");
     (works, signup_of "cy@example.org"); (works, signup_of "cy@example.org")] None in
  codes = [200; 500; 200; 200] /\ addresses file = ["ann@example.org"] /\
  file = Some (entry_line (mkWaitlistEntry "ann@example.org" "" (FormatRFC3339 (1700000000 * Second))) +:+
    String.substring 0 9 (entry_line (mkWaitlistEntry "bob@example.org" "" (FormatRFC3339 (1700000000 * Second)))) +:+
    entry_line (mkWaitlistEntry "cy@example.org" "" (FormatRFC3339 (1700000000 * Second))) +:+
    entry_line (mkWaitlistEntry "cy@example.org" "" (FormatRFC3339 (1700000000 * Second)))).
Proof. vm_compute. split_and!; reflexivity. Qed.

Example headlines :
  (news_loop 2 [] [mkRssItem " Town says no - The Gazette " "u1" "" ""; mkRssItem "  " "u2" "" "";
     mkRssItem "Water use - again" "u3" "d" "Herald"; mkRssItem "Third" "u4" "" ""], registers site_routes) =
  ([mkNewsItem "Town says no" "The Gazette" "u1" ""; mkNewsItem "Water use - again" "Herald" "u3" "d"], true).
Proof. vm_compute. reflexivity. Qed.

Lemma waitlist_once_witness :
  let rs := [(works, signup_of "ann@example.org"); (works, signup_of "ANN@example.org")] in
  exists es, default "" (signups rs None).2 = text_of es /\ distinct es /\ Forall (listed es) (zip rs (signups rs None).1).
Proof.
  cbv zeta. set (rs := [_; _]).
  destruct (waitlist_once rs (signups rs None).1 (signups rs None).2) as (es & Hf & Hd & _ & Hl & _).
  - repeat constructor; by left.
  - apply surjective_pairing.
  - exact (ex_intro _ es (conj Hf (conj Hd Hl))).
Defined.
