(* ===== verification/AgentLoops.v ===== *)
(** The start of the agent and the telemetry it sends: [waitForSPIRE] and
    [detectHW] of cmd/agent/main.go and internal/agent/telemetry.go.

    The clock, the identity provider and the probes are arguments. *)
From Stdlib Require Import Ascii.
From S2P Require Import Prelude Float64 Workload Sounding Registry Scheduler Database Lifecycle Effects.
From S2P Require Import Encoding Sha256 Token Allowlist Orchestrator Dispatch Http Session Notify NodesApi Adapter.
From S2P Require Import NodeAgent Profile Format.
Local Open Scope string_scope.
Local Open Scope list_scope.
Local Open Scope Z_scope.

(** ** Waiting for the identity provider *)

Definition spireTry : Z := 2 * Second.
Definition spirePause : Z := 2 * Second.

(** A passage of the loop: the clock when it looks at the deadline, whether the
    socket answers, and whether the select ends with the context or the pause. *)
Record Passage := mkPassage { ps_now : Z; ps_ready : bool; ps_done : bool }.
Inductive WaitResult := SpireReady | SpireTimedOut | SpireCancelled.

(** [None]: still waiting after [fuel] passages. *)
Fixpoint waitForSPIRE (fuel : nat) (deadline : Z) (env : nat -> Passage) : option WaitResult :=
  match fuel with
  | O => None
  | S fuel' =>
      let p := env O in
      if deadline <? ps_now p then Some SpireTimedOut
      else if ps_ready p then Some SpireReady
      else if ps_done p then Some SpireCancelled
      else waitForSPIRE fuel' deadline (fun i => env (S i))
  end.

(** Between two looks at the clock lies the pause. *)
Definition pausing (start : Z) (env : nat -> Passage) : Prop :=
  start <= ps_now (env O) /\ forall i, ps_now (env i) + spirePause <= ps_now (env (S i)).

Lemma waits n start deadline env : pausing start env -> deadline < start + Z.of_nat n * spirePause ->
  exists r, waitForSPIRE (S n) deadline env = Some r /\
    match r with
    | SpireTimedOut => exists i, deadline < ps_now (env i) /\ forall j, (j < i)%nat -> ps_ready (env j) = false
    | SpireReady => exists i, ps_ready (env i) = true /\ ps_now (env i) <= deadline
    | SpireCancelled => exists i, ps_done (env i) = true /\ ps_ready (env i) = false
    end.
Proof.
  revert start env. induction n as [|n IH]; intros start env [Hs Hp] Hd; cbn [waitForSPIRE].
  - rewrite (proj2 (Z.ltb_lt _ _)) by lia. eexists. split; [done|]. exists 0%nat. split; [lia|intros; lia].
  - destruct (Z.ltb_spec deadline (ps_now (env 0%nat))) as [Hlate|Hin].
    { eexists. split; [done|]. exists 0%nat. split; [done|intros; lia]. }
    destruct (ps_ready (env 0%nat)) eqn:Hr; [eexists; split; [done|]; by exists 0%nat|].
    destruct (ps_done (env 0%nat)) eqn:Hdn; [eexists; split; [done|]; by exists 0%nat|].
    destruct (IH (start + spirePause) (fun i => env (S i))) as (r & Hw & Hres).
    + split; [specialize (Hp 0%nat); lia|]. intros i. apply (Hp (S i)).
    + lia.
    + exists r. split; [exact Hw|]. destruct r; destruct Hres as (i & Hi & Hj); exists (S i); (split; [done|]); try done.
      intros [|j] Hji; [done|]. apply Hj. lia.
Qed.

(** The wait for the identity provider ends: within a timeout of [k] pauses it
    returns after at most [k + 2] passages, with success only if the socket
    answered before the deadline, and with a timeout only if it never did and the
    deadline has passed. *)
Theorem waitForSPIRE_ends k start timeout env fuel :
  pausing start env -> timeout <= Z.of_nat k * spirePause -> (k + 2 <= fuel)%nat ->
  exists r, waitForSPIRE fuel (start + timeout) env = Some r /\
    match r with
    | SpireTimedOut => exists i, start + timeout < ps_now (env i) /\ forall j, (j < i)%nat -> ps_ready (env j) = false
    | SpireReady => exists i, ps_ready (env i) = true /\ ps_now (env i) <= start + timeout
    | SpireCancelled => exists i, ps_done (env i) = true /\ ps_ready (env i) = false
    end.
Proof.
  intros Hp Ht Hf. replace fuel with (S (fuel - 1)) by lia. apply (waits _ start); [done|].
  unfold spirePause, Second in *. lia.
Qed.

(** The fallback of [detectHW]: what the probe found (its error is logged), or the
    platform alone when it took more than fifteen seconds or the agent stops. *)
Inductive DetectOutcome := Detected (hw : AgentHardware) | DetectTimeout | DetectStopped.
Definition detectHW (goos goarch : string) (o : DetectOutcome) : AgentHardware :=
  match o with
  | Detected hw => hw
  | DetectTimeout | DetectStopped => mkAgentHardware 0 0 false "" 0 0 goos goarch []
  end.

(** ** Telemetry *)

Record TelemetryPayload := mkTelemetry {
  tp_NodeID : string; tp_JobID : string; tp_CPUPct : float64; tp_RAMPct : float64; tp_BandwidthMbps : Z;
  tp_Timestamp : Z; tp_Signature : string }.

Definition readings (p : TelemetryPayload) : string :=
  FormatFixed 2 (tp_CPUPct p) +:+ "|" +:+ FormatFixed 2 (tp_RAMPct p) +:+ "|" +:+ FormatRFC3339 (tp_Timestamp p).
Definition telemetry_raw (p : TelemetryPayload) : string :=
  tp_NodeID p +:+ "|" +:+ tp_JobID p +:+ "|" +:+ readings p.

(** [mac] is HMAC-SHA256 with the agent's secret. *)
Section Telemetry.
Context (mac : string -> string).

Definition SignTelemetry (p : TelemetryPayload) : result string TelemetryPayload :=
  if bool_decide (tp_NodeID p = "") || bool_decide (tp_JobID p = "")
  then Err "sign telemetry: NodeID and JobID must not be empty"
  else
    let encoded := RawURLEncode (telemetry_raw p) in
    Ok (mkTelemetry (tp_NodeID p) (tp_JobID p) (tp_CPUPct p) (tp_RAMPct p) (tp_BandwidthMbps p) (tp_Timestamp p)
          (RawURLEncode (mac encoded))).

(** The two samples of the host; the first may be empty. *)
Definition CollectTelemetry (cpu : option (list float64)) (mem : option float64) (now : Z) (nodeID jobID : string) :
    result string TelemetryPayload :=
  match cpu with
  | None => Err "collect telemetry: cpu percent"
  | Some pcts =>
      match mem with
      | None => Err "collect telemetry: memory"
      | Some used => SignTelemetry (mkTelemetry nodeID jobID (default f64_zero (head pcts)) used 0 now "")
      end
  end.

(** The path it is posted to, and what is made of the answer: [None] is a
    transport error. *)
Definition telemetry_path (p : TelemetryPayload) : string := "/jobs/" +:+ tp_JobID p +:+ "/telemetry".
Definition EmitTelemetry (answer : string -> TelemetryPayload -> option Z) (p : TelemetryPayload) : result string unit :=
  match answer (telemetry_path p) p with
  | None => Err "emit telemetry"
  | Some code => if code =? 200 then Ok tt else Err "emit telemetry: unexpected status"
  end.

(** What is signed tells records apart: two records whose node and job ids lack
    the separator and that are signed over the same text are of the same node and
    job, and show the same readings at the same second. *)
Theorem telemetry_text_determines p q :
  lacks "|" (tp_NodeID p) = true -> lacks "|" (tp_NodeID q) = true ->
  lacks "|" (tp_JobID p) = true -> lacks "|" (tp_JobID q) = true ->
  RawURLEncode (telemetry_raw p) = RawURLEncode (telemetry_raw q) ->
  tp_NodeID p = tp_NodeID q /\ tp_JobID p = tp_JobID q /\ readings p = readings q.
Proof.
  intros Hn Hn' Hj Hj' He.
  assert (Hraw : telemetry_raw p = telemetry_raw q).
  { apply (f_equal RawURLDecode) in He. rewrite !RawURL_roundtrip in He. by injection He. }
  apply (f_equal (cut "|")) in Hraw. unfold telemetry_raw in Hraw. rewrite !sep_app in Hraw.
  rewrite !cut_app in Hraw by done. injection Hraw as -> Hrest.
  apply (f_equal (cut "|")) in Hrest. rewrite !cut_app in Hrest by done. injection Hrest as -> ->. done.
Qed.
End Telemetry.

Definition sample_record (bandwidth : Z) : TelemetryPayload :=
  mkTelemetry "n1" "job" (f64_lit 25 2) (f64_of_Z 40) bandwidth (1700000000 * Second) "".

(** The bandwidth is sent with the record but not signed. *)
Example bandwidth_unsigned mac :
  match SignTelemetry mac (sample_record 0), SignTelemetry mac (sample_record 900) with
  | Ok p, Ok q => tp_Signature p = tp_Signature q
  | _, _ => False
  end.
Proof. reflexivity. Qed.

Example canonical_text : telemetry_raw (sample_record 0) = "n1|job|12.50|40.00|2023-11-14T22:13:20Z".
Proof. vm_compute. reflexivity. Qed.

Lemma telemetry_text_determines_witness :
  telemetry_raw (sample_record 0) = telemetry_raw (sample_record 900) /\
  readings (sample_record 0) = readings (sample_record 900).
Proof.
  split; [reflexivity|].
  apply (telemetry_text_determines (sample_record 0) (sample_record 900)); reflexivity.
Defined.

(** A socket that answers on the third try. *)
Definition third_try (i : nat) : Passage := mkPassage (Z.of_nat i * spirePause) (bool_decide (i = 2%nat)) false.

Lemma waitForSPIRE_ends_witness :
  waitForSPIRE 32 (0 + 60 * Second) third_try = Some SpireReady /\
  exists r, waitForSPIRE 32 (0 + 60 * Second) third_try = Some r.
Proof.
  split; [reflexivity|].
  destruct (waitForSPIRE_ends 30 0 (60 * Second) third_try 32) as (r & Hr & _); [|unfold spirePause, Second; lia|lia|by exists r].
  split; [reflexivity|]. intros i. unfold third_try. simpl. lia.
Defined.
