(* ===== verification/Task.v ===== *)
(** Processes as programs: a task asks the outside world through calls and ends with
    a result or with an exit status.

    A call is answered by a handler that may keep any state, so that a theorem
    about every answer holds whatever the environment, the database and the network
    do; the trace records the calls with their answers. *)
From S2P Require Import Prelude.
Local Open Scope list_scope.

Inductive task (E : Type -> Type) (A : Type) : Type :=
| Done (a : A)
| Exit (code : Z)
| Perform {X : Type} (e : E X) (k : X -> task E A).
Arguments Done {E A} a.
Arguments Exit {E A} code.
Arguments Perform {E A X} e k.

Fixpoint task_bind {E A B} (t : task E A) (f : A -> task E B) : task E B :=
  match t with
  | Done a => f a
  | Exit code => Exit code
  | Perform e k => Perform e (fun x => task_bind (k x) f)
  end.
#[export] Instance task_ret {E} : MRet (task E) := fun A => Done.
#[export] Instance task_mbind {E} : MBind (task E) := fun A B f t => task_bind t f.

Definition perform {E : Type -> Type} {X} (e : E X) : task E X := Perform e Done.

(** ** Runs *)

Inductive Ending (A : Type) := Finished (a : A) | Exited (code : Z).
Arguments Finished {A} a.
Arguments Exited {A} code.

Inductive Step (E : Type -> Type) : Type := Did (X : Type) (e : E X) (x : X).
Arguments Did {E X} e x.

Fixpoint drive {E : Type -> Type} {S A} (h : forall X, E X -> S -> X * S) (t : task E A) (s : S) :
    Ending A * list (Step E) * S :=
  match t with
  | Done a => (Finished a, [], s)
  | Exit code => (Exited code, [], s)
  | Perform e k =>
      let '(x, s1) := h _ e s in
      let '(r, tr, s2) := drive h (k x) s1 in (r, Did e x :: tr, s2)
  end.

(** ** Whatever is answered *)

(** Every run ends in an ending and a trace that satisfy [Q]; [tr] is the trace so
    far. *)
Fixpoint every {E : Type -> Type} {A} (t : task E A) (tr : list (Step E)) (Q : Ending A -> list (Step E) -> Prop) : Prop :=
  match t with
  | Done a => Q (Finished a) tr
  | Exit code => Q (Exited code) tr
  | Perform e k => forall x, every (k x) (tr ++ [Did e x]) Q
  end.
Arguments every {E A} t tr Q : simpl never.

Section Every.
Context {E : Type -> Type}.

Lemma every_bind {A B} (t : task E A) (f : A -> task E B) tr Q :
  every t tr (fun r tr' => match r with Finished a => every (f a) tr' Q | Exited code => Q (Exited code) tr' end) ->
  every (t ≫= f) tr Q.
Proof.
  unfold mbind, task_mbind. revert tr. induction t as [a|code|X e k IH]; intros tr; [done|done|].
  intros Ht x. apply IH, Ht.
Qed.

Lemma every_perform {X A} (e : E X) (f : X -> task E A) tr Q :
  (forall x, every (f x) (tr ++ [Did e x]) Q) -> every (perform e ≫= f) tr Q.
Proof. done. Qed.

Lemma every_last {X} (e : E X) tr (Q : Ending X -> list (Step E) -> Prop) :
  (forall x, Q (Finished x) (tr ++ [Did e x])) -> every (perform e) tr Q.
Proof. done. Qed.

Lemma every_ret {A} (a : A) tr (Q : Ending A -> list (Step E) -> Prop) : Q (Finished a) tr -> every (mret a) tr Q.
Proof. done. Qed.

Lemma every_ret_bind {A B} (a : A) (f : A -> task E B) tr Q : every (f a) tr Q -> every (mret a ≫= f) tr Q.
Proof. done. Qed.

Lemma every_exit {A} code tr (Q : Ending A -> list (Step E) -> Prop) : Q (Exited code) tr -> every (Exit code) tr Q.
Proof. done. Qed.

Lemma every_mono {A} (t : task E A) tr (Q Q' : Ending A -> list (Step E) -> Prop) :
  every t tr Q -> (forall r tr', Q r tr' -> Q' r tr') -> every t tr Q'.
Proof.
  intros Ht HQ. revert tr Ht. induction t as [a|code|X e k IH]; intros tr Ht; [by apply HQ|by apply HQ|].
  intros x. apply IH, Ht.
Qed.

Lemma every_drive {S A} (h : forall X, E X -> S -> X * S) (t : task E A) s tr Q :
  every t tr Q -> Q (drive h t s).1.1 (tr ++ (drive h t s).1.2).
Proof.
  revert s tr. induction t as [a|code|X e k IH]; intros s tr Ht; simpl; [by rewrite app_nil_r..|].
  destruct (h X e s) as [x s1]. specialize (IH x s1 _ (Ht x)).
  destruct (drive h (k x) s1) as [[r tr'] s2]. simpl in *. by rewrite <- app_assoc in IH.
Qed.

(** Every step of a trace is acceptable after the ones before it. *)
Fixpoint step_by_step (ok : list (Step E) -> Step E -> Prop) (before tr : list (Step E)) : Prop :=
  match tr with
  | [] => True
  | x :: tr' => ok before x /\ step_by_step ok (before ++ [x]) tr'
  end.

Lemma step_by_step_app ok before tr tr' :
  step_by_step ok before (tr ++ tr') <-> step_by_step ok before tr /\ step_by_step ok (before ++ tr) tr'.
Proof.
  revert before. induction tr as [|x tr IH]; intros before; simpl.
  - rewrite app_nil_r. tauto.
  - rewrite IH, <- app_assoc. simpl. tauto.
Qed.

Lemma step_by_step_snoc ok tr x : step_by_step ok [] (tr ++ [x]) <-> step_by_step ok [] tr /\ ok tr x.
Proof. rewrite step_by_step_app. simpl. tauto. Qed.

Lemma step_by_step_at ok before l x r : step_by_step ok before (l ++ x :: r) -> ok (before ++ l) x.
Proof. rewrite step_by_step_app. simpl. tauto. Qed.

(** Every call the task makes is acceptable after the ones before it. *)
Fixpoint guarded {A} (ok : list (Step E) -> Step E -> Prop) (t : task E A) (tr : list (Step E)) : Prop :=
  match t with
  | Done _ | Exit _ => True
  | Perform e k => forall x, ok tr (Did e x) /\ guarded ok (k x) (tr ++ [Did e x])
  end.

Lemma guarded_bind {A B} ok (t : task E A) (f : A -> task E B) tr :
  guarded ok t tr -> every t tr (fun r tr' => forall a, r = Finished a -> guarded ok (f a) tr') ->
  guarded ok (t ≫= f) tr.
Proof.
  unfold mbind, task_mbind. revert tr. induction t as [a|code|X e k IH]; intros tr Ht Hf; [exact (Hf a eq_refl)|done|].
  intros x. destruct (Ht x) as [He Hk]. split; [done|]. by apply IH.
Qed.

Lemma guarded_perform {X A} ok (e : E X) (f : X -> task E A) tr :
  (forall x, ok tr (Did e x)) -> (forall x, guarded ok (f x) (tr ++ [Did e x])) -> guarded ok (perform e ≫= f) tr.
Proof. intros He Hf x. split; [apply He|apply Hf]. Qed.

Lemma guarded_last {X} ok (e : E X) tr : (forall x, ok tr (Did e x)) -> guarded ok (perform e) tr.
Proof. intros He x. split; [apply He|exact I]. Qed.

Lemma guarded_ret {A} ok (a : A) tr : guarded ok (mret a) tr.
Proof. done. Qed.

(** What a part of a task returns, and what its own calls show. *)
Definition gives {A} (t : task E A) (tr : list (Step E)) (P : A -> list (Step E) -> Prop) : Prop :=
  every t tr (fun r tr' => forall a, r = Finished a -> exists l, tr' = tr ++ l /\ P a l).

Lemma guarded_seq {A B} ok (t : task E A) (f : A -> task E B) tr P :
  guarded ok t tr -> gives t tr P -> (forall a l, P a l -> guarded ok (f a) (tr ++ l)) -> guarded ok (t ≫= f) tr.
Proof.
  intros Ht Hg Hf. apply guarded_bind; [done|]. eapply every_mono; [exact Hg|].
  intros r tr' Hr a Ha. destruct (Hr a Ha) as (l & -> & Hl). by apply Hf.
Qed.

Lemma gives_ret {A} (a : A) tr (P : A -> list (Step E) -> Prop) : P a [] -> gives (mret a) tr P.
Proof. intros HP b [= <-]. exists []. by rewrite app_nil_r. Qed.

Lemma gives_exit {A} code tr (P : A -> list (Step E) -> Prop) : gives (Exit code) tr P.
Proof. by intros a. Qed.

Lemma gives_perform {X A} (e : E X) (f : X -> task E A) tr P :
  (forall x, gives (f x) (tr ++ [Did e x]) (fun a l => P a (Did e x :: l))) -> gives (perform e ≫= f) tr P.
Proof.
  intros Hf x. eapply every_mono; [apply (Hf x)|]. intros r tr' Hr a Ha. destruct (Hr a Ha) as (l & -> & Hl).
  exists (Did e x :: l). by rewrite <- app_assoc.
Qed.

Lemma gives_seq {A B} (t : task E A) (f : A -> task E B) tr P Q :
  gives t tr P -> (forall a l, P a l -> gives (f a) (tr ++ l) (fun b k => Q b (l ++ k))) -> gives (t ≫= f) tr Q.
Proof.
  intros Ht Hf. apply every_bind. eapply every_mono; [exact Ht|]. intros [a|code] tr' Hr; [|done].
  destruct (Hr a eq_refl) as (l & -> & Hl). eapply every_mono; [apply (Hf a l Hl)|].
  intros r tr'' Hr' b Hb. destruct (Hr' b Hb) as (k & -> & Hk). exists (l ++ k). by rewrite app_assoc.
Qed.

Lemma guarded_ret_bind {A B} ok (a : A) (f : A -> task E B) tr : guarded ok (f a) tr -> guarded ok (mret a ≫= f) tr.
Proof. done. Qed.

Lemma guarded_drive {S A} ok (h : forall X, E X -> S -> X * S) (t : task E A) s tr :
  guarded ok t tr -> step_by_step ok tr (drive h t s).1.2.
Proof.
  revert s tr. induction t as [a|code|X e k IH]; intros s tr Ht; simpl; [done|done|].
  destruct (h X e s) as [x s1]. destruct (Ht x) as [He Hk]. specialize (IH x s1 _ Hk).
  destruct (drive h (k x) s1) as [[r tr'] s2]. done.
Qed.

(** ** What a task never asks *)

(** Every call satisfies [P]. *)
Fixpoint only (P : forall X, E X -> Prop) {A} (t : task E A) : Prop :=
  match t with
  | Done _ | Exit _ => True
  | Perform e k => P _ e /\ forall x, only P (k x)
  end.

Lemma only_bind (P : forall X, E X -> Prop) {A B} (t : task E A) (f : A -> task E B) :
  only P t -> (forall a, only P (f a)) -> only P (t ≫= f).
Proof.
  unfold mbind, task_mbind. intros Ht Hf. induction t as [a|code|X e k IH]; [by apply Hf|done|].
  destruct Ht as [He Hk]. split; [done|]. intros x. by apply IH.
Qed.

(** Two worlds that answer these calls alike cannot be told apart by the task, and
    the task tells nobody. *)
Lemma only_indistinguishable (P : forall X, E X -> Prop) {S A} (h h' : forall X, E X -> S -> X * S) (t : task E A) s :
  only P t -> (forall X (e : E X) s, P X e -> h X e s = h' X e s) -> drive h t s = drive h' t s.
Proof.
  intros Ht Hh. revert s. induction t as [a|code|X e k IH]; intros s; [done|done|]. destruct Ht as [He Hk].
  simpl. rewrite <- Hh by done. destruct (h X e s) as [x s1]. rewrite (IH x (Hk x)). done.
Qed.

End Every.

Arguments guarded {E A} ok t tr : simpl never.

(** Take the next call of the task, whatever it is answered. *)
Ltac follow :=
  cbn [negb];
  lazymatch goal with
  | |- guarded _ (mret _) _ => apply guarded_ret
  | |- guarded _ (Done _) _ => exact I
  | |- guarded _ (Exit _) _ => exact I
  | |- guarded _ (perform _) _ => apply guarded_last
  | |- guarded _ (perform _ ≫= _) _ => apply guarded_perform
  | |- guarded _ (mret _ ≫= _) _ => apply guarded_ret_bind
  | |- guarded _ (_ ≫= _) _ => apply guarded_bind
  | |- every (mret _) _ _ => apply every_ret
  | |- every (Done _) _ _ => apply every_ret
  | |- every (Exit _) _ _ => apply every_exit
  | |- every (perform _) _ _ => apply every_last
  | |- every (perform _ ≫= _) _ _ => apply every_perform
  | |- every (mret _ ≫= _) _ _ => apply every_ret_bind
  | |- every (_ ≫= _) _ _ => apply every_bind
  end.
