(* ===== verification/Keys.v ===== *)
(** The keys the processes are started with: hexadecimal text in the environment
    ([mustHex] and [mustEd25519Key] of cmd/orchestrator, cmd/portal and cmd/governance),
    and the tool that prints such a key (scripts/genkey).

    The three loaders are the same function but for the text they sign as a self
    test. *)
From Stdlib Require Import Ascii.
From S2P Require Import Prelude Encoding Sha256 Loopback.
Local Open Scope string_scope.
Local Open Scope list_scope.
Local Open Scope Z_scope.

(** ** encoding/hex *)

(** [hex.DecodeString]: pairs of digits, [None] for an odd length or another byte. *)
Fixpoint hex_pairs (l : list ascii) : option (list Z) :=
  match l with
  | [] => Some []
  | a :: b :: l' => hi ← hex_val a; lo ← hex_val b; rest ← hex_pairs l'; Some (hi * 16 + lo :: rest)
  | [_] => None
  end.
Definition hex_decode (s : string) : option string := string_of <$> hex_pairs (chars s).

Lemma hex_val_digit z : 0 <= z < 16 -> hex_val (hex_digit z) = Some z.
Proof.
  intros Hz. assert (Hall : Forall (fun z => hex_val (hex_digit z) = Some z) (seqZ 0 16)).
  { vm_compute seqZ. repeat (constructor; [reflexivity|]). constructor. }
  rewrite Forall_forall in Hall. apply Hall, elem_of_seqZ. lia.
Qed.

Lemma hex_pairs_encode l : Forall is_byte l ->
  hex_pairs (l ≫= fun b => [hex_digit (b / 16); hex_digit (b mod 16)]) = Some l.
Proof.
  induction 1 as [|b l Hb _ IH]; [done|]. unfold is_byte in Hb. cbn [mbind list_bind app hex_pairs].
  rewrite !hex_val_digit by (split; [apply Z.div_pos || apply Z.mod_pos_bound|apply Z.div_lt_upper_bound || apply Z.mod_pos_bound]; lia).
  cbn [mbind option_bind]. rewrite IH. cbn [mbind option_bind]. do 2 f_equal.
  pose proof (Z.div_mod b 16). lia.
Qed.

Lemma hex_roundtrip s : hex_decode (hex_encode s) = Some s.
Proof.
  unfold hex_decode, hex_encode. rewrite String.list_ascii_of_string_of_list_ascii, hex_pairs_encode.
  - cbn. by rewrite string_of_bytes.
  - apply Forall_fmap, Forall_true. intros a. apply byte_of_range.
Qed.

(** ** Loading a key *)

Section Load.
Context `{SigningKey}.

Inductive KeyError := InvalidHex | WrongLength (n : Z) | NoPublicHalf | SelfTestFailed.

(** The bytes behind the text, if a signature with them verifies. *)
Definition load_key (probe raw : string) : result KeyError string :=
  match hex_decode raw with
  | None => Err InvalidHex
  | Some b =>
      if negb (Z.of_nat (String.length b) =? PrivateKeySize) then Err (WrongLength (Z.of_nat (String.length b)))
      else match Public b with
      | None => Err NoPublicHalf
      | Some pub => if negb (VerifyWith pub probe (SignWith b probe)) then Err SelfTestFailed else Ok b
      end
  end.

(** What a loaded key is known to be. *)
Definition tested_key (probe raw key : string) : Prop :=
  hex_decode raw = Some key /\ Z.of_nat (String.length key) = PrivateKeySize /\
  exists pub, Public key = Some pub /\ VerifyWith pub probe (SignWith key probe) = true.

Lemma load_key_ok probe raw key : load_key probe raw = Ok key <-> tested_key probe raw key.
Proof.
  unfold load_key, tested_key. split.
  - destruct (hex_decode raw) as [b|]; [|done]. destruct (Z.eqb_spec (Z.of_nat (String.length b)) PrivateKeySize); [|done].
    cbn [negb]. destruct (Public b) as [pub|] eqn:Hp; [|done].
    destruct (VerifyWith pub probe (SignWith b probe)) eqn:Hv; [|done]. intros [= <-]. eauto.
  - intros (-> & -> & pub & -> & ->). done.
Qed.

(** Ed25519 as its package documents it: a generated key has the size of a key, and
    what it signs verifies under its public half. *)
Class LawfulKeys (generated : string -> Prop) := {
  generated_size key : generated key -> Z.of_nat (String.length key) = PrivateKeySize;
  generated_signs key msg : generated key ->
    exists pub, Public key = Some pub /\ VerifyWith pub msg (SignWith key msg) = true }.

(** scripts/genkey: the line it prints, [None] when the generator fails. *)
Definition genkey (generate : option string) : option string :=
  priv ← generate; Some (hex_encode priv +:+ String.String "010" "").

(** What the tool prints on its line is what every loader accepts, and as the key
    that was generated. *)
Lemma genkey_loads (generated : string -> Prop) `{!LawfulKeys generated} priv probe : generated priv ->
  exists line, genkey (Some priv) = Some (line +:+ String.String "010" "") /\ load_key probe line = Ok priv.
Proof.
  intros Hg. exists (hex_encode priv). split; [done|]. apply load_key_ok. split; [apply hex_roundtrip|].
  split; [by apply generated_size|by apply generated_signs].
Qed.

(** A key that the governance loader accepts is accepted by the server it is given
    to: the constructor can only refuse the address. *)
Lemma loaded_key_serves (Hlen : forall k, key_len k = Z.of_nat (String.length k)) raw key addr id :
  load_key probe raw = Ok key ->
  NewGovernanceServer (mkGovConfig addr id key) =
    if isLoopbackAddr addr then Ok (mkGovServer addr id key) else Err ErrGovernanceNotLoopback.
Proof.
  intros (_ & Hl & pub & Hp & Hv)%load_key_ok. unfold NewGovernanceServer. cbn [gc_Addr gc_CoordinatorID gc_CoordinatorKey].
  destruct (isLoopbackAddr addr); [|done]. cbn [negb]. rewrite Hlen, Hl, Z.eqb_refl. cbn [negb]. by rewrite Hp, Hv.
Qed.

End Load.
