(* ===== verification/Startup.v ===== *)
(** How the three server processes start and stop: cmd/orchestrator/main.go,
    cmd/portal/main.go and cmd/governance/main.go, with internal/store/db.go
    ([Connect], [RunMigrations]), the constructors of internal/api/server.go,
    internal_server.go, governance_console.go, operator_console.go and of the
    notifier, and the identity source.

    A process is a task whose calls ask the environment, the database, the identity
    provider and the file system, and hand goroutines to the runtime. An exit status
    of 1 is [log.Fatalf] or [os.Exit(1)], of 2 a panic; neither runs the deferred
    calls. *)
From Stdlib Require Import Ascii.
From S2P Require Import Prelude Float64 Workload Sounding Encoding Sha256 Notify Templates PortalPages Loopback Task Keys.
Import Rungs.
Local Open Scope string_scope.
Local Open Scope list_scope.
Local Open Scope Z_scope.

(** ** What the processes construct *)

Record OrchestratorService := mkService {
  sv_tokenSecret : string; sv_allowlistPath : string; sv_printConfirm : bool; sv_window : Z; sv_ladder : Ladder }.

(** [protocoladapter.New] *)
Record ProtocolAdapter := mkProtocolAdapter {
  pa_coordinatorID : string; pa_key : string; pa_tokenSecret : string }.

(** [api.New]; [as_identity] is whether [idSource] is set. *)
Record APIServer := mkAPIServer {
  as_addr : string; as_metricsAddr : string; as_allowlistPath : string; as_identity : bool;
  as_adapter : ProtocolAdapter; as_coordinatorID : string }.

(** [api.NewInternal] *)
Record InternalAPIServer := mkInternalServer { is_orch : OrchestratorService; is_addr : string }.

Inductive Notifier := LogNotifier | SMTPNotifier (cfg : SMTPConfig).

(** [api.NewOnboardingServer] after [ConfigureConsole]. *)
Record OnboardingServer := mkOnboarding {
  ob_notifier : Notifier; ob_templatePaths : list string; ob_coordinatorID : string }.

(** [portal.New] with [WithOperatorConsole]. *)
Record PortalServer := mkPortalServer {
  ps_addr : string; ps_metricsAddr : string; ps_sessionKey : string; ps_stripeKey : string;
  ps_webhookSecret : string; ps_baseURL : string; ps_orchURL : string; ps_templatePaths : list string;
  ps_console : OnboardingServer }.

(** The governance server with its console. *)
Record GovernanceService := mkGovernanceService {
  gv_server : GovernanceServer; gv_notifier : Notifier; gv_templatePaths : list string;
  gv_staticDir : string; gv_sounding : bool }.

(** [Start]: how the listener speaks. *)
Inductive Listen := ListenAndServe (addr : string) | ListenAndServeTLS (addr : string).
Definition APIServer_Start (s : APIServer) : Listen :=
  if as_identity s then ListenAndServeTLS (as_addr s) else ListenAndServe (as_addr s).
Definition InternalAPIServer_Start (s : InternalAPIServer) : Listen := ListenAndServe (is_addr s).
Definition PortalServer_Start (s : PortalServer) : Listen := ListenAndServe (ps_addr s).

(** [sounding.DefaultConfig] *)
Record SinkConfig := mkSinkConfig { sc_BufferSize : Z; sc_BatchSize : Z; sc_FlushInterval : Z; sc_WriteTimeout : Z }.
Definition DefaultConfig : SinkConfig := mkSinkConfig 4096 128 (2 * Second) (5 * Second).

(** The goroutines the processes start. *)
Inductive Goroutine :=
| ServeAPI (s : APIServer)
| ServeInternal (s : InternalAPIServer)
| ServePortal (s : PortalServer)
| ServeGovernance (s : GovernanceService)
| ServeMetrics (addr : string)
| SinkWorker (cfg : SinkConfig)
| CapacitySampler (interval : Z)
| EvictionLoop (maxAge : Z)
| DeclineRerouteLoop (o : OrchestratorService)
| UptimeScorer (interval : Z)
| PayoutReleaser (stripeKey : string) (interval : Z)
| NodeGauge.

(** [m.Up]: migrations applied, nothing to apply, or an error. *)
Inductive UpResult := Applied | ErrNoChange | UpFailed.

(** ** The calls *)

Inductive BootE : Type -> Type :=
| Getenv (key : string) : BootE string
| OpenPool (connString : string) : BootE bool
| PingPool : BootE bool
| ClosePool : BootE unit
| MigrationSource : BootE bool
| OpenDBFromPool : BootE unit
| MigrateDriver : BootE bool
| CloseSQL : BootE unit
| NewMigrator : BootE bool
| MigrateUp : BootE UpResult
| MigrateVersion : BootE (option Z)
| CloseMigrator : BootE unit
| NewX509Source (socket : option string) (timeout : Z) : BootE bool
| SelectTiers : BootE (result string (list Tier))
| WalkDir (dir : string) : BootE (list (option (string * bool)))
| Stat (path : string) : BootE bool
| Go (g : Goroutine) : BootE unit
| AwaitDone : BootE unit
| WithTimeout (d : Z) : BootE Z
| Shutdown (server : Goroutine) (deadline : Z) : BootE bool
| Println (line : string) : BootE unit.

Abbreviation boot := (task BootE).

(** ** Shared helpers *)

Definition mustEnv (key : string) : boot string :=
  v ← perform (Getenv key); if bool_decide (v = "") then Exit 1 else mret v.

Definition env_or (key dflt : string) : boot string :=
  v ← perform (Getenv key); mret (if bool_decide (v = "") then dflt else v).

Definition mustHex (key : string) : boot string :=
  raw ← mustEnv key; match hex_decode raw with Some b => mret b | None => Exit 1 end.

Definition mustEd25519Key `{SigningKey} (probe key : string) : boot string :=
  raw ← mustEnv key; match load_key probe raw with Ok b => mret b | Err _ => Exit 1 end.

(** The self test of the portal's loader; the other two sign [Loopback.probe]. *)
Definition portal_probe : string := "soholink-key-self-test-v1".

(** [strconv.ParseBool] *)
Definition ParseBool (s : string) : option bool :=
  if bool_decide (s ∈ ["1"; "t"; "T"; "TRUE"; "true"; "True"]) then Some true
  else if bool_decide (s ∈ ["0"; "f"; "F"; "FALSE"; "false"; "False"]) then Some false
  else None.

Definition buildNotifier : boot Notifier :=
  host ← perform (Getenv "SMTP_HOST");
  if bool_decide (host = "") then mret LogNotifier
  else
    port ← perform (Getenv "SMTP_PORT");
    from ← perform (Getenv "SMTP_FROM");
    username ← perform (Getenv "SMTP_USERNAME");
    password ← perform (Getenv "SMTP_PASSWORD");
    mret (SMTPNotifier (mkSMTP host port from username password)).

Definition Connect (connString : string) : boot (result string unit) :=
  if bool_decide (connString = "") then mret (Err "connect: connString is empty (is DATABASE_URL set?)")
  else
    opened ← perform (OpenPool connString);
    if negb opened then mret (Err "open pgx pool")
    else
      up ← perform PingPool;
      if negb up then _ ← perform ClosePool; mret (Err "ping database")
      else mret (Ok tt).

Definition RunMigrations : boot (result string unit) :=
  src ← perform MigrationSource;
  if negb src then mret (Err "create migration source")
  else
    _ ← perform OpenDBFromPool;
    driver ← perform MigrateDriver;
    if negb driver then _ ← perform CloseSQL; mret (Err "create migrate driver")
    else
      m ← perform NewMigrator;
      if negb m then mret (Err "create migrator")
      else
        up ← perform MigrateUp;
        match up with
        | UpFailed => _ ← perform CloseMigrator; mret (Err "run migrations")
        | _ =>
            version ← perform MigrateVersion;
            _ ← match version with
                | Some v => perform (Println ("migrations: at version " +:+ FormatInt v))
                | None => mret tt
                end;
            _ ← perform CloseMigrator; mret (Ok tt)
        end.

(** Leave with status 1 on an error. *)
Definition or_exit {A} (m : boot (result string A)) : boot A :=
  r ← m; match r with Ok a => mret a | Err _ => Exit 1 end.

(** [identity.NewSource] *)
Definition NewSource (socketPath : string) (timeout : Z) : boot bool :=
  perform (NewX509Source (if bool_decide (socketPath = "") then None else Some socketPath) timeout).

(** The walk of [ConfigureConsole]; an empty directory name is not walked. *)
Definition walk_templates (templatesDir : string) : boot (result string (list string)) :=
  if bool_decide (templatesDir = "") then mret (Ok [])
  else
    walk ← perform (WalkDir templatesDir);
    mret (match collect_templates walk with Some paths => Ok paths | None => Err "walk templates" end).

(** ** filepath.Join *)

(** [filepath.Clean] by its elements: a parent cancels the element before it; above
    the root there is nothing, above a relative path it stays. *)
Fixpoint clean_elems (rooted : bool) (acc parts : list string) : list string :=
  match parts with
  | [] => reverse acc
  | p :: parts' =>
      if bool_decide (p = "") || bool_decide (p = ".") then clean_elems rooted acc parts'
      else if bool_decide (p = "..") then
        match acc with
        | q :: acc' =>
            if bool_decide (q = "..") then clean_elems rooted (".." :: acc) parts'
            else clean_elems rooted acc' parts'
        | [] => if rooted then clean_elems rooted [] parts' else clean_elems rooted [".."] parts'
        end
      else clean_elems rooted (p :: acc) parts'
  end.
Definition Clean (path : string) : string :=
  let rooted := String.prefix "/" path in
  match clean_elems rooted [] (Split "/" path), rooted with
  | [], true => "/"
  | [], false => "."
  | parts, true => "/" +:+ join "/" parts
  | parts, false => join "/" parts
  end.
Definition JoinPath (elems : list string) : string :=
  match filter (fun e => e <> "") elems with [] => "" | elems => Clean (join "/" elems) end.

Example joined :
  (fun d => JoinPath [d; ".."; "static"]) <$> ["/app/web/templates"; "web/templates/"; "templates"; "../x"; "/"; "."] =
  ["/app/web/static"; "web/static"; "static"; "../static"; "/static"; "../static"].
Proof. vm_compute. reflexivity. Qed.

(** ** The servers *)

Section Mains.
Context `{SigningKey}.

(** [sounding.LoadLadder]: an error leaves the empty ladder. *)
Definition LoadLadder : boot Ladder :=
  r ← perform SelectTiers; mret (match r with Ok tiers => NewLadder tiers | Err _ => [] end).

Definition defaultCoordinator : string := "soholink".
Definition defaultAllowlist : string := "/etc/soholink/allowlist.json".
Definition Hour : Z := 60 * Minute.

(** cmd/orchestrator; [mapping] is the table [MustValidateWorkloadMapping] checks. *)
Definition orchestrator_main (mapping : gmap Types.MarketplaceWorkloadType Agent.WorkloadType) : boot unit :=
  if negb (Mapping.MustValidateWorkloadMapping mapping) then Exit 2
  else
    dbURL ← mustEnv "DATABASE_URL";
    tokenSecret ← mustHex "ORCHESTRATOR_TOKEN_SECRET";
    apiAddr ← mustEnv "API_ADDR";
    metricsAddr ← mustEnv "METRICS_ADDR";
    internalAddr ← mustEnv "INTERNAL_ADDR";
    spiffeSocket ← mustEnv "SPIFFE_ENDPOINT_SOCKET";
    coordinatorID ← env_or "COORDINATOR_ID" defaultCoordinator;
    coordKey ← mustEd25519Key probe "COORDINATOR_SIGNING_KEY";
    allowlistPath ← env_or "ALLOWLIST_PATH" defaultAllowlist;
    _ ← or_exit (Connect dbURL);
    _ ← or_exit RunMigrations;
    identity ← NewSource spiffeSocket (5 * Second);
    printConfirm ← perform (Getenv "PRINT_CONFIRMATION_ENABLED");
    _ ← perform (Go (SinkWorker DefaultConfig));
    ladder ← LoadLadder;
    let orch := mkService tokenSecret allowlistPath (default false (ParseBool printConfirm)) (4 * Hour) ladder in
    _ ← perform (Go (CapacitySampler Minute));
    _ ← perform (Go (EvictionLoop (5 * Minute)));
    _ ← perform (Go (DeclineRerouteLoop orch));
    let adapter := mkProtocolAdapter coordinatorID coordKey tokenSecret in
    let srv := mkAPIServer apiAddr metricsAddr allowlistPath identity adapter coordinatorID in
    let internalSrv := mkInternalServer orch internalAddr in
    _ ← perform (Go (ServeAPI srv));
    _ ← perform (Go (ServeInternal internalSrv));
    _ ← perform (Go (ServeMetrics metricsAddr));
    _ ← perform AwaitDone;
    deadline ← perform (WithTimeout (15 * Second));
    _ ← perform (Shutdown (ServeInternal internalSrv) deadline);
    _ ← perform (Shutdown (ServeAPI srv) deadline);
    mret tt.

(** [OnboardingServer.ConfigureConsole] *)
Definition configure_onboarding (notifier : Notifier) (templatesDir coordinatorID : string) :
    boot (result string OnboardingServer) :=
  r ← walk_templates templatesDir;
  mret (match r with Ok paths => Ok (mkOnboarding notifier paths coordinatorID) | Err e => Err e end).

(** cmd/portal *)
Definition portal_main : boot unit :=
  dbURL ← mustEnv "DATABASE_URL";
  sessionPrivKey ← mustEd25519Key portal_probe "SESSION_PRIVATE_KEY";
  stripeKey ← mustEnv "STRIPE_SECRET_KEY";
  addr ← mustEnv "PORTAL_ADDR";
  baseURL ← mustEnv "PORTAL_BASE_URL";
  templatesDir ← mustEnv "PORTAL_TEMPLATES_DIR";
  metricsAddr ← mustEnv "METRICS_ADDR";
  webhookSecret ← mustEnv "STRIPE_WEBHOOK_SECRET";
  internalOrchURL ← mustEnv "ORCHESTRATOR_INTERNAL_URL";
  _ ← or_exit (Connect dbURL);
  _ ← or_exit RunMigrations;
  coordinatorID ← env_or "COORDINATOR_ID" defaultCoordinator;
  notifier ← buildNotifier;
  onboarding ← or_exit (configure_onboarding notifier templatesDir coordinatorID);
  walk ← perform (WalkDir templatesDir);
  paths ← or_exit (mret (NewPortal walk));
  let ps := mkPortalServer addr metricsAddr sessionPrivKey stripeKey webhookSecret baseURL internalOrchURL paths onboarding in
  _ ← perform (Go (ServePortal ps));
  _ ← perform (Go (UptimeScorer (10 * Minute)));
  _ ← perform (Go (PayoutReleaser stripeKey Hour));
  _ ← perform (Go (ServeMetrics metricsAddr));
  _ ← perform (Go NodeGauge);
  _ ← perform AwaitDone;
  deadline ← perform (WithTimeout (15 * Second));
  _ ← perform (Shutdown (ServePortal ps) deadline);
  mret tt.

(** [GovernanceServer.ConfigureConsole]: a missing static directory is a warning. *)
Definition configure_governance (gov : GovernanceServer) (notifier : Notifier) (templatesDir : string) :
    boot (result string GovernanceService) :=
  r ← walk_templates templatesDir;
  match r with
  | Err e => mret (Err e)
  | Ok paths =>
      if bool_decide (templatesDir = "") then mret (Ok (mkGovernanceService gov notifier paths "" false))
      else
        let staticDir := JoinPath [templatesDir; ".."; "static"] in
        _ ← perform (Stat staticDir);
        mret (Ok (mkGovernanceService gov notifier paths staticDir false))
  end.
Definition ConfigureSounding (g : GovernanceService) : GovernanceService :=
  mkGovernanceService (gv_server g) (gv_notifier g) (gv_templatePaths g) (gv_staticDir g) true.

(** cmd/governance; it runs no migrations. *)
Definition governance_main : boot unit :=
  dbURL ← mustEnv "DATABASE_URL";
  coordKey ← mustEd25519Key probe "COORDINATOR_SIGNING_KEY";
  templatesDir ← mustEnv "GOVERNANCE_TEMPLATES_DIR";
  addr ← env_or "GOVERNANCE_ADDR" "127.0.0.1:8090";
  coordinatorID ← env_or "COORDINATOR_ID" defaultCoordinator;
  _ ← or_exit (Connect dbURL);
  notifier ← buildNotifier;
  gov ← or_exit (mret (NewGovernanceServer (mkGovConfig addr coordinatorID coordKey)));
  console ← or_exit (configure_governance gov notifier templatesDir);
  let gov := ConfigureSounding console in
  _ ← perform (Go (ServeGovernance gov));
  _ ← perform AwaitDone;
  deadline ← perform (WithTimeout (15 * Second));
  _ ← perform (Shutdown (ServeGovernance gov) deadline);
  _ ← perform ClosePool;
  mret tt.

End Mains.
