(* ===== verification/StartupProofs.v ===== *)
(** What holds of a start of the servers, whatever the environment, the database, the
    identity provider and the file system answer. *)
From S2P Require Import Prelude Float64 Workload Sounding Encoding Sha256 Notify Templates PortalPages Loopback Task Keys Startup.
Local Open Scope string_scope.
Local Open Scope list_scope.
Local Open Scope Z_scope.

(** ** What a trace shows *)

Abbreviation Log := (list (Step BootE)).

Definition supplied (tr : Log) (key v : string) : Prop := v <> "" /\ Did (Getenv key) v ∈ tr.
Definition chosen (tr : Log) (key dflt v : string) : Prop :=
  exists raw, Did (Getenv key) raw ∈ tr /\ v = if bool_decide (raw = "") then dflt else raw.
Definition reachable_db (tr : Log) (url : string) : Prop := Did (OpenPool url) true ∈ tr /\ Did PingPool true ∈ tr.
Definition database_up (tr : Log) : Prop := exists url, supplied tr "DATABASE_URL" url /\ reachable_db tr url.
Definition migrated (tr : Log) : Prop := exists r, r <> UpFailed /\ Did MigrateUp r ∈ tr.
Definition secret_of (tr : Log) (key b : string) : Prop := exists raw, supplied tr key raw /\ hex_decode raw = Some b.
Definition key_of `{SigningKey} (tr : Log) (probe key b : string) : Prop :=
  exists raw, supplied tr key raw /\ tested_key probe raw b.

Section Ready.
Context `{SigningKey}.

Definition orch_ready (tr : Log) (o : OrchestratorService) : Prop :=
  secret_of tr "ORCHESTRATOR_TOKEN_SECRET" (sv_tokenSecret o) /\
  chosen tr "ALLOWLIST_PATH" defaultAllowlist (sv_allowlistPath o).

(** What must have happened before a goroutine is started.  The governance process
    runs no migrations; the other two do. *)
Definition ready (tr : Log) (g : Goroutine) : Prop :=
  match g with
  | ServeAPI s =>
      database_up tr /\ migrated tr /\ supplied tr "API_ADDR" (as_addr s) /\
      key_of tr probe "COORDINATOR_SIGNING_KEY" (pa_key (as_adapter s)) /\
      secret_of tr "ORCHESTRATOR_TOKEN_SECRET" (pa_tokenSecret (as_adapter s)) /\
      chosen tr "COORDINATOR_ID" defaultCoordinator (as_coordinatorID s) /\
      pa_coordinatorID (as_adapter s) = as_coordinatorID s /\
      exists socket (answered : bool), supplied tr "SPIFFE_ENDPOINT_SOCKET" socket /\
        Did (NewX509Source (Some socket) (5 * Second)) answered ∈ tr /\
        APIServer_Start s = (if answered then ListenAndServeTLS (as_addr s) else ListenAndServe (as_addr s))
  | ServeInternal s =>
      database_up tr /\ migrated tr /\ supplied tr "INTERNAL_ADDR" (is_addr s) /\ orch_ready tr (is_orch s)
  | DeclineRerouteLoop o => database_up tr /\ migrated tr /\ orch_ready tr o
  | ServePortal s =>
      database_up tr /\ migrated tr /\ supplied tr "PORTAL_ADDR" (ps_addr s) /\
      key_of tr portal_probe "SESSION_PRIVATE_KEY" (ps_sessionKey s) /\
      supplied tr "STRIPE_SECRET_KEY" (ps_stripeKey s) /\ supplied tr "STRIPE_WEBHOOK_SECRET" (ps_webhookSecret s) /\
      supplied tr "ORCHESTRATOR_INTERNAL_URL" (ps_orchURL s) /\ ps_templatePaths s <> [] /\
      chosen tr "COORDINATOR_ID" defaultCoordinator (ob_coordinatorID (ps_console s))
  | PayoutReleaser stripeKey _ => database_up tr /\ migrated tr /\ supplied tr "STRIPE_SECRET_KEY" stripeKey
  | ServeGovernance g =>
      database_up tr /\ isLoopbackAddr (gs_Addr (gv_server g)) = true /\
      key_of tr probe "COORDINATOR_SIGNING_KEY" (gs_coordKey (gv_server g)) /\
      chosen tr "COORDINATOR_ID" defaultCoordinator (gs_coordinatorID (gv_server g))
  | _ => database_up tr /\ migrated tr
  end.

Definition go_ready (tr : Log) (st : Step BootE) : Prop :=
  match st with Did e _ => match e with Go g => ready tr g | _ => True end end.

(** ** The helpers *)

Lemma guarded_mustEnv {A} key (f : string -> boot A) tr :
  (forall v, v <> "" -> guarded go_ready (f v) (tr ++ [Did (Getenv key) v])) ->
  guarded go_ready (mustEnv key ≫= f) tr.
Proof.
  intros Hf. apply guarded_bind.
  - unfold mustEnv. follow; [done|]. intros v. case_bool_decide; follow.
  - unfold mustEnv. follow. intros v. case_bool_decide; follow; [done|]. intros a [= <-]. by apply Hf.
Qed.

Lemma guarded_env_or {A} key dflt (f : string -> boot A) tr :
  (forall raw, guarded go_ready (f (if bool_decide (raw = "") then dflt else raw)) (tr ++ [Did (Getenv key) raw])) ->
  guarded go_ready (env_or key dflt ≫= f) tr.
Proof.
  intros Hf. apply guarded_bind; unfold env_or; follow; [done|done|]. intros raw. follow. intros a [= <-]. apply Hf.
Qed.

Lemma guarded_mustHex {A} key (f : string -> boot A) tr :
  (forall raw b, raw <> "" -> hex_decode raw = Some b -> guarded go_ready (f b) (tr ++ [Did (Getenv key) raw])) ->
  guarded go_ready (mustHex key ≫= f) tr.
Proof.
  intros Hf. apply guarded_bind; unfold mustHex.
  - apply guarded_mustEnv. intros v Hv. case_match; follow.
  - follow. unfold mustEnv. follow. intros v. case_bool_decide; follow; [done|].
    case_match eqn:Hd; follow; [|done]. intros b [= <-]. by apply Hf.
Qed.

Lemma guarded_mustKey {A} probe key (f : string -> boot A) tr :
  (forall raw b, raw <> "" -> tested_key probe raw b -> guarded go_ready (f b) (tr ++ [Did (Getenv key) raw])) ->
  guarded go_ready (mustEd25519Key probe key ≫= f) tr.
Proof.
  intros Hf. apply guarded_bind; unfold mustEd25519Key.
  - apply guarded_mustEnv. intros v Hv. case_match; follow.
  - follow. unfold mustEnv. follow. intros v. case_bool_decide; follow; [done|].
    case_match eqn:Hd; follow; [|done]. intros b [= <-]. apply Hf; [done|]. by apply load_key_ok.
Qed.

(** A step that ends the process on an error: [ok] is what a success shows. *)
Lemma guarded_or_exit {A B} (m : boot (result string A)) (f : A -> boot B) tr (ok : A -> Log -> Prop) :
  guarded go_ready m tr ->
  every m tr (fun r tr' => match r with Finished (Ok a) => exists l, tr' = tr ++ l /\ ok a l | _ => True end) ->
  (forall a l, ok a l -> guarded go_ready (f a) (tr ++ l)) ->
  guarded go_ready (or_exit m ≫= f) tr.
Proof.
  intros Hm He Hf. apply guarded_bind; unfold or_exit.
  - apply guarded_bind; [done|]. eapply every_mono; [exact He|]. intros r tr' _ a _. destruct a; follow.
  - apply every_bind. eapply every_mono; [exact He|]. intros [[a|e]|code] tr' Hr; [|done|done].
    follow. intros a' [= <-]. destruct Hr as (l & -> & Hl). by apply Hf.
Qed.
End Ready.

(** Find a call in a trace that ends with it or with later ones. *)
Ltac logged :=
  first [assumption | apply list_elem_of_here
        | apply elem_of_app; right; logged | apply elem_of_app; left; logged].

Section Boot.
Context `{SigningKey}.

Lemma guarded_Connect {A} url (f : unit -> boot A) tr :
  (forall l, reachable_db l url -> guarded go_ready (f tt) (tr ++ l)) ->
  guarded go_ready (or_exit (Connect url) ≫= f) tr.
Proof.
  intros Hf. apply (guarded_or_exit _ _ _ (fun _ l => reachable_db l url)); [| |intros [] l; apply Hf]; unfold Connect.
  - case_bool_decide; repeat (follow; try done; intros []); follow.
  - case_bool_decide; [by follow|]. follow. intros []; [|by follow]. follow. intros []; [|follow; intros []; by follow].
    follow. exists [Did (OpenPool url) true; Did PingPool true]. rewrite <- app_assoc. split; [done|].
    unfold reachable_db. rewrite !elem_of_cons. tauto.
Qed.

Lemma guarded_RunMigrations {A} (f : unit -> boot A) tr :
  (forall l, migrated l -> guarded go_ready (f tt) (tr ++ l)) ->
  guarded go_ready (or_exit RunMigrations ≫= f) tr.
Proof.
  intros Hf. apply (guarded_or_exit _ _ _ (fun _ l => migrated l)); [| |intros [] l; apply Hf]; unfold RunMigrations.
  - follow; [done|]. intros []; [|follow]. follow; [done|]. intros ?. follow; [done|]. intros []; [|by repeat (follow; try done)].
    follow; [done|]. intros []; [|follow].
    follow; [done|]. intros []; [| |by repeat (follow; try done)].
    all: follow; [done|]; intros [v|]; repeat (follow; try done; intros ?).
  - follow. intros []; [|by follow]. follow. intros []. follow. intros []; [|by repeat (follow; try done)].
    follow. intros []; [|by follow].
    follow. intros up. destruct up; [| |by repeat (follow; try done)].
    all: follow; intros [v|]; [follow; intros ?|follow]; follow; intros ?; follow; rewrite <- !app_assoc; eexists;
      (split; [reflexivity|]); (eexists; split; [|logged]); done.
Qed.

Lemma guarded_NewSource {A} socket t (f : bool -> boot A) tr : socket <> "" ->
  (forall b, guarded go_ready (f b) (tr ++ [Did (NewX509Source (Some socket) t) b])) ->
  guarded go_ready (NewSource socket t ≫= f) tr.
Proof. intros Hs Hf. unfold NewSource. rewrite bool_decide_eq_false_2 by done. follow; [done|]. apply Hf. Qed.

Lemma guarded_LoadLadder {A} (f : Rungs.Ladder -> boot A) tr :
  (forall ladder x, guarded go_ready (f ladder) (tr ++ [Did SelectTiers x])) -> guarded go_ready (LoadLadder ≫= f) tr.
Proof.
  intros Hf. apply guarded_bind; unfold LoadLadder; follow; [done|done|]. intros r. follow. intros a _. apply Hf.
Qed.

Lemma guarded_buildNotifier {A} (f : Notifier -> boot A) tr :
  (forall n l, guarded go_ready (f n) (tr ++ l)) -> guarded go_ready (buildNotifier ≫= f) tr.
Proof.
  intros Hf. apply guarded_bind; unfold buildNotifier.
  - follow; [done|]. intros host. case_bool_decide; [follow|]. repeat (follow; [done|]; intros ?). follow.
  - follow. intros host. case_bool_decide; [follow; intros a _; apply Hf|].
    do 4 (follow; intros ?). follow. intros a _. rewrite <- !app_assoc. apply Hf.
Qed.

Lemma every_walk dir tr (Q : Ending (result string (list string)) -> Log -> Prop) :
  (forall r l, Q (Finished r) (tr ++ l)) -> every (walk_templates dir) tr Q.
Proof.
  intros HQ. unfold walk_templates. case_bool_decide; [follow; rewrite <- (app_nil_r tr); apply HQ|].
  follow. intros ?. follow. apply HQ.
Qed.
Lemma guarded_walk dir tr : guarded go_ready (walk_templates dir) tr.
Proof. unfold walk_templates. case_bool_decide; [follow|]. follow; [done|]. intros ?. follow. Qed.

Lemma guarded_onboarding {A} notifier dir id (f : OnboardingServer -> boot A) tr :
  (forall s l, ob_coordinatorID s = id -> guarded go_ready (f s) (tr ++ l)) ->
  guarded go_ready (or_exit (configure_onboarding notifier dir id) ≫= f) tr.
Proof.
  intros Hf. apply (guarded_or_exit _ _ _ (fun s _ => ob_coordinatorID s = id)); [| |intros a l; apply Hf];
    unfold configure_onboarding.
  - follow; [apply guarded_walk|]. apply every_walk. intros r l ? [= <-]. follow.
  - follow. apply every_walk. intros r l. follow. destruct r; [by exists l|done].
Qed.

Lemma guarded_console {A} gov notifier dir (f : GovernanceService -> boot A) tr :
  (forall s l, gv_server s = gov -> guarded go_ready (f s) (tr ++ l)) ->
  guarded go_ready (or_exit (configure_governance gov notifier dir) ≫= f) tr.
Proof.
  intros Hf. apply (guarded_or_exit _ _ _ (fun s _ => gv_server s = gov)); [| |intros a l; apply Hf];
    unfold configure_governance.
  - follow; [apply guarded_walk|]. apply every_walk. intros r l ? [= <-]. case_match; [|follow].
    case_bool_decide; [follow|]. follow; [done|]. intros ?. follow.
  - follow. apply every_walk. intros r l. case_match; [|by follow]. case_bool_decide; [follow; by exists l|].
    follow. intros ?. follow. rewrite <- app_assoc. by eexists.
Qed.
End Boot.

(** Take the next step of a start. *)
Ltac boot_step :=
  cbn zeta;
  lazymatch goal with
  | |- guarded _ (mustEnv _ ≫= _) _ => apply guarded_mustEnv; intros ? ?
  | |- guarded _ (env_or _ _ ≫= _) _ => apply guarded_env_or; intros ?
  | |- guarded _ (mustHex _ ≫= _) _ => apply guarded_mustHex; intros ? ? ? ?
  | |- guarded _ (mustEd25519Key _ _ ≫= _) _ => apply guarded_mustKey; intros ? ? ? ?
  | |- guarded _ (or_exit (Connect _) ≫= _) _ => apply guarded_Connect; intros ? [? ?]
  | |- guarded _ (or_exit RunMigrations ≫= _) _ => apply guarded_RunMigrations; intros ? (? & ? & ?)
  | |- guarded _ (NewSource _ _ ≫= _) _ => apply guarded_NewSource; [eassumption|intros ?]
  | |- guarded _ (LoadLadder ≫= _) _ => apply guarded_LoadLadder; intros ? ?
  | |- guarded _ (buildNotifier ≫= _) _ => apply guarded_buildNotifier; intros ? ?
  | |- guarded _ (or_exit (configure_onboarding _ _ _) ≫= _) _ => apply guarded_onboarding; intros ? ? ?
  | |- guarded _ (or_exit (configure_governance _ _ _) ≫= _) _ => apply guarded_console; intros ? ? ?
  | |- guarded _ (perform (Go _) ≫= _) _ => apply guarded_perform; intros ?
  | |- guarded _ (perform _ ≫= _) _ => apply guarded_perform; [done|intros ?]
  end.

(** Show that a goroutine is ready from the calls logged so far. *)
Ltac show_ready :=
  repeat match goal with
  | |- _ /\ _ => split
  | |- go_ready _ _ => cbn [go_ready ready as_addr as_metricsAddr as_adapter as_identity as_coordinatorID pa_key pa_tokenSecret
      pa_coordinatorID sv_tokenSecret sv_allowlistPath is_addr is_orch ps_addr ps_sessionKey ps_stripeKey ps_webhookSecret
      ps_orchURL ps_templatePaths ps_console gs_Addr gs_coordKey gs_coordinatorID]
  | |- database_up _ => eexists
  | |- supplied _ _ _ => split; [|solve [logged]]
  | |- reachable_db _ _ => split
  | |- migrated _ => eexists
  | |- secret_of _ _ _ => eexists
  | |- key_of _ _ _ _ => eexists
  | |- chosen _ _ _ _ => eexists; split; [solve [logged]|]
  | |- orch_ready _ _ => split
  | |- exists _, _ => eexists
  end; try eassumption; try reflexivity; try logged.

Section Theorems.
Context `{SigningKey}.

Lemma guarded_orchestrator mapping : guarded go_ready (orchestrator_main mapping) [].
Proof.
  unfold orchestrator_main. destruct (Mapping.MustValidateWorkloadMapping mapping); cbn [negb]; [|done].
  repeat boot_step; try follow; show_ready.
Qed.

Lemma guarded_portal : guarded go_ready portal_main [].
Proof.
  unfold portal_main. do 14 boot_step. apply guarded_perform; [done|]. intros walk.
  destruct (NewPortal walk) as [paths|e] eqn:Hp; [|exact I].
  assert (paths <> []) by (unfold NewPortal in Hp; repeat case_match; naive_solver).
  change (or_exit (mret (Ok paths))) with (mret paths : boot (list string)). apply guarded_ret_bind.
  subst. repeat boot_step; try follow; show_ready.
Qed.

Lemma NewGovernanceServer_ok cfg g : NewGovernanceServer cfg = Ok g ->
  g = mkGovServer (gc_Addr cfg) (gc_CoordinatorID cfg) (gc_CoordinatorKey cfg) /\ isLoopbackAddr (gc_Addr cfg) = true.
Proof.
  unfold NewGovernanceServer. destruct (isLoopbackAddr _); [|done]. cbn [negb]. case_match; [done|].
  destruct (Public _); [|done]. case_match; [done|]. by intros [= <-].
Qed.

Lemma guarded_governance : guarded go_ready governance_main [].
Proof.
  unfold governance_main. do 7 boot_step.
  destruct (NewGovernanceServer _) as [gov|e] eqn:Hg; [|exact I].
  apply NewGovernanceServer_ok in Hg as [-> Hl]. apply guarded_ret_bind.
  apply guarded_console. intros console l2 Hc. repeat boot_step; try follow.
  cbn [go_ready ready gv_server ConfigureSounding]. rewrite Hc. cbn [gs_Addr gs_coordKey gs_coordinatorID gc_Addr gc_CoordinatorID gc_CoordinatorKey].
  show_ready.
Qed.

Lemma guarded_mains mapping main :
  main ∈ [orchestrator_main mapping; portal_main; governance_main] -> guarded go_ready main [].
Proof.
  rewrite !elem_of_cons, elem_of_nil.
  intros [->|[->|[->|[]]]]; auto using guarded_orchestrator, guarded_portal, guarded_governance.
Qed.

Lemma started_ready {S} (h : forall X, BootE X -> S -> X * S) s mapping main l g u r :
  main ∈ [orchestrator_main mapping; portal_main; governance_main] ->
  (drive h main s).1.2 = l ++ Did (Go g) u :: r -> ready l g.
Proof.
  intros Hg%guarded_mains Hd. apply (guarded_drive _ h _ s) in Hg. rewrite Hd in Hg.
  exact (step_by_step_at _ _ _ _ _ Hg).
Qed.

(** C21 Startup fails closed: in the orchestrator, the portal and the governance
    process, whatever the environment, the database, the identity provider and the
    file system answer, a goroutine (a listener or a background loop) is started only
    when what it needs has been answered before.  In all three the database was
    reachable under the supplied URL.  In the orchestrator and the portal the
    migrations did not fail (the governance process runs none).  Each server's
    required variables were not empty; the key the public API and the governance
    server sign with is that of COORDINATOR_SIGNING_KEY and the portal's session key
    that of SESSION_PRIVATE_KEY, with 64 bytes and a passed sign-then-verify test;
    the token secret is the decoded hexadecimal text.  The public API listens with
    TLS if the identity source answered at the supplied socket and in the clear if
    it did not.  The address of the governance server is a loopback address. *)
Theorem startup_fails_closed {S} (h : forall X, BootE X -> S -> X * S) s mapping main l g u r :
  main ∈ [orchestrator_main mapping; portal_main; governance_main] ->
  (drive h main s).1.2 = l ++ Did (Go g) u :: r -> ready l g.
Proof. apply started_ready. Qed.

End Theorems.

(** ** Which process sees which secret *)

Definition keeps_off (keys : list string) X (e : BootE X) : Prop :=
  match e with Getenv key => key ∉ keys | _ => True end.

Lemma not_listed key keys : bool_decide (key ∈ keys) = false -> keeps_off keys string (Getenv key).
Proof. by intros ?%bool_decide_eq_false. Qed.

(** Walk through a task that asks no listed variable. *)
Ltac keeps_off :=
  repeat match goal with
  | |- only _ (_ ≫= _) => apply only_bind; [|intros ?]
  | |- only _ (perform _) => split; [|done]
  | |- only _ (mret _) => exact I
  | |- only _ (Exit _) => exact I
  | |- only _ (if ?b then _ else _) => destruct b
  | |- only _ (match ?x with _ => _ end) => destruct x
  | |- keeps_off _ _ (Getenv _) => apply not_listed; reflexivity
  | |- keeps_off _ _ _ => exact I
  | |- only _ (mustHex _) => unfold mustHex
  | |- only _ (mustEd25519Key _ _) => unfold mustEd25519Key
  | |- only _ ?t => let t' := eval red in t in change t with t'
  end.

Section Secrets.
Context `{SigningKey}.

(** Who may be given which secret: the variables a process never asks for. *)
Definition withheld (mapping : gmap Types.MarketplaceWorkloadType Agent.WorkloadType) : list (boot unit * list string) :=
  [(orchestrator_main mapping, ["SESSION_PRIVATE_KEY"; "STRIPE_SECRET_KEY"; "STRIPE_WEBHOOK_SECRET"; "SMTP_PASSWORD"]);
   (portal_main, ["COORDINATOR_SIGNING_KEY"; "ORCHESTRATOR_TOKEN_SECRET"]);
   (governance_main, ["ORCHESTRATOR_TOKEN_SECRET"; "SESSION_PRIVATE_KEY"; "STRIPE_SECRET_KEY"; "STRIPE_WEBHOOK_SECRET"])].

Lemma withheld_keeps_off mapping main keys : (main, keys) ∈ withheld mapping -> only (keeps_off keys) main.
Proof.
  unfold withheld. rewrite !elem_of_cons, elem_of_nil. intros [[= -> ->]|[[= -> ->]|[[= -> ->]|[]]]].
  - unfold orchestrator_main. keeps_off.
  - unfold portal_main. keeps_off.
  - unfold governance_main. keeps_off.
Qed.

(** C22 Secrets stay with their process: the portal (the public surface) behaves the
    same whatever the coordinator's signing key and the job token secret are, the
    orchestrator whatever the session key, the payment keys and the mail password
    are, and the governance process whatever the token secret, the session key and
    the payment keys are: the same calls in the same order, the same servers with the
    same contents, the same ending. *)
Theorem secrets_stay_apart {S} mapping main keys (h h' : forall X, BootE X -> S -> X * S) s :
  (main, keys) ∈ withheld mapping ->
  (forall X (e : BootE X) s, keeps_off keys X e -> h X e s = h' X e s) ->
  drive h main s = drive h' main s.
Proof. intros Hm Hh. eapply only_indistinguishable; [by eapply withheld_keeps_off|exact Hh]. Qed.
End Secrets.

(** ** One coordinator *)

Definition answered_by (key v : string) (st : Step BootE) : Prop :=
  match st with Did e x =>
    match e in BootE X return X -> Prop with Getenv key' => fun x => key' = key -> x = v | _ => fun _ => True end x
  end.

Lemma drive_answers {S A} (h : forall X, BootE X -> S -> X * S) key v (t : boot A) s :
  (forall s, (h _ (Getenv key) s).1 = v) -> Forall (answered_by key v) (drive h t s).1.2.
Proof.
  intros Hh. revert s. induction t as [a|code|X e k IH]; intros s; simpl; [constructor|constructor|].
  destruct (h X e s) as [x s1] eqn:He. specialize (IH x s1). destruct (drive h (k x) s1) as [[r tr] s2]. simpl in *.
  constructor; [|done]. destruct e; simpl; try done. intros ->. rewrite <- (Hh s), He. done.
Qed.

Definition coordinator_of (g : Goroutine) : option string :=
  match g with
  | ServeAPI s => Some (as_coordinatorID s)
  | ServePortal s => Some (ob_coordinatorID (ps_console s))
  | ServeGovernance s => Some (gs_coordinatorID (gv_server s))
  | _ => None
  end.

Section Coordinator.
Context `{SigningKey}.

Lemma ready_coordinator tr g id : ready tr g -> coordinator_of g = Some id ->
  chosen tr "COORDINATOR_ID" defaultCoordinator id.
Proof. destruct g; cbn; intros Hr [= <-]; tauto. Qed.

(** The three processes, started with the same COORDINATOR_ID, act for the same
    coordinator: the one whose fee declarations governance signs is the one whose
    fees the portal shows and whose id operators' transmissions must name. *)
Lemma one_coordinator {S} mapping main (h : forall X, BootE X -> S -> X * S) s v l g u r id :
  main ∈ [orchestrator_main mapping; portal_main; governance_main] ->
  (forall s, (h _ (Getenv "COORDINATOR_ID") s).1 = v) ->
  (drive h main s).1.2 = l ++ Did (Go g) u :: r -> coordinator_of g = Some id ->
  id = if bool_decide (v = "") then defaultCoordinator else v.
Proof.
  intros Hm Hh Hd Hid.
  destruct (ready_coordinator _ _ _ (started_ready _ _ _ _ _ _ _ _ Hm Hd) Hid) as (raw & Hraw & ->).
  pose proof (drive_answers h _ _ main s Hh) as Ha. rewrite Hd, Forall_app, Forall_forall in Ha.
  rewrite (proj1 Ha _ Hraw eq_refl). done.
Qed.
End Coordinator.

(** ** A start in which everything answers *)

Section GoodDay.
Context `{SigningKey} (env : string -> string) (identity : bool) (tiers : list Rungs.Tier).
Context (walk : list (option (string * bool))) (now : Z).

Definition good_day X (e : BootE X) (s : unit) : X * unit :=
  (match e in BootE X return X with
   | Getenv key => env key
   | OpenPool _ | PingPool | MigrationSource | MigrateDriver | NewMigrator | Stat _ => true
   | MigrateUp => ErrNoChange
   | MigrateVersion => Some 30
   | NewX509Source _ _ => identity
   | SelectTiers => Ok tiers
   | WalkDir _ => walk
   | WithTimeout d => now + d
   | Shutdown _ _ => true
   | ClosePool | OpenDBFromPool | CloseSQL | CloseMigrator | Go _ | AwaitDone | Println _ => tt
   end, s).

(** The goroutines of a trace, and the servers it stops with their deadline. *)
Definition goroutines (tr : Log) : list Goroutine :=
  omap (fun st => match st with Did e _ => match e with Go g => Some g | _ => None end end) tr.
Definition stopped (tr : Log) : list (Goroutine * Z) :=
  omap (fun st => match st with Did e _ => match e with Shutdown g d => Some (g, d) | _ => None end end) tr.

Definition orchestrator_env : list string :=
  ["DATABASE_URL"; "ORCHESTRATOR_TOKEN_SECRET"; "API_ADDR"; "METRICS_ADDR"; "INTERNAL_ADDR";
   "SPIFFE_ENDPOINT_SOCKET"; "COORDINATOR_SIGNING_KEY"].

Lemma good_mustEnv {A} key (f : string -> boot A) : env key <> "" ->
  drive good_day (mustEnv key ≫= f) tt =
    let '(r, tr, s) := drive good_day (f (env key)) tt in (r, Did (Getenv key) (env key) :: tr, s).
Proof. intros Hk. simpl. by rewrite bool_decide_eq_false_2. Qed.

Lemma good_mustHex {A} key b (f : string -> boot A) : env key <> "" -> hex_decode (env key) = Some b ->
  drive good_day (mustHex key ≫= f) tt =
    let '(r, tr, s) := drive good_day (f b) tt in (r, Did (Getenv key) (env key) :: tr, s).
Proof. intros Hk Hb. simpl. rewrite bool_decide_eq_false_2 by done. simpl. by rewrite Hb. Qed.

Lemma good_mustKey {A} probe key b (f : string -> boot A) : env key <> "" -> load_key probe (env key) = Ok b ->
  drive good_day (mustEd25519Key probe key ≫= f) tt =
    let '(r, tr, s) := drive good_day (f b) tt in (r, Did (Getenv key) (env key) :: tr, s).
Proof. intros Hk Hb. simpl. rewrite bool_decide_eq_false_2 by done. simpl. by rewrite Hb. Qed.

Lemma good_Connect {A} (f : unit -> boot A) url : url <> "" ->
  drive good_day (or_exit (Connect url) ≫= f) tt =
    let '(r, tr, s) := drive good_day (f tt) tt in (r, Did (OpenPool url) true :: Did PingPool true :: tr, s).
Proof.
  intros Hu. unfold Connect. rewrite bool_decide_eq_false_2 by done. simpl.
  by destruct (drive good_day (f tt) tt) as [[r tr] s].
Qed.

Lemma good_env_or {A} key dflt (f : string -> boot A) :
  drive good_day (env_or key dflt ≫= f) tt =
    let '(r, tr, s) := drive good_day (f (if bool_decide (env key = "") then dflt else env key)) tt in
    (r, Did (Getenv key) (env key) :: tr, s).
Proof. done. Qed.

Definition with_id (v : string) : string := if bool_decide (v = "") then defaultCoordinator else v.
Definition with_path (v : string) : string := if bool_decide (v = "") then defaultAllowlist else v.

(** The orchestrator of a complete environment: everything starts, in this order, and
    after the signal the internal listener is stopped before the public one, both
    under the same deadline. *)
Lemma orchestrator_serves tokenSecret coordKey :
  Forall (fun key => env key <> "") orchestrator_env ->
  hex_decode (env "ORCHESTRATOR_TOKEN_SECRET") = Some tokenSecret ->
  load_key probe (env "COORDINATOR_SIGNING_KEY") = Ok coordKey ->
  let '(r, tr, _) := drive good_day (orchestrator_main Mapping.marketplaceToAgent) tt in
  let id := with_id (env "COORDINATOR_ID") in
  let path := with_path (env "ALLOWLIST_PATH") in
  let orch := mkService tokenSecret path (default false (ParseBool (env "PRINT_CONFIRMATION_ENABLED")))
    (4 * Hour) (Rungs.NewLadder tiers) in
  let api := ServeAPI (mkAPIServer (env "API_ADDR") (env "METRICS_ADDR") path identity
    (mkProtocolAdapter id coordKey tokenSecret) id) in
  let internal := ServeInternal (mkInternalServer orch (env "INTERNAL_ADDR")) in
  r = Finished tt /\
  goroutines tr = [SinkWorker DefaultConfig; CapacitySampler Minute; EvictionLoop (5 * Minute);
    DeclineRerouteLoop orch; api; internal; ServeMetrics (env "METRICS_ADDR")] /\
  stopped tr = [(internal, now + 15 * Second); (api, now + 15 * Second)].
Proof.
  unfold orchestrator_env. rewrite !Forall_cons. intros (E1 & E2 & E3 & E4 & E5 & E6 & E7 & _) Hs Hk.
  unfold orchestrator_main. change (Mapping.MustValidateWorkloadMapping Mapping.marketplaceToAgent) with true.
  cbn [negb]. rewrite good_mustEnv by done. erewrite good_mustHex by done.
  do 4 (rewrite good_mustEnv by done). rewrite good_env_or. erewrite good_mustKey by done.
  rewrite good_env_or, good_Connect by done. unfold NewSource. rewrite (bool_decide_eq_false_2 _ E6).
  cbn -[bool_decide Minute Second Rungs.NewLadder ParseBool Z.add Z.mul]. done.
Qed.
End GoodDay.

(** ** While the processes run *)

(** The goroutines still running, and whether the context is cancelled. *)
Record Running := mkRunning { rn_live : list Goroutine; rn_done : bool }.

(** What the goroutine does when its server returns an error other than
    [http.ErrServerClosed]: only the one in cmd/governance calls [stop]. *)
Definition stops (g : Goroutine) : bool := match g with ServeGovernance _ => true | _ => false end.

Inductive runs : Running -> Running -> Prop :=
| signalled live d : runs (mkRunning live d) (mkRunning live true)
| server_failed l g r d : runs (mkRunning (l ++ g :: r) d) (mkRunning (l ++ r) (d || stops g)).

(** A governance process whose listener is gone is shutting down. *)
Lemma governance_not_deaf g x y : rtc runs x y ->
  ServeGovernance g ∈ rn_live x \/ rn_done x = true -> ServeGovernance g ∈ rn_live y \/ rn_done y = true.
Proof.
  induction 1 as [|x y z Hs _ IH]; [done|]. intros Hx. apply IH.
  destruct Hs as [live d|l g' r' d]; [by right|]. simpl in *.
  destruct Hx as [Hin| ->]; [|by right]. rewrite elem_of_app in Hin |- *. rewrite elem_of_cons in Hin.
  destruct Hin as [?|[<-|?]]; [tauto| |tauto]. right. simpl. by rewrite orb_true_r.
Qed.

(** The other two keep running without: nothing ends the process when its listeners
    are gone. *)
Lemma deaf_server_stays srv internal metrics :
  rtc runs (mkRunning [ServeAPI srv; ServeInternal internal; ServeMetrics metrics] false) (mkRunning [] false).
Proof.
  eapply rtc_l; [apply (server_failed [])|]. eapply rtc_l; [apply (server_failed [])|].
  eapply rtc_l; [apply (server_failed [])|]. reflexivity.
Qed.

(** ** Samples *)

(** A stand-in for the signature scheme: the public half of a key is its last 32
    bytes, and a signature is the public half with the message. *)
#[local] Instance sample_keys : SigningKey := {|
  key_len := fun k => Z.of_nat (String.length k);
  Public := fun k => Some (String.substring 32 32 k);
  SignWith := fun k msg => String.substring 32 32 k +:+ msg;
  VerifyWith := fun pub msg sig => bool_decide (sig = pub +:+ msg) |}.

Definition sample_env (key : string) : string :=
  if bool_decide (key = "DATABASE_URL") then "postgres://db/soholink"
  else if bool_decide (key ∈ ["COORDINATOR_SIGNING_KEY"; "SESSION_PRIVATE_KEY"]) then
    "00112233445566778899aabbccddeeff00112233445566778899aabbccddeeff00112233445566778899aabbccddeeff00112233445566778899aabbccddeeff"
  else if bool_decide (key = "ORCHESTRATOR_TOKEN_SECRET") then "0f1e2d3c"
  else if bool_decide (key = "API_ADDR") then ":8082"
  else if bool_decide (key = "METRICS_ADDR") then ":9090"
  else if bool_decide (key = "INTERNAL_ADDR") then ":8083"
  else if bool_decide (key = "SPIFFE_ENDPOINT_SOCKET") then "unix:///run/spire.sock"
  else if bool_decide (key = "PORTAL_ADDR") then ":8080"
  else if bool_decide (key = "PORTAL_BASE_URL") then "https://soholink.org"
  else if bool_decide (key ∈ ["PORTAL_TEMPLATES_DIR"; "GOVERNANCE_TEMPLATES_DIR"]) then "/app/web/templates"
  else if bool_decide (key = "STRIPE_SECRET_KEY") then "sk"
  else if bool_decide (key = "STRIPE_WEBHOOK_SECRET") then "wh"
  else if bool_decide (key = "ORCHESTRATOR_INTERNAL_URL") then "http://orchestrator:8083"
  else "".
Definition sample_walk : list (option (string * bool)) := [Some ("/app/web/templates", true); Some ("/app/web/templates/layout.html", false)].
Definition sample_world (env : string -> string) := good_day env true [] sample_walk 0.
Definition sample_log (main : boot unit) : Log := (drive (sample_world sample_env) main tt).1.2.

Example sample_starts :
  (fun main => length (goroutines (sample_log main))) <$>
    [orchestrator_main Mapping.marketplaceToAgent; portal_main; governance_main] = [7; 5; 1]%nat.
Proof. vm_compute. reflexivity. Qed.

(** The public API server of the sample environment, after the 26 calls before it. *)
Definition sample_api : Goroutine :=
  let key := default "" (hex_decode (sample_env "COORDINATOR_SIGNING_KEY")) in
  let secret := default "" (hex_decode (sample_env "ORCHESTRATOR_TOKEN_SECRET")) in
  ServeAPI (mkAPIServer ":8082" ":9090" defaultAllowlist true (mkProtocolAdapter "soholink" key secret) "soholink").

Definition orchestrator_log : Log := sample_log (orchestrator_main Mapping.marketplaceToAgent).
Definition other_env (key : string) : string :=
  if bool_decide (key = "COORDINATOR_SIGNING_KEY") then "another key" else sample_env key.

Lemma startup_fails_closed_witness :
  orchestrator_log = take 26 orchestrator_log ++ Did (Go sample_api) tt :: drop 27 orchestrator_log /\
  ready (take 26 orchestrator_log) sample_api.
Proof.
  assert (Hl : orchestrator_log = take 26 orchestrator_log ++ Did (Go sample_api) tt :: drop 27 orchestrator_log)
    by (vm_compute; reflexivity).
  split; [exact Hl|].
  refine (startup_fails_closed (sample_world sample_env) tt Mapping.marketplaceToAgent _ _ _ tt _ _ Hl).
  apply list_elem_of_here.
Defined.

Lemma secrets_stay_apart_witness :
  drive (sample_world sample_env) portal_main tt = drive (sample_world other_env) portal_main tt.
Proof.
  refine (secrets_stay_apart Mapping.marketplaceToAgent portal_main
    ["COORDINATOR_SIGNING_KEY"; "ORCHESTRATOR_TOKEN_SECRET"] _ _ tt _ _).
  - apply list_elem_of_further, list_elem_of_here.
  - intros X e s He. destruct e; try reflexivity. unfold sample_world, good_day, other_env.
    rewrite (bool_decide_eq_false_2 (key = _)); [done|]. intros ->. apply He, list_elem_of_here.
Defined.
