(* ===== verification/Seed.v ===== *)
(** The seeding tool, cmd/seed/main.go: ten providers with a node and a default
    profile each, ten consumers, and a password for the consumers.

    The statements are upserts, so that the tool can be run again.  A NULL soho_name,
    which no statement reads, is the empty string; the columns created_at and
    updated_at of participants are not part of the rows. *)
From S2P Require Import Prelude Float64 Workload Sounding Registry Database Lifecycle Effects Encoding.
From S2P Require Import Sha256 Dispatch Http Limits Account NodesApi Templates PortalPages Task.
From S2P Require Import Keys Startup.
Local Open Scope string_scope.
Local Open Scope list_scope.
Local Open Scope Z_scope.

(** ** The rows *)

(** [%02d] of a number below one hundred. *)
Definition two_digits (i : Z) : string := if i <? 10 then "0" +:+ FormatInt i else FormatInt i.

Definition provider_email (i : Z) : string := "provider-" +:+ two_digits i +:+ "@seed.internal".
Definition consumer_email (i : Z) : string := "consumer-" +:+ two_digits i +:+ "@seed.internal".
Definition stripe_acct (i : Z) : string := "acct_seed_" +:+ two_digits i.
Definition seed_hostname (i : Z) : string := "seed-node-" +:+ two_digits i.

Definition hwProfile : gmap string jval :=
  {[ "CPUCores" := JNum 8; "RAMMB" := JNum 16384; "GPUPresent" := JBool false; "GPUModel" := JText "";
     "StorageGB" := JNum 500; "BandwidthMbps" := JNum 1000; "Platform" := JText "linux"; "Arch" := JText "amd64" ]}.

Definition provider_row (email stripe : string) : ParticipantRow :=
  mkParticipant (Some stripe) None None false email None "" (Some "business") None true true.
Definition consumer_row (email : string) : ParticipantRow :=
  mkParticipant None None None false email None "" None None false false.
Definition seed_node (now : Z) (participant hostname : string) : NodeRow :=
  (new_node_row now participant "A" hostname "US" None hwProfile) <| n_uptime_pct := f64_lit 995 10 |>.
Definition seed_profile (node : string) : ProfileRow := mkProfile node "default" true true 80 400 500 f64_one.

(** ** The statements *)

Definition stripe_taken (d : DB) (stripe : string) : bool :=
  existsb (fun '(_, p) => bool_decide (p_stripe_account_id p = Some stripe)) (map_to_list (participants d)).

(** ON CONFLICT (email) DO UPDATE SET updated_at, RETURNING id *)
Definition upsert_provider (id email stripe : string) (d : DB) : result Error (string * DB) :=
  match account_by_email d email with
  | Some (pid, _) => Ok (pid, d)
  | None =>
      if bool_decide (is_Some (participants d !! id)) || stripe_taken d stripe then Err ErrUnique
      else Ok (id, d <| participants := <[id := provider_row email stripe]> (participants d) |>)
  end.

Definition node_by_hostname (d : DB) (participant hostname : string) : option (string * NodeRow) :=
  List.find (fun '(_, n) => bool_decide (n_participant_id n = participant) && bool_decide (n_hostname n = hostname))
    (map_to_list (nodes d)).

(** ON CONFLICT (participant_id, hostname) DO UPDATE SET updated_at = NOW(), RETURNING id *)
Definition upsert_seed_node (id participant hostname : string) (now : Z) (d : DB) : result Error (string * DB) :=
  match node_by_hostname d participant hostname with
  | Some (nid, n) => Ok (nid, d <| nodes := <[nid := n <| n_updated_at := now |>]> (nodes d) |>)
  | None =>
      if bool_decide (is_Some (nodes d !! id)) then Err ErrUnique
      else if negb (bool_decide (is_Some (participants d !! participant))) then Err ErrForeignKey
      else Ok (id, d <| nodes := <[id := seed_node now participant hostname]> (nodes d) |>)
  end.

Definition has_default (d : DB) (node : string) : bool :=
  existsb (fun '(_, p) => bool_decide (pf_node_id p = node) && pf_is_default p) (map_to_list (resource_profiles d)).

(** ON CONFLICT DO NOTHING, on the id and on the one default of a node *)
Definition insert_default_profile (id node : string) (d : DB) : result Error (unit * DB) :=
  if bool_decide (is_Some (resource_profiles d !! id)) || has_default d node then Ok (tt, d)
  else if negb (bool_decide (is_Some (nodes d !! node))) then Err ErrForeignKey
  else Ok (tt, d <| resource_profiles := <[id := seed_profile node]> (resource_profiles d) |>).

(** ON CONFLICT (email) DO NOTHING *)
Definition insert_consumer (id email : string) (d : DB) : result Error (unit * DB) :=
  match account_by_email d email with
  | Some _ => Ok (tt, d)
  | None =>
      if bool_decide (is_Some (participants d !! id)) then Err ErrUnique
      else Ok (tt, d <| participants := <[id := consumer_row email]> (participants d) |>)
  end.

Definition set_password (hash email : string) (d : DB) : DB :=
  d <| participants := (fun p => if bool_decide (p_email p = email) then p <| p_password_hash := Some hash |> else p)
                         <$> participants d |>.

(** ** The tool *)

Definition seed_provider (i : Z) : M unit :=
  id ← fresh_uuid;
  providerID ← stmt (fun _ => upsert_provider id (provider_email i) (stripe_acct i));
  id ← fresh_uuid;
  nodeID ← stmt (upsert_seed_node id providerID (seed_hostname i));
  id ← fresh_uuid;
  stmt (fun _ => insert_default_profile id nodeID).
Definition seed_consumer (i : Z) : M unit :=
  id ← fresh_uuid; stmt (fun _ => insert_consumer id (consumer_email i)).
Definition seed_password (hash : string) (i : Z) : M unit := exec (fun _ d => (tt, set_password hash (consumer_email i) d)).

Definition one_to_ten : list Z := [1; 2; 3; 4; 5; 6; 7; 8; 9; 10].

(** The rows; an error ends the tool with status 1 and leaves what is written. *)
Definition seed_rows (GenerateFromPassword : string -> option string) : M unit :=
  _ ← forM one_to_ten seed_provider;
  _ ← forM one_to_ten seed_consumer;
  match GenerateFromPassword "changeme" with
  | None => fail (ErrGo "bcrypt failed")
  | Some hash => forM one_to_ten (seed_password hash)
  end.

(** Before the rows: connect and migrate. *)
Definition seed_connect : boot unit :=
  dbURL ← mustEnv "DATABASE_URL";
  _ ← or_exit (Connect dbURL);
  or_exit RunMigrations.

(** ** Uniqueness and growth *)

(** The UNIQUE constraints the conflict clauses name. *)
Definition one_per_email (d : DB) : Prop := forall a b p q,
  participants d !! a = Some p -> participants d !! b = Some q -> p_email p = p_email q -> a = b.
Definition one_per_host (d : DB) : Prop := forall a b n m,
  nodes d !! a = Some n -> nodes d !! b = Some m ->
  n_participant_id n = n_participant_id m -> n_hostname n = n_hostname m -> a = b.
Definition unique_rows (d : DB) : Prop := one_per_email d /\ one_per_host d.

(** The database without what a second run may change. *)
Definition erase (d : DB) : DB :=
  d <| participants := (fun p => p <| p_password_hash := None |>) <$> participants d |>
    <| nodes := (fun n => n <| n_updated_at := 0 |>) <$> nodes d |>.
Definition same_rows (d d' : DB) : Prop := erase d' = erase d.

(** Rows are kept, with their key columns. *)
Definition extends (d d' : DB) : Prop :=
  (forall id p, participants d !! id = Some p -> exists p', participants d' !! id = Some p' /\ p_email p' = p_email p) /\
  (forall id n, nodes d !! id = Some n ->
     exists n', nodes d' !! id = Some n' /\ n_participant_id n' = n_participant_id n /\ n_hostname n' = n_hostname n) /\
  resource_profiles d ⊆ resource_profiles d'.

#[export] Instance extends_preorder : PreOrder extends.
Proof.
  split.
  - intros d. split_and!; [eauto|eauto|done].
  - intros a b c (H1 & H2 & H3) (G1 & G2 & G3). split_and!.
    + intros id p Hp. destruct (H1 id p Hp) as (p' & Hp' & <-). destruct (G1 id p' Hp') as (p'' & ? & <-). eauto.
    + intros id n Hn. destruct (H2 id n Hn) as (n' & Hn' & <- & <-). destruct (G2 id n' Hn') as (n'' & ? & <- & <-). eauto.
    + by etrans.
Qed.

Lemma same_participants d d' id : same_rows d d' ->
  p_email <$> participants d' !! id = p_email <$> participants d !! id.
Proof.
  intros Hs%(f_equal participants). change ((fun p => p <| p_password_hash := None |>) <$> participants d' = (fun p => p <| p_password_hash := None |>) <$> participants d) in Hs.
  apply (f_equal (lookup id)) in Hs. rewrite !lookup_fmap in Hs.
  destruct (participants d' !! id), (participants d !! id); simpl in *; try done. by injection Hs as _ _ _ _ -> _.
Qed.
Lemma same_nodes d d' id : same_rows d d' ->
  (fun n => (n_participant_id n, n_hostname n)) <$> nodes d' !! id =
    (fun n => (n_participant_id n, n_hostname n)) <$> nodes d !! id.
Proof.
  intros Hs%(f_equal nodes). change ((fun n => n <| n_updated_at := 0 |>) <$> nodes d' = (fun n => n <| n_updated_at := 0 |>) <$> nodes d) in Hs.
  apply (f_equal (lookup id)) in Hs. rewrite !lookup_fmap in Hs.
  destruct (nodes d' !! id), (nodes d !! id); simpl in *; try done. by injection Hs as -> _ -> _.
Qed.
Lemma same_profiles d d' : same_rows d d' -> resource_profiles d' = resource_profiles d.
Proof. by intros Hs%(f_equal resource_profiles). Qed.

Lemma same_extends d d' : same_rows d d' -> extends d d'.
Proof.
  intros Hs. split_and!.
  - intros id p Hp. pose proof (same_participants d d' id Hs) as He. rewrite Hp in He.
    destruct (participants d' !! id) as [p'|]; [|done]. injection He as He. eauto.
  - intros id n Hn. pose proof (same_nodes d d' id Hs) as He. rewrite Hn in He.
    destruct (nodes d' !! id) as [n'|]; [|done]. injection He as He1 He2. eauto.
  - by rewrite (same_profiles _ _ Hs).
Qed.

Lemma same_unique d d' : same_rows d d' -> unique_rows d -> unique_rows d'.
Proof.
  intros Hs [He Hh]. assert (Hs' : extends d' d) by (apply same_extends; symmetry; exact Hs).
  destruct Hs' as (H1 & H2 & _). split.
  - intros a b p q Ha Hb Heq. destruct (H1 _ _ Ha) as (p' & Ha' & Hp), (H1 _ _ Hb) as (q' & Hb' & Hq).
    eapply He; eauto. congruence.
  - intros a b n m Ha Hb Heq1 Heq2. destruct (H2 _ _ Ha) as (n' & Ha' & ? & ?), (H2 _ _ Hb) as (m' & Hb' & ? & ?).
    eapply Hh; eauto; congruence.
Qed.

(** ** What is there *)

Lemma account_by_email_some d email pid p : one_per_email d ->
  participants d !! pid = Some p -> p_email p = email -> account_by_email d email = Some (pid, p).
Proof.
  intros Hu Hp He. unfold account_by_email. destruct (List.find _ _) as [[id q]|] eqn:Hf.
  - apply List.find_some in Hf as [Hin Hq%bool_decide_eq_true]. apply list_elem_of_In, elem_of_map_to_list in Hin.
    assert (id = pid) as -> by (eapply Hu; eauto; congruence). congruence.
  - exfalso. pose proof (List.find_none _ _ Hf (pid, p)) as Hn. rewrite bool_decide_eq_false in Hn. apply Hn; [|done].
    by apply list_elem_of_In, elem_of_map_to_list.
Qed.
Lemma account_by_email_none d email id p : account_by_email d email = None ->
  participants d !! id = Some p -> p_email p <> email.
Proof.
  intros Hf Hp. pose proof (List.find_none _ _ Hf (id, p)) as Hn. rewrite bool_decide_eq_false in Hn.
  by apply Hn, list_elem_of_In, elem_of_map_to_list.
Qed.

Lemma node_by_hostname_some d pid host nid n : one_per_host d ->
  nodes d !! nid = Some n -> n_participant_id n = pid -> n_hostname n = host -> node_by_hostname d pid host = Some (nid, n).
Proof.
  intros Hu Hn Hp Hh. unfold node_by_hostname. destruct (List.find _ _) as [[id m]|] eqn:Hf.
  - apply List.find_some in Hf as [Hin [Hm1%bool_decide_eq_true Hm2%bool_decide_eq_true]%andb_prop].
    apply list_elem_of_In, elem_of_map_to_list in Hin. assert (id = nid) as -> by (eapply Hu; eauto; congruence). congruence.
  - exfalso. pose proof (List.find_none _ _ Hf (nid, n)) as Hno. rewrite andb_false_iff, !bool_decide_eq_false in Hno.
    destruct Hno as [?|?]; [|done|done]. by apply list_elem_of_In, elem_of_map_to_list.
Qed.
Lemma node_by_hostname_none d pid host id n : node_by_hostname d pid host = None ->
  nodes d !! id = Some n -> n_participant_id n = pid -> n_hostname n <> host.
Proof.
  intros Hf Hn Hp. pose proof (List.find_none _ _ Hf (id, n)) as Hno. rewrite andb_false_iff, !bool_decide_eq_false in Hno.
  destruct Hno as [?|?]; [|done|done]. by apply list_elem_of_In, elem_of_map_to_list.
Qed.

Lemma has_default_extends d d' node : extends d d' -> has_default d node = true -> has_default d' node = true.
Proof.
  intros (_ & _ & Hp). unfold has_default. rewrite !existsb_exists. intros ([id p] & Hin & Hd).
  exists (id, p). split; [|done]. apply list_elem_of_In, elem_of_map_to_list in Hin.
  apply list_elem_of_In, elem_of_map_to_list. by eapply lookup_weaken.
Qed.

Definition provider_in (i : Z) (d : DB) : Prop := exists pid p nid n,
  participants d !! pid = Some p /\ p_email p = provider_email i /\
  nodes d !! nid = Some n /\ n_participant_id n = pid /\ n_hostname n = seed_hostname i /\ has_default d nid = true.
Definition consumer_in (i : Z) (d : DB) : Prop := exists pid p,
  participants d !! pid = Some p /\ p_email p = consumer_email i.

Lemma provider_in_extends i d d' : extends d d' -> provider_in i d -> provider_in i d'.
Proof.
  intros He (pid & p & nid & n & Hp & Hpe & Hn & Hn1 & Hn2 & Hd). pose proof He as (H1 & H2 & _).
  destruct (H1 _ _ Hp) as (p' & Hp' & ?), (H2 _ _ Hn) as (n' & Hn' & ? & ?).
  exists pid, p', nid, n'. split_and!; try congruence. by eapply has_default_extends.
Qed.
Lemma consumer_in_extends i d d' : extends d d' -> consumer_in i d -> consumer_in i d'.
Proof. intros (H1 & _) (pid & p & Hp & He). destruct (H1 _ _ Hp) as (p' & Hp' & ?). exists pid, p'. split; congruence. Qed.

(** ** The statements, the first time and again *)

(** A new account under an address nobody has. *)
Lemma insert_account id row d : unique_rows d -> account_by_email d (p_email row) = None ->
  participants d !! id = None ->
  unique_rows (d <| participants := <[id := row]> (participants d) |>) /\
  extends d (d <| participants := <[id := row]> (participants d) |>).
Proof.
  intros [Hu Hh] Hf Hid. split.
  - split; [|done]. intros a b p q. simpl. rewrite !lookup_insert_Some.
    intros [[<- <-]|[? Ha]] [[<- <-]|[? Hb]]; simpl; [done| | |by eapply Hu].
    + intros He. by destruct (account_by_email_none _ _ _ _ Hf Hb).
    + intros He. by destruct (account_by_email_none _ _ _ _ Hf Ha).
  - split_and!; [|eauto|done]. intros a p Ha. exists p. split; [|done]. simpl. rewrite lookup_insert_ne; [done|congruence].
Qed.

Lemma upsert_provider_first id email stripe d pid d' : unique_rows d ->
  upsert_provider id email stripe d = Ok (pid, d') ->
  unique_rows d' /\ extends d d' /\ exists p, participants d' !! pid = Some p /\ p_email p = email.
Proof.
  intros [Hu Hh]. unfold upsert_provider. destruct (account_by_email d email) as [[q p]|] eqn:Hf.
  - intros [= <- <-]. split; [done|]. split; [done|]. apply List.find_some in Hf as [Hin Hq%bool_decide_eq_true].
    apply list_elem_of_In, elem_of_map_to_list in Hin. eauto.
  - case_bool_decide as Hid; [done|]. destruct (stripe_taken d stripe); [done|]. intros [= <- <-].
    apply eq_None_not_Some in Hid.
    destruct (insert_account id (provider_row email stripe) d (conj Hu Hh) Hf Hid) as [Hu' He]. split_and!; [done|done|].
    exists (provider_row email stripe). split; [apply lookup_insert_eq|done].
Qed.

Lemma upsert_node_first id pid host now d nid d' : unique_rows d ->
  upsert_seed_node id pid host now d = Ok (nid, d') ->
  unique_rows d' /\ extends d d' /\
  exists n, nodes d' !! nid = Some n /\ n_participant_id n = pid /\ n_hostname n = host.
Proof.
  intros [Hu Hh]. unfold upsert_seed_node. destruct (node_by_hostname d pid host) as [[q m]|] eqn:Hf.
  - intros [= <- <-]. apply List.find_some in Hf as [Hin [Hm1%bool_decide_eq_true Hm2%bool_decide_eq_true]%andb_prop].
    apply list_elem_of_In, elem_of_map_to_list in Hin.
    assert (Hrow : forall a n, <[q := m <| n_updated_at := now |>]> (nodes d) !! a = Some n ->
      exists n0, nodes d !! a = Some n0 /\ n_participant_id n = n_participant_id n0 /\ n_hostname n = n_hostname n0).
    { intros a n. rewrite lookup_insert_Some. intros [[<- <-]|[? Ha]]; eauto. }
    split_and!.
    + split; [done|]. intros a b n n' (n0 & Ha & ? & ?)%Hrow (n1 & Hb & ? & ?)%Hrow ? ?. eapply Hh; eauto; congruence.
    + split_and!; [eauto| |done]. intros a n Ha. simpl. destruct (decide (a = q)) as [->|Hne].
      * rewrite lookup_insert_eq. assert (n = m) as -> by congruence. eauto.
      * rewrite lookup_insert_ne by done. eauto.
    + eexists. split; [apply lookup_insert_eq|done].
  - case_bool_decide as Hid; [done|]. case_match; [done|]. intros [= <- <-]. apply eq_None_not_Some in Hid.
    split_and!.
    + split; [done|]. intros a b n n'. simpl. rewrite !lookup_insert_Some.
      intros [[<- <-]|[? Ha]] [[<- <-]|[? Hb]]; simpl; [done| | |by eapply Hh].
      * intros Hp Ho. by destruct (node_by_hostname_none _ _ _ _ _ Hf Hb).
      * intros Hp Ho. by destruct (node_by_hostname_none _ _ _ _ _ Hf Ha).
    + split_and!; [eauto| |done]. intros a n Ha. exists n. simpl. rewrite lookup_insert_ne; [done|congruence].
    + eexists. split; [apply lookup_insert_eq|done].
Qed.

(** The id of the profile is the database's own: it is fresh. *)
Lemma insert_default_first id node d d' : unique_rows d -> resource_profiles d !! id = None ->
  insert_default_profile id node d = Ok (tt, d') ->
  unique_rows d' /\ extends d d' /\ has_default d' node = true.
Proof.
  intros Hu Hid. unfold insert_default_profile. rewrite Hid, (bool_decide_eq_false_2 (is_Some None)) by (by intros []).
  cbn [orb]. destruct (has_default d node) eqn:Hd; [intros [= <-]; done|]. case_match; [done|]. intros [= <-].
  split; [exact Hu|]. split.
  - split_and!; [eauto|eauto|]. by apply insert_subseteq.
  - unfold has_default. apply existsb_exists. exists (id, seed_profile node). split.
    + apply list_elem_of_In, elem_of_map_to_list, lookup_insert_eq.
    + simpl. by rewrite bool_decide_eq_true_2.
Qed.

Lemma insert_consumer_first id email d d' : unique_rows d -> insert_consumer id email d = Ok (tt, d') ->
  unique_rows d' /\ extends d d' /\ exists pid p, participants d' !! pid = Some p /\ p_email p = email.
Proof.
  intros [Hu Hh]. unfold insert_consumer. destruct (account_by_email d email) as [[q p]|] eqn:Hf.
  - intros [= <-]. split; [done|]. split; [done|]. apply List.find_some in Hf as [Hin Hq%bool_decide_eq_true].
    apply list_elem_of_In, elem_of_map_to_list in Hin. eauto.
  - case_bool_decide as Hid; [done|]. intros [= <-]. apply eq_None_not_Some in Hid.
    destruct (insert_account id (consumer_row email) d (conj Hu Hh) Hf Hid) as [Hu' He]. split_and!; [done|done|].
    exists id, (consumer_row email). split; [apply lookup_insert_eq|done].
Qed.

(** ** The runs *)

(** The identifiers to come are new to the profiles, and new to each other. *)
Definition new_ids (w : World) : Prop :=
  (forall n, resource_profiles (w_db w) !! w_uuids w n = None) /\ Inj (=) (=) (w_uuids w).
Definition seedable (w : World) : Prop := calm w /\ unique_rows (w_db w) /\ new_ids w.

Lemma stmt_calm_inv {A} (f : Z -> DB -> result Error (A * DB)) w a w' : calm w -> stmt f w = (Ok a, w') ->
  exists d, f (w_now w) (w_db w) = Ok (a, d) /\ w' = w <| w_db := d |>.
Proof.
  intros Hc. rewrite stmt_calm by done. unfold run_stmt. destruct Hc as [_ ->].
  destruct (f (w_now w) (w_db w)) as [[b d]|e]; [|done]. intros [= <- <-]. eauto.
Qed.

Lemma upsert_provider_profiles id email stripe d pid d' :
  upsert_provider id email stripe d = Ok (pid, d') -> resource_profiles d' = resource_profiles d.
Proof. unfold upsert_provider. repeat case_match; naive_solver. Qed.
Lemma upsert_node_profiles id pid host now d nid d' :
  upsert_seed_node id pid host now d = Ok (nid, d') -> resource_profiles d' = resource_profiles d.
Proof. unfold upsert_seed_node. repeat case_match; naive_solver. Qed.
Lemma insert_default_profiles id node d d' k : insert_default_profile id node d = Ok (tt, d') ->
  resource_profiles d !! k = None -> k <> id -> resource_profiles d' !! k = None.
Proof.
  unfold insert_default_profile. case_match; [by intros [= <-]|]. case_match; [done|]. intros [= <-] Hk Hne.
  simpl. by rewrite lookup_insert_ne.
Qed.

Lemma seed_provider_first i w w' : seedable w -> seed_provider i w = (Ok tt, w') ->
  seedable w' /\ extends (w_db w) (w_db w') /\ provider_in i (w_db w').
Proof.
  intros (Hc & Hu & Hf & Hinj). unfold seed_provider.
  intros (i1 & w1 & [= <- <-] & (pid & w2 & (d1 & H1 & ->)%stmt_calm_inv & H2)%bind_ok)%bind_ok; [|done].
  apply bind_ok in H2 as (i2 & w3 & [= <- <-] & (nid & w4 & (d2 & H2 & ->)%stmt_calm_inv & H3)%bind_ok); [|done].
  apply bind_ok in H3 as (i3 & w5 & [= <- <-] & (d3 & H3 & ->)%stmt_calm_inv); [|done]. simpl in *.
  assert (Hr : resource_profiles d2 = resource_profiles (w_db w)).
  { rewrite (upsert_node_profiles _ _ _ _ _ _ _ H2). by eapply upsert_provider_profiles. }
  assert (Hnew : forall n, resource_profiles d3 !! w_uuids w (S (S (S n))) = None).
  { intros n. eapply insert_default_profiles; [exact H3|by rewrite Hr|]. intros [=]%Hinj. }
  apply upsert_provider_first in H1 as (Hu1 & He1 & p & Hp & Hpe); [|done].
  apply upsert_node_first in H2 as (Hu2 & He2 & n & Hn & Hn1 & Hn2); [|done].
  apply insert_default_first in H3 as (Hu3 & He3 & Hd); [|done|by rewrite Hr].
  split; [split_and!; [done|done|]; split; [exact Hnew|]|].
  { intros a b [=]%Hinj. done. }
  split; [by etrans; [exact He1|]; etrans|].
  destruct He2 as (He2 & _ & _). destruct (He2 _ _ Hp) as (p2 & Hp2 & Hpe2).
  destruct He3 as (He3 & He3' & _). destruct (He3 _ _ Hp2) as (p3 & Hp3 & Hpe3), (He3' _ _ Hn) as (n3 & Hn3 & ? & ?).
  exists pid, p3, nid, n3. split_and!; congruence.
Qed.

Lemma seed_consumer_first i w w' : seedable w -> seed_consumer i w = (Ok tt, w') ->
  seedable w' /\ extends (w_db w) (w_db w') /\ consumer_in i (w_db w').
Proof.
  intros (Hc & Hu & Hf & Hinj). unfold seed_consumer.
  intros (i1 & w1 & [= <- <-] & (d1 & H1 & ->)%stmt_calm_inv)%bind_ok; [|done]. simpl in *.
  assert (Hr : resource_profiles d1 = resource_profiles (w_db w)).
  { unfold insert_consumer in H1. repeat case_match; naive_solver. }
  apply insert_consumer_first in H1 as (Hu1 & He1 & Hin); [|done]. split; [|done].
  split_and!; [done|done|]. split; [intros n; simpl; by rewrite Hr|]. intros a b [=]%Hinj. done.
Qed.

Lemma set_password_same hash email d : same_rows d (set_password hash email d).
Proof.
  unfold same_rows, erase, set_password. simpl. f_equal. rewrite <- map_fmap_compose. apply map_fmap_ext.
  intros a p _. simpl. by case_bool_decide.
Qed.

Lemma seed_password_run hash i w : calm w ->
  seed_password hash i w = (Ok tt, w <| w_db := set_password hash (consumer_email i) (w_db w) |>).
Proof. intros Hc. unfold seed_password, exec. by apply stmt_calm_ok. Qed.

(** A loop of first runs, and a loop of second ones. *)
Lemma first_loop (f : Z -> M unit) (good : Z -> DB -> Prop) l w w' :
  (forall i w w', seedable w -> f i w = (Ok tt, w') -> seedable w' /\ extends (w_db w) (w_db w') /\ good i (w_db w')) ->
  (forall i d d', extends d d' -> good i d -> good i d') ->
  seedable w -> forM l f w = (Ok tt, w') ->
  seedable w' /\ extends (w_db w) (w_db w') /\ Forall (fun i => good i (w_db w')) l.
Proof.
  intros Hf Hg. revert w. induction l as [|i l IH]; intros w Hw.
  - intros [= <-]. done.
  - intros ([] & w1 & H1 & H2)%bind_ok. destruct (Hf _ _ _ Hw H1) as (Hw1 & He1 & Hi).
    destruct (IH _ Hw1 H2) as (Hw2 & He2 & Hl). split; [done|]. split; [by etrans|]. constructor; [by eapply Hg|done].
Qed.

Lemma again_loop (f : Z -> M unit) (good : Z -> DB -> Prop) l w :
  (forall i w, calm w -> unique_rows (w_db w) -> good i (w_db w) ->
     exists w', f i w = (Ok tt, w') /\ calm w' /\ same_rows (w_db w) (w_db w')) ->
  (forall i d d', extends d d' -> good i d -> good i d') ->
  calm w -> unique_rows (w_db w) -> Forall (fun i => good i (w_db w)) l ->
  exists w', forM l f w = (Ok tt, w') /\ calm w' /\ same_rows (w_db w) (w_db w').
Proof.
  intros Hf Hg. revert w. induction l as [|i l IH]; intros w Hc Hu Hl; [by exists w|].
  apply Forall_cons in Hl as [Hi Hl]. destruct (Hf _ _ Hc Hu Hi) as (w1 & H1 & Hc1 & Hs1).
  destruct (IH w1) as (w2 & H2 & Hc2 & Hs2); [done|by eapply same_unique| |].
  { eapply Forall_impl; [exact Hl|]. intros j. apply Hg. by apply same_extends. }
  exists w2. split; [|split; [done|by etrans]]. cbn [forM]. by rewrite (bind_eq _ _ _ _ _ H1).
Qed.

Lemma seed_provider_again i w : calm w -> unique_rows (w_db w) -> provider_in i (w_db w) ->
  exists w', seed_provider i w = (Ok tt, w') /\ calm w' /\ same_rows (w_db w) (w_db w').
Proof.
  intros Hc [Hu Hh] (pid & p & nid & n & Hp & Hpe & Hn & Hn1 & Hn2 & Hd). unfold seed_provider.
  set (d2 := (w_db w) <| nodes := <[nid := n <| n_updated_at := w_now w |>]> (nodes (w_db w)) |>).
  eexists. split.
  - rewrite (bind_eq fresh_uuid _ w _ (w <| w_uuids := fun n => w_uuids w (S n) |>)) by done.
    erewrite bind_eq; [|apply stmt_calm_ok; [done|]; simpl; unfold upsert_provider; by erewrite account_by_email_some].
    erewrite bind_eq by done.
    erewrite bind_eq; [|apply stmt_calm_ok; [done|]; simpl; unfold upsert_seed_node; by erewrite node_by_hostname_some].
    erewrite bind_eq by done. apply stmt_calm_ok; [done|]. simpl. fold d2. unfold insert_default_profile.
    match goal with |- context [has_default ?x nid] => change (has_default x nid) with (has_default (w_db w) nid) end.
    rewrite Hd, orb_true_r. reflexivity.
  - split; [done|]. simpl. unfold same_rows, erase, d2. simpl. f_equal. apply map_eq. intros k.
    rewrite !lookup_fmap. destruct (decide (k = nid)) as [->|Hne].
    + by rewrite lookup_insert_eq, Hn.
    + by rewrite lookup_insert_ne.
Qed.

Lemma seed_consumer_again i w : calm w -> unique_rows (w_db w) -> consumer_in i (w_db w) ->
  exists w', seed_consumer i w = (Ok tt, w') /\ calm w' /\ same_rows (w_db w) (w_db w').
Proof.
  intros Hc [Hu Hh] (pid & p & Hp & Hpe). unfold seed_consumer. eexists. split.
  - erewrite bind_eq by done. apply stmt_calm_ok; [done|]. simpl. unfold insert_consumer.
    by erewrite account_by_email_some.
  - done.
Qed.

Lemma seed_passwords_run hash l w : calm w -> exists w',
  forM l (seed_password hash) w = (Ok tt, w') /\ calm w' /\ same_rows (w_db w) (w_db w') /\
  forall i pid p, i ∈ l -> participants (w_db w') !! pid = Some p -> p_email p = consumer_email i ->
    p_password_hash p = Some hash.
Proof.
  intros Hc. induction l as [|i l IH] using rev_ind.
  - exists w. split; [done|]. split; [done|]. split; [done|]. by intros i pid p ?%elem_of_nil.
  - destruct IH as (w1 & H1 & Hc1 & Hs1 & Hp1).
    assert (Happ : forall (k l : list Z) (f : Z -> M unit) w, forM (k ++ l) f w = (_ ← forM k f; forM l f) w).
    { clear. induction k as [|a k IH]; intros l f w; [done|]. cbn [forM app].
      unfold mbind, M_bind in *. destruct (f a w) as [[[]|e] w1]; [apply IH|done]. }
    eexists. split; [|split; [|split]].
    + rewrite Happ, (bind_eq _ _ _ _ _ H1). cbn [forM]. erewrite bind_eq by (by apply seed_password_run). reflexivity.
    + done.
    + etrans; [apply set_password_same|exact Hs1].
    + intros j pid p Hj. simpl. rewrite lookup_fmap_Some. intros (q & <- & Hq). case_bool_decide as He; [done|].
      intros He'. apply elem_of_app in Hj as [Hj|<-%list_elem_of_singleton]; [by eapply Hp1|done].
Qed.

(** The seeding tool can be run again: when a run succeeds, the ten providers are
    there with a node and a default profile each and the ten consumers have the
    password's hash, and running the tool once more succeeds and changes no row but
    the passwords of the consumers and the time stamps of the nodes: no account, node
    or profile is added. *)
Theorem seed_runs_again gen w w1 : seedable w -> seed_rows gen w = (Ok tt, w1) ->
  Forall (fun i => provider_in i (w_db w1) /\ consumer_in i (w_db w1)) one_to_ten /\
  (forall i pid p, i ∈ one_to_ten -> participants (w_db w1) !! pid = Some p -> p_email p = consumer_email i ->
     p_password_hash p = gen "changeme") /\
  exists w2, seed_rows gen w1 = (Ok tt, w2) /\ same_rows (w_db w1) (w_db w2).
Proof.
  intros Hw. unfold seed_rows.
  intros ([] & wa & (Ha & _ & Hpa)%(first_loop _ provider_in) & H1)%bind_ok;
    [|exact seed_provider_first|exact provider_in_extends|exact Hw].
  apply bind_ok in H1 as ([] & wb & (Hb & Heb & Hcb)%(first_loop _ consumer_in) & H2);
    [|exact seed_consumer_first|exact consumer_in_extends|exact Ha].
  destruct (gen "changeme") as [hash|] eqn:Hg; [|done]. destruct Hb as (Hcalm & Hub & _).
  destruct (seed_passwords_run hash one_to_ten wb Hcalm) as (wc & Hrun & Hc1 & Hs1 & Hpw).
  rewrite Hrun in H2. injection H2 as <-. apply same_extends in Hs1 as Hx.
  assert (Hp1 : Forall (fun i => provider_in i (w_db wc)) one_to_ten).
  { eapply Forall_impl; [exact Hpa|]. intros i Hi. by eapply provider_in_extends, provider_in_extends. }
  assert (Hk1 : Forall (fun i => consumer_in i (w_db wc)) one_to_ten).
  { eapply Forall_impl; [exact Hcb|]. intros i Hi. by eapply consumer_in_extends. }
  apply same_unique in Hs1 as Hu1; [|done].
  split; [by apply Forall_and|]. split; [exact Hpw|].
  destruct (again_loop _ provider_in one_to_ten wc seed_provider_again provider_in_extends Hc1 Hu1 Hp1)
    as (wd & Hd & Hcd & Hsd).
  destruct (again_loop _ consumer_in one_to_ten wd seed_consumer_again consumer_in_extends Hcd) as (we & He & Hce & Hse).
  { by eapply same_unique. }
  { eapply Forall_impl; [exact Hk1|]. intros i. by apply consumer_in_extends, same_extends. }
  destruct (seed_passwords_run hash one_to_ten we Hce) as (wf & Hf & _ & Hsf & _).
  exists wf. rewrite (bind_eq _ _ _ _ _ Hd), (bind_eq _ _ _ _ _ He). split; [done|].
  unfold same_rows in *. congruence.
Qed.

(** A seeded node is on the marketplace, with its hardware readable there: unlike a
    node that registered itself, whose keys the query does not know. *)
Lemma seed_node_listed now participant hostname :
  market_ready (seed_node now participant hostname) = true /\
  hw_cpu_cores (seed_node now participant hostname) = Some 8 /\ hw_ram_gb (seed_node now participant hostname) = Some 16.
Proof. split_and!; vm_compute; reflexivity. Qed.

(** ** Witness *)

Definition unary (n : nat) : string := String.string_of_list_ascii (replicate n Ascii.zero).
Definition empty_world : World := mkWorld empty_db ∅ None 0 [] unary None.

Lemma unary_inj : Inj (=) (=) unary.
Proof.
  intros a b Hab%(f_equal String.list_ascii_of_string). unfold unary in Hab.
  rewrite !String.list_ascii_of_string_of_list_ascii in Hab. apply (f_equal length) in Hab. by rewrite !length_replicate in Hab.
Qed.

Definition seeded_world : World := (seed_rows Some empty_world).2.

Lemma seed_runs_again_witness :
  provider_in 10 (w_db seeded_world) /\
  exists w2, seed_rows Some seeded_world = (Ok tt, w2) /\ same_rows (w_db seeded_world) (w_db w2).
Proof.
  destruct (seed_runs_again Some empty_world seeded_world) as (Hin & _ & Hrun).
  - split; [done|]. split; [split; intros a b p q Ha; by vm_compute in Ha|].
    split; [intros n; apply lookup_empty|exact unary_inj].
  - rewrite (surjective_pairing (seed_rows Some empty_world)). apply (f_equal2 pair); [vm_compute; reflexivity|reflexivity].
  - unfold one_to_ten in Hin. rewrite !Forall_cons in Hin. split; [tauto|exact Hrun].
Defined.
