(* ===== verification/AgentMain.v ===== *)
(** The agent as a process: [main] and [runMain] of cmd/agent/main.go,
    [NewHeartbeatAgent], [PollJobs] and [postJSON] of internal/agent/heartbeat.go,
    [NewExecutor] of executor.go, [fetchAllowlist] of allowlist.go, the consent store
    of optout.go, and the Windows service (service_windows.go, install_windows.go,
    service_stub.go).

    The calls of one job and of the files are those of NodeAgent.v; a job that is
    handed to a goroutine is the program [NodeAgent.runJob].  Paths are joined as the
    platform does ([Paths]); [quote] is the verb %q of fmt. *)
From Stdlib Require Import Ascii.
From S2P Require Import Prelude Float64 Workload Sounding Registry Scheduler Database Lifecycle Effects.
From S2P Require Import Encoding Sha256 Token Allowlist Orchestrator Dispatch Http NodesApi Operator.
From S2P Require Import NodeAgent NodeAgentProofs AgentFiles Profile AgentLoops Loopback Task Keys.
Local Open Scope string_scope.
Local Open Scope list_scope.
Local Open Scope Z_scope.

(** ** The consent store *)

(** A Go map in the heap, [None] for a nil one; the store and its callers hold
    references. *)
Record Heap := mkHeap { hp_maps : gmap nat (gmap string bool); hp_next : nat }.
Record OptOutRef := mkOptOutRef {
  or_version : Z; or_compute : bool; or_storage : bool; or_printing : bool; or_printers : option nat }.

Definition alloc (m : gmap string bool) (h : Heap) : nat * Heap :=
  (hp_next h, mkHeap (<[hp_next h := m]> (hp_maps h)) (S (hp_next h))).
Definition deref (h : Heap) (r : option nat) : gmap string bool :=
  match r with Some r => default ∅ (hp_maps h !! r) | None => ∅ end.
Definition value_of (h : Heap) (o : OptOutRef) : ResourceOptOut :=
  mkResourceOptOut (or_version o) (or_compute o) (or_storage o) (or_printing o) (deref h (or_printers o)).

(** A nil map becomes an empty one; the store keeps the caller's reference otherwise. *)
Definition store_of (initial : OptOutRef) (h : Heap) : OptOutRef * Heap :=
  match or_printers initial with
  | Some _ => (initial, h)
  | None =>
      let '(r, h) := alloc ∅ h in
      (mkOptOutRef (or_version initial) (or_compute initial) (or_storage initial) (or_printing initial) (Some r), h)
  end.
Definition NewOptOutStore := store_of.
Definition OptOutStore_Set (oo : OptOutRef) (_ : OptOutRef) (h : Heap) : OptOutRef * Heap := store_of oo h.

(** A copy of the struct with a map of its own. *)
Definition OptOutStore_Get (s : OptOutRef) (h : Heap) : OptOutRef * Heap :=
  let '(r, h) := alloc (deref h (or_printers s)) h in
  (mkOptOutRef (or_version s) (or_compute s) (or_storage s) (or_printing s) (Some r), h).

Definition OptOutStore_IsResourceEnabled (s : OptOutRef) (h : Heap) (workload : Agent.WorkloadType) (printerID : string) : bool :=
  IsResourceEnabled (value_of h s) workload printerID.

(** An assignment to a key of a map. *)
Definition map_set (r : option nat) (k : string) (v : bool) (h : Heap) : Heap :=
  match r with
  | Some r => mkHeap (<[r := <[k := v]> (deref h (Some r))]> (hp_maps h)) (hp_next h)
  | None => h
  end.

(** Allocated references only. *)
Definition heap_ok (h : Heap) : Prop := forall r, is_Some (hp_maps h !! r) -> (r < hp_next h)%nat.
Definition ref_ok (h : Heap) (o : OptOutRef) : Prop :=
  match or_printers o with Some r => is_Some (hp_maps h !! r) | None => True end.

(** What [Get] returns is the consent stored, and safe to change: no assignment to its
    map is seen by the store, or by anybody else who holds a reference. *)
Lemma Get_is_a_copy s h k v : heap_ok h -> ref_ok h s ->
  let '(out, h1) := OptOutStore_Get s h in
  value_of h1 out = value_of h s /\ value_of h1 s = value_of h s /\
  (forall o, ref_ok h o -> value_of (map_set (or_printers out) k v h1) o = value_of h o) /\
  deref (map_set (or_printers out) k v h1) (or_printers out) = <[k := v]> (deref h (or_printers s)).
Proof.
  intros Hh Hs. unfold OptOutStore_Get. simpl.
  assert (Hold : forall m o, ref_ok h o -> value_of (mkHeap (<[hp_next h := m]> (hp_maps h)) (S (hp_next h))) o = value_of h o).
  { intros m o Ho. unfold value_of, deref, ref_ok in *. destruct (or_printers o) as [r|]; [|done]. simpl.
    rewrite lookup_insert_ne; [done|]. specialize (Hh r Ho). lia. }
  split; [unfold value_of, deref; simpl; by rewrite lookup_insert_eq|]. split; [by apply Hold|]. split.
  - intros o Ho. unfold map_set. simpl. rewrite insert_insert_eq. apply Hold, Ho.
  - unfold map_set. unfold deref at 1. simpl. rewrite lookup_insert_eq. simpl. by rewrite lookup_insert_eq.
Qed.

(** [Set] does not copy: who keeps the reference it was given can still change the
    store.  The agent's only caller, [Heartbeat], just reads the map afterwards. *)
Lemma Set_keeps_reference oo s h k v : heap_ok h -> or_printers oo <> None ->
  let '(s', h1) := OptOutStore_Set oo s h in
  deref (map_set (or_printers oo) k v h1) (or_printers s') = <[k := v]> (deref h (or_printers oo)).
Proof.
  intros Hh Ho. unfold OptOutStore_Set, store_of. destruct (or_printers oo) as [r|] eqn:Hr; [|done].
  unfold map_set. unfold deref at 1. simpl. rewrite Hr. by rewrite lookup_insert_eq.
Qed.

(** ** The calls of the process *)

Inductive PollAnswer := PollNotBuilt | PollNotSent | PollStatus (code : Z) (jobs : option (list jobEntry)).

(** What the process hands to a goroutine. *)
Inductive Background :=
| HeartbeatLoop (cfg : AgentConfig) (hw : AgentHardware) (interval : Z)
| RunJob (al : Allowlist) (hw : AgentHardware) (tokenSecret : string) (nodeID : string) (job : jobEntry).

Inductive HostE : Type -> Type :=
| Host {X : Type} (e : AgentE X) : HostE X
| AGetenv (key : string) : HostE string
| Hostname : HostE string
| AwaitDetect : HostE DetectOutcome
| SpirePassages (socket : string) : HostE (Z * (nat -> Passage))
| StartSpireService : HostE unit
| HttpGet (url : string) (limit : Z) : HostE (option (Z * option string))
| NewAgentSource (socket : string) : HostE bool
| NewDockerClient : HostE bool
| Spawn (g : Background) : HostE unit
| GetAssignments (url : string) : HostE PollAnswer.

Abbreviation agent := (task HostE).

(** A program of NodeAgent.v, run by the process itself. *)
Fixpoint host {A} (p : prog A) : agent A :=
  match p with Return a => Done a | Call e k => Perform (Host e) (fun x => host (k x)) end.

(** [path/filepath] on the agent's platform. *)
Class Paths := { FJoin : list string -> string; FDir : string -> string }.

Section Process.
Context `{MapOrder} `{Paths}.
Context (srt : forall A, (A -> A -> bool) -> list A -> list A).
Context (marshalAl : Z -> Z -> list AllowlistEntry -> result string string) (ed25519_verify : string -> string -> string -> bool).
Context (b64_decode : string -> option string) (AllowlistPublicKey : string).
Context (encodeAl : Allowlist -> string) (decodeAl : string -> option Allowlist).
Context (unmarshalOptOut : string -> option ResourceOptOut).
Context (marshalConfig : NodeConfig -> string) (unmarshalConfig : string -> option NodeConfig).
Context (goos goarch : string) (quote : string -> string).

Definition agent_mustEnv (key : string) : agent string :=
  v ← perform (AGetenv key); if bool_decide (v = "") then Exit 1 else mret v.

Definition DefaultConfigPath : agent string :=
  dir ← perform (AGetenv "PROGRAMDATA");
  mret (if bool_decide (dir = "") then "agent.conf" else FJoin [dir; "SoHoLINK"; "agent.conf"]).
Definition OptOutCachePath : agent string := p ← DefaultConfigPath; mret (FJoin [FDir p; "opt-out.json"]).
Definition AllowlistCachePath : agent string := p ← DefaultConfigPath; mret (FJoin [FDir p; "allowlist.json"]).

Definition detect : agent AgentHardware := o ← perform AwaitDetect; mret (detectHW goos goarch o).

(** *** The allowlist *)

Definition fetchAllowlist (url : string) : agent (result string Allowlist) :=
  r ← perform (HttpGet url (2 ^ 20));
  mret (match r with
    | None => Err "get"
    | Some (code, body) =>
        if negb (code =? 200) then Err "allowlist fetch failed"
        else match body with
        | None => Err "read"
        | Some data => match decodeAl data with Some al => Ok al | None => Err "allowlist malformed" end
        end
    end).

Definition verify_al : Allowlist -> result string unit := Verify srt marshalAl ed25519_verify b64_decode AllowlistPublicKey.

Definition load_allowlist (url : string) : agent (result string Allowlist) :=
  cachePath ← AllowlistCachePath;
  fetched ← fetchAllowlist url;
  match fetched with
  | Ok al =>
      match verify_al al with
      | Err e => mret (Err e)
      | Ok _ =>
          _ ← host (call (MkdirAll (FDir cachePath)));
          _ ← host (call (WriteFile cachePath (encodeAl al)));
          mret (Ok al)
      end
  | Err _ =>
      r ← host (call (ReadFile cachePath));
      match r with
      | FileData data =>
          match decodeAl data with
          | None => mret (Err "allowlist malformed")
          | Some cached => mret (match verify_al cached with Ok _ => Ok cached | Err e => Err e end)
          end
      | _ => mret (Err "allowlist fetch failed")
      end
  end.

(** *** The first run *)

Definition newline : string := String.String "010" "".
Definition text_lines (ls : list string) : string := foldr (fun l acc => l +:+ newline +:+ acc) "" ls.
Definition dquote : string := String.String "034" "".
Definition quoted (s : string) : string := dquote +:+ s +:+ dquote.

(** The configuration of the identity agent, as the template spells it. *)
Definition spire_conf (dataDir socketPath joinToken keysDir : string) : string := text_lines
  ["agent {";
   "    data_dir = " +:+ quote dataDir;
   "    log_level = " +:+ quoted "INFO";
   "    server_address = " +:+ quoted "spire.soholink.org";
   "    server_port = " +:+ quoted "8081";
   "    socket_path = " +:+ quote socketPath;
   "    trust_domain = " +:+ quoted "soholink.org";
   "    insecure_bootstrap = true";
   "}";
   "";
   "plugins {";
   "    NodeAttestor " +:+ quoted "join_token" +:+ " {";
   "        plugin_data {";
   "            join_token = " +:+ quote joinToken;
   "        }";
   "    }";
   "    KeyManager " +:+ quoted "disk" +:+ " {";
   "        plugin_data {";
   "            directory = " +:+ quote keysDir;
   "        }";
   "    }";
   "    WorkloadAttestor " +:+ quoted "unix" +:+ " {";
   "        plugin_data {}";
   "    }";
   "}"].

(** The path of a Windows pipe for its npipe: address. *)
Definition pipe_path (socket : string) : string :=
  if String.prefix "npipe:" socket
  then "\\.\pipe\" +:+ String.substring 6 (String.length socket - 6) socket
  else socket.

Definition first_run (confPath spiffeSocket : string) : agent NodeConfig :=
  regToken ← agent_mustEnv "AGENT_REGISTER_TOKEN";
  countryCode ← agent_mustEnv "AGENT_COUNTRY_CODE";
  hostname ← perform Hostname;
  hw0 ← detect;
  region ← perform (AGetenv "AGENT_REGION");
  claimed ← host (ClaimNode hw0 regToken hostname countryCode region);
  match claimed with
  | None => Exit 1
  | Some nodeCfg =>
      saved ← host (SaveConfig marshalConfig (FDir confPath) confPath nodeCfg);
      if negb saved then Exit 1
      else
        _ ← (if bool_decide (nc_SpireJoinToken nodeCfg = "") then mret tt
             else
               let dir := FDir confPath in
               let conf := spire_conf (FJoin [dir; "spire"; "data"]) (pipe_path spiffeSocket)
                             (nc_SpireJoinToken nodeCfg) (FJoin [dir; "spire"; "keys"]) in
               let path := FJoin [dir; "spire-agent.conf"] in
               made ← host (call (MkdirAll (FDir path)));
               if (made : bool) then _ ← host (call (WriteFile path conf)); mret tt else mret tt);
        _ ← (if bool_decide (goos = "windows") then perform StartSpireService else mret tt);
        mret nodeCfg
  end.

(** *** Construction *)

(** The secret of the stored identity, or the one of the environment. *)
Definition token_secret (nodeCfg : NodeConfig) : agent string :=
  if negb (bool_decide (nc_TokenSecret nodeCfg = "")) then
    match hex_decode (nc_TokenSecret nodeCfg) with Some b => mret b | None => Exit 1 end
  else
    s ← perform (AGetenv "AGENT_TOKEN_SECRET");
    if bool_decide (s = "") then mret ""
    else match hex_decode s with Some b => mret b | None => Exit 1 end.

(** The passages [waitForSPIRE] may need in ninety seconds. *)
Definition spire_fuel : nat := 47.
Lemma spire_fuel_enough start env : pausing start env -> is_Some (waitForSPIRE spire_fuel (start + 90 * Second) env).
Proof.
  intros Hp. destruct (waits 46 start (start + 90 * Second) env Hp) as (r & Hr & _); [unfold spirePause, Second; lia|].
  by exists r.
Qed.
Definition wait_spire (socket : string) : agent unit :=
  '(start, env) ← perform (SpirePassages socket);
  match waitForSPIRE spire_fuel (start + 90 * Second) env with
  | Some SpireReady => mret tt
  | _ => Exit 1
  end.

Definition PollJobs (addr nodeID : string) : agent (result string (list jobEntry)) :=
  r ← perform (GetAssignments (addr +:+ "/nodes/jobs?node_id=" +:+ nodeID));
  mret (match r with
    | PollNotBuilt => Err "poll jobs: build request"
    | PollNotSent => Err "poll jobs"
    | PollStatus code jobs =>
        if negb (code =? 200) then Err "poll jobs: unexpected status"
        else match jobs with Some js => Ok js | None => Err "poll jobs: decode" end
    end).

Fixpoint spawn_all (al : Allowlist) (hw : AgentHardware) (tokenSecret nodeID : string) (jobs : list jobEntry) : agent unit :=
  match jobs with
  | [] => mret tt
  | job :: jobs' => _ ← perform (Spawn (RunJob al hw tokenSecret nodeID job)); spawn_all al hw tokenSecret nodeID jobs'
  end.

(** [ticks] polls, then the signal. *)
Fixpoint poll_loop (ticks : nat) (addr nodeID : string) (al : Allowlist) (hw : AgentHardware) (tokenSecret : string) : agent unit :=
  match ticks with
  | O => mret tt
  | S ticks' =>
      jobs ← PollJobs addr nodeID;
      _ ← (match jobs with Err _ => mret tt | Ok js => spawn_all al hw tokenSecret nodeID js end);
      poll_loop ticks' addr nodeID al hw tokenSecret
  end.

Definition runMain (ticks : nat) : agent unit :=
  controlPlaneAddr ← agent_mustEnv "AGENT_CONTROL_PLANE_ADDR";
  spiffeSocket ← agent_mustEnv "SPIFFE_ENDPOINT_SOCKET";
  confPath ← DefaultConfigPath;
  stored ← host (LoadConfig unmarshalConfig confPath);
  nodeCfg ← match stored with Some c => mret c | None => first_run confPath spiffeSocket end;
  _ ← wait_spire spiffeSocket;
  tokenSecret ← token_secret nodeCfg;
  providerID ← agent_mustEnv "AGENT_PROVIDER_ID";
  nodeClass ← agent_mustEnv "AGENT_NODE_CLASS";
  countryCode ← agent_mustEnv "AGENT_COUNTRY_CODE";
  region ← perform (AGetenv "AGENT_REGION");
  let cfg := mkAgentConfig (nc_NodeID nodeCfg) providerID nodeClass countryCode region in
  hw ← detect;
  loaded ← load_allowlist (controlPlaneAddr +:+ "/allowlist");
  match loaded with
  | Err _ => Exit 1
  | Ok al =>
      optOutPath ← OptOutCachePath;
      oo ← host (initial_consent unmarshalOptOut optOutPath);
      _ ← host (call (SetOptOut oo));
      source ← perform (NewAgentSource spiffeSocket);
      if negb source then Exit 1
      else
        docker ← perform NewDockerClient;
        if negb docker then Exit 1
        else
          _ ← perform (Spawn (HeartbeatLoop cfg hw (30 * Second)));
          poll_loop ticks controlPlaneAddr (nc_NodeID nodeCfg) al hw tokenSecret
  end.
End Process.

(** ** The flags and the Windows service *)

Inductive Mode := ModeInstall | ModeUninstall | ModeService | ModeForeground.
(** The arguments with the program's name first; only the one after it is looked at. *)
Definition mode_of (args : list string) : Mode :=
  match args with
  | _ :: flag :: _ =>
      if bool_decide (flag = "--install") then ModeInstall
      else if bool_decide (flag = "--uninstall") then ModeUninstall
      else if bool_decide (flag = "--service") then ModeService
      else ModeForeground
  | _ => ModeForeground
  end.

Definition serviceName : string := "SoHoLINKAgent".
Inductive StartType := StartAutomatic | StartOther (z : Z).
Record ServiceConfig := mkServiceConfig {
  sf_BinaryPathName : string; sf_StartType : StartType; sf_DisplayName : string; sf_Description : string }.
#[export] Instance eta_ServiceConfig : Eta ServiceConfig := fun c =>
  mkServiceConfig (sf_BinaryPathName c) (sf_StartType c) (sf_DisplayName c) (sf_Description c).

(** The calls to the service manager. *)
Inductive ScmE : Type -> Type :=
| Executable : ScmE (option string)
| Abs (path : string) : ScmE (option string)
| ScmConnect : ScmE bool
| ScmDisconnect : ScmE unit
| OpenService (name : string) : ScmE bool
| ReadServiceConfig : ScmE (option ServiceConfig)
| UpdateServiceConfig (cfg : ServiceConfig) : ScmE bool
| CreateService (name path : string) (cfg : ServiceConfig) : ScmE bool
| DeleteService : ScmE bool
| CloseService : ScmE unit
| SvcRun (name : string) : ScmE bool.

Definition display_name : string := "SoHoLINK Node Agent".
Definition description : string := "Contributes compute capacity to the SoHoLINK network.".

(** Run the deferred calls, the last one first, and return. *)
Definition after (deferred : list (ScmE unit)) (r : result string unit) : task ScmE (result string unit) :=
  foldr (fun e k => _ ← perform e; k) (mret r) deferred.

Definition installService : task ScmE (result string unit) :=
  exe ← perform Executable;
  match exe with
  | None => mret (Err "install service: locate executable")
  | Some exe =>
      abs ← perform (Abs exe);
      match abs with
      | None => mret (Err "install service: abs path")
      | Some exePath =>
          m ← perform ScmConnect;
          if negb m then mret (Err "install service: connect to SCM")
          else
            s ← perform (OpenService serviceName);
            if (s : bool) then
              cfg ← perform ReadServiceConfig;
              match cfg with
              | None => after [CloseService; ScmDisconnect] (Err "install service: read config")
              | Some cfg =>
                  ok ← perform (UpdateServiceConfig (cfg <| sf_BinaryPathName := exePath |>
                         <| sf_StartType := StartAutomatic |> <| sf_DisplayName := display_name |>
                         <| sf_Description := description |>));
                  after [CloseService; ScmDisconnect] (if (ok : bool) then Ok tt else Err "update")
              end
            else
              made ← perform (CreateService serviceName exePath
                       (mkServiceConfig "" StartAutomatic display_name description));
              if (made : bool) then after [CloseService; ScmDisconnect] (Ok tt)
              else after [ScmDisconnect] (Err "install service: create")
      end
  end.

Definition removeService : task ScmE (result string unit) :=
  m ← perform ScmConnect;
  if negb m then mret (Err "remove service: connect to SCM")
  else
    s ← perform (OpenService serviceName);
    if negb s then after [ScmDisconnect] (Ok tt)
    else
      deleted ← perform DeleteService;
      after [CloseService; ScmDisconnect] (if (deleted : bool) then Ok tt else Err "remove service: delete").

(** The three handlers of a build for another platform. *)
Definition errNotWindows : string := "Windows service management is only available on Windows builds".
Definition stub_service : result string unit := Err errNotWindows.

(** [Execute]: the statuses it reports for the requests it reads, and whether it
    cancels the agent. *)
Inductive SvcCmd := SvcStop | SvcShutdown | SvcOther (cmd : Z).
Inductive SvcStatus := StartPending | SvcRunning | StopPending.
Fixpoint control_loop (reqs : list SvcCmd) : list SvcStatus * bool :=
  match reqs with
  | [] => ([], false)
  | SvcOther _ :: reqs' => control_loop reqs'
  | (SvcStop | SvcShutdown) :: _ => ([StopPending], true)
  end.
Definition Execute (reqs : list SvcCmd) : list SvcStatus * bool :=
  let '(ss, cancelled) := control_loop reqs in (StartPending :: SvcRunning :: ss, cancelled).

(** [runAsService]: the agent runs in a goroutine of its own while the service
    manager's loop calls [Execute]. *)
Definition runAsService : task ScmE (result string unit) :=
  ok ← perform (SvcRun serviceName); mret (if (ok : bool) then Ok tt else Err "service").

(** The handles open after a trace: the manager's and the service's. *)
Definition handles (tr : list (Step ScmE)) : Z * Z :=
  foldl (fun hs st => match st with Did e x =>
    match e in ScmE X return X -> Z * Z with
    | ScmConnect => fun ok => if ok then (hs.1 + 1, hs.2) else hs
    | ScmDisconnect => fun _ => (hs.1 - 1, hs.2)
    | OpenService _ => fun ok => if ok then (hs.1, hs.2 + 1) else hs
    | CreateService _ _ _ => fun ok => if ok then (hs.1, hs.2 + 1) else hs
    | CloseService => fun _ => (hs.1, hs.2 - 1)
    | _ => fun _ => hs
    end x end) (0, 0) tr.

(** Whatever the service manager answers, installing and removing close what they
    opened. *)
Lemma service_handles_closed t : t ∈ [installService; removeService] ->
  every t [] (fun _ tr => handles tr = (0, 0)).
Proof.
  assert (Hafter : forall ds r tr (Q : Ending (result string unit) -> list (Step ScmE) -> Prop),
    (forall r, Q r (tr ++ ((fun e => Did e tt) <$> ds))) -> every (after ds r) tr Q).
  { induction ds as [|d ds IH]; intros r tr Q HQ.
    { specialize (HQ (Finished r)). rewrite app_nil_r in HQ. exact HQ. }
    intros []. apply IH. intros r'. rewrite <- app_assoc. apply HQ. }
  rewrite !elem_of_cons, elem_of_nil. intros [->|[->|[]]].
  - unfold installService. follow. intros [exe|]; [|by follow]. follow. intros [abs|]; [|by follow].
    follow. intros [|]; follow; [|done]. intros [|]; follow.
    + intros [cfg|]; [follow; intros ?|]; by apply Hafter.
    + intros [|]; by apply Hafter.
  - unfold removeService. follow. intros [|]; follow; [|done]. intros [|]; cbn [negb]; [follow; intros ?|]; by apply Hafter.
Qed.

Lemma control_loop_cancels reqs :
  (control_loop reqs).2 = existsb (fun c => match c with SvcOther _ => false | _ => true end) reqs.
Proof. induction reqs as [|[| |z] reqs IH]; simpl; [done|done|done|exact IH]. Qed.
