(* ===== verification/AgentMainProofs.v ===== *)
(** What holds of an agent process, whatever its environment, its disk, the control
    plane, the identity provider and Docker answer. *)
From S2P Require Import Prelude Float64 Workload Sounding Registry Scheduler Database Lifecycle Effects.
From S2P Require Import Encoding Sha256 Token Allowlist Orchestrator Samples Dispatch Http NodesApi Operator.
From S2P Require Import NodeAgent NodeAgentProofs AgentFiles Profile AgentLoops Loopback Task Keys AgentMain.
Local Open Scope string_scope.
Local Open Scope list_scope.
Local Open Scope Z_scope.

Abbreviation HostLog := (list (Step HostE)).

Section Guard.
Context `{MapOrder} `{Paths}.
Context (srt : forall A, (A -> A -> bool) -> list A -> list A).
Context (marshalAl : Z -> Z -> list AllowlistEntry -> result string string) (ed25519_verify : string -> string -> string -> bool).
Context (b64_decode : string -> option string) (AllowlistPublicKey : string).
Context (encodeAl : Allowlist -> string) (decodeAl : string -> option Allowlist).
Context (unmarshalOptOut : string -> option ResourceOptOut).
Context (marshalConfig : NodeConfig -> string) (unmarshalConfig : string -> option NodeConfig).
Context (goos goarch : string) (quote : string -> string).

Notation verified al := (verify_al srt marshalAl ed25519_verify b64_decode AllowlistPublicKey al = Ok tt).
Notation load_allowlist := (load_allowlist srt marshalAl ed25519_verify b64_decode AllowlistPublicKey encodeAl decodeAl).
Notation first_run := (first_run marshalConfig goos goarch quote).
Notation runMain := (runMain srt marshalAl ed25519_verify b64_decode AllowlistPublicKey encodeAl decodeAl unmarshalOptOut
  marshalConfig unmarshalConfig goos goarch quote).

(** *** What a trace shows *)

(** The stored identity, as [LoadConfig] makes it of what it read. *)
Definition config_of (r : ReadAnswer) : option NodeConfig :=
  match r with
  | FileData data => c ← unmarshalConfig data; if complete_config c then Some c else None
  | _ => None
  end.
Definition unconfigured (tr : HostLog) : Prop :=
  exists path r, Did (Host (ReadFile path)) r ∈ tr /\ config_of r = None.
Definition stored_in (tr : HostLog) (c : NodeConfig) : Prop :=
  exists path r, Did (Host (ReadFile path)) r ∈ tr /\ config_of r = Some c.
(** A new identity that was claimed and written to disk. *)
Definition claimed_in (tr : HostLog) (c : NodeConfig) : Prop :=
  exists req cr path, Did (Host (PostClaim req)) (Some cr) ∈ tr /\
    c = mkNodeConfig (cr_NodeID cr) (cr_TokenSecret cr) (cr_SpireJoinToken cr) /\ complete_config c = true /\
    Did (Host (WriteFile path (marshalConfig c))) true ∈ tr.
Definition identified (tr : HostLog) (c : NodeConfig) : Prop := stored_in tr c \/ claimed_in tr c.
Definition assigned (tr : HostLog) (job : jobEntry) : Prop :=
  exists url js, Did (GetAssignments url) (PollStatus 200 (Some js)) ∈ tr /\ job ∈ js.
Definition detected (tr : HostLog) (hw : AgentHardware) : Prop :=
  exists o, Did AwaitDetect o ∈ tr /\ hw = detectHW goos goarch o.
Definition spire_answered (tr : HostLog) : Prop :=
  exists socket start env, Did (SpirePassages socket) (start, env) ∈ tr /\
    waitForSPIRE spire_fuel (start + 90 * Second) env = Some SpireReady.

Definition job_ready (tr : HostLog) (g : Background) : Prop :=
  match g with
  | HeartbeatLoop cfg hw _ =>
      exists c, identified tr c /\ ac_NodeID cfg = nc_NodeID c /\ spire_answered tr /\ detected tr hw
  | RunJob al hw secret nodeID job =>
      verified al /\ assigned tr job /\ detected tr hw /\ spire_answered tr /\
      (exists socket, Did (NewAgentSource socket) true ∈ tr) /\ Did NewDockerClient true ∈ tr /\
      exists c, identified tr c /\ nodeID = nc_NodeID c
  end.

Definition agent_ok (tr : HostLog) (st : Step HostE) : Prop :=
  match st with Did e _ =>
    match e with
    | Spawn g => job_ready tr g
    | Host e => match e with PostClaim _ => unconfigured tr | _ => True end
    | _ => True
    end
  end.

(** *** The parts *)

Lemma gives_env key tr : gives (agent_mustEnv key) tr (fun v l => v <> "").
Proof. apply gives_perform. intros v. case_bool_decide; [apply gives_exit|by apply gives_ret]. Qed.
Lemma guarded_env key tr : guarded agent_ok (agent_mustEnv key) tr.
Proof. unfold agent_mustEnv. follow; [done|]. intros v. case_bool_decide; follow. Qed.

Lemma gives_confPath tr : gives DefaultConfigPath tr (fun _ _ => True).
Proof. apply gives_perform. intros v. by apply gives_ret. Qed.
Lemma guarded_confPath tr : guarded agent_ok DefaultConfigPath tr.
Proof. unfold DefaultConfigPath. follow; [done|]. intros v. follow. Qed.

Lemma gives_detect tr : gives (detect goos goarch) tr (fun hw l => detected l hw).
Proof. apply gives_perform. intros o. apply gives_ret. exists o. split; [apply list_elem_of_here|done]. Qed.
Lemma guarded_detect tr : guarded agent_ok (detect goos goarch) tr.
Proof. unfold detect. follow; [done|]. intros o. follow. Qed.

Lemma gives_spire socket tr : gives (wait_spire socket) tr (fun _ l => spire_answered l).
Proof.
  apply gives_perform. intros [start env]. destruct (waitForSPIRE _ _ _) as [[]|] eqn:Hw; [|apply gives_exit..].
  apply gives_ret. exists socket, start, env. split; [apply list_elem_of_here|done].
Qed.
Lemma guarded_spire socket tr : guarded agent_ok (wait_spire socket) tr.
Proof. unfold wait_spire. follow; [done|]. intros [start env]. by repeat case_match. Qed.

Lemma gives_any {A} (t : agent A) tr : gives t tr (fun _ _ => True).
Proof.
  revert tr. induction t as [a|code|X e k IH]; intros tr; [by apply gives_ret|apply gives_exit|].
  intros x. eapply every_mono; [apply IH|]. intros r tr' Hr a Ha. destruct (Hr a Ha) as (l & -> & _).
  eexists. split; [by rewrite <- app_assoc|done].
Qed.

Lemma guarded_secret c tr : guarded agent_ok (token_secret c) tr.
Proof.
  unfold token_secret. destruct (negb _); [destruct (hex_decode _); follow|]. follow; [done|]. intros s.
  destruct (bool_decide _); [follow|]. destruct (hex_decode s); follow.
Qed.

Lemma gives_LoadConfig path tr :
  gives (host (LoadConfig unmarshalConfig path)) tr
    (fun c l => exists r, Did (Host (ReadFile path)) r ∈ l /\ config_of r = c).
Proof.
  intros r c [= <-]. exists [Did (Host (ReadFile path)) r]. split; [done|]. exists r. split; [apply list_elem_of_here|].
  done.
Qed.
Lemma guarded_LoadConfig path tr : guarded agent_ok (host (LoadConfig unmarshalConfig path)) tr.
Proof. by intros r. Qed.

Lemma guarded_consent path tr : guarded agent_ok (host (initial_consent unmarshalOptOut path)) tr.
Proof. intros [| |data]; (split; [exact I|]); [exact I..|]. simpl. by destruct (unmarshalOptOut data). Qed.

Lemma gives_load_allowlist url tr : gives (load_allowlist url) tr (fun r _ => forall al, r = Ok al -> verified al).
Proof.
  unfold AgentMain.load_allowlist.
  eapply gives_seq; [apply gives_any|]. intros cache l _. eapply gives_seq; [apply gives_any|]. intros [al|e] l1 _.
  - destruct (verify_al _ _ _ _ _ al) as [[]|e] eqn:Hv; [|by apply gives_ret].
    eapply gives_seq; [apply gives_any|]. intros ? ? _. eapply gives_seq; [apply gives_any|]. intros ? ? _.
    apply gives_ret. by intros ? [= <-].
  - eapply gives_seq; [apply gives_any|]. intros [| |data] ? _; [by apply gives_ret..|].
    destruct (decodeAl data) as [al|]; [|by apply gives_ret]. apply gives_ret.
    destruct (verify_al _ _ _ _ _ al) as [[]|e'] eqn:Hv; [|done]. by intros ? [= <-].
Qed.
Lemma guarded_load_allowlist url tr : guarded agent_ok (load_allowlist url) tr.
Proof.
  unfold AgentMain.load_allowlist, AllowlistCachePath, fetchAllowlist.
  eapply guarded_seq; [|apply gives_any|].
  { eapply guarded_seq; [apply guarded_confPath|apply gives_any|]. intros; follow. }
  intros cache l _. eapply guarded_seq; [|apply gives_any|].
  { follow; [done|]. intros r. follow. }
  intros [al|e] l1 _.
  - case_match; [|follow]. eapply guarded_seq; [by intros ?|apply gives_any|]. intros ? ? _.
    eapply guarded_seq; [by intros ?|apply gives_any|]. intros; follow.
  - eapply guarded_seq; [by intros ?|apply gives_any|]. intros r ? _. repeat case_match; follow.
Qed.

Lemma gives_claim hw regToken hostname country region tr :
  gives (host (ClaimNode hw regToken hostname country region)) tr
    (fun c l => forall c', c = Some c' -> exists req cr, Did (Host (PostClaim req)) (Some cr) ∈ l /\
       c' = mkNodeConfig (cr_NodeID cr) (cr_TokenSecret cr) (cr_SpireJoinToken cr) /\ complete_config c' = true).
Proof.
  intros x c [= <-]. eexists [Did (Host (PostClaim _)) x]. split; [done|]. intros c'. destruct x as [cr|]; [|done].
  simpl. case_match eqn:Hc; [|done]. intros [= <-]. eexists _, cr. split; [apply list_elem_of_here|done].
Qed.
Lemma gives_save dir path c tr :
  gives (host (SaveConfig marshalConfig dir path c)) tr
    (fun saved l => saved = true -> Did (Host (WriteFile path (marshalConfig c))) true ∈ l).
Proof.
  intros [].
  - intros w a [= <-]. exists [Did (Host (MkdirAll dir)) true; Did (Host (WriteFile path (marshalConfig c))) w].
    rewrite <- app_assoc. split; [done|]. intros ->. apply list_elem_of_further, list_elem_of_here.
  - intros a [= <-]. exists [Did (Host (MkdirAll dir)) false]. done.
Qed.

(** What a trace shows, a longer one shows. *)
Lemma claimed_mono l k c : l ⊆ k -> claimed_in l c -> claimed_in k c.
Proof. intros Hs (req & cr & path & Hr1 & Hr2 & Hr3 & Hr4). exists req, cr, path. split_and!; try done; by apply Hs. Qed.
Lemma identified_mono l k c : l ⊆ k -> identified l c -> identified k c.
Proof.
  intros Hs [(path & r & Hr & Hc)|Hc]; [left|right; by eapply claimed_mono]. exists path, r. split; [by apply Hs|done].
Qed.
Lemma detected_mono l k hw : l ⊆ k -> detected l hw -> detected k hw.
Proof. intros Hs (o & Ho & ->). exists o. split; [by apply Hs|done]. Qed.
Lemma answered_mono l k : l ⊆ k -> spire_answered l -> spire_answered k.
Proof. intros Hs (so & st & env & Ho & Hw). exists so, st, env. split; [by apply Hs|done]. Qed.
Lemma assigned_mono l k job : l ⊆ k -> assigned l job -> assigned k job.
Proof. intros Hs (url & js & Hin & Hj). exists url, js. split; [by apply Hs|done]. Qed.

Lemma gives_first_run confPath socket tr : gives (first_run confPath socket) tr (fun c l => claimed_in l c).
Proof.
  unfold AgentMain.first_run. do 5 (eapply gives_seq; [apply gives_any|]; intros ? ? _).
  eapply gives_seq; [apply gives_claim|]. intros [c|] lc Hc; [|apply gives_exit].
  destruct (Hc c eq_refl) as (req & cr & Hreq & Hcr & Hok).
  eapply gives_seq; [apply gives_save|]. intros [] k Hk; [|apply gives_exit].
  do 2 (eapply gives_seq; [apply gives_any|]; intros ? ? _). apply gives_ret.
  exists req, cr, confPath. split_and!; [|done|done|]; rewrite !elem_of_app; [tauto|]. specialize (Hk eq_refl). tauto.
Qed.

Lemma guarded_first_run confPath socket tr : unconfigured tr -> guarded agent_ok (first_run confPath socket) tr.
Proof.
  intros Hu. assert (Hm : forall l, unconfigured (tr ++ l)).
  { intros l. destruct Hu as (path & r & Hr & Hc). exists path, r. split; [|done]. apply elem_of_app. by left. }
  unfold AgentMain.first_run. do 2 (eapply guarded_seq; [apply guarded_env|apply gives_any|]; intros ? ? _).
  rewrite <- app_assoc. apply guarded_perform; [done|]. intros hostname.
  eapply guarded_seq; [apply guarded_detect|apply gives_any|]. intros hw0 ? _.
  apply guarded_perform; [done|]. intros region. rewrite <- !app_assoc.
  eapply guarded_seq; [|apply gives_any|].
  { intros x. split; [apply Hm|done]. }
  intros [c|] ? _; [|follow]. eapply guarded_seq; [|apply gives_any|].
  { intros []; (split; [exact I|]); [by intros ?|exact I]. }
  intros [] ? _; [|follow]. cbn [negb].
  eapply guarded_seq; [|apply gives_any|].
  { destruct (bool_decide _); [follow|]. intros []; (split; [exact I|]); [by intros []|exact I]. }
  intros [] ? _. eapply guarded_seq; [|apply gives_any|intros; follow].
  destruct (bool_decide _); [|follow]. follow. done.
Qed.

(** A poll hands out jobs of its answer only. *)
Lemma guarded_spawn_all al hw secret nodeID jobs tr :
  (forall job l, job ∈ jobs -> job_ready (tr ++ l) (RunJob al hw secret nodeID job)) ->
  guarded agent_ok (spawn_all al hw secret nodeID jobs) tr.
Proof.
  revert tr. induction jobs as [|job jobs IH]; intros tr Hj; cbn [spawn_all]; [follow|]. apply guarded_perform.
  - intros x. specialize (Hj job []). rewrite app_nil_r in Hj. apply Hj, list_elem_of_here.
  - intros x. apply IH. intros job' l Hj'. rewrite <- app_assoc. apply Hj. by apply list_elem_of_further.
Qed.

(** What must hold before the loop for its jobs. *)
Definition loop_ready (tr : HostLog) (al : Allowlist) (hw : AgentHardware) (nodeID : string) : Prop :=
  verified al /\ detected tr hw /\ spire_answered tr /\ (exists socket, Did (NewAgentSource socket) true ∈ tr) /\
  Did NewDockerClient true ∈ tr /\ exists c, identified tr c /\ nodeID = nc_NodeID c.

Lemma loop_ready_mono l k al hw nodeID : l ⊆ k -> loop_ready l al hw nodeID -> loop_ready k al hw nodeID.
Proof.
  intros Hs (Hv & Hd & Ha & (so & Hso) & Hk & c & Hc & ->).
  split_and!; [done|by eapply detected_mono|by eapply answered_mono|exists so; by apply Hs|by apply Hs|].
  exists c. split; [by eapply identified_mono|done].
Qed.

Lemma loop_job tr al hw secret nodeID job :
  loop_ready tr al hw nodeID -> assigned tr job -> job_ready tr (RunJob al hw secret nodeID job).
Proof. intros (Hv & Hd & Hs & Hso & Hk & Hc) Ha. cbn. split_and!; try done; apply Hd || apply Hs. Qed.

Lemma guarded_poll_loop n addr nodeID al hw secret tr : loop_ready tr al hw nodeID ->
  guarded agent_ok (poll_loop n addr nodeID al hw secret) tr.
Proof.
  revert tr. induction n as [|n IH]; intros tr Hr; cbn [poll_loop]; [follow|]. unfold PollJobs.
  eapply guarded_seq; [follow; [done|intros ?; follow]| |].
  { apply (gives_perform _ _ _ (fun r l => forall js, r = Ok js -> forall job, job ∈ js -> assigned l job)).
    intros r. apply gives_ret. intros js Hjs job Hj. destruct r as [| |code [js'|]]; simpl in Hjs; try done;
      destruct (Z.eqb_spec code 200) as [->|]; try done.
    injection Hjs as <-. eexists _, js'. split; [apply list_elem_of_here|done]. }
  intros jobs l Hjobs. eapply guarded_seq; [|apply gives_any|].
  - destruct jobs as [js|e]; [|follow]. apply guarded_spawn_all. intros job k Hj.
    apply loop_job.
    + eapply loop_ready_mono; [|done]. intros x. rewrite !elem_of_app. tauto.
    + eapply assigned_mono; [|by eapply Hjobs]. intros x. rewrite !elem_of_app. tauto.
  - intros u k _. apply IH. eapply loop_ready_mono; [|done]. intros x. rewrite !elem_of_app. tauto.
Qed.

Lemma guarded_config path socket (f : NodeConfig -> agent unit) tr :
  (forall c l, identified l c -> guarded agent_ok (f c) (tr ++ l)) ->
  guarded agent_ok (stored ← host (LoadConfig unmarshalConfig path);
    match stored with Some c => mret c | None => first_run path socket end ≫= f) tr.
Proof.
  intros Hf. eapply guarded_seq; [apply guarded_LoadConfig|apply gives_LoadConfig|].
  intros stored l (r & Hr & Hc). destruct stored as [c|].
  - apply guarded_ret_bind, Hf. left. by exists path, r.
  - eapply guarded_seq; [|apply gives_first_run|].
    + apply guarded_first_run. exists path, r. split; [apply elem_of_app; by right|done].
    + intros c k Hk. rewrite <- app_assoc. apply Hf. right. eapply claimed_mono; [|exact Hk]. intros x. rewrite elem_of_app. tauto.
Qed.

(** Everything before the loop. *)
Lemma guarded_runMain ticks : guarded agent_ok (runMain ticks) [].
Proof.
  unfold AgentMain.runMain. do 2 (eapply guarded_seq; [apply guarded_env|apply gives_any|]; intros ? ? _).
  eapply guarded_seq; [apply guarded_confPath|apply gives_any|]. intros confPath l2 _.
  apply guarded_config. intros c l3 Hc. eapply guarded_seq; [apply guarded_spire|apply gives_spire|]. intros ? l4 Hs.
  eapply guarded_seq; [apply guarded_secret|apply gives_any|]. intros secret l5 _.
  do 3 (eapply guarded_seq; [apply guarded_env|apply gives_any|]; intros ? ? _).
  apply guarded_perform; [done|]. intros region. cbn zeta.
  eapply guarded_seq; [apply guarded_detect|apply gives_detect|]. intros hw l9 Hd.
  eapply guarded_seq; [apply guarded_load_allowlist|apply gives_load_allowlist|]. intros [al|e] l10 Hal; [|follow].
  specialize (Hal al eq_refl).
  eapply guarded_seq; [eapply guarded_seq; [apply guarded_confPath|apply gives_any|intros; follow]|apply gives_any|].
  intros optOutPath l11 _. eapply guarded_seq; [apply guarded_consent|apply gives_any|]. intros oo l12 _.
  eapply guarded_seq; [by intros []|apply gives_any|]. intros ? l13 _.
  apply guarded_perform; [done|]. intros [|]; [|follow]. cbn [negb]. apply guarded_perform; [done|]. intros [|]; [|follow]. cbn [negb].
  match goal with |- guarded _ _ ?t => set (tr := t) end.
  assert (Hrd : loop_ready tr al hw (nc_NodeID c)).
  { unfold tr. split_and!; [done| | | | |].
    - eapply detected_mono; [|exact Hd]. intros y. rewrite !elem_of_app. tauto.
    - eapply answered_mono; [|exact Hs]. intros y. rewrite !elem_of_app. tauto.
    - eexists. apply elem_of_app. left. apply elem_of_app. right. apply list_elem_of_here.
    - apply elem_of_app. right. apply list_elem_of_here.
    - exists c. split; [|done]. eapply identified_mono; [|exact Hc]. intros y. rewrite !elem_of_app. tauto. }
  clearbody tr. apply guarded_perform.
  - intros ?. destruct Hrd as (_ & Hdt & Ha & _ & _ & c' & Hc' & Heq). exists c'. split_and!; done.
  - intros ?. apply guarded_poll_loop. eapply loop_ready_mono; [|exact Hrd]. intros y. rewrite elem_of_app. tauto.
Qed.

Lemma spawned_ready {S} (h : forall X, HostE X -> S -> X * S) ticks s l g u r :
  (drive h (runMain ticks) s).1.2 = l ++ Did (Spawn g) u :: r -> job_ready l g.
Proof.
  intros Hd. pose proof (guarded_drive _ h _ s _ (guarded_runMain ticks)) as Hg. rewrite Hd in Hg.
  exact (step_by_step_at _ _ _ _ _ Hg).
Qed.

(** A node is claimed only by an agent that has no usable identity on disk. *)
Lemma claims_only_unconfigured {S} (h : forall X, HostE X -> S -> X * S) ticks s l req u r :
  (drive h (runMain ticks) s).1.2 = l ++ Did (Host (PostClaim req)) u :: r -> unconfigured l.
Proof.
  intros Hd. pose proof (guarded_drive _ h _ s _ (guarded_runMain ticks)) as Hg. rewrite Hd in Hg.
  exact (step_by_step_at _ _ _ _ _ Hg).
Qed.

(** C14 An agent process works only with a signed allowlist: whatever its
    environment, its disk, the identity provider, the control plane and Docker
    answer, a job is started only when it was in the answer of a successful poll,
    after the identity provider answered, with the node's stored or newly claimed
    and stored identity, and under an allowlist whose signature verified under the
    key built into the agent, be it fetched or cached; and whatever Docker and the
    control plane then answer the job, every container it creates is vetted against
    that allowlist. *)
Theorem agent_runs_signed_jobs {S} (h : forall X, HostE X -> S -> X * S) ticks s l al hw secret nodeID job u r :
  (drive h (runMain ticks) s).1.2 = l ++ Did (Spawn (RunJob al hw secret nodeID job)) u :: r ->
  job_ready l (RunJob al hw secret nodeID job) /\
  forall S' (h' : forall X, AgentE X -> S' -> X * S') s',
    all_along (vetted_exchange al) [] (run h' (runJob al hw job) s').1.2.
Proof.
  intros Hd. split; [by eapply spawned_ready|]. intros S' h' s'.
  apply (always_run h' _ s' [] _ (runJob_trace al hw job)).
Qed.
End Guard.

(** ** The allowlist, as a function of what was answered *)

Section Refines.
Context `{Paths}.
Context (srt : forall A, (A -> A -> bool) -> list A -> list A).
Context (marshalAl : Z -> Z -> list AllowlistEntry -> result string string) (ed25519_verify : string -> string -> string -> bool).
Context (b64_decode : string -> option string) (AllowlistPublicKey : string).
Context (encodeAl : Allowlist -> string) (decodeAl : string -> option Allowlist).

(** The cache file as the loader reads it. *)
Definition cache_of (r : ReadAnswer) : CacheFile :=
  match r with
  | FileData data => match decodeAl data with Some al => CacheParsed al | None => CacheMalformed end
  | _ => CacheMissing
  end.

(** The calls of [load_allowlist] return what [LoadAllowlistFromURL] says of the
    fetched list and the cache file. *)
Lemma load_allowlist_refines url tr :
  gives (load_allowlist srt marshalAl ed25519_verify b64_decode AllowlistPublicKey encodeAl decodeAl url) tr
    (fun r _ => exists fetched written cache,
       r = (LoadAllowlistFromURL srt marshalAl ed25519_verify b64_decode AllowlistPublicKey fetched written cache).1).
Proof.
  unfold load_allowlist. eapply gives_seq; [apply gives_any|]. intros path l _.
  eapply gives_seq; [apply gives_any|]. intros [al|e] l1 _; unfold verify_al.
  - destruct (Verify _ _ _ _ _ al) as [[]|e] eqn:Hv.
    + do 2 (eapply gives_seq; [apply gives_any|]; intros ? ? _). apply gives_ret.
      exists (Ok al), true, CacheMissing. unfold LoadAllowlistFromURL. by rewrite Hv.
    + apply gives_ret. exists (Ok al), true, CacheMissing. unfold LoadAllowlistFromURL. by rewrite Hv.
  - eapply gives_seq; [apply gives_any|]. intros r ? _.
    assert (Hr : forall al, r = FileData al -> cache_of r = cache_of (FileData al)) by (by intros ? ->).
    destruct r as [| |data]; [by apply gives_ret; exists (Err e), true, CacheMissing..|].
    destruct (decodeAl data) as [al|] eqn:Hdec; apply gives_ret; exists (Err e), true, (cache_of (FileData data));
      unfold LoadAllowlistFromURL, cache_of; rewrite Hdec; [|done]. by destruct (Verify _ _ _ _ _ al) as [[]|].
Qed.
End Refines.

(** ** A run *)

#[local] Instance sample_paths : Paths := {| FJoin := String.concat "/"; FDir := fun _ => "." |}.
Definition sample_signed : Allowlist := mkAllowlist 1 0 [] (String.concat "" (repeat "s" 64)).
Definition sample_answers : forall X, HostE X -> unit -> X * unit := fun X e u =>
  (match e in HostE X return X with
   | Host e => match e in AgentE X return X with
       | ReadFile _ => FileData "stored"
       | e => (sample_host all_enabled (WaitExit 0 None) false _ e false).1
       end
   | AGetenv _ | Hostname => "x"
   | AwaitDetect => Detected sample_hardware
   | SpirePassages _ => (0, fun _ => mkPassage 0 true false)
   | StartSpireService | Spawn _ => tt
   | HttpGet _ _ => Some (200, Some "list")
   | NewAgentSource _ | NewDockerClient => true
   | GetAssignments _ => PollStatus 200 (Some [sample_assignment])
   end, u).
Definition sample_process (ticks : nat) : agent unit :=
  runMain (fun A => isort A) (fun _ _ _ => Ok "msg") (fun _ _ _ => true) Some (String.concat "" (repeat "k" 32))
    (fun _ => "") (fun _ => Some sample_signed) (fun _ => None) (fun _ => "") (fun _ => Some (mkNodeConfig "n1" "0f" ""))
    "linux" "amd64" (fun s => s) ticks.
Definition sample_host_log : HostLog := (drive sample_answers (sample_process 1) tt).1.2.
Definition sample_spawn : Background := RunJob sample_signed sample_hardware (String.String (Ascii.ascii_of_nat 15) "") "n1" sample_assignment.

(** On the signal the process returns at once: a job handed to a goroutine is not
    waited for, and its cleanup, which is made under the background context so as to
    survive the signal, dies with the process. *)
Lemma leaves_without_waiting :
  (drive sample_answers (sample_process 1) tt).1.1 = Finished tt /\
  last sample_host_log = Some (Did (Spawn sample_spawn) tt).
Proof. split; vm_compute; reflexivity. Qed.

Lemma agent_runs_signed_jobs_witness :
  sample_host_log = take 21 sample_host_log ++ Did (Spawn sample_spawn) tt :: drop 22 sample_host_log /\
  all_along (vetted_exchange sample_signed) []
    (run (sample_host all_enabled (WaitExit 0 None) false) (runJob (H0 := default_order) sample_signed sample_hardware sample_assignment) false).1.2.
Proof.
  assert (Hl : sample_host_log = take 21 sample_host_log ++ Did (Spawn sample_spawn) tt :: drop 22 sample_host_log)
    by (vm_compute; reflexivity).
  split; [exact Hl|].
  apply (agent_runs_signed_jobs (H0 := default_order) _ _ _ _ _ _ _ _ _ _ _ _ _ sample_answers 1 tt _ _ _ _ _ _ _ _ Hl).
Defined.
