(* ===== verification/Overlay.v ===== *)
(** The overlay network's configuration file (internal/network/wireguard.go) and the
    request counter (internal/metrics/metrics.go).

    The configuration is text for another program to read: [read_config] is the
    reading of such a file, section by section, that the round trip is stated with.
    Curve25519 is a parameter. *)
From Stdlib Require Import Ascii.
From S2P Require Import Prelude Float64 Workload Sounding Registry Database Lifecycle Effects Encoding.
From S2P Require Import Http Notify Session Loopback Templates PortalPages.
Local Open Scope string_scope.
Local Open Scope list_scope.
Local Open Scope Z_scope.

(** ** Keys *)

Class Curve25519 := { X25519 : string -> option string; curve_len priv pub : X25519 priv = Some pub -> String.length pub = 32%nat }.

(** [None] is a read of the random source that fails. *)
Definition GenerateKeypair `{Curve25519} (random : option string) : result string (string * string) :=
  match random with
  | None => Err "generate keypair: read random bytes"
  | Some privBytes =>
      match X25519 privBytes with
      | None => Err "generate keypair: derive public key"
      | Some pubBytes => Ok (StdEncode privBytes, StdEncode pubBytes)
      end
  end.

(** ** The file *)

Record PeerConfig := mkPeer {
  pc_PublicKey : string; pc_AllowedIPs : list string; pc_Endpoint : string; pc_PersistentKeepalive : Z }.
Record InterfaceConfig := mkInterface {
  ic_NodeID : string; ic_PrivateKey : string; ic_Address : string; ic_ListenPort : Z; ic_Peers : list PeerConfig }.

Definition GenerateConfig (nodeID privateKey address : string) (listenPort : Z) (peers : list PeerConfig) : InterfaceConfig :=
  mkInterface nodeID privateKey address listenPort peers.

(** [strings.Join(l, sep)] *)
Definition joined_ips (l : list string) : string := String.concat ", " l.

Definition peer_lines (p : PeerConfig) : list string :=
  [""; "[Peer]"; "PublicKey = " +:+ pc_PublicKey p; "AllowedIPs = " +:+ joined_ips (pc_AllowedIPs p)] ++
  (if bool_decide (pc_Endpoint p = "") then [] else ["Endpoint = " +:+ pc_Endpoint p]) ++
  (if 0 <? pc_PersistentKeepalive p then ["PersistentKeepalive = " +:+ FormatInt (pc_PersistentKeepalive p)] else []).
Definition interface_lines (cfg : InterfaceConfig) : list string :=
  ["# SoHoLINK WireGuard config " +:+ em_dash +:+ " node: " +:+ ic_NodeID cfg; "[Interface]";
   "PrivateKey = " +:+ ic_PrivateKey cfg; "Address = " +:+ ic_Address cfg;
   "ListenPort = " +:+ FormatInt (ic_ListenPort cfg)].
Definition config_lines (cfg : InterfaceConfig) : list string := interface_lines cfg ++ (ic_Peers cfg ≫= peer_lines).
Definition lines_text (ls : list string) : string := foldr (fun l acc => l +:+ String.String LF acc) "" ls.

(** [write] is the file system: whether the write succeeds. *)
Definition WriteConfig (write : string -> string -> Z -> bool) (cfg : InterfaceConfig) (path : string) : result string unit :=
  if write path (lines_text (config_lines cfg)) 384 then Ok tt else Err "write wireguard config".

(** ** Reading it *)

(** The value of a line with this key. *)
Definition value_after (key line : string) : option string :=
  if String.prefix key line then Some (String.substring (String.length key) (String.length line - String.length key) line)
  else None.

Record Reading := mkReading { rd_private : string; rd_address : string; rd_port : Z; rd_peers : list PeerConfig }.

Definition in_last (f : PeerConfig -> PeerConfig) (r : Reading) : Reading :=
  match reverse (rd_peers r) with
  | [] => r
  | p :: ps => mkReading (rd_private r) (rd_address r) (rd_port r) (reverse (f p :: ps))
  end.
Definition read_ips (v : string) : list string :=
  if bool_decide (v = "") then [] else (fun s => default s (value_after " " s)) <$> Split "," v.

Definition read_line (r : Reading) (line : string) : Reading :=
  if bool_decide (line = "[Peer]") then mkReading (rd_private r) (rd_address r) (rd_port r) (rd_peers r ++ [mkPeer "" [] "" 0])
  else match value_after "PrivateKey = " line with
  | Some v => mkReading v (rd_address r) (rd_port r) (rd_peers r)
  | None => match value_after "Address = " line with
  | Some v => mkReading (rd_private r) v (rd_port r) (rd_peers r)
  | None => match value_after "ListenPort = " line with
  | Some v => mkReading (rd_private r) (rd_address r) (default 0 (ParseInt v)) (rd_peers r)
  | None => match value_after "PublicKey = " line with
  | Some v => in_last (fun p => mkPeer v (pc_AllowedIPs p) (pc_Endpoint p) (pc_PersistentKeepalive p)) r
  | None => match value_after "AllowedIPs = " line with
  | Some v => in_last (fun p => mkPeer (pc_PublicKey p) (read_ips v) (pc_Endpoint p) (pc_PersistentKeepalive p)) r
  | None => match value_after "Endpoint = " line with
  | Some v => in_last (fun p => mkPeer (pc_PublicKey p) (pc_AllowedIPs p) v (pc_PersistentKeepalive p)) r
  | None => match value_after "PersistentKeepalive = " line with
  | Some v => in_last (fun p => mkPeer (pc_PublicKey p) (pc_AllowedIPs p) (pc_Endpoint p) (default 0 (ParseInt v))) r
  | None => r
  end end end end end end end.
Definition read_config (text : string) : Reading := foldl read_line (mkReading "" "" 0 []) (Split LF text).

(** Fields that fit on a line: no line feed, and no comma in an address. *)
Abbreviation one_liner := (fun s : string => lacks LF s = true).
Definition good_ip (s : string) : Prop := s <> "" /\ one_liner s /\ lacks "," s = true /\ String.prefix " " s = false.
Definition good_peer (p : PeerConfig) : Prop :=
  one_liner (pc_PublicKey p) /\ Forall good_ip (pc_AllowedIPs p) /\ one_liner (pc_Endpoint p) /\
  0 <= pc_PersistentKeepalive p <= int64_max.
Definition good_config (cfg : InterfaceConfig) : Prop :=
  one_liner (ic_NodeID cfg) /\ one_liner (ic_PrivateKey cfg) /\ one_liner (ic_Address cfg) /\
  is_int64 (ic_ListenPort cfg) /\ Forall good_peer (ic_Peers cfg).

(** *** Proofs *)

Lemma value_after_app key v : value_after key (key +:+ v) = Some v.
Proof.
  unfold value_after. rewrite prefix_app. f_equal. rewrite length_append.
  replace (String.length key + String.length v - String.length key)%nat with (String.length v) by lia.
  induction key as [|a key IH]; [apply substring_all|exact IH].
Qed.

Lemma Split_lines ls : Forall one_liner ls -> Split LF (lines_text ls) = ls ++ [""].
Proof.
  induction 1 as [|l ls Hl _ IH]; [done|].
  change (Split LF (l +:+ String.String LF (lines_text ls)) = (l :: ls) ++ [""]). rewrite Split_app by done. by rewrite IH.
Qed.

Lemma Split_ips a l : Forall (fun s => lacks "," s = true) (a :: l) ->
  Split "," (joined_ips (a :: l)) = a :: ((fun s => " " +:+ s) <$> l).
Proof.
  revert a. induction l as [|b l IH]; intros a Hl; apply Forall_cons in Hl as [Ha Hl]; [by apply Split_lacks|].
  change (joined_ips (a :: b :: l)) with (a +:+ String.String "," (" " +:+ joined_ips (b :: l))).
  rewrite Split_app by done. f_equal. cbn [fmap list_fmap]. specialize (IH b Hl).
  apply Forall_cons in Hl as [Hb _]. unfold Split in IH |- *.
  destruct (split_on "," (joined_ips (b :: l))) as [x rest] eqn:Hs. injection IH as -> ->.
  change (" " +:+ joined_ips (b :: l)) with (String.String " " (joined_ips (b :: l))). cbn [split_on]. by rewrite Hs.
Qed.

Lemma read_joined ips : Forall good_ip ips -> read_ips (joined_ips ips) = ips.
Proof.
  intros Hg. unfold read_ips. destruct ips as [|a l]; [done|].
  rewrite bool_decide_eq_false_2, Split_ips.
  - apply Forall_cons in Hg as [(_ & _ & _ & Ha) _]. cbn [fmap list_fmap]. f_equal.
    + unfold value_after. by rewrite Ha.
    + induction l as [|b l IH]; [done|]. cbn [fmap list_fmap]. rewrite value_after_app. cbn [default from_option id]. f_equal. exact IH.
  - eapply Forall_impl; [exact Hg|]. by intros s (_ & _ & ? & _).
  - apply Forall_cons in Hg as [(Ha & _) _]. destruct l; [done|]. destruct a; [done|]. done.
Qed.

Lemma joined_one_line ips : Forall good_ip ips -> one_liner (joined_ips ips).
Proof.
  induction 1 as [|a l (_ & Ha & _) Hl IH]; [done|]. destruct l as [|b l]; [exact Ha|].
  change (lacks LF (a +:+ ", " +:+ joined_ips (b :: l)) = true). by rewrite !lacks_app, Ha, IH.
Qed.

Lemma int_one_line z : one_liner (FormatInt z).
Proof. by apply FormatInt_lacks. Qed.

(** A key in front does not change that a value fits on a line. *)
Lemma keyed_one_line key v : lacks LF key = true -> lacks LF v = true -> lacks LF (key +:+ v) = true.
Proof. intros Hk Hv. by rewrite lacks_app, Hk, Hv. Qed.

Lemma peer_lines_fit p : good_peer p -> Forall one_liner (peer_lines p).
Proof.
  intros (Hk & Hi & He & Hp). unfold peer_lines. rewrite !Forall_app, !Forall_cons. split_and!; try done.
  - apply keyed_one_line; [done|]. by apply joined_one_line.
  - case_bool_decide; [done|]. constructor; [by apply keyed_one_line|done].
  - case_match; [|done]. constructor; [|done]. apply keyed_one_line; [done|apply int_one_line].
Qed.
Lemma config_lines_fit cfg : good_config cfg -> Forall one_liner (config_lines cfg).
Proof.
  intros (Hn & Hk & Ha & Hl & Hp). unfold config_lines, interface_lines. rewrite Forall_app, !Forall_cons. split_and!; try done.
  - apply keyed_one_line; [done|apply int_one_line].
  - induction Hp as [|p ps Hg _ IH]; [done|].
    change ((p :: ps) ≫= peer_lines) with (peer_lines p ++ (ps ≫= peer_lines)). apply Forall_app. split; [by apply peer_lines_fit|exact IH].
Qed.

Lemma in_last_snoc f r ps p : rd_peers r = ps ++ [p] ->
  in_last f r = mkReading (rd_private r) (rd_address r) (rd_port r) (ps ++ [f p]).
Proof. intros Hr. unfold in_last. rewrite Hr, reverse_snoc. by rewrite reverse_cons, reverse_involutive. Qed.

(** A line with a key is read by its key. *)
Ltac by_key :=
  unfold read_line; rewrite bool_decide_eq_false_2 by done; rewrite value_after_app;
  repeat match goal with |- context [value_after ?k ?l] => change (value_after k l) with (@None string) end; reflexivity.

Lemma read_private r v : read_line r ("PrivateKey = " +:+ v) = mkReading v (rd_address r) (rd_port r) (rd_peers r).
Proof. by_key. Qed.
Lemma read_address r v : read_line r ("Address = " +:+ v) = mkReading (rd_private r) v (rd_port r) (rd_peers r).
Proof. by_key. Qed.
Lemma read_port r v :
  read_line r ("ListenPort = " +:+ v) = mkReading (rd_private r) (rd_address r) (default 0 (ParseInt v)) (rd_peers r).
Proof. by_key. Qed.
Lemma read_public r v : read_line r ("PublicKey = " +:+ v) =
  in_last (fun p => mkPeer v (pc_AllowedIPs p) (pc_Endpoint p) (pc_PersistentKeepalive p)) r.
Proof. by_key. Qed.
Lemma read_allowed r v : read_line r ("AllowedIPs = " +:+ v) =
  in_last (fun p => mkPeer (pc_PublicKey p) (read_ips v) (pc_Endpoint p) (pc_PersistentKeepalive p)) r.
Proof. by_key. Qed.
Lemma read_endpoint r v : read_line r ("Endpoint = " +:+ v) =
  in_last (fun p => mkPeer (pc_PublicKey p) (pc_AllowedIPs p) v (pc_PersistentKeepalive p)) r.
Proof. by_key. Qed.
Lemma read_keepalive r v : read_line r ("PersistentKeepalive = " +:+ v) =
  in_last (fun p => mkPeer (pc_PublicKey p) (pc_AllowedIPs p) (pc_Endpoint p) (default 0 (ParseInt v))) r.
Proof. by_key. Qed.

(** Reading the lines of a peer adds the peer. *)
Lemma read_peer r p : good_peer p ->
  foldl read_line r (peer_lines p) = mkReading (rd_private r) (rd_address r) (rd_port r) (rd_peers r ++ [p]).
Proof.
  intros (Hk & Hi & He & Hz). unfold peer_lines. rewrite !foldl_app. cbn [foldl].
  rewrite read_public, read_allowed, read_joined by done.
  change (read_line (read_line r "") "[Peer]") with
    (mkReading (rd_private r) (rd_address r) (rd_port r) (rd_peers r ++ [mkPeer "" [] "" 0])).
  erewrite (in_last_snoc _ (mkReading _ _ _ _)) by reflexivity. erewrite (in_last_snoc _ (mkReading _ _ _ _)) by reflexivity.
  cbn [rd_private rd_address rd_port rd_peers pc_PublicKey pc_AllowedIPs pc_Endpoint pc_PersistentKeepalive].
  destruct p as [pk ips ep ka]. cbn [pc_PublicKey pc_AllowedIPs pc_Endpoint pc_PersistentKeepalive] in *.
  assert (Hka : default 0 (ParseInt (FormatInt ka)) = ka).
  { rewrite ParseInt_FormatInt; [done|]. unfold is_int64, int64_min, int64_max in *. lia. }
  destruct (bool_decide (ep = "")) eqn:Hep; [apply bool_decide_eq_true in Hep as ->|]; cbn [foldl];
    rewrite ?read_endpoint; try (erewrite (in_last_snoc _ (mkReading _ _ _ _)) by reflexivity); cbn [rd_private rd_address rd_port];
    (destruct (Z.ltb_spec 0 ka) as [Hpos|Hnon]; cbn [foldl];
     [rewrite read_keepalive; erewrite (in_last_snoc _ (mkReading _ _ _ _)) by reflexivity; by rewrite Hka|
      by replace ka with 0 by lia]).
Qed.

Lemma read_peers r ps : Forall good_peer ps ->
  foldl read_line r (ps ≫= peer_lines) = mkReading (rd_private r) (rd_address r) (rd_port r) (rd_peers r ++ ps).
Proof.
  intros Hp. revert r. induction Hp as [|p ps Hg _ IH]; intros r; [cbn; rewrite app_nil_r; by destruct r|].
  change ((p :: ps) ≫= peer_lines) with (peer_lines p ++ (ps ≫= peer_lines)).
  rewrite foldl_app, read_peer, IH by done. cbn [rd_private rd_address rd_port rd_peers]. by rewrite <- app_assoc.
Qed.

(** The file says what the configuration is: when its fields fit on a line, reading
    the text gives the interface and every peer back, with the endpoint and the
    keepalive that were left out where they are empty or zero. *)
Theorem wireguard_roundtrip cfg : good_config cfg ->
  read_config (lines_text (config_lines cfg)) =
    mkReading (ic_PrivateKey cfg) (ic_Address cfg) (ic_ListenPort cfg) (ic_Peers cfg).
Proof.
  intros Hg. unfold read_config. rewrite Split_lines by (by apply config_lines_fit).
  destruct Hg as (Hn & Hk & Ha & Hl & Hp). unfold config_lines. rewrite !foldl_app. unfold interface_lines. cbn [foldl].
  set (r0 := read_line (read_line _ _) "[Interface]").
  assert (Hr0 : r0 = mkReading "" "" 0 []) by reflexivity. rewrite Hr0.
  rewrite read_private, read_address, read_port, read_peers by done.
  cbn [rd_private rd_address rd_port rd_peers]. by rewrite ParseInt_FormatInt.
Qed.

(** Without that, a field can bring lines of its own: an endpoint with a line feed
    adds a peer that nobody configured. *)
Example endpoint_adds_peer :
  let evil := "198.51.100.7:51820" +:+ String.String LF ("[Peer]" +:+ String.String LF "PublicKey = mallory") in
  length (rd_peers (read_config (lines_text (config_lines
    (GenerateConfig "n" "k" "10.100.0.1/24" 51820 [mkPeer "peer" ["10.100.0.2/32"] evil 0]))))) = 2%nat.
Proof. vm_compute. reflexivity. Qed.

Lemma wireguard_roundtrip_witness :
  read_config (lines_text (config_lines (mkInterface "n1" "priv=" "10.100.0.1/24" 51820
    [mkPeer "pub=" ["10.100.0.2/32"; "10.1.0.0/16"] "" 25]))) =
  mkReading "priv=" "10.100.0.1/24" 51820 [mkPeer "pub=" ["10.100.0.2/32"; "10.1.0.0/16"] "" 25].
Proof.
  apply (wireguard_roundtrip (mkInterface "n1" "priv=" "10.100.0.1/24" 51820 [mkPeer "pub=" ["10.100.0.2/32"; "10.1.0.0/16"] "" 25])).
  split_and!; try done. constructor; [|constructor]. split_and!; try done. repeat constructor; done.
Defined.

(** ** Counting requests *)

(** What a handler does to its response. *)
Inductive Emit := WriteHeader (code : Z) | WriteBody.

(** net/http: the first status that is final, or 200 with the first byte or at the
    end; what comes later is ignored. *)
Fixpoint sent_status (es : list Emit) : Z :=
  match es with
  | [] | WriteBody :: _ => 200
  | WriteHeader code :: es' => if (100 <=? code) && (code <? 200) && negb (code =? 101) then sent_status es' else code
  end.

(** The wrapper's [WriteHeader] overwrites the status it keeps. *)
Definition rw_WriteHeader (_ code : Z) : Z := code.
Definition recorded_status (es : list Emit) : Z :=
  foldl (fun st e => match e with WriteHeader code => rw_WriteHeader st code | WriteBody => st end) 200 es.

Abbreviation Counter := (gmap (string * string * string) Z).
Definition Inc (labels : string * string * string) (c : Counter) : Counter :=
  <[labels := default 0 (c !! labels) + 1]> c.
Definition InstrumentHandler (handler method : string) (next : list Emit) (c : Counter) : Counter :=
  Inc (handler, method, FormatInt (recorded_status next)) c.

(** A response that states one final status before its body is counted under the
    status that was sent. *)
Lemma recorded_is_sent code body :
  Forall (eq WriteBody) body -> (code < 100 \/ 200 <= code) -> recorded_status (WriteHeader code :: body) = code /\
  sent_status (WriteHeader code :: body) = code.
Proof.
  intros Hb Hc. split.
  - unfold recorded_status. cbn [foldl]. unfold rw_WriteHeader. induction Hb as [|e body <- _ IH]; [done|exact IH].
  - cbn [sent_status]. destruct (Z.leb_spec 100 code), (Z.ltb_spec code 200); try done. lia.
Qed.

(** A page that fails in the middle is an error on the counter and a 200 on the wire:
    [http.Error] comes after the first bytes. *)
Example broken_page_counted : let es := [WriteBody; WriteHeader 500; WriteBody] in
  (recorded_status es, sent_status es) = (500, 200).
Proof. reflexivity. Qed.

(** ** The recorder of the failure limiter *)

(** [statusRecorder] of internal/api/ip_ratelimit.go: the first status is kept, and a
    body without one counts as 200. *)
Record statusRecorder := mkRecorder { sr_status : Z; sr_wroteHeader : bool }.
Definition recorder_step (r : statusRecorder) (e : Emit) : statusRecorder :=
  match e with
  | WriteHeader code => if sr_wroteHeader r then r else mkRecorder code true
  | WriteBody => mkRecorder (sr_status r) true
  end.
Definition recorder_status (es : list Emit) : Z := sr_status (foldl recorder_step (mkRecorder 200 false) es).

Lemma recorder_settled es code : sr_status (foldl recorder_step (mkRecorder code true) es) = code.
Proof. induction es as [|[] es IH]; [done|exact IH|exact IH]. Qed.

(** What the limiter sees is what the client was sent, whatever the handler does
    after its first status or byte; only informational statuses differ. *)
Lemma recorder_sees_sent es :
  Forall (fun e => match e with WriteHeader code => code < 100 \/ 200 <= code | WriteBody => True end) es ->
  recorder_status es = sent_status es.
Proof.
  unfold recorder_status. intros [|[code|] es' Hc _]; simpl; [done| |apply recorder_settled].
  rewrite recorder_settled. destruct (Z.leb_spec 100 code), (Z.ltb_spec code 200); try done. lia.
Qed.
