(* ===== verification/Tickers.v ===== *)
(** The goroutines that wait on a ticker: the eviction loop of the registry
    (internal/orchestrator/registry.go), the capacity sampler
    (internal/sounding/capacity.go) and the gauge of online nodes
    (internal/portal/server.go).

    Each is the same [select] over the context and the ticker: a tick runs the body,
    cancellation ends the goroutine.  The loops share their state with the requests
    that arrive between two ticks, so a run is a sequence of events of both kinds. *)
From S2P Require Import Prelude Workload Sounding Registry Database.
Local Open Scope string_scope.
Local Open Scope Z_scope.
Local Open Scope list_scope.

(** ** The loop *)

(** What the [select] received. *)
Inductive Wake := Cancelled | Tick (now : Z).

(** One round; the flag says whether the goroutine still runs. *)
Definition on_wake {S} (body : Z -> S -> S) (w : Wake) (st : bool * S) : bool * S :=
  match st, w with
  | (false, s), _ => (false, s)
  | (true, s), Cancelled => (false, s)
  | (true, s), Tick now => (true, body now s)
  end.

Definition ticker_loop {S} (body : Z -> S -> S) (ws : list Wake) (s : S) : S :=
  (foldl (fun st w => on_wake body w st) (true, s) ws).2.

Lemma stopped_stays {S} (body : Z -> S -> S) ws s :
  foldl (fun st w => on_wake body w st) (false, s) ws = (false, s).
Proof. by induction ws. Qed.

(** Nothing runs after the cancellation. *)
Lemma ticker_loop_cancelled {S} (body : Z -> S -> S) before after s :
  ticker_loop body (before ++ Cancelled :: after) s = ticker_loop body before s.
Proof.
  unfold ticker_loop. rewrite foldl_app. simpl.
  destruct (foldl _ _ before) as [[] s']; simpl; by rewrite stopped_stays.
Qed.

(** ** The eviction loop *)

(** Calls on the shared registry, each at its time, and wake-ups of the loop. *)
Inductive RegEvent := Call (at_ : Z) (op : RegOp) | Woken (w : Wake).

Definition EvictionPeriod : Z := 30 * Second.

Definition StartEvictionLoop (maxAge : Z) (ev : RegEvent) (st : bool * NodeRegistry) : bool * NodeRegistry :=
  match ev with
  | Call _ op => (st.1, reg_step op st.2)
  | Woken w => on_wake (fun now => evictStale now maxAge) w st
  end.

Definition eviction_run (maxAge : Z) (evs : list RegEvent) (st : bool * NodeRegistry) : bool * NodeRegistry :=
  foldl (fun st ev => StartEvictionLoop maxAge ev st) st evs.

(** The callers stamp what they register and the heartbeats with the present time. *)
Definition stamped (t : Z) (op : RegOp) : Prop :=
  match op with
  | OpRegister e => LastHeartbeat e = t
  | OpHeartbeat now _ => now = t
  | OpEvictStale _ _ => False
  | _ => True
  end.

(** Time does not run backwards, and the loop, last awake at [last], is woken again
    within its period and [delay], the time it may wait for a processor. *)
Fixpoint timely (delay last clock : Z) (evs : list RegEvent) (now : Z) : Prop :=
  match evs with
  | [] => clock <= now <= last + EvictionPeriod + delay
  | Call t op :: evs => clock <= t /\ stamped t op /\ timely delay last t evs now
  | Woken (Tick t) :: evs => clock <= t <= last + EvictionPeriod + delay /\ timely delay t t evs now
  | Woken Cancelled :: _ => False
  end.

(** Every entry was heard of between [lo] and [hi]. *)
Definition heard (lo hi : Z) (r : NodeRegistry) : Prop := map_Forall (fun _ n => lo <= LastHeartbeat n <= hi) r.

Lemma heard_mono lo lo' hi hi' r : lo' <= lo -> hi <= hi' -> heard lo hi r -> heard lo' hi' r.
Proof. intros ?? Hr. eapply map_Forall_impl; [exact Hr|]. cbn. lia. Qed.

Lemma heard_step t lo hi op r : stamped t op -> lo <= t -> hi <= t -> heard lo hi r -> heard lo t (reg_step op r).
Proof.
  intros Hs Hlo Hhi Hr. apply (heard_mono _ lo _ t) in Hr; [|lia|lia].
  assert (Hkeep : forall id e e', r !! id = Some e -> LastHeartbeat e' = LastHeartbeat e -> heard lo t (<[id := e']> r)).
  { intros id e e' He Heq. apply map_Forall_insert_2; [|done]. rewrite Heq. exact (Hr id e He). }
  destruct op; simpl in *.
  - apply map_Forall_insert_2; [lia|done].
  - unfold Heartbeat. destruct (r !! id) eqn:He; [|done]. apply map_Forall_insert_2; [cbn; lia|done].
  - unfold UpdateOptOut. destruct (r !! id) eqn:He; [|done]. by eapply Hkeep.
  - unfold UpdateLoad. destruct (r !! id) eqn:He; [|done]. by eapply Hkeep.
  - unfold AddInFlight. destruct (r !! id) eqn:He; [|done]. by eapply Hkeep.
  - by apply map_Forall_delete.
  - done.
Qed.

Lemma heard_evict now maxAge lo hi r : hi <= now -> heard lo hi r -> heard (now - maxAge) now (evictStale now maxAge r).
Proof.
  intros Hhi Hr id n. unfold evictStale. rewrite map_lookup_filter_Some. intros [Hn Hlt].
  specialize (Hr id n Hn). cbn in Hr. lia.
Qed.

Lemma eviction_heard delay maxAge : 0 <= maxAge -> forall evs last clock now r,
  last <= clock -> heard (last - maxAge) clock r -> timely delay last clock evs now ->
  heard (now - (maxAge + EvictionPeriod + delay)) now (eviction_run maxAge evs (true, r)).2.
Proof.
  intros Hage. induction evs as [|[t op|[|t]] evs IH]; intros last clock now r Hlc Hr; simpl.
  - intros Ht. apply (heard_mono (last - maxAge) _ clock); [lia|lia|done].
  - intros (Ht & Hs & Htl). apply (IH last t); [lia| |done].
    apply (heard_step t _ clock); [done|lia|lia|done].
  - done.
  - intros (Ht & Htl). apply (IH t t); [lia| |done]. by apply (heard_evict _ _ (last - maxAge) clock); [lia|].
Qed.

(** The call at [t] is a sign of life of [id]. *)
Definition beats (r : NodeRegistry) (id : string) (op : RegOp) : Prop :=
  match op with
  | OpRegister e => NodeID e = id
  | OpHeartbeat _ i => i = id /\ is_Some (r !! id)
  | _ => False
  end.

(** Nobody removes [id] by hand and the loop does not wake after [limit]. *)
Definition spares (id : string) (limit : Z) (ev : RegEvent) : Prop :=
  match ev with
  | Call _ op => op <> OpEvict id
  | Woken (Tick t) => t <= limit
  | Woken Cancelled => True
  end.

(** The entry of [id] was heard of at [b] or later. *)
Definition since (b : Z) (id : string) (r : NodeRegistry) : Prop := exists n, r !! id = Some n /\ b <= LastHeartbeat n.

Lemma since_insert b id i (e e' : NodeEntry) (r : NodeRegistry) :
  since b id r -> (i = id -> b <= LastHeartbeat e') -> since b id (<[i := e']> r).
Proof. intros (n & Hn & Hb) He. unfold since. destruct (decide (i = id)) as [->|]; [rewrite lookup_insert_eq|rewrite lookup_insert_ne by done]; eauto. Qed.

Lemma since_step b t id op r : b <= t -> stamped t op -> op <> OpEvict id -> since b id r -> since b id (reg_step op r).
Proof.
  intros Hbt Hs Hne Hr.
  assert (Hkeep : forall i e e', r !! i = Some e -> LastHeartbeat e' = LastHeartbeat e -> since b id (<[i := e']> r)).
  { intros i e e' He Heq. apply since_insert; [done..|]. intros ->. destruct Hr as (n & Hn & Hb). simplify_eq. lia. }
  destruct op; simpl in *.
  - apply since_insert; [done..|]. lia.
  - unfold Heartbeat. destruct (r !! _) eqn:He; [|done]. apply since_insert; [done..|]. cbn. lia.
  - unfold UpdateOptOut. destruct (r !! _) eqn:He; [|done]. by eapply Hkeep.
  - unfold UpdateLoad. destruct (r !! _) eqn:He; [|done]. by eapply Hkeep.
  - unfold AddInFlight. destruct (r !! _) eqn:He; [|done]. by eapply Hkeep.
  - destruct Hr as (n & Hn & Hb). exists n. split; [|done]. unfold Evict. rewrite lookup_delete_ne by congruence. done.
  - done.
Qed.

Lemma eviction_since delay maxAge b id : forall evs last clock now r,
  b <= clock -> since b id r -> timely delay last clock evs now -> Forall (spares id (b + maxAge)) evs ->
  since b id (eviction_run maxAge evs (true, r)).2.
Proof.
  induction evs as [|[t op|[|t]] evs IH]; intros last clock now r Hbc Hr; simpl; [done|..].
  - intros (Ht & Hs & Htl) [Hop Hsp]%Forall_cons. apply (IH last t now); [lia| |done..]. by apply (since_step b t); [lia|..].
  - done.
  - intros (Ht & Htl) [Hw Hsp]%Forall_cons. apply (IH t t now); [lia| |done..].
    destruct Hr as (n & Hn & Hb). exists n. split; [|done]. unfold evictStale.
    apply map_lookup_filter_Some. cbn in Hw. split; [done|]. lia.
Qed.

Lemma timely_app delay maxAge : forall before last clock after now, timely delay last clock (before ++ after) now ->
  (exists last' clock', timely delay last' clock' after now) /\
  forall r, (eviction_run maxAge before (true, r)).1 = true.
Proof.
  induction before as [|[t op|[|t]] evs IH]; intros last clock after now; simpl; [by eauto|naive_solver|done|naive_solver].
Qed.

(** ** The capacity sampler *)

Section Sampler.
Context `{MapOrder}.

(** One tick: a snapshot per group of the present supply. *)
Definition sampler_tick (source : list NodeCapacityInput) (s : Sink) : Sink :=
  foldl (fun s snap => RecordCapacity snap s) s (AggregateCapacity source).

(** [StartCapacitySampler]: nothing starts without a source and a sink; [supply] is
    what the source reads at a time. *)
Definition StartCapacitySampler (supply : option (Z -> list NodeCapacityInput)) (sink : option Sink) (interval : Z) :
    option (Z * (Z -> Sink -> Sink)) :=
  match supply, sink with
  | Some source, Some _ =>
      Some (if interval <=? 0 then Minute else interval, fun now => sampler_tick (source now))
  | _, _ => None
  end.

Lemma enqueue_all (f : CapacitySnapshot -> envelope) : forall l s, 
  let s' := foldl (fun s x => enqueue (f x) s) s l in
  let room := Z.to_nat (sk_buffer s - Z.of_nat (length (sk_ch s))) in
  0 <= sk_dropped s -> sk_dropped s + Z.of_nat (length l) < 2 ^ 64 ->
  sk_ch s' = sk_ch s ++ (f <$> take room l) /\
  sk_dropped s' = sk_dropped s + Z.of_nat (length (drop room l)).
Proof.
  induction l as [|x l IH]; intros s s' room Hd Hfit.
  { subst s'. simpl. rewrite take_nil, drop_nil. simpl. rewrite app_nil_r. split; [done|lia]. }
  subst s'. simpl in Hfit |- *. unfold room.
  assert (He : enqueue (f x) s = if Z.of_nat (length (sk_ch s)) <? sk_buffer s then s <| sk_ch := sk_ch s ++ [f x] |>
    else s <| sk_dropped := to_uint64 (sk_dropped s + 1) |>) by done.
  rewrite He. destruct (Z.of_nat (length (sk_ch s)) <? sk_buffer s) eqn:Hlt; apply Z.ltb_lt in Hlt || apply Z.ltb_ge in Hlt.
  - match goal with |- context [foldl _ ?s1 l] => destruct (IH s1) as [Hch Hdr]; [simpl; lia..|] end.
    rewrite Hch, Hdr. simpl. rewrite length_app. simpl.
    replace (Z.to_nat (sk_buffer s - Z.of_nat (length (sk_ch s)))) with
      (S (Z.to_nat (sk_buffer s - Z.of_nat (length (sk_ch s) + 1)))) by lia.
    simpl. by rewrite <- app_assoc.
  - assert (Hu : to_uint64 (sk_dropped s + 1) = sk_dropped s + 1) by (unfold to_uint64; apply Z.mod_small; lia).
    match goal with |- context [foldl _ ?s1 l] => destruct (IH s1) as [Hch Hdr]; [simpl; lia..|] end.
    rewrite Hch, Hdr. simpl.
    replace (Z.to_nat (sk_buffer s - Z.of_nat (length (sk_ch s)))) with 0%nat by lia. simpl. split; [done|]. rewrite drop_0, Hu. lia.
Qed.

(** A tick files the snapshots in order while the channel has room; the rest is
    dropped and counted, none is lost silently and none blocks the sampler. *)
Lemma sampler_tick_accounts source s :
  let snaps := AggregateCapacity source in
  let room := Z.to_nat (sk_buffer s - Z.of_nat (length (sk_ch s))) in
  0 <= sk_dropped s -> sk_dropped s + Z.of_nat (length snaps) < 2 ^ 64 ->
  sk_ch (sampler_tick source s) = sk_ch s ++ (kindCapacity <$> take room snaps) /\
  sk_dropped (sampler_tick source s) = sk_dropped s + Z.of_nat (length (drop room snaps)).
Proof. apply (enqueue_all kindCapacity). Qed.
End Sampler.

(** ** The gauge of online nodes *)

(** The [COUNT] over the table as the tick reads it; [None] when the query fails,
    which leaves the gauge as it was. *)
Definition online_count (d : DB) : Z := Z.of_nat (size (filter (fun '(_, n) => n_status n = "online") (nodes d))).
Definition RunNodeGauge (read : Z -> option DB) (now : Z) (gauge : Z) : Z :=
  match read now with Some d => online_count d | None => gauge end.

(** After any run the gauge shows the count of the last tick whose query worked. *)
Lemma gauge_shows_last read before now after g d :
  read now = Some d -> (forall t, Tick t ∈ after -> read t = None) -> Cancelled ∉ before ->
  ticker_loop (RunNodeGauge read) (before ++ Tick now :: after) g = online_count d.
Proof.
  intros Hnow Hafter Hrun. unfold ticker_loop. rewrite foldl_app. simpl.
  assert (Hb : forall g, exists g', foldl (fun st w => on_wake (RunNodeGauge read) w st) (true, g) before = (true, g')).
  { clear g. induction before as [|[|t] before IH]; intros g; simpl; [by eauto|set_solver|]. apply IH. set_solver. }
  destruct (Hb g) as [g' ->]. simpl. unfold RunNodeGauge at 2. rewrite Hnow. clear Hb Hrun g g'.
  induction after as [|[|t] after IH]; simpl; [done|by rewrite stopped_stays|].
  unfold RunNodeGauge at 2. rewrite Hafter by set_solver. apply IH. set_solver.
Qed.

(** ** Theorems *)

(** C16 The registry follows the heartbeats in both directions.  While the eviction
    loop is woken on time, no request is matched with a node that has been silent
    for longer than the maximum age plus one period of the loop (and the delay of
    its wake-up); and a node is never dropped by the loop before the maximum age
    has passed since its last sign of life, whatever else happens to the registry
    in between. *)
Theorem registry_follows_heartbeats `{MapOrder} delay maxAge start evs now :
  0 <= maxAge -> timely delay start start evs now ->
  (forall req l node, FindMatch req (eviction_run maxAge evs (true, NewNodeRegistry)).2 = Ok l -> node ∈ l ->
     now - (maxAge + EvictionPeriod + delay) <= LastHeartbeat node <= now) /\
  (forall before t op after id, evs = before ++ Call t op :: after ->
     beats (eviction_run maxAge before (true, NewNodeRegistry)).2 id op -> Forall (spares id (t + maxAge)) after ->
     exists node, Get id (eviction_run maxAge evs (true, NewNodeRegistry)).2 = Some node /\ t <= LastHeartbeat node).
Proof.
  intros Hage Ht. split.
  - intros req l node Hf Hin. apply (FindMatch_elem _ _ _ _ Hf) in Hin as [_ [id Hid]].
    revert id node Hid. apply (eviction_heard _ _ Hage _ start start); [lia| |done].
    intros id n. unfold NewNodeRegistry. by rewrite lookup_empty.
  - intros before t op after id -> Hbeat Hsp. destruct (timely_app _ maxAge _ _ _ _ _ Ht) as [(last' & clock' & Hc & Hs & Hl) Hrun].
    unfold Get, eviction_run. rewrite foldl_app. specialize (Hrun NewNodeRegistry). unfold eviction_run in Hrun, Hbeat.
    destruct (foldl _ _ before) as [b r]. simpl in Hrun. subst b. simpl.
    apply (eviction_since delay _ t id _ last' t now); [lia| |done..].
    destruct op; simpl in Hbeat, Hs |- *; try done.
    + exists entry. split; [|lia]. subst id. unfold Register. by rewrite lookup_insert_eq.
    + destruct Hbeat as [-> [n Hn]]. unfold Heartbeat. rewrite Hn. simpl.
      eexists. rewrite lookup_insert_eq. split; [done|]. cbn. lia.
Qed.

(** A node that registered at second 10 and is heard of at second 200 is matched at
    second 499 and gone at second 540, when the loop has woken every 30 seconds. *)
Definition beat_entry (t : Z) : NodeEntry := zero_entry <| NodeID := "n1" |> <| Status := online |> <| LastHeartbeat := t |>.
Definition ticks (from : Z) (n : nat) : list RegEvent :=
  (fun i => Woken (Tick ((from + 30 * Z.of_nat i) * Second))) <$> seq 0 n.
Definition two_beats : list RegEvent :=
  [Call (10 * Second) (OpRegister (beat_entry (10 * Second)))] ++ ticks 30 6 ++
  [Call (200 * Second) (OpHeartbeat (200 * Second) "n1")] ++ ticks 210 10.

Lemma registry_follows_heartbeats_witness :
  timely 0 0 0 two_beats (499 * Second) /\
  (exists node, Get "n1" (eviction_run (5 * Minute) two_beats (true, NewNodeRegistry)).2 = Some node /\ 200 * Second <= LastHeartbeat node).
Proof.
  assert (Ht : timely 0 0 0 two_beats (499 * Second)) by (vm_compute; intuition discriminate).
  split; [exact Ht|].
  apply (proj2 (registry_follows_heartbeats (H := default_order) 0 (5 * Minute) 0 two_beats (499 * Second) ltac:(discriminate) Ht))
    with (before := [Call (10 * Second) (OpRegister (beat_entry (10 * Second)))] ++ ticks 30 6)
         (op := OpHeartbeat (200 * Second) "n1") (after := ticks 210 10).
  - reflexivity.
  - split; [reflexivity|]. vm_compute. eauto.
  - repeat constructor; vm_compute; discriminate.
Defined.

Example silent_node_goes : Get "n1" (eviction_run (5 * Minute) (two_beats ++ ticks 510 2) (true, NewNodeRegistry)).2 = None.
Proof. vm_compute. reflexivity. Qed.
