(* ===== verification/System.v ===== *)
(** The system: every modelled entry point (the job API, the node API, the
    protocol adapter, the portal and the background loops) as one request type,
    and what holds of the database however requests are interleaved. *)
From Stdlib Require Import Ascii String.
From S2P Require Import Prelude Float64 Workload Sounding Registry Scheduler Database Lifecycle.
From S2P Require Import Effects Encoding Sha256 Token Allowlist Orchestrator Samples OrchestratorProofs Submission Reroute Dispatch DispatchProofs Http NodesApi NodesApiProofs Adapter AdapterProofs Portal PortalProofs.
From S2P Require Import Session SoundingStore DashboardProofs PortalPages PortalPagesProofs Gateway GatewayProofs.
Import Types.
Local Open Scope string_scope.
Local Open Scope list_scope.
Local Open Scope Z_scope.

(** ** The outside world *)

(** What the handlers call outside the program.  The laws say that such a call
    does not write to the database itself: while it lasts, only the others do. *)
Class Externals := {
  FeeDecl : Type; FeeTerms : Type; fee_terms : FeeDecl -> FeeTerms;
  ext_fees : string -> M FeeDecl;
  ext_sign : Assignment FeeTerms -> string;
  ext_protocol : Protocol;
  ext_spire_entry : string -> string -> string -> M unit;
  ext_spire_token : M string;
  ext_rand : Z -> M string;
  ext_refund : string -> Z -> M unit;
  ext_payout : string -> Z -> string -> M unit;
  ext_marshal : JobSpec -> string;
  ext_collate : string -> string -> bool;
  ext_avg : PgAvg;
  ext_columns : Columns;
  ext_wire_request : Wire SubmitJobRequest;
  ext_wire_response : Wire SubmitJobResponse;
  ext_fees_safe : forall c, safe (ext_fees c);
  ext_spire_entry_safe : forall p i s, safe (ext_spire_entry p i s);
  ext_spire_token_safe : safe ext_spire_token;
  ext_rand_safe : forall n, safe (ext_rand n);
  ext_refund_safe : forall p a, safe (ext_refund p a);
  ext_payout_safe : forall p a k, safe (ext_payout p a k) }.

#[export] Hint Resolve ext_fees_safe ext_spire_entry_safe ext_spire_token_safe ext_rand_safe
  ext_refund_safe ext_payout_safe : safe.

(** ** Requests *)

Inductive Request :=
| ReqSubmit (ctx : option string) (r : SubmitJobRequest)
| ReqRerouteTick
| ReqUptimeTick
| ReqPayoutTick
| ReqRegister (header : string) (b : Body registerNodeRequest)
| ReqClaim (b : Body claimNodeRequest)
| ReqNode (ctx : Ctx) (c : NodeCall)
| ReqSigned (ctx : Ctx) (c : SignedCall)
| ReqPollV0 (ctx : Ctx) (nodeID : string)
| ReqPortalSubmit (user : string) (f : SubmitForm)
| ReqPortal (user : string) (c : PortalCall)
| ReqResolve (user disputeID : string) (pct : option Z)
| ReqReview (user disputeID : string)
| ReqOptOut (user : string) (b : Body optOutPostRequest)
| ReqProfile (user : string) (f : ProfileForm)
| ReqNodeToken (claims : SessionClaims).

Section System.
Context `{MapOrder} `{Externals} (o : Orchestrator) (register_secret spire_selector : string).

Definition ignore {A} (m : M A) : M unit := _ ← try m; mret tt.

Definition serve (r : Request) : M unit :=
  let submit := SubmitJob ext_marshal ext_collate o in
  match r with
  | ReqSubmit ctx r => ignore (submit ctx r)
  | ReqRerouteTick => ignore (reroute_tick ext_collate o)
  | ReqUptimeTick => ignore scoreUptime
  | ReqPayoutTick => ignore (payout_tick ext_payout)
  | ReqRegister h b => ignore (handleRegisterNode register_secret h b)
  | ReqClaim b => ignore (handleClaimNode ext_spire_entry ext_rand spire_selector b)
  | ReqNode ctx c => ignore (node_call ext_collate ctx c)
  | ReqSigned ctx c => ignore (signed_call ext_protocol ctx c)
  | ReqPollV0 ctx n =>
      ignore (PollJobs ext_protocol FeeDecl FeeTerms fee_terms ext_fees "coordinator" ext_sign ctx n)
  | ReqPortalSubmit u f => ignore (handleSubmitJob
      (@client_SubmitJob ext_wire_request ext_wire_response (submit None)) u f)
  | ReqPortal u c => ignore (portal_call u c)
  | ReqResolve u d p => ignore (handleDisputeResolve ext_refund u d p)
  | ReqReview u d => ignore (handleDisputeReview u d)
  | ReqOptOut u b => ignore (handlePostOptOut u b)
  | ReqProfile u f => ignore (handleAddProfile u f)
  | ReqNodeToken c => ignore (handleGenerateNodeToken ext_spire_token ext_rand
      (@buildDashboardData _ ext_avg ext_columns c) (sc_UserID c))
  end.

Definition serve_all (rs : list Request) : M unit := forM rs serve.

Lemma safe_ignore {A} (m : M A) : safe m -> safe (ignore m).
Proof. intros Hm. apply safe_bind; [by apply safe_try|intros ?; apply safe_ret]. Qed.

Lemma safe_code_of {A} (m : Http.H A) : safe m -> safe (code_of m).
Proof. intros Hm. apply safe_hbind; [done|intros ?; apply safe_hret]. Qed.

Lemma safe_node_call collate ctx c : safe (node_call collate ctx c).
Proof. destruct c; simpl; try apply safe_code_of; eauto with safe. Qed.

Lemma safe_signed_call P ctx c : safe (signed_call P ctx c).
Proof. destruct c; simpl; eauto with safe. Qed.

Lemma safe_portal_call u c : safe (portal_call u c).
Proof. destruct c; simpl; try apply safe_code_of; eauto with safe. Qed.

Lemma safe_serve r : safe (serve r).
Proof.
  destruct r; simpl; apply safe_ignore;
    eauto using safe_node_call, safe_signed_call, safe_portal_call, safe_PollJobs,
      safe_payout_tick with safe.
Qed.

Lemma safe_serve_all rs : safe (serve_all rs).
Proof. apply safe_forM. apply safe_serve. Qed.

(** Between two statements the other processes serve requests of their own: the
    event's effect on any database is that of some sequence of requests. *)
Definition served (e : Event) : Prop := forall now d, exists rs reg sink uuids r w',
  serve_all rs (mkWorld d reg sink now [] uuids None) = (r, w') /\
  w_now w' = now /\ ev_db e now d = w_db w'.

Lemma served_env es : Forall served es -> env_ok es.
Proof.
  intros Hes. eapply Forall_impl; [exact Hes|]. intros e He now d. destruct (He now d) as (rs & reg & sink & u & r & w' & Hr & Hn & ->).
  destruct (safe_serve_all rs (mkWorld d reg sink now [] u None) r w') as (_ & _ & Hst & _);
    [apply Forall_nil_2|done|done|done|]. unfold st in Hst. by rewrite Hn in Hst.
Qed.

Lemma serve_all_steps rs w r w' :
  Forall served (w_events w) -> w_tx w = None -> serve_all rs w = (r, w') ->
  rtc step (st w) (st w').
Proof.
  intros He Ht Hr. apply (safe_serve_all rs w r w'); auto. by apply served_env.
Qed.

End System.

(** ** The database invariant *)

(** C1 The database is consistent whatever the requests and however they
    interleave: start from a database without jobs, serve any sequence of requests,
    each statement of which may be preceded by any requests of other processes and
    may fail or lose its answer; every stored job then satisfies [job_inv] (a valid
    type, never a half-submitted or unknown status, print-only and compute-only
    statuses kept apart, a printer and a deadline while awaiting confirmation, the
    timestamps its status calls for and none in the future), every metering row
    belongs to a completed job with the fee that is the difference of its amounts,
    every dispute is about a failed job and a job has at most one active dispute. *)
Theorem system_invariant `{MapOrder} `{Externals} o secret selector rs w r w' :
  Forall (served o secret selector) (w_events w) -> w_tx w = None ->
  jobs (w_db w) = ∅ -> job_metering (w_db w) = ∅ -> disputes (w_db w) = ∅ ->
  serve_all o secret selector rs w = (r, w') -> db_inv (st w').
Proof.
  intros He Ht Hj Hm Hd Hr. eapply db_inv_steps; [by eapply serve_all_steps|].
  by apply db_inv_empty.
Qed.

(** ** The history of a job *)

Definition edge (x y : job_status) : Prop := y ∈ edges x.

Definition follows (j j' : JobRow) : Prop := rtc edge (j_status j) (j_status j').

#[export] Instance follows_preorder : PreOrder follows.
Proof. split; [intros j; apply rtc_refl|]. unfold follows. intros j1 j2 j3 ??. by etrans. Qed.

Lemma steps_follow s s' id j :
  rtc step s s' -> jobs s.1 !! id = Some j ->
  exists j', jobs s'.1 !! id = Some j' /\ follows j j'.
Proof.
  apply steps_job; [apply _|]. intros now d j0 j' Hs. unfold follows. apply job_step_edge in Hs as [->|Hs];
    [apply rtc_refl|by apply rtc_once].
Qed.

(** C2 A job's history is a walk in the transition graph: whatever requests are
    served and interleaved, a stored job is never lost, what the consumer
    specified (owner, type, constraints, resources, image, price, hash of the
    specification) never changes, its status moves only along [edges], and once
    completed, failed or delivered the row is frozen, except that the node it ran
    on may be deleted. *)
Theorem job_history `{MapOrder} `{Externals} o secret selector rs w r w' id j :
  Forall (served o secret selector) (w_events w) -> w_tx w = None ->
  serve_all o secret selector rs w = (r, w') -> jobs (w_db w) !! id = Some j ->
  exists j', jobs (w_db w') !! id = Some j' /\ same_spec j j' /\
    rtc edge (j_status j) (j_status j') /\
    (terminal (j_status j) = true -> j' = j \/ j' = j <| j_node_id := None |>).
Proof.
  intros He Ht Hr Hj. pose proof (serve_all_steps _ _ _ _ _ _ _ He Ht Hr) as Hst.
  destruct (steps_spec _ _ _ _ Hst Hj) as (j' & Hj' & Hs). exists j'. split; [done|]. split; [done|].
  split.
  - destruct (steps_follow _ _ _ _ Hst Hj) as (j2 & Hj2 & Hf). by simplify_eq.
  - intros Hterm. destruct (steps_frozen _ _ _ _ Hst Hj Hterm) as (j3 & Hj3 & Hf). by simplify_eq.
Qed.

(** ** A concrete system *)

Definition no_fees (_ : string) : M Z := fail ErrNoRows.

#[export] Instance sample_externals : Externals := {|
  FeeDecl := Z; FeeTerms := Z; fee_terms := fun x => x; ext_fees := no_fees;
  ext_sign := fun _ => "sig"; ext_protocol := sample_protocol;
  ext_spire_entry := spire_ok; ext_spire_token := mret "Token: t"; ext_rand := rand_zeros;
  ext_refund := fun _ _ => mret tt; ext_payout := fun _ _ _ => mret tt;
  ext_marshal := sample_marshal; ext_collate := sample_collate; ext_avg := sample_avg; ext_columns := sample_columns;
  ext_wire_request := plain_wire _; ext_wire_response := plain_wire _;
  ext_fees_safe := fun _ => safe_fail ErrNoRows;
  ext_spire_entry_safe := fun _ _ _ => safe_ret tt;
  ext_spire_token_safe := safe_ret "Token: t";
  ext_rand_safe := fun n => safe_ret (string_of (replicate (Z.to_nat n) 0));
  ext_refund_safe := fun _ _ => safe_ret tt;
  ext_payout_safe := fun _ _ _ => safe_ret tt |}.

(** A compute job from submission to completion. *)
Definition sample_day : list Request :=
  [ReqSubmit None sample_request; ReqNode (as_node "n1") (CallGetJobs "n1");
   ReqNode (as_node "n1") (CallStarted "job-0");
   ReqNode (as_node "n1") (CallComplete "job-0" (Decoded (mkCompleteJob (Some 0) "" false)));
   ReqPayoutTick].

Definition sample_serve (rs : list Request) (w : World) : result Error unit * World :=
  @serve_all default_order sample_externals sample_orchestrator "" "" rs w.

Lemma system_invariant_witness :
  j_status <$> jobs (w_db (sample_serve sample_day sample_world).2) !! "job-0" = Some completed /\
  db_inv (st (sample_serve sample_day sample_world).2).
Proof.
  split; [vm_compute; reflexivity|].
  apply (@system_invariant default_order sample_externals sample_orchestrator "" "" sample_day
    sample_world (sample_serve sample_day sample_world).1).
  - apply Forall_nil_2.
  - reflexivity.
  - reflexivity.
  - reflexivity.
  - reflexivity.
  - apply surjective_pairing.
Defined.

Lemma job_history_witness :
  let w := sample_world_with (sample_db_with (sample_job MarketplaceBatchCompute completed)) [] in
  exists j', jobs (w_db (sample_serve sample_day w).2) !! "job" = Some j' /\ j_status j' = completed.
Proof.
  cbv zeta. set (w := sample_world_with _ []).
  destruct (@job_history default_order sample_externals sample_orchestrator "" "" sample_day w
    (sample_serve sample_day w).1 (sample_serve sample_day w).2 "job"
    (sample_job MarketplaceBatchCompute completed)) as (j' & Hj' & _ & _ & Hf).
  - apply Forall_nil_2.
  - reflexivity.
  - apply surjective_pairing.
  - vm_compute. reflexivity.
  - exists j'. split; [exact Hj'|]. destruct (Hf eq_refl) as [->| ->]; reflexivity.
Defined.
